(* ===== verification/_CoqProject ===== *)
-Q . S2P
Prelude.v
GoStrings.v
GoPath.v
Types.v
Effects.v
Api.v
Driver.v
Samples.v
DriverProps.v
Workload.v
WorkloadProps.v
CacheClient.v
ActiveModel.v
Protocol.v
ActiveModelProps.v
Handover.v
Liveness.v
ModelCtl.v
BackendCtl.v
OverlayCtl.v
Admission.v
Migration.v
CacheFs.v
CacheManager.v
CacheSamples.v
CacheManagerProps.v
CacheSafety.v
CacheArtifacts.v
Json.v
ProxyApi.v
ProxyCatalog.v
ProxyRuntime.v
ProxySwitch.v
ProxyServe.v
ProxyMetrics.v
ProxyInvariant.v
ProxyContract.v
ProxyPool.v
ProxyPoolProps.v
ProxySamples.v
ProxyTheorems.v
ProxyProps.v
ProxyMain.v
Hermes.v
HermesProps.v
GenConfig.v
Manager.v
GoHeap.v
GoHeapProps.v
DeepCopy.v
DeepCopyProps.v
Metrics.v
MetricsProps.v
OfflineStart.v
EndToEnd.v
EndToEndProps.v
