(* ===== verification/Prelude.v ===== *)
(** * A verification library for llm-operator

    The operator serves large language models on a Kubernetes cluster whose GPUs
    hold one model at a time.  This library translates its Go sources into Rocq
    definitions that evaluate, and proves the properties that make them correct.
    Paths below are relative to the repository root.

    ** The program

    - The custom resources ([api/cogito.dev/v1alpha1], [v1beta1]): [LLMModel] says
      how a model is served, [LLMBackend] names or describes a runtime Deployment,
      the singleton [LLMActiveModel] asks for one model, [LLMModelOverlay] adds
      request defaults.
    - The runtime drivers ([internal/backend/driver.go]): vLLM, llama.cpp and SGLang
      behind one interface that validates a model, renders its arguments, describes
      its cached artifact and reads the runtime's health and metrics.
    - Four reconcilers ([internal/controller]).  The active-model reconciler carries
      out transitions: announce, validate, scale the previous backend to zero and
      wait, ask the cache-manager for the artifact, patch the target Deployment, wait
      for rollout and health, publish the statuses.  The backend reconciler keeps the
      Deployment and Service of a workload backend and reflects their state; the
      model and overlay reconcilers validate.  They meet in the Deployments (the
      backend reconciler must not undo a transition's patch), in the statuses, and in
      finalizers that keep what is being served.
    - The cache manager ([cmd/llm-proxy/cache_manager.go]), a sidecar that owns the
      hot cache, with its client in the operator ([internal/cache/client.go]).
    - The proxy ([cmd/llm-proxy/main.go]) is what clients talk to.  It reads models and
      overlays into a registry, lists them, applies an overlay to an inference request,
      asks the operator for the request's model by patching the [LLMActiveModel], waits
      until that is Stable, finds the Deployment that serves it and forwards.  Requests,
      watches, the cache sweep and the discovery of capabilities run as goroutines over
      one state; concurrent requests for a model share one switch.  The same binary
      writes Hermes configurations and model manifests.
    - Admission webhooks ([internal/admission]), the version conversion, the manager
      binary ([cmd/manager]), the migration from ConfigMaps ([internal/migration]) and
      its command ([hack/migration]).

    ** How it is modelled

    Go strings are byte strings, [int64] and [int32] are [Z] with the wrap-around
    written out ([int64]), possibly nil slices and maps are [option]s where the code
    can tell nil from empty, maps are [gmap]s.  Fallible pure code returns [result];
    an [error] keeps its text and the class that [errors.Is] and [apierrors] see.

    Code that talks to services is a [prog] ([Effects]): a tree of requests, continued
    for every reply.  The API server, the runtimes' HTTP endpoints and the clock are
    the requests [kev] of [Api]; the file system, the commands and the goroutines of
    the cache manager are the requests [fev] of [CacheFs]; the services and the critical
    sections of the proxy are the requests [pev] of [ProxyApi].  A service is a [handler],
    a parameter of every theorem; [run] gives the trace of requests and replies.  A
    theorem that quantifies over handlers therefore speaks about every interleaving
    with other controllers, users and failures.  Codecs and hashes the sources only
    call are fields of the records [golib], [codec], [proxylib] and [hermeslib];
    apimachinery's accessors for dynamic objects are [nested], float64 is [floatlib], the
    Prometheus client is [promlib] and the deep copies of Kubernetes' types are [k8slib].
    What a theorem needs of them is a named hypothesis ([model_codec] and the like) or a
    class ([prom_ok], [k8s_ok]), met by concrete instances.

    The proxy is also modelled as a whole: [ProxyPool] is an open system in which tasks
    arrive at any time and goroutines take steps in any order over the shared state and
    the table of switches; [reach] is its set of reachable states.  [EndToEnd] puts it
    beside any number of the operator's reconciles and of users' edits, over one API
    server that keeps every version of the LLMActiveModels and may answer a read with any
    of them; [sys] is that system's step relation.  [OfflineStart] lets the cache manager
    answer the operator's requests.

    The generated deep copies are about sharing, so there values live on a heap
    ([GoHeap]): slices are windows of arrays, maps and pointees are cells, and
    [represents h t v x] says that [v] denotes the tree [x] of type [t] in the heap [h].

    Safety properties of runs are proved in a rely-guarantee logic: a [contract] says
    what replies may be relied on, which requests are permitted in which ghost state,
    and how the ghost state follows the trace; [rg] is its weakest precondition and
    [rg_run] its soundness.  Each step of a handler has one [rg] lemma.  Where a property is
    about what happened between two points of a run, the ghost state is the trace itself,
    and [does] says which requests and replies a segment consists of.  For the proxy
    the contract is per goroutine ([ProxyContract]); [ProxyPoolProps] derives from it an
    invariant of every reachable state, by induction on steps.

    ** Files

    - [Prelude]: results and errors, machine integers, nil-able slices and maps,
      [sort.Slice], list lemmas, the tactics [ok_inv], [split_match],
      [eval_decisions], the hint database [golib].
    - [GoStrings], [GoPath]: the parts of [strings], [strconv], [fmt], [path] and
      [path/filepath] the sources use, with their characterisations; [clean] and
      [segments] carry the confinement arguments.
    - [Types]: the resources and the Kubernetes types they embed.
    - [Effects]: programs, runs, contracts.  [Api]: requests, trace readers, and the
      condition upsert shared by the four status types.
    - [Driver], [DriverProps]: [internal/backend/driver.go].
    - [Workload], [WorkloadProps]: [internal/controller/backend_workload.go] and the
      Deployment patching of the active-model reconciler ([activateDeployment],
      [applyChatTemplate], [deploymentMatchesModel]).
    - [CacheClient]: [internal/cache/client.go].
    - [ActiveModel]: the whole of [llmactivemodel_controller.go]; [executeTransition]
      is the composition of its stages.  [Protocol]: the transition contract and the
      [rg] lemma of each stage.  [ActiveModelProps], [Handover], [Liveness]: its theorems.
    - [ModelCtl], [BackendCtl], [OverlayCtl]: the other reconcilers with their
      theorems.
    - [Admission]: the validators, module [V1beta1] with the conversion, the canary
      flag.  [Migration]: [internal/migration/configmap.go].  [Manager]: the set-up that
      [cmd/manager/main.go] makes of its flags, and the migration command.
    - [CacheFs], [CacheManager]: the cache manager.  [CacheManagerProps],
      [CacheSafety], [CacheArtifacts]: its theorems.
    - [Json]: decoded JSON and YAML, and [mergeDefaults].
    - [ProxyApi]: the proxy's data, shared state and requests.  [ProxyCatalog]:
      [parseLLMModel], [parseLLMModelOverlay], [loadCRDRegistry].  [ProxyRuntime]: launch
      arguments, backend and Hugging Face observations, the status ConfigMap.
      [ProxySwitch]: [refresh], [syncActiveDeployment], [ensureActive],
      [coalescedOperatorTransition] and the wait for the operator.  [ProxyServe]: the
      HTTP handlers, [inference] above all.  [ProxyMetrics]: the metrics page, [route_of]
      and [serve] (the mux of [main]), [start] (its configuration).  [ProxyMain]: the choice
      of a subcommand and the watch loops that are started.
    - [ProxyInvariant], [ProxyContract], [ProxyPool], [ProxyPoolProps], [ProxyTheorems]:
      the system of goroutines and its theorems.  [ProxyProps]: theorems on single
      operations.
    - [Hermes], [HermesProps]: the commands sync-hermes and bootstrap-hermes.
      [GenConfig]: generate-config.
    - [GoHeap], [GoHeapProps]: Go's memory and the contract [deep] of a copying function.
      [DeepCopy], [DeepCopyProps]: both [zz_generated.deepcopy.go], one definition per
      method.
    - [Metrics], [MetricsProps]: [internal/metrics/metrics.go] and the collectors of the
      proxy.
    - [OfflineStart]: the operator with the cache manager.  [EndToEnd], [EndToEndProps]:
      the operator with the proxy.
    - [Samples], [CacheSamples], [ProxySamples]: concrete resources, a concrete disk and
      an executable scheduler of the proxy, at which the witnesses evaluate the
      definitions.

    ** What is shown

    - End to end: a request is forwarded only when some reconcile saw its model's runtime
      rolled out and healthy and then published it ([forwarded_model_was_served]); an
      offline runtime is started only after the cache manager brought its artifact in
      ([offline_start_has_bytes]).
    - Transitions: every change a transition makes follows a fresh re-read that still
      asks for it ([acts_only_while_current]); the target is activated only once the
      previous backend, whenever the transition's own lookup identified it, was seen with
      replica left after it was scaled to zero ([previous_down_before_activation]); Stable is written only for a target seen rolled out and
      healthy; an offline runtime starts only with a hot snapshot; the result of a
      reconcile tells what was recorded, and so do the operator's counters
      ([counters_tell_transitions]); blocked reconciles change nothing; a failed
      generation is not announced again; the owner of a namespace is unique.
    - Progress: against services that cooperate a transition completes, for an offline
      runtime also when the artifact is already hot ([transition_completes]); against
      services whose clock ends the transition context at its deadline, and otherwise
      arbitrary, a transition waits at most a bounded number of ticks, whatever fuel its
      loops have ([transition_waits_bounded]).
    - Deployments: a patch does what the model asks and nothing else, matching
      Deployments are left alone, and the backend reconciler preserves what a
      transition wrote, as long as the user's template keeps off the names reserved for
      models; admission does not enforce that ([reserved_volume_admitted]).
    - Statuses and finalizers of models, backends and overlays are sound.
    - Every generated deep copy is equal to its original and independent of it
      ([deep_copies_are_independent]), and nil stays nil behind an interface.
    - The cache manager, over whole histories of requests on a disk nobody else writes
      markers to, deletes only in its own directories, never the hot root and never in
      the cold store; it marks an artifact complete only after the very files of its
      request were downloaded and copied into place, or every entry of its manifest was
      placed; it replaces cold artifacts as a whole, and evicts by its thresholds, oldest first; which of the
      drivers' requests it accepts.
    - The proxy, in every interleaving: a request is forwarded only after its model was
      read as Stable ([forwards_only_when_stable]); a model has at most one switch in
      flight ([switch_single_flight]), and those who share it get its leader's result;
      some step is always possible, so no goroutine waits for a switch nobody leads
      ([proxy_never_stuck]); the shared state stays well formed.
    - The proxy's operations: the wait for the operator returns the first verdict seen;
      the active backend, the loaded catalogue, the list of models and the request an
      overlay produces are characterised exactly.
    - Hermes: a sync changes only the entries it owns, and the chosen model only if the
      user has not chosen another provider; a bootstrap only what the user has not chosen;
      both are idempotent.
    - The manager with default flags installs a reconciler that mutates nothing; the
      names of generated manifests are well formed.
    - Drivers, admission, conversion, migration: exact characterisations of what is
      accepted, round trips, order independence of map and list iteration, and what
      [parseSize] returns for every count and unit, the sizes that overflow included.

    ** Bounds

    The polling loops of a transition have no bound in the source: the deadline of the
    transition context ends them.  [executeTransition_for n] gives them [n] rounds of fuel
    and every tick the context it waits on; [executeTransition] takes [rounds r], one more
    than the transition timeout divided by the probe interval.  [transition_waits_bounded]
    shows that this is enough: if the clock ends contexts at their deadlines, larger fuel
    gives the same run.
    [copyTree_to] descends at most [pathMax] = 4096 levels, since every level lengthens
    the path and the kernel refuses paths of PATH_MAX bytes; the scanners of labels and
    white space get the length of their input as fuel, and consume at least one byte
    per step; so do the slugs of manifests and the field splitter of the metrics page.
    The proxy's wait polls as often as its deadline allows, which depends on the answers'
    latencies: the request [PRounds] returns that number, and theorems hold for each.
    [denotes], which evaluates [represents] on a sample heap, takes a depth as fuel; it
    only serves the witnesses and is sound whatever the fuel ([denotes_sound]).

    ** What is not modelled

    Calls into libraries: the registration of controllers, webhooks, flags and schemes,
    and the HTTP server with its reverse proxy, which appears as the request [PForward].
    Flag parsing: commands start from parsed flags.  Endless watch and ticker loops: which
    are started is modelled, and one round of each is a task.  The construction of HTTP
    clients with their timeouts.  Log lines.  Outside [DeepCopy] values are immutable, so
    aliasing between Go values is not seen there.  Goroutines of the cache manager appear
    as the request that starts them, and the archive they run as a run of its own.  Data
    races: critical sections are atomic, and reads the proxy makes outside its locks are
    taken as if they were inside. *)

From Stdlib Require Export ZArith Lia Sorting.Sorted.
From stdpp Require Export prelude gmap strings pretty.

#[global] Set Default Proof Using "Type".
#[global] Open Scope Z_scope.

(** ** Go errors

    A Go [error] is its rendered text together with the sentinel or API status
    class that [errors.Is], [apierrors.IsNotFound] and friends can observe.
    Wrapping with [%w] changes the text and keeps the class. *)

Inductive errclass :=
| ErrOther
| ErrNotFound
| ErrForbidden
| ErrTransitionChanged
| ErrMutationsDisabled
| ErrBackendUnavailable
| ErrDeadline
| ErrCanceled.

#[export] Instance errclass_eq_dec : EqDecision errclass.
Proof. solve_decision. Defined.

Record error := mkError { err_msg : string; err_class : errclass }.

#[export] Instance error_eq_dec : EqDecision error.
Proof. solve_decision. Defined.

(** [errors.New] / [fmt.Errorf] without [%w]. *)
Definition errorf (msg : string) : error := mkError msg ErrOther.
(** [fmt.Errorf("<prefix>%w", e)]. *)
Definition wrap (pre : string) (e : error) : error :=
  mkError (pre +:+ err_msg e) (err_class e).
(** [errors.Is(e, sentinel)] on the sentinel's class. *)
Definition err_is (c : errclass) (e : error) : bool := bool_decide (err_class e = c).

Lemma err_is_wrap c pre e : err_is c (wrap pre e) = err_is c e.
Proof. done. Qed.

(** Results of fallible Go calls: [(value, nil)] or [(_, err)]. *)
Inductive result (A : Type) :=
| Ok (a : A)
| Err (e : error).
Arguments Ok {A} a.
Arguments Err {A} e.

Definition rbind {A B} (m : result A) (f : A -> result B) : result B :=
  match m with Ok a => f a | Err e => Err e end.
Definition is_ok {A} (m : result A) : bool := match m with Ok _ => true | Err _ => false end.

Definition is_some {A} (o : option A) : bool := match o with Some _ => true | None => false end.

Declare Scope go_scope.
Delimit Scope go_scope with go.
#[global] Open Scope go_scope.
Notation "'try' x := m 'in' k" := (rbind m (fun x => k))
  (at level 10, x pattern, m at level 100, k at level 200) : go_scope.
Notation "'guard' b 'else' e 'in' k" := (if b then k else Err e)
  (at level 10, b at level 100, e at level 100, k at level 200) : go_scope.

Lemma rbind_ok {A B} (m : result A) (f : A -> result B) b :
  rbind m f = Ok b <-> exists a, m = Ok a /\ f a = Ok b.
Proof. destruct m; simpl; naive_solver. Qed.

Lemma rbind_err {A B} (m : result A) (f : A -> result B) e :
  rbind m f = Err e <-> m = Err e \/ exists a, m = Ok a /\ f a = Err e.
Proof. destruct m; simpl; naive_solver. Qed.

(** ** Machine integers

    Go's [int64] and [int32] conversions wrap around. *)

Definition wrap_signed (w : Z) (x : Z) : Z :=
  (x + 2 ^ (w - 1)) `mod` 2 ^ w - 2 ^ (w - 1).
Definition int64 (x : Z) : Z := wrap_signed 64 x.
Definition int32 (x : Z) : Z := wrap_signed 32 x.
Definition in_int64 (x : Z) : Prop := - 2 ^ 63 <= x < 2 ^ 63.
Definition in_int32 (x : Z) : Prop := - 2 ^ 31 <= x < 2 ^ 31.

Lemma wrap_signed_id w x : 0 < w -> - 2 ^ (w - 1) <= x < 2 ^ (w - 1) -> wrap_signed w x = x.
Proof.
  intros Hw Hx. unfold wrap_signed.
  assert (2 ^ w = 2 * 2 ^ (w - 1)) as Hp
    by (rewrite <- Z.pow_succ_r by lia; f_equal; lia).
  rewrite Z.mod_small; lia.
Qed.

Lemma wrap_signed_range w x : 0 < w -> - 2 ^ (w - 1) <= wrap_signed w x < 2 ^ (w - 1).
Proof.
  intros Hw. unfold wrap_signed.
  assert (2 ^ w = 2 * 2 ^ (w - 1)) as Hp
    by (rewrite <- Z.pow_succ_r by lia; f_equal; lia).
  assert (0 < 2 ^ (w - 1)) by (apply Z.pow_pos_nonneg; lia).
  pose proof (Z.mod_pos_bound (x + 2 ^ (w - 1)) (2 ^ w)). lia.
Qed.

Lemma int64_id x : in_int64 x -> int64 x = x.
Proof. intros Hx. apply wrap_signed_id; [lia | exact Hx]. Qed.
Lemma int64_range x : in_int64 (int64 x).
Proof. exact (wrap_signed_range 64 x ltac:(lia)). Qed.
Lemma int32_id x : in_int32 x -> int32 x = x.
Proof. intros Hx. apply wrap_signed_id; [lia | exact Hx]. Qed.

(** ** Go slices and maps that may be nil

    [reflect.DeepEqual] distinguishes a nil slice or map from an empty one, so
    where the code compares with it the distinction is kept: [None] is nil. *)

Abbreviation slice A := (option (list A)).
Definition elems {A} (s : slice A) : list A := default [] s.
(** [append(s, xs...)]. *)
Definition append {A} (s : slice A) (xs : list A) : slice A :=
  match s, xs with
  | None, [] => None
  | _, _ => Some (elems s ++ xs)
  end.
(** The in-place filter idiom: [out := s[:0]; for ... { out = append(out, x) }]. *)
Definition filter_in_place {A} (f : A -> bool) (s : slice A) : slice A :=
  match s with None => None | Some l => Some (List.filter f l) end.

Lemma elems_append {A} (s : slice A) xs : elems (append s xs) = elems s ++ xs.
Proof. destruct s, xs; simpl; rewrite ?app_nil_r; done. Qed.
Lemma elems_filter_in_place {A} (f : A -> bool) s :
  elems (filter_in_place f s) = List.filter f (elems s).
Proof. by destruct s. Qed.

Abbreviation strmap := (gmap string string).
Abbreviation nilmap := (option strmap).
(** Indexing a possibly nil Go map yields the zero value for a missing key. *)
Definition mget (m : nilmap) (k : string) : string := default "" (m ≫= lookup k).
Definition mlookup (m : nilmap) (k : string) : option string := m ≫= lookup k.
Lemma mget_Some (m : strmap) k : mget (Some m) k = default "" (m !! k).
Proof. done. Qed.
(** Iterating a nil map yields nothing; [make] gives an empty map. *)
Definition mentries (m : nilmap) : strmap := default ∅ m.

(** ** Lists *)

Section lists.
Context {A : Type}.

Lemma filter_all (f : A -> bool) l :
  Forall (fun x => f x = true) l -> List.filter f l = l.
Proof. induction 1 as [|x l Hx _ IH]; simpl; [done | by rewrite Hx, IH]. Qed.

Lemma filter_idem (f : A -> bool) l : List.filter f (List.filter f l) = List.filter f l.
Proof.
  induction l as [|x l IH]; simpl; [done|].
  destruct (f x) eqn:E; simpl; rewrite ?E, ?IH; done.
Qed.

Lemma filter_In_forall (f : A -> bool) l : Forall (fun x => f x = true) (List.filter f l).
Proof. induction l as [|x l IH]; simpl; [done|]. destruct (f x) eqn:E; auto. Qed.

Lemma existsb_false_forall (f : A -> bool) l :
  existsb f l = false <-> Forall (fun x => f x = false) l.
Proof.
  induction l as [|x l IH]; simpl; [by split|].
  rewrite orb_false_iff, IH. split; [intros [??]; by constructor | by inversion 1].
Qed.

Lemma find_some_split (f : A -> bool) l x :
  List.find f l = Some x ->
  exists l1 l2, l = l1 ++ x :: l2 /\ f x = true /\ Forall (fun y => f y = false) l1.
Proof.
  induction l as [|y l IH]; simpl; [done|].
  destruct (f y) eqn:E.
  - intros [= ->]. by exists [], l.
  - intros (l1 & l2 & -> & Hx & Hl)%IH. exists (y :: l1), l2. auto.
Qed.

Lemma find_none_forall (f : A -> bool) l :
  List.find f l = None <-> Forall (fun y => f y = false) l.
Proof.
  induction l as [|y l IH]; simpl; [by split|].
  destruct (f y) eqn:E; [split; [done | inversion 1; congruence]|].
  rewrite IH. split; [by constructor | by inversion 1].
Qed.
End lists.

(** ** [sort.Slice]

    The library promises some permutation sorted by [less]; this is one of them. *)

Section sorting.
Context {A : Type} (less : A -> A -> bool).

Fixpoint insert_by (x : A) (l : list A) : list A :=
  match l with
  | [] => [x]
  | y :: l' => if less x y then x :: l else y :: insert_by x l'
  end.
Definition sort_slice (l : list A) : list A := fold_right insert_by [] l.

Lemma insert_by_perm x l : insert_by x l ≡ₚ x :: l.
Proof.
  induction l as [|y l IH]; simpl; [done|].
  destruct (less x y); [done|]. rewrite IH. constructor.
Qed.
Lemma sort_slice_perm l : sort_slice l ≡ₚ l.
Proof. induction l as [|x l IH]; simpl; [done|]. by rewrite insert_by_perm, IH. Qed.

(** A strict weak order: [less] is asymmetric and its negation transitive. *)
Context (Hasym : forall x y, less x y = true -> less y x = false).
Context (Hneg : forall x y z, less x y = false -> less y z = false -> less x z = false).

Definition sorted_by (l : list A) : Prop := StronglySorted (fun x y => less y x = false) l.

Lemma insert_by_sorted x l : sorted_by l -> sorted_by (insert_by x l).
Proof using Hasym Hneg.
  induction 1 as [|y l Hs IH Hy]; simpl; [repeat constructor|].
  destruct (less x y) eqn:E.
  - constructor; [by constructor|]. constructor; [by apply Hasym|].
    eapply Forall_impl; [exact Hy|]. intros z Hz. simpl in *. eauto.
  - constructor; [exact IH|]. rewrite insert_by_perm. by constructor.
Qed.
Lemma sort_slice_sorted l : sorted_by (sort_slice l).
Proof using Hasym Hneg. induction l as [|x l IH]; simpl; [constructor | by apply insert_by_sorted]. Qed.
End sorting.

(** ** Automation *)

(** One step of case analysis on a [match] or [if] of a hypothesis or the goal. *)
Ltac split_match :=
  match goal with
  | |- context [match ?x with _ => _ end] => destruct x eqn:?
  | H : context [match ?x with _ => _ end] |- _ => destruct x eqn:?
  end.

(** Unpack successful results: [rbind] chains, [Ok]/[Err] equations. *)
Ltac ok_inv :=
  repeat match goal with
  | H : Ok _ = Ok _ |- _ => injection H as H; try subst
  | H : Err _ = Ok _ |- _ => discriminate H
  | H : Ok _ = Err _ |- _ => discriminate H
  | H : rbind _ _ = Ok _ |- _ => apply rbind_ok in H as (? & ? & H)
  | H : (if ?b then Err _ else _) = Ok _ |- _ => destruct b eqn:?
  | H : (if ?b then _ else Err _) = Ok _ |- _ => destruct b eqn:?
  | H : _ && _ = true |- _ => apply andb_true_iff in H as [??]
  | H : _ || _ = false |- _ => apply orb_false_iff in H as [??]
  | H : negb _ = true |- _ => apply negb_true_iff in H
  | H : negb _ = false |- _ => apply negb_false_iff in H
  end.

(** Evaluate the closed decisions of the goal. *)
Ltac eval_decisions :=
  repeat match goal with
  | |- context [bool_decide ?P] =>
      let v := eval vm_compute in (bool_decide P) in
      lazymatch v with
      | true => change (bool_decide P) with true
      | false => change (bool_decide P) with false
      end
  end; cbn [negb andb orb].

Create HintDb golib.
#[export] Hint Rewrite @elems_append @elems_filter_in_place : golib.
#[export] Hint Resolve int64_range : golib.
