(* ===== verification/GoStrings.v ===== *)
(** * The parts of Go's [strings], [strconv], [fmt] and [path] the sources use

    Go strings are byte strings, which is what [string] is here.  Functions are
    named after the Go ones; each comes with the characterisation the components
    rely on. *)

From Stdlib Require Import Ascii.
From S2P Require Import Prelude.

Definition byte (n : nat) : ascii := ascii_of_nat n.
Definition bytes (l : list nat) : string :=
  foldr (fun n s => String (byte n) s) EmptyString l.
Definition dquote : ascii := byte 34.
Definition backslash : ascii := byte 92.
Definition newline : ascii := byte 10.
Definition char1 (c : ascii) : string := String c EmptyString.

Notation "a == b" := (bool_decide (a = b)) (at level 70) : go_scope.
Notation "a != b" := (negb (bool_decide (a = b))) (at level 70) : go_scope.

(** ** Append *)

Lemma sapp_nil_r (s : string) : s +:+ "" = s.
Proof. induction s as [|c s IH]; [done|]. change (String c (s +:+ "") = String c s). by rewrite IH. Qed.
Lemma sapp_cons c (s t : string) : String c s +:+ t = String c (s +:+ t).
Proof. done. Qed.
Lemma sapp_assoc (a b c : string) : (a +:+ b) +:+ c = a +:+ (b +:+ c).
Proof. induction a as [|x a IH]; [done|]. by rewrite !sapp_cons, IH. Qed.
Lemma sapp_inj_l (a b c : string) : a +:+ b = a +:+ c -> b = c.
Proof. induction a as [|x a IH]; [done|]. rewrite !sapp_cons. intros [= ?]. auto. Qed.
Lemma slength_app (a b : string) : String.length (a +:+ b) = (String.length a + String.length b)%nat.
Proof. induction a as [|x a IH]; [done|]. rewrite sapp_cons. simpl. by rewrite IH. Qed.
Lemma sapp_inj_r (a b c : string) : a +:+ c = b +:+ c -> a = b.
Proof.
  revert b; induction a as [|x a IH]; intros [|y b]; rewrite ?sapp_cons; intros H; [done| | |].
  - apply (f_equal String.length) in H. simpl in H.
    change ("" +:+ c) with c in H. rewrite slength_app in H. lia.
  - apply (f_equal String.length) in H. simpl in H.
    change ("" +:+ c) with c in H. rewrite slength_app in H. lia.
  - injection H as -> H. f_equal. by apply IH.
Qed.

(** ** Prefixes and suffixes *)

(** [strings.CutPrefix]. *)
Fixpoint cut_prefix (s p : string) {struct p} : option string :=
  match p, s with
  | EmptyString, _ => Some s
  | String a p', String b s' => if decide (a = b) then cut_prefix s' p' else None
  | String _ _, EmptyString => None
  end.
Definition has_prefix (s p : string) : bool :=
  match cut_prefix s p with Some _ => true | None => false end.
Definition trim_prefix (s p : string) : string := default s (cut_prefix s p).

(** [strings.CutSuffix]. *)
Fixpoint cut_suffix (s suf : string) : option string :=
  if decide (s = suf) then Some EmptyString
  else match s with
       | EmptyString => None
       | String c s' => String c <$> cut_suffix s' suf
       end.
Definition has_suffix (s suf : string) : bool :=
  match cut_suffix s suf with Some _ => true | None => false end.
Definition trim_suffix (s suf : string) : string := default s (cut_suffix s suf).

Lemma cut_prefix_spec s p r : cut_prefix s p = Some r <-> s = p +:+ r.
Proof.
  revert s; induction p as [|a p IH]; intros s; simpl.
  - change ("" +:+ r) with r. split; congruence.
  - destruct s as [|b s]; rewrite ?sapp_cons; [split; discriminate|].
    case_decide as E; [subst; rewrite IH; split; congruence | split; congruence].
Qed.

Lemma has_prefix_spec s p : has_prefix s p = true <-> exists r, s = p +:+ r.
Proof.
  unfold has_prefix. destruct (cut_prefix s p) as [r|] eqn:E.
  - apply cut_prefix_spec in E. naive_solver.
  - split; [done|]. intros [r Hr]. apply cut_prefix_spec in Hr. congruence.
Qed.

Lemma has_prefix_app p r : has_prefix (p +:+ r) p = true.
Proof. apply has_prefix_spec. eauto. Qed.

Lemma cut_suffix_spec s suf p : cut_suffix s suf = Some p <-> s = p +:+ suf.
Proof.
  revert p; induction s as [|c s IH]; intros p; simpl.
  - case_decide as E.
    + subst. split; [intros [= <-]; done|].
      intros H. destruct p; [done | rewrite sapp_cons in H; done].
    + split; [done|]. intros H. destruct p; [by destruct E | rewrite sapp_cons in H; done].
  - case_decide as E.
    + subst suf. split; [intros [= <-]; done|].
      intros H. destruct p as [|d p]; [done|].
      apply (f_equal String.length) in H. rewrite slength_app in H. simpl in H. lia.
    + rewrite fmap_Some. setoid_rewrite IH. split.
      * intros (q & Hq & ->). by rewrite sapp_cons, <- Hq.
      * intros H. destruct p as [|d p]; [by destruct E|].
        rewrite sapp_cons in H. injection H as -> H. eauto.
Qed.

Lemma has_suffix_spec s suf : has_suffix s suf = true <-> exists p, s = p +:+ suf.
Proof.
  unfold has_suffix. destruct (cut_suffix s suf) as [p|] eqn:E.
  - apply cut_suffix_spec in E. naive_solver.
  - split; [done|]. intros [p Hp]. apply cut_suffix_spec in Hp. congruence.
Qed.

Lemma trim_suffix_app p suf : trim_suffix (p +:+ suf) suf = p.
Proof.
  unfold trim_suffix. destruct (cut_suffix _ _) as [q|] eqn:E; simpl.
  - apply cut_suffix_spec in E. symmetry. by eapply sapp_inj_r.
  - assert (cut_suffix (p +:+ suf) suf = Some p) by (by apply cut_suffix_spec). congruence.
Qed.

(** ** Searching *)

(** [strings.Contains]. *)
Fixpoint contains_sub (s sub : string) : bool :=
  has_prefix s sub || match s with EmptyString => false | String _ s' => contains_sub s' sub end.

(** [strings.IndexByte], [None] for -1. *)
Fixpoint index_byte (s : string) (c : ascii) : option nat :=
  match s with
  | EmptyString => None
  | String a s' => if decide (a = c) then Some O else S <$> index_byte s' c
  end.

(** [strings.LastIndex] of a one-byte separator. *)
Fixpoint last_index_byte (s : string) (c : ascii) : option nat :=
  match s with
  | EmptyString => None
  | String a s' =>
      match last_index_byte s' c with
      | Some i => Some (S i)
      | None => if decide (a = c) then Some O else None
      end
  end.

Fixpoint sdrop (n : nat) (s : string) {struct n} : string :=
  match n, s with O, _ => s | S n, String _ s => sdrop n s | S _, EmptyString => EmptyString end.
Fixpoint stake (n : nat) (s : string) {struct n} : string :=
  match n, s with O, _ => EmptyString | S n, String c s => String c (stake n s)
             | S _, EmptyString => EmptyString end.
Fixpoint sget (n : nat) (s : string) {struct n} : option ascii :=
  match n, s with O, String c _ => Some c | S n, String _ s => sget n s | _, EmptyString => None end.

Fixpoint has_char (c : ascii) (s : string) : bool :=
  match s with EmptyString => false | String a s' => bool_decide (a = c) || has_char c s' end.

Lemma has_char_app c a b : has_char c (a +:+ b) = has_char c a || has_char c b.
Proof. induction a as [|x a IH]; [done|]. rewrite sapp_cons. simpl. by rewrite IH, orb_assoc. Qed.

(** ** Splitting and joining *)

(** [strings.Split] with a one-byte separator. *)
Fixpoint split_on (c : ascii) (s : string) : list string :=
  match s with
  | EmptyString => [EmptyString]
  | String a s' =>
      if decide (a = c) then EmptyString :: split_on c s'
      else match split_on c s' with
           | [] => [char1 a]
           | h :: t => String a h :: t
           end
  end.
(** [strings.Join]. *)
Fixpoint join (sep : string) (l : list string) : string :=
  match l with
  | [] => EmptyString
  | [x] => x
  | x :: l' => x +:+ sep +:+ join sep l'
  end.

Lemma split_on_nonnil c s : split_on c s <> [].
Proof. destruct s as [|a s]; simpl; [done|]. case_decide; [done|]. by destruct (split_on c s). Qed.

Lemma join_cons sep x l : l <> [] -> join sep (x :: l) = x +:+ sep +:+ join sep l.
Proof. by destruct l. Qed.

Lemma join_split c s : join (char1 c) (split_on c s) = s.
Proof.
  induction s as [|a s IH]; [done|]. simpl split_on.
  pose proof (split_on_nonnil c s) as Hn.
  case_decide as E.
  - subst. rewrite join_cons by done. rewrite IH. done.
  - destruct (split_on c s) as [|h t]; [done|].
    destruct t as [|h' t]; simpl in *; rewrite ?sapp_cons; by rewrite IH.
Qed.

Lemma split_on_no_char c x : has_char c x = false -> split_on c x = [x].
Proof.
  induction x as [|a x IH]; simpl; [done|].
  rewrite orb_false_iff, bool_decide_eq_false. intros [Ha Hx].
  rewrite decide_False by done. by rewrite IH.
Qed.

Lemma split_on_app_sep c x s :
  has_char c x = false -> split_on c (x +:+ String c s) = x :: split_on c s.
Proof.
  induction x as [|a x IH]; intros Hx.
  - simpl. change ("" +:+ String c s) with (String c s). simpl. by rewrite decide_True.
  - simpl in Hx. rewrite orb_false_iff, bool_decide_eq_false in Hx. destruct Hx as [Ha Hx].
    rewrite sapp_cons. simpl. rewrite decide_False by done. by rewrite IH.
Qed.

Lemma split_join c l :
  l <> [] -> Forall (fun x => has_char c x = false) l -> split_on c (join (char1 c) l) = l.
Proof.
  intros Hn Hl. induction Hl as [|x l Hx Hl IH]; [done|].
  destruct l as [|y l]; [by apply split_on_no_char|].
  rewrite join_cons by done. unfold char1 at 1. rewrite sapp_cons.
  change ("" +:+ ?t) with t. rewrite split_on_app_sep by done. by rewrite IH.
Qed.

Lemma split_on_segments c s : Forall (fun x => has_char c x = false) (split_on c s).
Proof.
  induction s as [|a s IH]; simpl; [by repeat constructor|].
  case_decide as E; [by constructor|].
  destruct (split_on c s) as [|h t]; [constructor; [|done]; simpl; by rewrite bool_decide_eq_false_2|].
  inversion IH; subst. constructor; [|done]. simpl. by rewrite bool_decide_eq_false_2.
Qed.

(** [strings.ReplaceAll] of a one-byte pattern. *)
Fixpoint replace_char (c : ascii) (by_ : string) (s : string) : string :=
  match s with
  | EmptyString => EmptyString
  | String a s' => (if decide (a = c) then by_ else char1 a) +:+ replace_char c by_ s'
  end.

(** ** Trimming white space

    [strings.TrimSpace] trims the UTF-8 encodings of Unicode's white space. *)

Definition space_seqs : list string :=
  map bytes ([[9];[10];[11];[12];[13];[32];[194;133];[194;160];[225;154;128];
   [226;128;168];[226;128;169];[226;128;175];[226;129;159];[227;128;128]]%nat
   ++ map (fun n => [226;128;n]%nat) (seq 128 11)).

Fixpoint first_some {A B} (f : A -> option B) (l : list A) : option B :=
  match l with [] => None | x :: l' => match f x with Some b => Some b | None => first_some f l' end end.

Fixpoint trim_with (cut : string -> string -> option string) (fuel : nat) (s : string) : string :=
  match fuel with
  | O => s
  | S n => match first_some (cut s) space_seqs with
           | Some r => trim_with cut n r
           | None => s
           end
  end.
Definition trim_space (s : string) : string :=
  let l := trim_with cut_prefix (String.length s) s in
  trim_with cut_suffix (String.length l) l.

(** ** Case folding

    [strings.EqualFold(s, t)] for an ASCII lower-case [t]: besides the upper-case
    letter, Unicode folds the long s (U+017F) and the Kelvin sign (U+212A). *)

Definition upper (c : ascii) : ascii :=
  let n := nat_of_ascii c in
  if (97 <=? n)%nat && (n <=? 122)%nat then byte (n - 32) else c.
Definition folds_to (c : ascii) : list string :=
  [char1 c; char1 (upper c)]
  ++ (if decide (c = "s"%char) then [bytes [197;191]%nat] else [])
  ++ (if decide (c = "k"%char) then [bytes [226;132;170]%nat] else []).
Fixpoint equal_fold (s t : string) : bool :=
  match t with
  | EmptyString => s == EmptyString
  | String c t' =>
      match first_some (cut_prefix s) (folds_to c) with
      | Some r => equal_fold r t'
      | None => false
      end
  end.

(** ** Formatting *)

Definition hexdigit (n : nat) : ascii :=
  if (n <? 10)%nat then byte (48 + n) else byte (87 + n).
(** One byte of [%q]; bytes of multi-byte runes are printed as they are. *)
Definition quote_byte (c : ascii) : string :=
  if decide (c = dquote) then bytes [92;34]%nat
  else if decide (c = backslash) then bytes [92;92]%nat
  else match nat_of_ascii c with
       | 7%nat => bytes [92;97]%nat | 8%nat => bytes [92;98]%nat
       | 9%nat => bytes [92;116]%nat | 10%nat => bytes [92;110]%nat
       | 11%nat => bytes [92;118]%nat | 12%nat => bytes [92;102]%nat
       | 13%nat => bytes [92;114]%nat
       | n => if (n <? 32)%nat || (n =? 127)%nat
              then String backslash (String "x" (String (hexdigit (n / 16)) (char1 (hexdigit (n mod 16)))))
              else char1 c
       end.
Fixpoint quote_body (s : string) : string :=
  match s with EmptyString => EmptyString | String c s' => quote_byte c +:+ quote_body s' end.
(** [fmt]'s [%q]. *)
Definition quote (s : string) : string := String dquote (quote_body s +:+ char1 dquote).
(** [fmt]'s [%d]. *)
Definition show_int (z : Z) : string := pretty z.

(** ** Integers *)

Definition digit (c : ascii) : option Z :=
  let n := nat_of_ascii c in
  if (48 <=? n)%nat && (n <=? 57)%nat then Some (Z.of_nat n - 48) else None.
Fixpoint parse_digits (acc : Z) (s : string) : option Z :=
  match s with
  | EmptyString => Some acc
  | String c s' => match digit c with Some d => parse_digits (acc * 10 + d) s' | None => None end
  end.
Definition parse_unsigned (s : string) : option Z :=
  match s with EmptyString => None | _ => parse_digits 0 s end.
Definition parse_signed (s : string) : option Z :=
  match s with
  | String "-" s' => Z.opp <$> parse_unsigned s'
  | String "+" s' => parse_unsigned s'
  | _ => parse_unsigned s
  end.
Definition in_int64b (z : Z) : bool := (- 2 ^ 63 <=? z) && (z <? 2 ^ 63).
(** [strconv.ParseInt(s, 10, 64)]. *)
Definition parse_int64 (s : string) : result Z :=
  match parse_signed s with
  | None => Err (errorf ("strconv.ParseInt: parsing " +:+ quote s +:+ ": invalid syntax"))
  | Some z => if in_int64b z then Ok z
              else Err (errorf ("strconv.ParseInt: parsing " +:+ quote s +:+ ": value out of range"))
  end.

Lemma in_int64b_spec z : in_int64b z = true <-> in_int64 z.
Proof. unfold in_int64b, in_int64. rewrite andb_true_iff, Z.leb_le, Z.ltb_lt. done. Qed.
Lemma parse_int64_range s z : parse_int64 s = Ok z -> in_int64 z.
Proof.
  unfold parse_int64. destruct (parse_signed s) as [y|]; [|done].
  destruct (in_int64b y) eqn:E; [|done]. intros [= <-]. by apply in_int64b_spec.
Qed.

(** ** Order: Go compares strings bytewise, as [String.compare] does *)

Lemma ascii_compare_trans a b c o :
  Ascii.compare a b = o -> Ascii.compare b c = o -> Ascii.compare a c = o.
Proof.
  unfold Ascii.compare. destruct o; rewrite ?N.compare_eq_iff, ?N.compare_lt_iff, ?N.compare_gt_iff; lia.
Qed.
Lemma ascii_compare_refl a : Ascii.compare a a = Eq.
Proof. apply N.compare_refl. Qed.
Lemma ascii_compare_eq a b : Ascii.compare a b = Eq -> a = b.
Proof. apply Ascii.compare_eq_iff. Qed.

Lemma string_lt_trans x y z :
  String.compare x y = Lt -> String.compare y z = Lt -> String.compare x z = Lt.
Proof.
  revert y z. induction x as [|a x IH]; intros [|b y] [|c z]; simpl; try done.
  destruct (Ascii.compare a b) eqn:Eab; [|intros _|done]; destruct (Ascii.compare b c) eqn:Ebc; try done.
  - rewrite (ascii_compare_trans a b c Eq) by done. apply IH.
  - apply ascii_compare_eq in Eab as ->. by rewrite Ebc.
  - apply ascii_compare_eq in Ebc as ->. by rewrite Eab.
  - by rewrite (ascii_compare_trans a b c Lt).
Qed.

Lemma string_ltb_asym x y : String.ltb x y = true -> String.ltb y x = false.
Proof.
  unfold String.ltb. rewrite (String.compare_antisym y x). by destruct (String.compare x y).
Qed.
Lemma string_ltb_neg_trans x y z :
  String.ltb x y = false -> String.ltb y z = false -> String.ltb x z = false.
Proof.
  unfold String.ltb. intros Hxy Hyz. destruct (String.compare x z) eqn:Exz; [done| |done].
  destruct (String.compare y z) eqn:Eyz; [|done|].
  - apply String.compare_eq_iff in Eyz as ->. by rewrite Exz in Hxy.
  - assert (String.compare z y = Lt) as Ezy by (by rewrite String.compare_antisym, Eyz).
    by rewrite (string_lt_trans x z y) in Hxy.
Qed.
Lemma string_ltb_total x y : String.ltb x y = false -> String.ltb y x = false -> x = y.
Proof.
  unfold String.ltb. rewrite (String.compare_antisym y x).
  destruct (String.compare x y) eqn:E; simpl; try done. intros _ _. by apply String.compare_eq_iff.
Qed.
