(* ===== verification/GoPath.v ===== *)
(** * Lexical paths: Go's [path.Clean], [filepath.Join], [Dir] and [Base]

    On the platforms the binaries run on the separator is '/', so [path] and
    [filepath] agree and [ToSlash]/[FromSlash] are the identity.  The main fact
    is [clean_relative_fixed]: a relative path that [Clean] leaves unchanged has
    only proper segments, with ".." at most at its front. *)

From Stdlib Require Import Ascii.
From S2P Require Import Prelude GoStrings.

Definition slash : ascii := "/"%char.

(** The stack of kept segments, innermost first, as [Clean] scans the path. *)
Definition clean_step (rooted : bool) (stack : list string) (seg : string) : list string :=
  if (seg == "") || (seg == ".") then stack
  else if seg == ".." then
    match stack with
    | top :: rest => if top == ".." then ".." :: stack else rest
    | [] => if rooted then [] else [".."]
    end
  else seg :: stack.

Definition clean_stack (rooted : bool) (s : string) : list string :=
  fold_left (clean_step rooted) (split_on slash s) [].

Definition is_abs (s : string) : bool := has_prefix s "/".

(** [path.Clean]. *)
Definition clean (s : string) : string :=
  if s == "" then "."
  else
    let body := join (char1 slash) (rev (clean_stack (is_abs s) s)) in
    if is_abs s then "/" +:+ body
    else if body == "" then "." else body.

(** [filepath.Join]: empty elements are ignored, the result is cleaned. *)
Definition path_join (l : list string) : string :=
  match List.filter (fun x => x != "") l with
  | [] => ""
  | l' => clean (join (char1 slash) l')
  end.

(** [filepath.Base] of a cleaned path. *)
Definition base_name (s : string) : string :=
  if s == "" then "." else
  match List.filter (fun x => x != "") (split_on slash s) with
  | [] => "/"
  | l => List.last l "."
  end.

(** [filepath.Dir]. *)
Definition dir_name (s : string) : string :=
  match last_index_byte s slash with
  | None => "."
  | Some i => clean (stake (S i) s)
  end.

(** The non-empty segments of a path. *)
Definition segments (s : string) : list string :=
  List.filter (fun x => x != "") (split_on slash s).

(** [filepath.Rel]'s scan for the first differing element: what remains of the
    base, of the target, and whether the scan stopped at a difference. *)
Fixpoint strip_common (b t : list string) : list string * list string * bool :=
  match b, t with
  | x :: b', y :: t' => if x == y then strip_common b' t' else (b, t, true)
  | _, _ => (b, t, false)
  end.

(** [filepath.Rel]. *)
Definition rel (basepath targpath : string) : result string :=
  let base := clean basepath in
  let targ := clean targpath in
  let cannot := Err (errorf ("Rel: can't make " +:+ targpath +:+ " relative to " +:+ basepath)) in
  if targ == base then Ok "."
  else
    let base := if base == "." then "" else base in
    if negb (eqb (is_abs base) (is_abs targ)) then cannot
    else
      let '(b, t, differ) := strip_common (segments base) (segments targ) in
      if differ && (head b == Some "..") then cannot
      else Ok (join (char1 slash) (map (fun _ => "..") b ++ t)).

(** The guard on the result of [Rel]: the target is not above the base. *)
Definition escapes (relative : string) : bool :=
  (relative == "..") || has_prefix relative "../".

(** ** Facts *)

Lemma rev_replicate {A} n (x : A) : rev (replicate n x) = replicate n x.
Proof.
  induction n as [|n IH]; simpl; [done|]. rewrite IH. clear IH.
  induction n as [|n IH]; simpl; [done|]. by rewrite IH.
Qed.

Definition proper (seg : string) : Prop :=
  seg <> "" /\ seg <> "." /\ seg <> ".." /\ has_char slash seg = false.
(** A relative stack: proper names above some leading ".."s. *)
Definition rel_stack (st : list string) : Prop :=
  exists names n, st = names ++ replicate n ".." /\ Forall proper names.

Lemma clean_step_rel st seg :
  rel_stack st -> has_char slash seg = false -> rel_stack (clean_step false st seg).
Proof.
  intros (names & n & -> & Hn) Hs. unfold clean_step.
  case_bool_decide as E1; [by exists names, n|].
  case_bool_decide as E2; [by exists names, n|]. simpl.
  case_bool_decide as E3.
  - destruct names as [|x names]; simpl.
    + destruct n as [|n]; simpl; [by exists [], 1%nat|].
      exists [], (S (S n)). done.
    + inversion Hn as [|?? (?&?&?&?) ?]; subst.
      rewrite bool_decide_eq_false_2 by done. by exists names, n.
  - exists (seg :: names), n. split; [done|]. by constructor.
Qed.

Lemma fold_clean_rel l st :
  rel_stack st -> Forall (fun x => has_char slash x = false) l ->
  rel_stack (fold_left (clean_step false) l st).
Proof.
  intros Hst Hl. revert st Hst. induction Hl; intros st Hst; simpl; [done|].
  eauto using clean_step_rel.
Qed.

Lemma clean_stack_rel s : rel_stack (clean_stack false s).
Proof.
  apply fold_clean_rel; [by exists [], O | apply split_on_segments].
Qed.

Lemma rel_stack_no_slash st : rel_stack st -> Forall (fun x => has_char slash x = false) st.
Proof.
  intros (names & n & -> & Hn). apply Forall_app; split.
  - eapply Forall_impl; [exact Hn|]. by intros ? (?&?&?&?).
  - by apply Forall_replicate.
Qed.

Lemma not_abs s : is_abs s = false -> s <> "" -> clean s = s -> s <> "." ->
  split_on slash s = rev (clean_stack false s).
Proof.
  intros Ha Hne Hc Hdot. unfold clean in Hc.
  rewrite bool_decide_eq_false_2, Ha in Hc by done.
  destruct (rev (clean_stack false s)) as [|x l] eqn:E.
  { simpl in Hc. congruence. }
  rewrite <- E in *. case_bool_decide; [congruence|].
  rewrite <- Hc at 1. apply split_join; [rewrite E; done|].
  apply Forall_rev, rel_stack_no_slash, clean_stack_rel.
Qed.

(** A relative path fixed by [Clean] is "..", repeated, then proper segments. *)
Lemma clean_relative_fixed s :
  is_abs s = false -> s <> "" -> s <> "." -> clean s = s ->
  exists n names, split_on slash s = replicate n ".." ++ names /\ Forall proper names.
Proof.
  intros Ha Hne Hd Hc. rewrite (not_abs s) by done.
  destruct (clean_stack_rel s) as (names & n & -> & Hn).
  exists n, (rev names). rewrite rev_app_distr, rev_replicate.
  split; [done|]. by apply Forall_rev.
Qed.

(** Below a proper first segment there is no ".." left. *)
Lemma clean_fixed_below root s :
  proper root -> has_prefix s (root +:+ char1 slash) = true -> clean s = s ->
  exists rest, split_on slash s = root :: rest /\ Forall proper rest.
Proof.
  intros (Hr1 & Hr2 & Hr3 & Hr4) [r ->]%has_prefix_spec Hc.
  rewrite sapp_assoc in *. change (char1 slash +:+ r) with (String slash r) in *.
  assert (is_abs (root +:+ String slash r) = false) as Ha.
  { unfold is_abs, has_prefix. destruct root as [|c root]; [done|].
    simpl in Hr4. rewrite sapp_cons. simpl.
    rewrite orb_false_iff, bool_decide_eq_false in Hr4. destruct Hr4 as [Hc4 _].
    rewrite decide_False; [done|]. intros E. by apply Hc4. }
  assert (root +:+ String slash r <> "" /\ root +:+ String slash r <> ".") as [? ?].
  { destruct root as [|c [|c' root]]; rewrite ?sapp_cons; [done| |]; split; try done; discriminate. }
  destruct (clean_relative_fixed _ Ha ltac:(done) ltac:(done) Hc) as (n & names & Hs & Hn).
  rewrite split_on_app_sep in Hs |- * by done.
  exists (split_on slash r). split; [done|].
  destruct n as [|n]; simpl in Hs; [|congruence].
  destruct names as [|x names]; [done|]. injection Hs as -> ->. by inversion Hn.
Qed.

(** ** Absolute paths *)

Lemma split_join_concat c l :
  l <> [] -> split_on c (join (char1 c) l) = concat (map (split_on c) l).
Proof.
  assert (forall a b, split_on c (a +:+ String c b) = split_on c a ++ split_on c b) as Happ.
  { intros a b. induction a as [|x a IH].
    - change ("" +:+ String c b) with (String c b). simpl. by rewrite decide_True.
    - rewrite sapp_cons. simpl. case_decide; [by rewrite IH|]. rewrite IH.
      pose proof (split_on_nonnil c a). by destruct (split_on c a). }
  induction l as [|x l IH]; [done|]. intros _. destruct l as [|y l].
  - simpl. by rewrite app_nil_r.
  - rewrite join_cons by done. unfold char1 at 1. rewrite sapp_cons.
    change ("" +:+ ?t) with t. rewrite Happ, IH by done. done.
Qed.

(** A rooted stack has proper names only. *)
Lemma clean_step_abs st seg :
  Forall proper st -> has_char slash seg = false -> Forall proper (clean_step true st seg).
Proof.
  intros Hst Hs. unfold clean_step.
  case_bool_decide as E1; [done|]. case_bool_decide as E2; [done|]. simpl.
  case_bool_decide as E3; [|by constructor].
  destruct st as [|x st]; [done|]. inversion Hst as [|?? (?&?&?&?) ?]; subst.
  by rewrite bool_decide_eq_false_2.
Qed.

Lemma fold_clean_abs l st :
  Forall proper st -> Forall (fun x => has_char slash x = false) l ->
  Forall proper (fold_left (clean_step true) l st).
Proof.
  intros Hst Hl. revert st Hst. induction Hl; intros st Hst; simpl; [done|].
  eauto using clean_step_abs.
Qed.

Lemma clean_stack_abs s : Forall proper (clean_stack true s).
Proof. apply fold_clean_abs; [done | apply split_on_segments]. Qed.

(** Proper names are pushed one by one. *)
Lemma fold_clean_push b names st :
  Forall proper names -> fold_left (clean_step b) names st = rev names ++ st.
Proof.
  intros Hn. revert st. induction Hn as [|x names (H1&H2&H3&H4) _ IH]; intros st; [done|].
  simpl. rewrite IH. unfold clean_step at 1.
  rewrite !bool_decide_eq_false_2 by done. simpl. by rewrite <- app_assoc.
Qed.

Lemma segments_names names :
  Forall proper names -> segments (join (char1 slash) names) = names.
Proof.
  intros Hn. unfold segments. destruct names as [|x names]; [done|].
  rewrite split_join; [|done|eapply Forall_impl; [exact Hn|]; by intros ? (?&?&?&?)].
  apply filter_all. eapply Forall_impl; [exact Hn|]. intros ? (?&?&?&?). simpl.
  by rewrite bool_decide_eq_false_2.
Qed.

Lemma segments_slash s : segments (String slash s) = segments s.
Proof.
  unfold segments. cbn [split_on]. rewrite decide_True by done. cbn [List.filter].
  by rewrite bool_decide_eq_true_2.
Qed.

Lemma abs_cons s : is_abs s = true -> exists r, s = String slash r.
Proof. intros [r ->]%has_prefix_spec. by exists r. Qed.

Lemma segments_clean_abs s :
  is_abs s = true -> segments (clean s) = rev (clean_stack true s).
Proof.
  intros Ha. unfold clean. rewrite Ha, bool_decide_eq_false_2 by (by intros ->).
  change ("/" +:+ ?t) with (String slash t). rewrite segments_slash.
  apply segments_names, Forall_rev, clean_stack_abs.
Qed.

Lemma segments_clean_proper s : is_abs s = true -> Forall proper (segments (clean s)).
Proof. intros Ha. rewrite segments_clean_abs by done. apply Forall_rev, clean_stack_abs. Qed.

(** A clean absolute directory, such as a cache root. *)
Definition clean_root (s : string) : Prop := is_abs s = true /\ clean s = s.

Lemma clean_root_segments s : clean_root s -> clean_stack true s = rev (segments s).
Proof.
  intros [Ha Hc]. rewrite <- Hc at 2. by rewrite segments_clean_abs, rev_involutive.
Qed.
Lemma clean_root_proper s : clean_root s -> Forall proper (segments s).
Proof. intros [Ha Hc]. rewrite <- Hc. by apply segments_clean_proper. Qed.

Lemma join_is_abs root l : is_abs root = true -> is_abs (join (char1 slash) (root :: l)) = true.
Proof. intros [r ->]%abs_cons. by destruct l. Qed.

(** [Join] below a clean root appends the proper segments of its elements. *)
Lemma segments_path_join root l names :
  clean_root root -> concat (map (split_on slash) l) = names -> Forall proper names ->
  segments (path_join (root :: l)) = segments root ++ names.
Proof.
  intros Hr Hl Hn. pose proof Hr as [Ha Hc].
  assert (List.filter (fun x => x != "") l = l) as Hf.
  { apply filter_all. apply Forall_forall. intros x Hx.
    case_bool_decide as E; [|done]. exfalso. subst x names.
    rewrite Forall_concat in Hn. rewrite Forall_forall in Hn.
    assert ([""] ∈ map (split_on slash) l) as Hin by (apply list_elem_of_fmap; by exists "").
    apply Hn in Hin. inversion Hin as [|?? (?&?) ?]. done. }
  unfold path_join. cbn [List.filter]. destruct (bool_decide (root = "")) eqn:E.
  { apply bool_decide_eq_true in E. by subst. }
  cbn [negb]. rewrite Hf, segments_clean_abs by (by apply join_is_abs).
  unfold clean_stack. rewrite split_join_concat by done. cbn [map concat].
  rewrite fold_left_app. fold (clean_stack true root).
  rewrite clean_root_segments, Hl, fold_clean_push by done.
  by rewrite rev_app_distr, !rev_involutive.
Qed.

(** Being strictly below a directory. *)
Definition below (dir p : string) : Prop :=
  exists rest, rest <> [] /\ segments p = segments dir ++ rest.

Lemma below_cons dir p x rest :
  segments p = segments dir ++ x :: rest -> below dir p.
Proof. intros H. by exists (x :: rest). Qed.

Lemma path_join_abs root l : clean_root root -> is_abs (path_join (root :: l)) = true.
Proof.
  intros [Ha Hc]. unfold path_join. cbn [List.filter].
  rewrite bool_decide_eq_false_2 by (by intros ->). cbn [negb]. unfold clean. rewrite join_is_abs, bool_decide_eq_false_2; [done| |done].
  intros E. pose proof (join_is_abs root (List.filter (fun x => x != "") l) Ha) as H.
  by rewrite E in H.
Qed.

(** A clean absolute path is determined by its segments. *)
Lemma clean_root_eq s : clean_root s -> s = String slash (join (char1 slash) (segments s)).
Proof.
  intros Hr. pose proof Hr as [Ha Hc]. rewrite <- Hc at 1. unfold clean.
  rewrite Ha, bool_decide_eq_false_2 by (by intros ->).
  by rewrite clean_root_segments, rev_involutive.
Qed.
Lemma clean_segments s names :
  is_abs s = true -> clean_stack true s = rev names ->
  clean s = String slash (join (char1 slash) names).
Proof.
  intros Ha Hs. unfold clean. rewrite Ha, bool_decide_eq_false_2 by (by intros ->).
  by rewrite Hs, rev_involutive.
Qed.
Lemma clean_idem_abs s : is_abs s = true -> clean (clean s) = clean s.
Proof.
  intros Ha. pose proof (clean_stack_abs s) as Hp.
  assert (clean s = String slash (join (char1 slash) (rev (clean_stack true s)))) as E.
  { apply clean_segments; [done|]. by rewrite rev_involutive. }
  rewrite E at 1. rewrite E. apply clean_segments; [done|].
  set (names := rev (clean_stack true s)). assert (Forall proper names) by (by apply Forall_rev).
  unfold clean_stack. cbn [split_on]. rewrite decide_True by done. cbn [fold_left].
  change (clean_step true [] "") with (@nil string).
  destruct names as [|x l] eqn:En; [done|].
  rewrite split_join; [|done|eapply Forall_impl; [done|]; by intros ? (?&?&?&?)].
  by rewrite fold_clean_push, app_nil_r.
Qed.
Lemma clean_root_join root l : clean_root root -> clean_root (path_join (root :: l)).
Proof.
  intros Hr. split; [by apply path_join_abs|]. destruct Hr as [Ha Hc].
  unfold path_join. cbn [List.filter].
  rewrite bool_decide_eq_false_2 by (by intros ->). cbn [negb]. apply clean_idem_abs, join_is_abs. done.
Qed.

Lemma join_snoc sep l x : l <> [] -> join sep (l ++ [x]) = join sep l +:+ (sep +:+ x).
Proof.
  induction l as [|y l IH]; [done|]. intros _. destruct l as [|z l]; [done|].
  rewrite <- app_comm_cons, !join_cons by (by destruct l). rewrite IH by done.
  by rewrite !sapp_assoc.
Qed.

Lemma last_index_none c s : has_char c s = false -> last_index_byte s c = None.
Proof.
  induction s as [|a s IH]; simpl; [done|]. rewrite orb_false_iff, bool_decide_eq_false.
  intros [Ha Hs]. by rewrite IH, decide_False.
Qed.
Lemma last_index_app c a x :
  has_char c x = false -> last_index_byte (a +:+ String c x) c = Some (String.length a).
Proof.
  intros Hx. induction a as [|y a IH].
  - change ("" +:+ String c x) with (String c x). simpl. by rewrite last_index_none, decide_True.
  - rewrite sapp_cons. simpl. by rewrite IH.
Qed.
Lemma stake_sep c a x : stake (S (String.length a)) (a +:+ String c x) = a +:+ char1 c.
Proof. induction a as [|y a IH]; [done|]. rewrite !sapp_cons, <- IH. done. Qed.

Lemma dir_name_sep a x :
  has_char slash x = false -> dir_name (a +:+ String slash x) = clean (a +:+ char1 slash).
Proof. intros Hx. unfold dir_name. by rewrite last_index_app, stake_sep. Qed.

(** [Dir] of a name joined to a clean root is the root. *)
Lemma dir_name_join root x : clean_root root -> proper x -> dir_name (path_join [root; x]) = root.
Proof.
  intros Hr Hx. pose proof Hx as (_&_&_&Hxs).
  assert (segments (path_join [root; x]) = segments root ++ [x]) as Hseg.
  { apply segments_path_join; [done| |by apply Forall_singleton].
    cbn [map concat]. by rewrite split_on_no_char. }
  rewrite (clean_root_eq (path_join _)) by (by apply clean_root_join).
  rewrite Hseg. pose proof (clean_root_eq root Hr) as Hroot.
  destruct (segments root) as [|y l] eqn:El.
  - change (String slash (join (char1 slash) ([] ++ [x]))) with ("" +:+ String slash x).
    rewrite dir_name_sep by done. by rewrite Hroot.
  - rewrite join_snoc by done. rewrite <- sapp_cons. change (char1 slash +:+ x) with (String slash x).
    rewrite <- Hroot, dir_name_sep by done. pose proof Hr as [Ha Hc].
    rewrite (clean_segments (root +:+ char1 slash) (y :: l)); [done| |].
    + destruct (abs_cons root Ha) as [r ->]. done.
    + rewrite <- El, <- (clean_root_segments root Hr). unfold clean_stack.
      change (root +:+ char1 slash) with (join (char1 slash) [root; ""]).
      rewrite split_join_concat by done. cbn [map concat split_on].
      by rewrite app_nil_r, fold_left_app.
Qed.

(** [Base] of a name joined to a clean root is the name. *)
Lemma base_name_join root x : clean_root root -> proper x -> base_name (path_join [root; x]) = x.
Proof.
  intros Hr Hx. pose proof Hx as (_&_&_&Hxs). unfold base_name.
  rewrite bool_decide_eq_false_2.
  - fold (segments (path_join [root; x])). rewrite (segments_path_join root [x] [x]); [|done| |].
    + destruct (segments root ++ [x]) eqn:E; [by destruct (segments root)|].
      rewrite <- E. apply last_last.
    + cbn [map concat]. by rewrite split_on_no_char.
    + by apply Forall_singleton.
  - intros E. pose proof (path_join_abs root [x] Hr) as Ha. by rewrite E in Ha.
Qed.

Example clean_ex1 : clean "gguf/../a//b/./c" = "a/b/c".
Proof. vm_compute. reflexivity. Qed.
Example clean_ex2 : clean "/../x/" = "/x" /\ clean "../../y/.." = "../.." /\ clean "" = ".".
Proof. vm_compute. auto. Qed.
