(* ===== verification/Types.v ===== *)
(** * API objects

    The custom resources of [api/cogito.dev/v1alpha1] field by field, and the
    Kubernetes objects the controllers read and patch.  Of a Kubernetes type the
    record keeps every field the sources touch; everything else is carried in a
    [*_rest] field that no definition inspects, so that "the rest is preserved"
    is a statement about it.  Times are nanoseconds, zero the Go zero time.

    Fields whose nil value the code can observe ([reflect.DeepEqual], [== nil])
    are [slice]s and [nilmap]s. *)

From S2P Require Import Prelude.

(** ** metav1 *)

Record ObjectMeta := mkMeta {
  Name : string;
  Namespace : string;
  ResourceVersion : string;
  Generation : Z;
  CreationTimestamp : Z;
  DeletionTimestamp : option Z;
  Finalizers : list string;
  Labels : nilmap;
  Annotations : nilmap;
  ControllerRef : option string;
}.

Inductive ConditionStatus := ConditionTrue | ConditionFalse | ConditionUnknown.

Record Condition := mkCondition {
  cond_type : string;
  cond_status : ConditionStatus;
  cond_reason : string;
  cond_message : string;
  cond_time : Z;
}.

(** ** LLMModel *)

(** [type BackendType string]: the code handles values outside the constants. *)
Definition BackendType := string.
Definition BackendVLLM : BackendType := "vllm".
Definition BackendSGLang : BackendType := "sglang".
Definition BackendLlamaCpp : BackendType := "llama-cpp".

Inductive LLMModelPhase :=
| ModelPhaseNone | ModelPhasePending | ModelPhaseReady | ModelPhaseActive
| ModelPhaseTransitioning | ModelPhaseFailed.

Definition ModelProtectionFinalizer : string := "llm.cogito.dev/model-protection".

Record LLMModelRef := mkModelRef {
  ref_name : string;
  ref_source : string;
  ref_revision : string;
  ref_artifactRepository : string;
}.

Record ArtifactSpec := mkArtifact {
  art_expectedSize : string;
  art_files : list string;
  art_target : string;
}.

Record ChatTemplateSpec := mkChatTemplate {
  ct_configMap : string;
  ct_key : string;
  ct_sha256 : string;
}.

Record ServingSpec := mkServing {
  srv_backend : BackendType;
  srv_displayName : string;
  srv_maxModelLen : Z;
  srv_toolCallParser : string;
  srv_reasoningParser : string;
  srv_chatTemplate : option ChatTemplateSpec;
  srv_args : list string;
}.

Record LLMModelSpec := mkModelSpec {
  ms_model : LLMModelRef;
  ms_artifact : option ArtifactSpec;
  ms_serving : ServingSpec;
  ms_backendRef : option string;
}.

Record CacheState := mkCacheState { cs_location : string; cs_lastHydrated : option Z }.

Record ResolvedChatTemplate := mkResolved {
  rct_configMap : string; rct_key : string; rct_sha256 : string }.

Record RuntimeMetadata := mkRuntimeMetadata {
  rm_observedAt : Z;
  rm_servedModelIDs : list string;
  rm_contextLength : Z;
  rm_maxConcurrentReqs : Z;
  rm_launchArguments : strmap;
  rm_kvCache : nilmap;
  rm_chatTemplate : option ResolvedChatTemplate;
}.

Record LLMModelStatus := mkModelStatus {
  mst_phase : LLMModelPhase;
  mst_active : bool;
  mst_cacheState : option CacheState;
  mst_runtime : option RuntimeMetadata;
  mst_conditions : list Condition;
  mst_observedGeneration : Z;
}.

Record LLMModel := mkModel {
  m_meta : ObjectMeta; m_spec : LLMModelSpec; m_status : LLMModelStatus }.

Definition m_name (m : LLMModel) : string := ref_name (ms_model (m_spec m)).
Definition m_serving (m : LLMModel) : ServingSpec := ms_serving (m_spec m).
Definition m_backend (m : LLMModel) : BackendType := srv_backend (m_serving m).
Definition m_template (m : LLMModel) : option ChatTemplateSpec := srv_chatTemplate (m_serving m).

(** ** Pods and Deployments *)

Record EnvVar := mkEnv { env_name : string; env_value : string; env_rest : string }.
Record VolumeMount := mkMount {
  vm_name : string; vm_mountPath : string; vm_readOnly : bool; vm_rest : string }.
Record KeyToPath := mkKeyToPath { kp_key : string; kp_path : string; kp_rest : string }.
Record ConfigMapVolumeSource := mkCMSource {
  cmv_name : string; cmv_items : list KeyToPath; cmv_rest : string }.
Record Volume := mkVolume {
  vol_name : string; vol_configMap : option ConfigMapVolumeSource; vol_rest : string }.
Record Container := mkContainer {
  ctr_name : string;
  ctr_args : slice string;
  ctr_env : list EnvVar;
  ctr_mounts : slice VolumeMount;
  ctr_requests : gmap string Z;
  ctr_limits : gmap string Z;
  ctr_rest : string;
}.
Record PodSpec := mkPodSpec {
  pod_containers : list Container; pod_volumes : slice Volume; pod_rest : string }.
Record PodTemplate := mkPodTemplate {
  pt_labels : nilmap; pt_annotations : nilmap; pt_spec : PodSpec }.
Record DeploymentSpec := mkDeploymentSpec {
  dep_replicas : option Z;
  dep_selector : nilmap;
  dep_template : PodTemplate;
  dep_strategy : string;
  dep_rest : string;
}.
Record DeploymentStatus := mkDeploymentStatus {
  ds_replicas : Z; ds_updated : Z; ds_available : Z; ds_observedGeneration : Z }.
Record Deployment := mkDeployment {
  d_meta : ObjectMeta; d_spec : DeploymentSpec; d_status : DeploymentStatus }.

Record ServicePort := mkServicePort {
  sp_name : string; sp_port : Z; sp_targetPort : Z; sp_protocol : string }.
Record ServiceSpec := mkServiceSpec {
  ss_type : string; ss_clusterIPs : string; ss_selector : nilmap;
  ss_ports : list ServicePort; ss_rest : string }.
Record Service := mkService { s_meta : ObjectMeta; s_spec : ServiceSpec }.

Record ConfigMap := mkConfigMap { cm_meta : ObjectMeta; cm_data : nilmap }.

(** ** LLMBackend *)

Inductive LLMBackendPhase :=
| BackendPhaseNone | BackendPhaseStopped | BackendPhaseStarting
| BackendPhaseServing | BackendPhaseFailed.

Definition BackendWorkloadFinalizer : string := "llm.cogito.dev/backend-workload-protection".

Record BackendCapacitySpec := mkCapacity { cap_gpus : Z; cap_resourceName : string }.
Record BackendDeploymentSpec := mkBackendDeployment {
  bd_name : string; bd_replicas : option Z; bd_strategy : string; bd_podTemplate : PodTemplate }.
Record BackendServiceSpec := mkBackendService {
  bs_name : string; bs_port : Z; bs_portName : string; bs_annotations : nilmap }.
Record BackendWorkloadSpec := mkWorkload {
  w_containerName : string; w_deployment : BackendDeploymentSpec; w_service : BackendServiceSpec }.
Record LLMBackendSpec := mkBackendSpec {
  b_type : BackendType;
  b_capacity : option BackendCapacitySpec;
  b_workload : option BackendWorkloadSpec;
  b_deploymentRef : string;
  b_containerName : string;
  b_serviceRef : string;
  b_port : Z;
  b_runtimeClassName : string;
  b_gpuResources : option (strmap * strmap);
}.
Record LLMBackendStatus := mkBackendStatus {
  bst_phase : LLMBackendPhase;
  bst_activeModel : string;
  bst_activeModelSince : option Z;
  bst_replicas : Z;
  bst_available : Z;
  bst_conditions : list Condition;
  bst_observedGeneration : Z;
}.
Record LLMBackend := mkBackend {
  b_meta : ObjectMeta; b_spec : LLMBackendSpec; b_status : LLMBackendStatus }.

(** ** LLMActiveModel *)

Inductive LLMActiveModelPhase :=
| ActiveModelPhaseNone | ActiveModelPhaseStable | ActiveModelPhaseTransitioning
| ActiveModelPhaseFailed.

Record LLMActiveModelStatus := mkActiveStatus {
  ast_modelName : string;
  ast_backendType : BackendType;
  ast_phase : LLMActiveModelPhase;
  ast_transitionFrom : string;
  ast_transitionStarted : option Z;
  ast_transitionDuration : option Z;
  ast_transitionGeneration : Z;
  ast_conditions : list Condition;
  ast_observedGeneration : Z;
}.
Record LLMActiveModel := mkActive {
  a_meta : ObjectMeta; a_specModel : string; a_status : LLMActiveModelStatus }.

(** ** LLMModelOverlay *)

Record LLMModelOverlayStatus := mkOverlayStatus {
  ost_resolvedBaseModel : string; ost_conditions : list Condition; ost_observedGeneration : Z }.
Record LLMModelOverlay := mkOverlay {
  o_meta : ObjectMeta;
  o_displayName : string;
  o_baseModel : string;
  o_requestDefaults : string;
  o_status : LLMModelOverlayStatus;
}.

(** ** Decidable equality: [==] on strings and enums, [reflect.DeepEqual] on structs *)

#[export] Instance ObjectMeta_eq_dec : EqDecision ObjectMeta.
Proof. solve_decision. Defined.
#[export] Instance ConditionStatus_eq_dec : EqDecision ConditionStatus.
Proof. solve_decision. Defined.
#[export] Instance Condition_eq_dec : EqDecision Condition.
Proof. solve_decision. Defined.
#[export] Instance LLMModelPhase_eq_dec : EqDecision LLMModelPhase.
Proof. solve_decision. Defined.
#[export] Instance LLMBackendPhase_eq_dec : EqDecision LLMBackendPhase.
Proof. solve_decision. Defined.
#[export] Instance LLMActiveModelPhase_eq_dec : EqDecision LLMActiveModelPhase.
Proof. solve_decision. Defined.
#[export] Instance EnvVar_eq_dec : EqDecision EnvVar.
Proof. solve_decision. Defined.
#[export] Instance VolumeMount_eq_dec : EqDecision VolumeMount.
Proof. solve_decision. Defined.
#[export] Instance KeyToPath_eq_dec : EqDecision KeyToPath.
Proof. solve_decision. Defined.
#[export] Instance ConfigMapVolumeSource_eq_dec : EqDecision ConfigMapVolumeSource.
Proof. solve_decision. Defined.
#[export] Instance Volume_eq_dec : EqDecision Volume.
Proof. solve_decision. Defined.
#[export] Instance Container_eq_dec : EqDecision Container.
Proof. solve_decision. Defined.
#[export] Instance PodSpec_eq_dec : EqDecision PodSpec.
Proof. solve_decision. Defined.
#[export] Instance PodTemplate_eq_dec : EqDecision PodTemplate.
Proof. solve_decision. Defined.
#[export] Instance DeploymentSpec_eq_dec : EqDecision DeploymentSpec.
Proof. solve_decision. Defined.
#[export] Instance DeploymentStatus_eq_dec : EqDecision DeploymentStatus.
Proof. solve_decision. Defined.
#[export] Instance Deployment_eq_dec : EqDecision Deployment.
Proof. solve_decision. Defined.
#[export] Instance ServicePort_eq_dec : EqDecision ServicePort.
Proof. solve_decision. Defined.
#[export] Instance ServiceSpec_eq_dec : EqDecision ServiceSpec.
Proof. solve_decision. Defined.
#[export] Instance Service_eq_dec : EqDecision Service.
Proof. solve_decision. Defined.

(** ** Functional field updates *)

Definition with_mstatus (m : LLMModel) (s : LLMModelStatus) : LLMModel :=
  mkModel (m_meta m) (m_spec m) s.
Definition with_bstatus (b : LLMBackend) (s : LLMBackendStatus) : LLMBackend :=
  mkBackend (b_meta b) (b_spec b) s.
Definition with_astatus (a : LLMActiveModel) (s : LLMActiveModelStatus) : LLMActiveModel :=
  mkActive (a_meta a) (a_specModel a) s.
Definition with_ostatus (o : LLMModelOverlay) (s : LLMModelOverlayStatus) : LLMModelOverlay :=
  mkOverlay (o_meta o) (o_displayName o) (o_baseModel o) (o_requestDefaults o) s.
Definition with_finalizers (m : ObjectMeta) (f : list string) : ObjectMeta :=
  mkMeta (Name m) (Namespace m) (ResourceVersion m) (Generation m) (CreationTimestamp m)
    (DeletionTimestamp m) f (Labels m) (Annotations m) (ControllerRef m).
Definition with_labels (m : ObjectMeta) (l : nilmap) : ObjectMeta :=
  mkMeta (Name m) (Namespace m) (ResourceVersion m) (Generation m) (CreationTimestamp m)
    (DeletionTimestamp m) (Finalizers m) l (Annotations m) (ControllerRef m).
Definition with_annotations (m : ObjectMeta) (l : nilmap) : ObjectMeta :=
  mkMeta (Name m) (Namespace m) (ResourceVersion m) (Generation m) (CreationTimestamp m)
    (DeletionTimestamp m) (Finalizers m) (Labels m) l (ControllerRef m).
Definition with_args (c : Container) (a : slice string) : Container :=
  mkContainer (ctr_name c) a (ctr_env c) (ctr_mounts c) (ctr_requests c) (ctr_limits c) (ctr_rest c).
Definition with_mounts (c : Container) (v : slice VolumeMount) : Container :=
  mkContainer (ctr_name c) (ctr_args c) (ctr_env c) v (ctr_requests c) (ctr_limits c) (ctr_rest c).
(** The metadata of a fresh object: only name and namespace are set. *)
Definition fresh_meta (name ns : string) : ObjectMeta :=
  mkMeta name ns "" 0 0 None [] None None None.
