(* ===== verification/Effects.v ===== *)
(** * Programs that call services, and a rely-guarantee logic for them

    The controllers and the proxy talk to services the repository does not
    contain: the Kubernetes API server, the model runtimes, clocks.  A handler of
    the source is a [prog]: a finite tree of requests, each continued for every
    possible reply.  A service is a [handler], a parameter of every theorem; [run]
    gives the trace of requests and replies.

    [rg] is the weakest precondition of a program under a contract: a ghost state
    updated by every request and reply, what replies may be relied on, and which
    requests are permitted in which ghost state.  [rg_run] carries a proof in
    [rg] to every run against every handler that honours the contract. *)

From S2P Require Import Prelude.

Section prog.
Context {E : Type -> Type}.

Inductive prog (A : Type) : Type :=
| Ret (a : A)
| Vis (X : Type) (e : E X) (k : X -> prog A).
Arguments Ret {A} a.
Arguments Vis {A X} e k.

Fixpoint bind {A B} (p : prog A) (f : A -> prog B) : prog B :=
  match p with
  | Ret a => f a
  | Vis e k => Vis e (fun x => bind (k x) f)
  end.

Definition call {X} (e : E X) : prog X := Vis e Ret.

(** Early return: [inl r] leaves the enclosing function with [r]. *)
Definition ebind {R A B} (p : prog (R + A)) (f : A -> prog (R + B)) : prog (R + B) :=
  bind p (fun x => match x with inl r => Ret (inl r) | inr a => f a end).
Definition leave {R A} (r : R) : prog (R + A) := Ret (inl r).
(** A function body: what it leaves with, or its final value. *)
Definition body {R} (p : prog (R + R)) : prog R :=
  bind p (fun x => match x with inl r => Ret r | inr r => Ret r end).

(** One observed call: the request and its reply. *)
Record obs := Obs { obs_type : Type; obs_req : E obs_type; obs_reply : obs_type }.

Definition handler (W : Type) := forall X, E X -> W -> X * W.

Fixpoint run {W A} (h : handler W) (p : prog A) (w : W) : list obs * A * W :=
  match p with
  | Ret a => ([], a, w)
  | Vis e k =>
      let '(x, w1) := h _ e w in
      let '(tr, a, w2) := run h (k x) w1 in
      (Obs _ e x :: tr, a, w2)
  end.
Definition trace {W A} (h : handler W) (p : prog A) (w : W) : list obs := (run h p w).1.1.
Definition value {W A} (h : handler W) (p : prog A) (w : W) : A := (run h p w).1.2.
Definition final {W A} (h : handler W) (p : prog A) (w : W) : W := (run h p w).2.
End prog.

Arguments prog E A : clear implicits.
Arguments obs E : clear implicits.
Arguments handler E W : clear implicits.
Arguments Ret {E A} a.
Arguments Vis {E A X} e k.
Arguments Obs {E obs_type} obs_req obs_reply.

Notation "'let!' x ':=' p 'in' k" := (bind p (fun x => k))
  (at level 10, x pattern, p at level 100, k at level 200) : go_scope.
Notation "'do!' p ';' k" := (bind p (fun _ => k))
  (at level 10, p at level 100, k at level 200) : go_scope.
Notation "'let?' x ':=' p 'in' k" := (ebind p (fun x => k))
  (at level 10, x pattern, p at level 100, k at level 200) : go_scope.
Notation "'do?' p ';' k" := (ebind p (fun _ => k))
  (at level 10, p at level 100, k at level 200) : go_scope.

Lemma run_bind {E W A B} (h : handler E W) (p : prog E A) (f : A -> prog E B) w :
  run h (bind p f) w =
    let '(tr1, a, w1) := run h p w in
    let '(tr2, b, w2) := run h (f a) w1 in
    (tr1 ++ tr2, b, w2).
Proof.
  revert w; induction p as [a|X e k IH]; intros w; simpl.
  - by destruct (run h (f a) w) as [[??]?].
  - destruct (h X e w) as [x w1]. rewrite IH.
    destruct (run h (k x) w1) as [[??]?]. by destruct (run h (f _) _) as [[??]?].
Qed.

(** ** Contracts *)

Record contract (E : Type -> Type) (S : Type) := mkContract {
  (** replies that can be relied on *)
  rely : forall X, E X -> X -> S -> Prop;
  (** requests that are permitted *)
  permit : forall X, E X -> S -> Prop;
  (** the history, as far as the contract records it *)
  record : forall X, E X -> X -> S -> S;
}.
Arguments mkContract {E S}.
Arguments rely {E S} c {X}.
Arguments permit {E S} c {X}.
Arguments record {E S} c {X}.

Section rg.
Context {E : Type -> Type} {S : Type} (c : contract E S).

Fixpoint rg {A} (p : prog E A) (s : S) (Q : S -> A -> Prop) : Prop :=
  match p with
  | Ret a => Q s a
  | Vis e k =>
      permit c e s /\ forall x, rely c e x s -> rg (k x) (record c e x s) Q
  end.

(** The ghost state after a trace. *)
Definition ghost (s : S) (tr : list (obs E)) : S :=
  fold_left (fun s o => record c (obs_req o) (obs_reply o) s) tr s.
(** Every request was permitted when it was made. *)
Definition monitored (s : S) (tr : list (obs E)) : Prop :=
  forall tr1 o tr2, tr = tr1 ++ o :: tr2 -> permit c (obs_req o) (ghost s tr1).

Lemma rg_mono {A} (p : prog E A) s (Q Q' : S -> A -> Prop) :
  rg p s Q -> (forall s' a, Q s' a -> Q' s' a) -> rg p s Q'.
Proof.
  revert s; induction p as [a|X e k IH]; intros s Hp HQ; simpl in *; [eauto|].
  destruct Hp as [Hok Hk]. split; [done|]. intros x Hx. eapply IH; eauto.
Qed.

Lemma rg_bind {A B} (p : prog E A) (f : A -> prog E B) s Q :
  rg p s (fun s' a => rg (f a) s' Q) -> rg (bind p f) s Q.
Proof.
  revert s; induction p as [a|X e k IH]; intros s Hp; simpl in *; [done|].
  destruct Hp as [Hok Hk]. split; [done|]. intros x Hx. apply IH. eauto.
Qed.

Lemma rg_call {X} (e : E X) s Q :
  permit c e s -> (forall x, rely c e x s -> Q (record c e x s) x) -> rg (call e) s Q.
Proof. simpl. eauto. Qed.

Lemma rg_ebind {R A B} (p : prog E (R + A)) (f : A -> prog E (R + B)) s Q :
  rg p s (fun s' x => match x with inl r => Q s' (inl r) | inr a => rg (f a) s' Q end) ->
  rg (ebind p f) s Q.
Proof.
  intros Hp. apply rg_bind. eapply rg_mono; [exact Hp|]. intros s' [r|a] H; simpl in *; done.
Qed.

Lemma rg_body {R} (p : prog E (R + R)) s Q :
  rg p s (fun s' x => match x with inl r => Q s' r | inr r => Q s' r end) -> rg (body p) s Q.
Proof.
  intros Hp. apply rg_bind. eapply rg_mono; [exact Hp|]. intros s' [r|a] H; simpl in *; done.
Qed.

(** The handler keeps the contract, its state related to the ghost by [I]. *)
Definition honours {W} (h : handler E W) (I : S -> W -> Prop) : Prop :=
  forall X (e : E X) s w, I s w ->
    rely c e (h X e w).1 s /\ I (record c e (h X e w).1 s) (h X e w).2.

Lemma rg_run {W A} (h : handler E W) I (p : prog E A) s w Q :
  honours h I -> I s w -> rg p s Q ->
  monitored s (trace h p w) /\ Q (ghost s (trace h p w)) (value h p w)
  /\ I (ghost s (trace h p w)) (final h p w).
Proof.
  intros Hh. unfold trace, value, final.
  revert s w; induction p as [a|X e k IH]; intros s w HI Hp; simpl in *.
  { split; [|done]. intros tr1 o tr2 Htr. by destruct tr1. }
  destruct Hp as [Hok Hk]. destruct (Hh X e s w HI) as [Hr HI'].
  destruct (h X e w) as [x w1]; simpl in *.
  destruct (IH x (record c e x s) w1 HI' (Hk x Hr)) as (Hm & HQ & HF).
  destruct (run h (k x) w1) as [[tr a] w2]; simpl in *. split; [|done].
  intros tr1 o tr2 Htr. destruct tr1 as [|o1 tr1]; simpl in Htr; injection Htr as <- Htr; [done|].
  simpl. eauto.
Qed.

(** With nothing to rely on, every handler will do. *)
Lemma rg_run_any {W A} (h : handler E W) (p : prog E A) s w Q :
  (forall X (e : E X) x s, rely c e x s) -> rg p s Q ->
  monitored s (trace h p w) /\ Q (ghost s (trace h p w)) (value h p w).
Proof.
  intros Hr Hp.
  destruct (rg_run h (fun _ _ => True) p s w Q) as (?&?&?); [|done..].
  intros X e s' w' _. split; [apply Hr | done].
Qed.
End rg.

Lemma ghost_app {E S} (c : contract E S) s tr1 tr2 :
  ghost c s (tr1 ++ tr2) = ghost c (ghost c s tr1) tr2.
Proof. apply fold_left_app. Qed.

(** A ghost flag that is false at first and true later was raised by an event. *)
Lemma ghost_raised {E S} (c : contract E S) (P : S -> bool) (raises : obs E -> Prop) s tr :
  (forall s o, P s = false -> P (record c (obs_req o) (obs_reply o) s) = true -> raises o) ->
  P s = false -> P (ghost c s tr) = true ->
  exists tr1 o tr2, tr = tr1 ++ o :: tr2 /\ raises o.
Proof.
  intros Hr. revert s; induction tr as [|o tr IH]; intros s Hs Ht; simpl in *; [congruence|].
  destruct (P (record c (obs_req o) (obs_reply o) s)) eqn:E1.
  - exists [], o, tr. eauto.
  - destruct (IH _ E1 Ht) as (tr1 & o' & tr2 & -> & Ho). exists (o :: tr1), o', tr2. auto.
Qed.

(** A ghost flag that holds after a trace was raised by an event, and kept by all later ones. *)
Lemma ghost_since {E S} (c : contract E S) (P : S -> Prop) (raises : S -> obs E -> Prop)
    (keeps : obs E -> Prop) s tr :
  (forall s o, P (record c (obs_req o) (obs_reply o) s) -> raises s o \/ (P s /\ keeps o)) ->
  ~ P s -> P (ghost c s tr) ->
  exists tr1 o tr2, tr = tr1 ++ o :: tr2 /\ raises (ghost c s tr1) o /\ Forall keeps tr2.
Proof.
  intros Hr Hs. induction tr as [|o tr IH] using rev_ind; intros Ht; [done|].
  rewrite ghost_app in Ht. simpl in Ht. destruct (Hr _ _ Ht) as [Hraise|[HP Hk]].
  - by exists tr, o, [].
  - destruct (IH HP) as (tr1 & o' & tr2 & -> & Ho & Hf). exists tr1, o', (tr2 ++ [o]).
    rewrite <- app_assoc. split_and!; [done..|]. apply Forall_app. auto.
Qed.

(** A handler whose every reply satisfies [R], whatever its state. *)
Definition obeys {E W} (R : forall X, E X -> X -> Prop) (h : handler E W) : Prop :=
  forall X (e : E X) w, R X e (h X e w).1.

Lemma rg_obeys {E S W A} (c : contract E S) R (h : handler E W) (p : prog E A) s w Q :
  (forall X (e : E X) x s, R X e x -> rely c e x s) -> obeys R h -> rg c p s Q ->
  monitored c s (trace h p w) /\ Q (ghost c s (trace h p w)) (value h p w).
Proof.
  intros HR Hh Hp. destruct (rg_run c h (fun _ _ => True) p s w Q) as (?&?&?); [|done..].
  intros X e s' w' _. split; [apply HR, Hh | done].
Qed.

Lemma obeys_trace {E W A} R (h : handler E W) (p : prog E A) w o :
  obeys R h -> o ∈ trace h p w -> R _ (obs_req o) (obs_reply o).
Proof.
  intros Hh. unfold trace. revert w. induction p as [a|X e k IH]; intros w; cbn; [by intros ?%elem_of_nil|].
  pose proof (Hh X e w) as He. destruct (h X e w) as [x w1]. specialize (IH x w1).
  destruct (run h (k x) w1) as [[tr a] w2]. cbn. intros [->|Ho]%elem_of_cons; auto.
Qed.

(** ** Contracts on the trace itself

    [traced R P]: the ghost state is the trace so far; what a finer contract proves of a
    program carries over. *)

Definition traced {E} (R : forall X, E X -> X -> Prop) (P : forall X, E X -> list (obs E) -> Prop)
    : contract E (list (obs E)) := {|
  rely := fun X e x _ => R X e x;
  permit := fun X e tr => P X e tr;
  record := fun X e x tr => tr ++ [Obs e x];
|}.

Lemma ghost_traced {E} R P (pre tr : list (obs E)) : ghost (traced R P) pre tr = pre ++ tr.
Proof.
  revert pre. induction tr as [|[X e x] tr IH]; intros pre; [by rewrite app_nil_r|].
  change (ghost (traced R P) (pre ++ [Obs e x]) tr = pre ++ Obs e x :: tr).
  by rewrite IH, <- app_assoc.
Qed.

Lemma rg_traced {E S A} (c : contract E S) R P (p : prog E A) s0 pre tr Q :
  (forall X (e : E X) x s, R X e x -> rely c e x s) ->
  (forall X (e : E X) tr, permit c e (ghost c s0 tr) -> P X e (pre ++ tr)) ->
  rg c p (ghost c s0 tr) Q -> rg (traced R P) p (pre ++ tr) (fun _ _ => True).
Proof.
  intros HR HP. revert tr. induction p as [a|X e k IH]; intros tr Hp; [done|]. destruct Hp as [Hok Hk].
  split; [by apply HP|]. intros x Hx. cbn. rewrite <- app_assoc. apply IH. rewrite ghost_app. cbn. auto.
Qed.

(** ** Error-returning composition

    Programs that return Go's [(value, error)] are composed with [let*]/[do*],
    which return at the first error as the source does. *)

Definition rlet {E A B} (p : prog E (result A)) (f : A -> prog E (result B)) : prog E (result B) :=
  bind p (fun x => match x with Ok a => f a | Err e => Ret (Err e) end).
Notation "'let*' x ':=' p 'in' k" := (rlet p (fun x => k))
  (at level 10, x pattern, p at level 100, k at level 200) : go_scope.
Notation "'do*' p ';' k" := (rlet p (fun _ => k))
  (at level 10, p at level 100, k at level 200) : go_scope.
(** [return fmt.Errorf("<prefix>%w", err)] on failure. *)
Definition wrapping {E A} (pre : string) (p : prog E (result A)) : prog E (result A) :=
  let! x := p in Ret (match x with Ok a => Ok a | Err e => Err (wrap pre e) end).
Definition ok {E A} (a : A) : prog E (result A) := Ret (Ok a).
Definition fails {E A} (msg : string) : prog E (result A) := Ret (Err (errorf msg)).
(** [for _, x := range l { if err := f(x); err != nil { return err } }] *)
Fixpoint for_each {E A} (l : list A) (f : A -> prog E (result unit)) : prog E (result unit) :=
  match l with
  | [] => ok tt
  | x :: l' => do* f x; for_each l' f
  end.

(** [defer os.RemoveAll(p)] around a body. *)
Definition deferring {E A} (cleanup : prog E (result unit)) (p : prog E (result A)) : prog E (result A) :=
  let! x := p in do! cleanup; Ret x.

Section rules.
Context {E : Type -> Type} {S : Type} (c : contract E S).

Lemma rg_rlet {A B} (p : prog E (result A)) (f : A -> prog E (result B)) s Q :
  rg c p s (fun s' x => match x with Ok a => rg c (f a) s' Q | Err e => Q s' (Err e) end) ->
  rg c (rlet p f) s Q.
Proof.
  intros Hp. apply rg_bind. eapply rg_mono; [exact Hp|]. by intros s' [a|e].
Qed.

Lemma rg_wrapping {A} pre (p : prog E (result A)) s Q :
  rg c p s (fun s' x => Q s' match x with Ok a => Ok a | Err e => Err (wrap pre e) end) ->
  rg c (wrapping pre p) s Q.
Proof. intros Hp. by apply rg_bind. Qed.

(** A loop keeps an invariant that its body keeps. *)
Lemma rg_for_each {A} (l : list A) f s (I : list A -> S -> Prop) :
  I [] s ->
  (forall l1 x s, x ∈ l -> I l1 s ->
     rg c (f x) s (fun s' y => match y with Ok _ => I (l1 ++ [x]) s' | Err _ => True end)) ->
  rg c (for_each l f) s (fun s' y => match y with Ok _ => I l s' | Err _ => True end).
Proof.
  intros H0 Hf.
  assert (forall l2 l1 s, l = l1 ++ l2 -> I l1 s ->
    rg c (for_each l2 f) s (fun s' y => match y with Ok _ => I l s' | Err _ => True end)) as H.
  { induction l2 as [|x l2 IH]; intros l1 s' -> Hs; simpl; [by rewrite app_nil_r|].
    apply rg_rlet. eapply rg_mono; [apply Hf; [|exact Hs]; set_solver|].
    intros s2 [[]|e]; [|done]. intros Hs2. apply (IH (l1 ++ [x])); [|done]. by rewrite <- app_assoc. }
  by apply (H l []).
Qed.
End rules.

(** ** Programs that stay within a contract whatever their result

    [within c J p]: from every ghost state in [J], [p] only makes permitted
    requests and ends in [J]. *)

Section within.
Context {E : Type -> Type} {S : Type} (c : contract E S) (J : S -> Prop).

Definition within {A} (p : prog E A) : Prop := forall s, J s -> rg c p s (fun s' _ => J s').

Lemma within_bind {A B} (p : prog E A) (f : A -> prog E B) :
  within p -> (forall a, within (f a)) -> within (bind p f).
Proof.
  intros Hp Hf s Hs. apply rg_bind. eapply rg_mono; [by apply Hp|]. intros s' a Hs'. by apply Hf.
Qed.
Lemma within_rlet {A B} (p : prog E (result A)) (f : A -> prog E (result B)) :
  within p -> (forall a, within (f a)) -> within (rlet p f).
Proof. intros Hp Hf. apply within_bind; [done|]. intros [a|e]; [apply Hf|by intros s]. Qed.
Lemma within_wrapping {A} pre (p : prog E (result A)) : within p -> within (wrapping pre p).
Proof. intros Hp. apply within_bind; [done|]. by intros a s. Qed.
Lemma within_deferring {A} q (p : prog E (result A)) : within q -> within p -> within (deferring q p).
Proof.
  intros Hq Hp. apply within_bind; [done|]. intros a. apply within_bind; [done|]. by intros b s.
Qed.
Lemma within_for_each {A} (l : list A) f : (forall x, within (f x)) -> within (for_each l f).
Proof.
  intros Hf. induction l as [|x l IH]; [by intros s|]. by apply within_rlet; [apply Hf|].
Qed.
Lemma within_ret {A} (a : A) : within (Ret a).
Proof. by intros s. Qed.
Lemma within_call {X} (e : E X) :
  (forall s, J s -> permit c e s) -> (forall s x, J s -> J (record c e x s)) -> within (call e).
Proof. intros He Hr s Hs. split; [by apply He|]. intros x _. by apply Hr. Qed.

(** Where everything is permitted, a monotone invariant holds through every program. *)
Lemma within_all {A} (p : prog E A) :
  (forall X (e : E X) s, permit c e s) -> (forall X (e : E X) x s, J s -> J (record c e x s)) ->
  within p.
Proof.
  intros He Hr. induction p as [a|X e k IH]; intros s Hs; [done|]. split; [apply He|].
  intros x _. by apply IH, Hr.
Qed.
End within.

(** Walk a program whose every request is permitted outright and leaves [J] alone. *)
Create HintDb within.
Ltac stay_within :=
  repeat match goal with
  | |- forall _, _ => intros ?
  | |- within _ _ (Ret _) => apply within_ret
  | |- within _ _ (ok _) => apply within_ret
  | |- within _ _ (fails _) => apply within_ret
  | |- within _ _ (call _) => apply within_call; [intros ? ?; exact I | by intros ? ? ?]
  | |- within _ _ (rlet _ _) => apply within_rlet
  | |- within _ _ (wrapping _ _) => apply within_wrapping
  | |- within _ _ (deferring _ _) => apply within_deferring
  | |- within _ _ (for_each _ _) => apply within_for_each
  | |- within _ _ (bind _ _) => apply within_bind
  | |- within _ _ (if ?b then _ else _) => destruct b
  | |- within _ _ (match ?x with _ => _ end) => destruct x
  | |- within _ _ _ => solve [eauto with within nocore]
  end.

(** ** What a program does, as a property of the requests it makes itself

    [does R P p Φ]: whatever happened before, the requests [p] adds to the trace and the
    result it returns satisfy [Φ]; [succeeds] asks this of the error-free results only. *)

Section does.
Context {E : Type -> Type} (R : forall X, E X -> X -> Prop) (P : forall X, E X -> list (obs E) -> Prop).

Definition does {A} (p : prog E A) (Φ : list (obs E) -> A -> Prop) : Prop :=
  forall tr, rg (traced R P) p tr (fun tr' x => exists t, tr' = tr ++ t /\ Φ t x).
Definition succeeds {A} (p : prog E (result A)) (Φ : list (obs E) -> A -> Prop) : Prop :=
  does p (fun t x => match x with Ok a => Φ t a | Err _ => True end).

Lemma does_mono {A} (p : prog E A) (Φ Ψ : list (obs E) -> A -> Prop) :
  does p Φ -> (forall t x, Φ t x -> Ψ t x) -> does p Ψ.
Proof. intros Hp H tr. eapply rg_mono; [apply Hp|]. intros tr' x (t & -> & Hx). eauto. Qed.
Lemma succeeds_mono {A} (p : prog E (result A)) (Φ Ψ : list (obs E) -> A -> Prop) :
  succeeds p Φ -> (forall t x, Φ t x -> Ψ t x) -> succeeds p Ψ.
Proof. intros Hp H. eapply does_mono; [exact Hp|]. intros t [a|e]; eauto. Qed.

Lemma does_ret {A} (a : A) (Φ : list (obs E) -> A -> Prop) : Φ [] a -> does (Ret a) Φ.
Proof. intros H tr. exists []. by rewrite app_nil_r. Qed.
Lemma does_call {X} (e : E X) (Φ : list (obs E) -> X -> Prop) :
  (forall tr, P X e tr) -> (forall x, R X e x -> Φ [Obs e x] x) -> does (call e) Φ.
Proof. intros HP H tr. split; [apply HP|]. intros x Hx. exists [Obs e x]. split; [done|by apply H]. Qed.
Lemma does_bind {A B} (p : prog E A) (f : A -> prog E B) Ψ Φ :
  does p Ψ -> (forall t1 a, Ψ t1 a -> does (f a) (fun t2 b => Φ (t1 ++ t2) b)) -> does (bind p f) Φ.
Proof.
  intros Hp Hf tr. apply rg_bind. eapply rg_mono; [apply Hp|]. intros tr1 a (t1 & -> & Ha).
  eapply rg_mono; [by apply (Hf t1 a Ha)|]. intros tr2 b (t2 & -> & Hb). exists (t1 ++ t2). by rewrite app_assoc.
Qed.

Lemma succeeds_ok {A} (a : A) (Φ : list (obs E) -> A -> Prop) : Φ [] a -> succeeds (Ret (Ok a)) Φ.
Proof. apply does_ret. Qed.
Lemma succeeds_err {A} e (Φ : list (obs E) -> A -> Prop) : succeeds (Ret (Err e)) Φ.
Proof. by apply does_ret. Qed.
Lemma succeeds_call {A} (e : E (result A)) (Φ : list (obs E) -> A -> Prop) :
  (forall tr, P _ e tr) -> (forall a, Φ [Obs e (Ok a)] a) -> succeeds (call e) Φ.
Proof. intros HP H. apply does_call; [done|]. intros [a|err] _; [apply H|done]. Qed.
Lemma succeeds_rlet {A B} (p : prog E (result A)) (f : A -> prog E (result B)) Ψ Φ :
  succeeds p Ψ -> (forall t1 a, Ψ t1 a -> succeeds (f a) (fun t2 b => Φ (t1 ++ t2) b)) -> succeeds (rlet p f) Φ.
Proof.
  intros Hp Hf. eapply does_bind; [exact Hp|]. intros t1 [a|e] Ha; [by apply Hf|by apply does_ret].
Qed.
Lemma succeeds_bind {A B} (p : prog E A) (f : A -> prog E (result B)) Ψ Φ :
  does p Ψ -> (forall t1 a, Ψ t1 a -> succeeds (f a) (fun t2 b => Φ (t1 ++ t2) b)) -> succeeds (bind p f) Φ.
Proof. intros Hp Hf. eapply does_bind; [exact Hp|]. intros t1 a Ha. exact (Hf t1 a Ha). Qed.
Lemma succeeds_wrapping {A} pre (p : prog E (result A)) Φ : succeeds p Φ -> succeeds (wrapping pre p) Φ.
Proof.
  intros Hp. eapply does_bind; [exact Hp|]. intros t [a|e] Ha; apply does_ret; [by rewrite app_nil_r|done].
Qed.
Lemma succeeds_for_each {A} (l : list A) f (Φ : A -> list (obs E) -> Prop) :
  (forall x t t', Φ x t -> Φ x (t' ++ t)) -> (forall x t t', Φ x t -> Φ x (t ++ t')) ->
  (forall x, x ∈ l -> succeeds (f x) (fun t _ => Φ x t)) ->
  succeeds (for_each l f) (fun t _ => forall x, x ∈ l -> Φ x t).
Proof.
  intros Hl Hr. induction l as [|x l IH]; intros Hf; cbn [for_each].
  { apply succeeds_ok. by intros x ?%elem_of_nil. }
  eapply succeeds_rlet; [apply Hf; by left|]. intros t1 [] H1. eapply succeeds_mono; [apply IH; set_solver|].
  intros t2 [] H2 y [->|Hy]%elem_of_cons; [by apply Hr|by apply Hl, H2].
Qed.

Lemma does_reply {X B} (e : E X) (f : X -> prog E B) Φ :
  (forall tr, P _ e tr) -> (forall x, does (f x) (fun t b => Φ (Obs e x :: t) b)) -> does (bind (call e) f) Φ.
Proof.
  intros HP Hf. apply (does_bind _ _ (fun t x => t = [Obs e x])); [by apply does_call|].
  intros t1 a ->. apply Hf.
Qed.
Lemma succeeds_step {A B} (e : E (result A)) (f : A -> prog E (result B)) Φ :
  (forall tr, P _ e tr) -> (forall a, succeeds (f a) (fun t b => Φ (Obs e (Ok a) :: t) b)) ->
  succeeds (rlet (call e) f) Φ.
Proof.
  intros HP Hf. apply (succeeds_rlet _ _ (fun t a => t = [Obs e (Ok a)])); [by apply succeeds_call|].
  intros t1 a ->. apply Hf.
Qed.
Lemma succeeds_reply {X B} (e : E X) (f : X -> prog E (result B)) Φ :
  (forall tr, P _ e tr) -> (forall x, succeeds (f x) (fun t b => Φ (Obs e x :: t) b)) ->
  succeeds (bind (call e) f) Φ.
Proof. intros HP Hf. apply does_reply; [done|]. exact Hf. Qed.
Lemma does_within {A} (p : prog E A) : within (traced R P) (fun _ => True) p -> does p (fun _ _ => True).
Proof.
  intros Hw tr. specialize (Hw tr I). revert tr Hw. induction p as [a|X e k IH]; intros tr; cbn [rg].
  { intros _. exists []. by rewrite app_nil_r. }
  intros [HP Hk]. split; [done|]. intros x Hx. eapply rg_mono; [by apply IH, Hk|].
  intros tr' a (t & -> & _). exists (Obs e x :: t). cbn [record traced]. by rewrite <- app_assoc.
Qed.
Lemma succeeds_within {A} (p : prog E (result A)) :
  within (traced R P) (fun _ => True) p -> succeeds p (fun _ _ => True).
Proof. intros Hw. eapply does_mono; [by apply does_within|]. by intros t []. Qed.

(** The same for programs with an early exit: what is done when they go on. *)
Definition proceeds {L A} (p : prog E (L + A)) (Φ : list (obs E) -> A -> Prop) : Prop :=
  does p (fun t x => match x with inr a => Φ t a | inl _ => True end).

Lemma proceeds_mono {L A} (p : prog E (L + A)) (Φ Ψ : list (obs E) -> A -> Prop) :
  proceeds p Φ -> (forall t a, Φ t a -> Ψ t a) -> proceeds p Ψ.
Proof. intros Hp H. eapply does_mono; [exact Hp|]. intros t [l|a]; eauto. Qed.
Lemma proceeds_ret {L A} (a : A) (Φ : list (obs E) -> A -> Prop) : Φ [] a -> proceeds (Ret (@inr L A a)) Φ.
Proof. apply does_ret. Qed.
Lemma proceeds_bind {L A B} (p : prog E A) (f : A -> prog E (L + B)) Ψ Φ :
  does p Ψ -> (forall t1 a, Ψ t1 a -> proceeds (f a) (fun t2 b => Φ (t1 ++ t2) b)) -> proceeds (bind p f) Φ.
Proof. intros Hp Hf. eapply does_bind; [exact Hp|]. intros t1 a Ha. exact (Hf t1 a Ha). Qed.
Lemma proceeds_ebind {L A B} (p : prog E (L + A)) (f : A -> prog E (L + B)) Ψ Φ :
  proceeds p Ψ -> (forall t1 a, Ψ t1 a -> proceeds (f a) (fun t2 b => Φ (t1 ++ t2) b)) -> proceeds (ebind p f) Φ.
Proof.
  intros Hp Hf. eapply does_bind; [exact Hp|]. intros t1 [l|a] Ha; [by apply does_ret|exact (Hf t1 a Ha)].
Qed.
Lemma proceeds_within {L A} (p : prog E (L + A)) :
  within (traced R P) (fun _ => True) p -> proceeds p (fun _ _ => True).
Proof. intros Hw. eapply does_mono; [by apply does_within|]. by intros t []. Qed.

(** A program that also keeps to a set of requests. *)
Definition keeps_to {A} (c : contract E unit) (p : prog E A) : Prop :=
  (forall X (e : E X) x s, rely c e x s) /\ within c (fun _ => True) p.
Lemma does_and_keeps {A} (c : contract E unit) (p : prog E A) Φ :
  does p Φ -> keeps_to c p ->
  does p (fun t x => Φ t x /\ Forall (fun o => permit c (obs_req o) tt) t).
Proof.
  intros Hp [Hr Hw] tr. specialize (Hw tt I). specialize (Hp tr).
  assert (forall (q : prog E A) tr0 Q, rg (traced R P) q tr0 Q -> rg c q tt (fun _ _ => True) ->
    rg (traced R P) q tr0 (fun tr' x => Q tr' x /\ exists t, tr' = tr0 ++ t
      /\ Forall (fun o => permit c (obs_req o) tt) t)) as H.
  { induction q as [a|X e k IH]; intros tr0 Q; cbn [rg].
    - intros HQ _. split; [done|]. exists []. by rewrite app_nil_r.
    - intros [HP Hk] [Hc Hk']. split; [done|]. intros x Hx.
      assert (rg c (k x) tt (fun _ _ => True)) as Hk'' by (specialize (Hk' x (Hr _ _ _ _)); by destruct (record c e x tt)).
      eapply rg_mono; [exact (IH x _ _ (Hk x Hx) Hk'')|].
      intros tr' a [HQ (t & -> & Ht)]. split; [done|]. exists (Obs e x :: t). cbn [record traced].
      rewrite <- app_assoc. split; [done|]. by apply Forall_cons. }
  eapply rg_mono; [exact (H p tr _ Hp Hw)|]. intros tr' x [(t & -> & Hx) (t' & Ht & Hf)].
  apply app_inv_head in Ht as ->. eauto.
Qed.
End does.

(** The same early-return rule for a concrete run. *)
Lemma run_rlet {E W A B} (h : handler E W) (p : prog E (result A)) (f : A -> prog E (result B)) w :
  run h (rlet p f) w =
    let '(tr1, a, w1) := run h p w in
    match a with
    | Ok a => let '(tr2, b, w2) := run h (f a) w1 in (tr1 ++ tr2, b, w2)
    | Err e => (tr1, Err e, w1)
    end.
Proof.
  unfold rlet. rewrite run_bind. destruct (run h p w) as [[tr1 [a|e]] w1]; [done|].
  simpl. by rewrite app_nil_r.
Qed.

(** [rg] proofs proceed through binds; each stage's lemma is supplied by hand. *)
Ltac rg_step :=
  match goal with
  | |- rg _ (ebind _ _) _ _ => apply rg_ebind
  | |- rg _ (bind _ _) _ _ => apply rg_bind
  | |- rg _ (body _) _ _ => apply rg_body
  | |- rg _ (call _) _ _ => apply rg_call; [try done | intros ? ?; simpl]
  | |- rg _ (Ret _) _ _ => simpl
  | |- rg _ (leave _) _ _ => simpl
  | |- rg _ (if ?b then _ else _) _ _ => destruct b eqn:?
  | |- rg _ (match ?x with _ => _ end) _ _ => destruct x eqn:?
  end.
