(* ===== verification/Api.v ===== *)
(** * Requests to the services around the operator

    The Kubernetes API server behind controller-runtime's client, the runtimes'
    and the cache-manager's HTTP endpoints, the clock and the select on a
    context are requests of [kev]; their replies are unconstrained.  Client
    calls that overwrite their argument with the server's copy ([Update],
    [Status().Update], [Patch], [Create]) reply with that copy.

    Also here: the four copies of the condition upsert. *)

From S2P Require Import Prelude GoStrings Types Effects.

(** The body of [POST /v1/ensure] and [/v1/sweep] ([internal/cache/client.go]). *)
Record CacheSpec := mkCacheSpec {
  cs_kind : string;
  cs_repoID : string;
  cs_revision : string;
  cs_size : Z;
  cs_files : list string;
  cs_target : string;
}.
Record CacheRequest := mkCacheRequest {
  cr_model : string; cr_backend : string; cr_cache : CacheSpec }.

Record http_response := mkResponse {
  hr_code : Z;
  (** [Response.Status], e.g. 404 Not Found *)
  hr_status : string;
  (** the [X-LLM-Cache-Result] header *)
  hr_cacheResult : string;
  (** the body, or the error reading it *)
  hr_body : result string;
}.

Inductive metric :=
| TransitionDuration (d : Z) (model : string)
| TransitionFailure (model reason : string)
| ModelSwitch (from to backend : string).

(** The contexts a wait can be given: the one controller-runtime hands to a reconcile, which
    is cancelled at shutdown and has no deadline, and [context.WithTimeout]. *)
Inductive context :=
| ReconcileContext
| WithTimeout (parent : context) (timeout : Z).
#[export] Instance context_eq_dec : EqDecision context.
Proof. solve_decision. Defined.

Inductive kev : Type -> Type :=
| GetActive (ns name : string) : kev (result LLMActiveModel)
| ListActive (ns : string) : kev (result (list LLMActiveModel))
| UpdateActiveStatus (a : LLMActiveModel) : kev (result LLMActiveModel)
| GetModel (ns name : string) : kev (result LLMModel)
| ListModels (ns : string) : kev (result (list LLMModel))
| UpdateModel (m : LLMModel) : kev (result LLMModel)
| UpdateModelStatus (m : LLMModel) : kev (result LLMModel)
| GetBackend (ns name : string) : kev (result LLMBackend)
| ListBackends (ns : string) : kev (result (list LLMBackend))
| UpdateBackend (b : LLMBackend) : kev (result LLMBackend)
| UpdateBackendStatus (b : LLMBackend) : kev (result LLMBackend)
| GetOverlay (ns name : string) : kev (result LLMModelOverlay)
| ListOverlays (ns : string) : kev (result (list LLMModelOverlay))
| UpdateOverlayStatus (o : LLMModelOverlay) : kev (result LLMModelOverlay)
| GetDeployment (ns name : string) : kev (result Deployment)
| CreateDeployment (d : Deployment) : kev (result Deployment)
(** [Patch(obj, client.MergeFrom(base))] *)
| PatchDeployment (base d : Deployment) : kev (result Deployment)
(** the raw merge patch of [spec.replicas] on a fetched Deployment *)
| ScaleDeployment (d : Deployment) (replicas : Z) : kev (result Deployment)
| GetService (ns name : string) : kev (result Service)
| CreateService (s : Service) : kev (result Service)
| PatchService (base s : Service) : kev (result Service)
| GetConfigMap (ns name : string) : kev (result ConfigMap)
| HttpGet (url : string) : kev (result http_response)
| HttpPostCache (url : string) (r : CacheRequest) : kev (result http_response)
| Now : kev Z
(** [select { case <-ctx.Done(): ... case <-time.After(interval): }]:
    [Some err] when the context is done, with [ctx.Err()]. *)
| WaitTick (ctx : context) (interval : Z) : kev (option error)
| Metric (m : metric) : kev unit
| RecordEvent (reason message : string) : kev unit.

Notation kprog := (prog kev).

(** What the sources use of libraries and cannot read: renderings of times and
    durations, SHA-256, the JSON decoder, the URL parser behind [http.NewRequest]. *)
Record golib := mkGolib {
  (** [t.UTC().Format(time.RFC3339Nano)] *)
  formatTime : Z -> string;
  (** [time.Duration.String] *)
  showDuration : Z -> string;
  (** lowercase hex of the SHA-256 digest *)
  sha256hex : string -> string;
  (** the [id]s of an OpenAI model list *)
  decodeModelIDs : string -> result (list string);
  (** the error [http.NewRequest] reports for a URL, if any *)
  newRequest : string -> option error;
  (** [time.Parse(time.RFC3339Nano, s)] *)
  parseTime : string -> option Z;
  (** the keys of a JSON object ([json.Unmarshal] into a map of raw values) *)
  decodeKeys : string -> result (list string);
}.

(** [t.IsZero()] of a [*metav1.Time]. *)
Definition time_is_zero (t : option Z) : bool := match t with Some t => t =? 0 | None => true end.
(** [controllerutil.ContainsFinalizer], [AddFinalizer], [RemoveFinalizer]. *)
Definition containsString (l : list string) (s : string) : bool := existsb (fun x => x == s) l.
Definition addFinalizer (f : string) (l : list string) : list string :=
  if containsString l f then l else l ++ [f].
Definition removeFinalizer (f : string) (l : list string) : list string :=
  List.filter (fun x => x != f) l.

(** What a reconcile returns to controller-runtime: a [ctrl.Result] and an error,
    or a nil dereference. *)
Record Result := mkResult { Requeue : bool; RequeueAfter : Z }.
Inductive outcome :=
| Return (r : Result) (err : option error)
| Panic.
Definition done_result : Result := mkResult false 0.
Definition seconds (n : Z) : Z := n * 1000000000.
(** [return ctrl.Result{}, err] *)
Definition fail_with (e : error) : outcome := Return done_result (Some e).
(** [client.IgnoreNotFound] *)
Definition ignoreNotFound (e : error) : option error :=
  if err_is ErrNotFound e then None else Some e.

(** [return err] of a failed call: continue with the value, or leave with [r]. *)
Definition orelse {R A} (x : result A) (r : error -> kprog (R + A)) : kprog (R + A) :=
  match x with Ok a => Ret (inr a) | Err e => r e end.

(** ** Conditions

    [setCondition], [setActiveCondition], [setBackendCondition] and
    [setOverlayCondition] are the same upsert on four status types. *)

Fixpoint upsert_condition (now : Z) (ty : string) (st : ConditionStatus)
    (reason message : string) (l : list Condition) : list Condition :=
  match l with
  | [] => [mkCondition ty st reason message now]
  | c :: l' =>
      if cond_type c == ty then
        (if (cond_status c != st) || (cond_reason c != reason) || (cond_message c != message)
         then mkCondition (cond_type c) st reason message now
         else c) :: l'
      else c :: upsert_condition now ty st reason message l'
  end.

Definition setCondition (now : Z) (ty : string) (st : ConditionStatus)
    (reason message : string) (s : LLMModelStatus) : LLMModelStatus :=
  mkModelStatus (mst_phase s) (mst_active s) (mst_cacheState s) (mst_runtime s)
    (upsert_condition now ty st reason message (mst_conditions s)) (mst_observedGeneration s).
Definition setActiveCondition (now : Z) (ty : string) (st : ConditionStatus)
    (reason message : string) (s : LLMActiveModelStatus) : LLMActiveModelStatus :=
  mkActiveStatus (ast_modelName s) (ast_backendType s) (ast_phase s) (ast_transitionFrom s)
    (ast_transitionStarted s) (ast_transitionDuration s) (ast_transitionGeneration s)
    (upsert_condition now ty st reason message (ast_conditions s)) (ast_observedGeneration s).
Definition setBackendCondition (now : Z) (ty : string) (st : ConditionStatus)
    (reason message : string) (s : LLMBackendStatus) : LLMBackendStatus :=
  mkBackendStatus (bst_phase s) (bst_activeModel s) (bst_activeModelSince s) (bst_replicas s)
    (bst_available s) (upsert_condition now ty st reason message (bst_conditions s))
    (bst_observedGeneration s).
Definition setOverlayCondition (now : Z) (ty : string) (st : ConditionStatus)
    (reason message : string) (s : LLMModelOverlayStatus) : LLMModelOverlayStatus :=
  mkOverlayStatus (ost_resolvedBaseModel s)
    (upsert_condition now ty st reason message (ost_conditions s)) (ost_observedGeneration s).

Definition find_condition (ty : string) (l : list Condition) : option Condition :=
  List.find (fun c => cond_type c == ty) l.

Section conditions.
Context (ty : string) (st : ConditionStatus) (reason message : string).

Lemma upsert_found now l :
  exists c, find_condition ty (upsert_condition now ty st reason message l) = Some c
    /\ cond_type c = ty /\ cond_status c = st /\ cond_reason c = reason
    /\ cond_message c = message.
Proof.
  unfold find_condition. induction l as [|c l IH]; simpl.
  - rewrite bool_decide_eq_true_2 by done. eexists; split; [done|]. done.
  - case_bool_decide as E; simpl; [|rewrite bool_decide_eq_false_2 by done; exact IH].
    destruct (_ || _) eqn:B; simpl; rewrite bool_decide_eq_true_2 by done; eexists; split; try done.
    ok_inv. rewrite !bool_decide_eq_true in *. done.
Qed.

Lemma upsert_other now l ty' :
  ty' <> ty ->
  find_condition ty' (upsert_condition now ty st reason message l) = find_condition ty' l.
Proof.
  intros Hne. unfold find_condition. induction l as [|c l IH]; simpl.
  - by rewrite bool_decide_eq_false_2 by congruence.
  - case_bool_decide as E; simpl.
    + rewrite (bool_decide_eq_false_2 (cond_type c = ty')) by congruence.
      destruct (_ || _); simpl; by rewrite bool_decide_eq_false_2 by congruence.
    + case_bool_decide; [done | exact IH].
Qed.

Lemma upsert_types now l :
  map cond_type (upsert_condition now ty st reason message l)
  = if decide (ty ∈ map cond_type l) then map cond_type l else map cond_type l ++ [ty].
Proof.
  induction l as [|c l IH]; cbn [map upsert_condition].
  - by destruct (decide (ty ∈ [])) as [[]%elem_of_nil|].
  - case_bool_decide as E.
    + rewrite decide_True by (rewrite E; by left). cbn [map]. f_equal. by destruct (_ || _).
    + cbn [map]. rewrite IH. destruct (decide (ty ∈ map cond_type l)) as [Hin|Hin].
      * by rewrite decide_True by (by right).
      * rewrite decide_False; [done|]. rewrite elem_of_cons. intros [?|?]; congruence.
Qed.

Lemma upsert_stable now now' l :
  upsert_condition now' ty st reason message (upsert_condition now ty st reason message l)
  = upsert_condition now ty st reason message l.
Proof.
  induction l as [|c l IH]; simpl.
  - repeat rewrite bool_decide_eq_true_2 by done. done.
  - case_bool_decide as E; simpl.
    + destruct (_ || _) eqn:B; simpl; rewrite (bool_decide_eq_true_2 (_ = ty)) by done.
      * repeat rewrite bool_decide_eq_true_2 by done. done.
      * by rewrite B.
    + rewrite (bool_decide_eq_false_2 (_ = ty)) by done. by rewrite IH.
Qed.
End conditions.

Lemma upsert_NoDup now ty st reason message l :
  NoDup (map cond_type l) -> NoDup (map cond_type (upsert_condition now ty st reason message l)).
Proof.
  intros Hl. rewrite upsert_types. case_decide as Hin; [done|].
  apply list.NoDup_app. split; [done|]. split; [|apply NoDup_singleton].
  intros x Hx ->%list_elem_of_singleton. done.
Qed.

(** ** Reading a trace *)

Definition patch_of (o : obs kev) : option (Deployment * Deployment) :=
  match obs_req o with PatchDeployment base d => Some (base, d) | _ => None end.
Definition scale_of (o : obs kev) : option (Deployment * Z) :=
  match obs_req o with ScaleDeployment d n => Some (d, n) | _ => None end.
Definition create_of (o : obs kev) : option Deployment :=
  match obs_req o with CreateDeployment d => Some d | _ => None end.
Definition active_write_of (o : obs kev) : option LLMActiveModel :=
  match obs_req o with UpdateActiveStatus a => Some a | _ => None end.
Definition model_write_of (o : obs kev) : option LLMModel :=
  match obs_req o with UpdateModelStatus m => Some m | _ => None end.
Definition ensure_of (o : obs kev) : option CacheRequest :=
  match obs_req o with HttpPostCache _ r => Some r | _ => None end.
Definition patches (tr : list (obs kev)) : list (Deployment * Deployment) := omap patch_of tr.
Lemma patches_cons o tr : patches (o :: tr) = option_list (patch_of o) ++ patches tr.
Proof. unfold patches. simpl. by destruct (patch_of o). Qed.
Lemma patches_app tr1 tr2 : patches (tr1 ++ tr2) = patches tr1 ++ patches tr2.
Proof. apply omap_app. Qed.
Definition scales (tr : list (obs kev)) : list (Deployment * Z) := omap scale_of tr.
Definition active_writes (tr : list (obs kev)) : list LLMActiveModel := omap active_write_of tr.
Definition model_writes (tr : list (obs kev)) : list LLMModel := omap model_write_of tr.
Definition ensures (tr : list (obs kev)) : list CacheRequest := omap ensure_of tr.
Definition backend_update_of (o : obs kev) : option LLMBackend :=
  match obs_req o with UpdateBackend b => Some b | _ => None end.
Definition backend_updates (tr : list (obs kev)) : list LLMBackend := omap backend_update_of tr.
Definition backend_write_of (o : obs kev) : option LLMBackend :=
  match obs_req o with UpdateBackendStatus b => Some b | _ => None end.
Definition backend_writes (tr : list (obs kev)) : list LLMBackend := omap backend_write_of tr.
Definition overlay_write_of (o : obs kev) : option LLMModelOverlay :=
  match obs_req o with UpdateOverlayStatus x => Some x | _ => None end.
Definition overlay_writes (tr : list (obs kev)) : list LLMModelOverlay := omap overlay_write_of tr.
(** A request that changes a Deployment. *)
Definition mutates_deployment (o : obs kev) : bool :=
  match obs_req o with
  | PatchDeployment _ _ | ScaleDeployment _ _ | CreateDeployment _ => true
  | _ => false
  end.
