(* ===== verification/Driver.v ===== *)
(** * Backend drivers ([internal/backend/driver.go])

    The three compiled-in runtimes as values of [runtimeDriver], the registry,
    argument validation and injection, cache requests, size parsing and the
    observation of a running backend.  HTTP replies come from the service; the
    JSON decoding of the discovery reply is a parameter. *)

From Stdlib Require Import Ascii.
From S2P Require Import Prelude GoStrings GoPath Types Effects Api.

Inductive CacheFormat := CacheFormatHuggingFace | CacheFormatGGUF.
#[export] Instance CacheFormat_eq_dec : EqDecision CacheFormat.
Proof. solve_decision. Defined.

Record Capabilities := mkCapabilities {
  cap_discovery : bool;
  cap_toolCallParser : bool;
  cap_reasoningParser : bool;
  cap_chatTemplate : bool;
  cap_metrics : bool;
  cap_cacheFormat : CacheFormat;
  cap_healthPath : string;
}.

Record runtimeDriver := mkDriver {
  kind : BackendType;
  capabilities : Capabilities;
  injectedFlags : list string;
  toolCallFlag : string;
  reasoningFlag : string;
  chatTemplateFlags : list string;
  maxConcurrencyFlags : list string;
  build : LLMModel -> slice string -> slice string;
  parseMetrics : option (string -> nilmap);
}.

(** ** Argument lists *)

Definition matches_flag (flag arg : string) : bool :=
  (arg == flag) || has_prefix arg (flag +:+ "=").

Definition containsFlag (args : list string) (flag : string) : bool :=
  existsb (matches_flag flag) args.

Definition is_injected (flags : list string) (arg : string) : bool :=
  existsb (fun flag => (arg == flag) || has_prefix arg (flag +:+ "=")
                       || has_prefix arg (flag +:+ " ")) flags.

Definition ValidateArgs (d : runtimeDriver) (args : list string) : result unit :=
  match List.find (is_injected (injectedFlags d)) args with
  | Some arg => Err (errorf ("arg " +:+ quote arg +:+
      " is a controller-injected flag and must not be in spec.serving.args"))
  | None => Ok tt
  end.

Definition chatTemplateMountPath : string := "/etc/llm-templates/chat-template.jinja".

Definition chatTemplateArgs (d : runtimeDriver) : list string :=
  if kind d == BackendVLLM then ["--chat-template"; chatTemplateMountPath]
  else if kind d == BackendLlamaCpp then
    ["--jinja"; "--chat-template-file"; chatTemplateMountPath]
  else [].

Definition EffectiveArgs (d : runtimeDriver) (m : LLMModel) : slice string :=
  let srv := m_serving m in
  let args := append None (srv_args srv) in
  let args := build d m args in
  let args := if (srv_toolCallParser srv != "") && (toolCallFlag d != "")
              then append args [toolCallFlag d; srv_toolCallParser srv] else args in
  let args := if (srv_reasoningParser srv != "") && (reasoningFlag d != "")
              then append args [reasoningFlag d; srv_reasoningParser srv] else args in
  match srv_chatTemplate srv with
  | Some _ => append args (chatTemplateArgs d)
  | None => args
  end.

(** [launchArguments]: flags with their values; a flag followed by another flag
    (or by nothing) is "true".  Later occurrences overwrite earlier ones. *)
Fixpoint launch_from (args : list string) (values : strmap) : strmap :=
  match args with
  | [] => values
  | a :: rest =>
      if has_prefix a "-" then
        match rest with
        | v :: rest' => if has_prefix v "-" then launch_from rest (<[a:="true"]> values)
                        else launch_from rest' (<[a:=v]> values)
        | [] => <[a:="true"]> values
        end
      else launch_from rest values
  end.
Definition launchArguments (args : list string) : strmap := launch_from args ∅.

(** ** Sizes *)

Definition sizeTable : list (string * Z) :=
  [("Gi", 1024 * 1024 * 1024); ("Mi", 1024 * 1024); ("Ki", 1024);
   ("G", 1000 * 1000 * 1000); ("M", 1000 * 1000); ("K", 1000)].

(** [parseSize], the map ranged over in the order of [table]. *)
Definition parseSizeWith (table : list (string * Z)) (size : string) : result Z :=
  let '(multiplier, digits) :=
    match List.find (fun e => has_suffix size (fst e)) table with
    | Some (suffix, value) => (value, trim_suffix size suffix)
    | None => (1, size)
    end in
  try value := parse_int64 digits in
  guard (0 <? value) else errorf "size must be greater than zero" in
  Ok (int64 (value * multiplier)).
Definition parseSize (size : string) : result Z := parseSizeWith sizeTable size.

(** ** Validation *)

Definition target_ok (target : string) : bool :=
  negb (negb (has_prefix target "gguf/") || (clean target != target)
        || has_prefix target "/" || contains_sub target "..").

Definition Validate_parsers (d : runtimeDriver) (m : LLMModel) : result unit :=
  let srv := m_serving m in
  try _ := (if srv_toolCallParser srv != "" then
      guard cap_toolCallParser (capabilities d)
        else errorf ("backend " +:+ quote (kind d) +:+ " does not support toolCallParser") in
      guard negb (containsFlag (srv_args srv) (toolCallFlag d))
        else errorf ("toolCallParser cannot be used with raw " +:+ quote (toolCallFlag d) +:+ " args") in
      Ok tt
    else Ok tt) in
  if srv_reasoningParser srv != "" then
    guard cap_reasoningParser (capabilities d)
      else errorf ("backend " +:+ quote (kind d) +:+ " does not support reasoningParser") in
    guard negb (containsFlag (srv_args srv) (reasoningFlag d))
      else errorf ("reasoningParser cannot be used with raw " +:+ quote (reasoningFlag d) +:+ " args") in
    Ok tt
  else Ok tt.

Definition Validate_template (d : runtimeDriver) (m : LLMModel) : result unit :=
  match m_template m with
  | None => Ok tt
  | Some _ =>
      guard cap_chatTemplate (capabilities d)
        else errorf ("backend " +:+ quote (kind d) +:+ " does not support chatTemplate") in
      match List.find (containsFlag (srv_args (m_serving m))) (chatTemplateFlags d) with
      | Some flag => Err (errorf ("chatTemplate cannot be used with raw " +:+ quote flag +:+ " args"))
      | None => Ok tt
      end
  end.

Definition Validate_artifact (d : runtimeDriver) (m : LLMModel) : result unit :=
  match ms_artifact (m_spec m) with
  | None => Ok tt
  | Some art =>
      try _ := (if art_expectedSize art != "" then
          match parseSize (art_expectedSize art) with
          | Ok _ => Ok tt
          | Err e => Err (wrap ("invalid artifact expectedSize " +:+ quote (art_expectedSize art) +:+ ": ") e)
          end
        else Ok tt) in
      if cap_cacheFormat (capabilities d) == CacheFormatGGUF then
        guard ref_artifactRepository (ms_model (m_spec m)) != ""
          else errorf ("backend " +:+ quote (kind d) +:+
                 " requires model.artifactRepository for cached GGUF artifacts") in
        guard negb (length (art_files art) =? 0)%nat
          else errorf ("backend " +:+ quote (kind d) +:+
                 " requires artifact.files for cached GGUF artifacts") in
        if art_target art != "" then
          guard target_ok (art_target art)
            else errorf ("backend " +:+ quote (kind d) +:+
                 " requires artifact.materializationTarget to be a clean relative path rooted at gguf/") in
          Ok tt
        else Ok tt
      else Ok tt
  end.

Definition Validate (d : runtimeDriver) (m : LLMModel) : result unit :=
  if (m_backend m != "") && (m_backend m != kind d) then
    Err (errorf ("driver " +:+ quote (kind d) +:+ " cannot serve model configured for backend "
                 +:+ quote (m_backend m)))
  else
    try _ := ValidateArgs d (srv_args (m_serving m)) in
    try _ := Validate_parsers d m in
    try _ := Validate_template d m in
    Validate_artifact d m.

(** ** Cache requests *)

Definition cacheManagerKind (f : CacheFormat) : string :=
  match f with
  | CacheFormatHuggingFace => "huggingface-hub"
  | CacheFormatGGUF => "huggingface-files"
  end.

(** [Ok None] is [return nil, nil]. *)
Definition CacheRequestFor (d : runtimeDriver) (m : LLMModel) : result (option CacheRequest) :=
  try _ := Validate d m in
  let fmt := cap_cacheFormat (capabilities d) in
  let ref := ms_model (m_spec m) in
  let repository := if fmt == CacheFormatGGUF then ref_artifactRepository ref else ref_name ref in
  match ms_artifact (m_spec m) with
  | None =>
      if fmt != CacheFormatHuggingFace then Ok None
      else Ok (Some (mkCacheRequest (ref_name ref) (kind d)
             (mkCacheSpec (cacheManagerKind fmt) repository (ref_revision ref) 0 [] "")))
  | Some art =>
      try size := (if art_expectedSize art != "" then parseSize (art_expectedSize art) else Ok 0) in
      Ok (Some (mkCacheRequest (ref_name ref) (kind d)
             (mkCacheSpec (cacheManagerKind fmt) repository (ref_revision ref) size
                (art_files art) (art_target art))))
  end.

(** ** Prometheus labels *)

Definition carriage_return : ascii := byte 13.
Definition strip_cr (l : string) : string := trim_suffix l (char1 carriage_return).
(** [bufio.Scanner] over lines: a trailing empty line is not a token, and a line
    that fills the 64 KiB buffer stops the scan. *)
Definition scan_lines (text : string) : list string :=
  let segs := split_on newline text in
  let segs := if List.last segs "" == "" then removelast segs else segs in
  let fix go l := match l with
    | [] => []
    | x :: l' => if Z.of_nat (String.length x) <? 65536 then strip_cr x :: go l' else []
    end in go segs.

Definition hexval (c : ascii) : option Z :=
  let n := nat_of_ascii c in
  if (48 <=? n)%nat && (n <=? 57)%nat then Some (Z.of_nat n - 48)
  else if (97 <=? n)%nat && (n <=? 102)%nat then Some (Z.of_nat n - 87)
  else if (65 <=? n)%nat && (n <=? 70)%nat then Some (Z.of_nat n - 55)
  else None.
(** [n] digits in base [b]. *)
Fixpoint take_digits (b : Z) (n : nat) (acc : Z) (s : string) : option (Z * string) :=
  match n, s with
  | O, _ => Some (acc, s)
  | S n', String c s' =>
      match hexval c with
      | Some d => if d <? b then take_digits b n' (acc * b + d) s' else None
      | None => None
      end
  | S _, EmptyString => None
  end.
Definition zbyte (z : Z) : ascii := byte (Z.to_nat z).
Definition utf8_encode (r : Z) : string :=
  if r <? 128 then char1 (zbyte r)
  else if r <? 2048 then String (zbyte (192 + r / 64)) (char1 (zbyte (128 + r mod 64)))
  else if r <? 65536 then
    String (zbyte (224 + r / 4096)) (String (zbyte (128 + r / 64 mod 64)) (char1 (zbyte (128 + r mod 64))))
  else String (zbyte (240 + r / 262144)) (String (zbyte (128 + r / 4096 mod 64))
         (String (zbyte (128 + r / 64 mod 64)) (char1 (zbyte (128 + r mod 64))))).
Definition valid_rune (r : Z) : bool := (r <? 55296) || ((57344 <=? r) && (r <=? 1114111)).

(** One escape sequence, after its backslash: its bytes and what follows. *)
Definition unescape (s : string) : option (string * string) :=
  match s with
  | EmptyString => None
  | String c s' =>
      let simple n := Some (char1 (byte n), s') in
      match c with
      | "a"%char => simple 7%nat | "b"%char => simple 8%nat | "f"%char => simple 12%nat
      | "n"%char => simple 10%nat | "r"%char => simple 13%nat | "t"%char => simple 9%nat
      | "v"%char => simple 11%nat
      | "x"%char => '(v, r) ← take_digits 16 2 0 s'; Some (char1 (zbyte v), r)
      | "u"%char => '(v, r) ← take_digits 16 4 0 s';
                    if valid_rune v then Some (utf8_encode v, r) else None
      | "U"%char => '(v, r) ← take_digits 16 8 0 s';
                    if valid_rune v then Some (utf8_encode v, r) else None
      | _ =>
          if (c == dquote) || (c == backslash) then Some (char1 c, s')
          else '(v, r) ← take_digits 8 3 0 s;
               if v <? 256 then Some (char1 (zbyte v), r) else None
      end
  end.

Fixpoint unquote_body (fuel : nat) (s : string) : option string :=
  match fuel, s with
  | _, EmptyString => Some EmptyString
  | O, _ => None
  | S n, String c s' =>
      if (c == dquote) || (c == newline) then None
      else if c == backslash then
        '(x, r) ← unescape s'; t ← unquote_body n r; Some (x +:+ t)
      else t ← unquote_body n s'; Some (String c t)
  end.
(** [strconv.Unquote] of a double-quoted literal. *)
Definition unquote (s : string) : option string :=
  match s with
  | String c s' =>
      if c == dquote then
        inner ← cut_suffix s' (char1 dquote);
        unquote_body (String.length inner) inner
      else None
  | EmptyString => None
  end.

(** The scan for the closing quote: the first quote whose previous byte is not a
    backslash, from index [end_]; [prev] is the byte before it. *)
Fixpoint find_quote (prev : ascii) (s : string) : option nat :=
  match s with
  | EmptyString => None
  | String c s' =>
      if (c == dquote) && (prev != backslash) then Some O
      else S <$> find_quote c s'
  end.

Fixpoint parse_labels (fuel : nat) (encoded : string) (labels : strmap) : strmap :=
  match fuel with
  | O => labels
  | S n =>
      if encoded == "" then labels else
      match index_byte encoded "=" with
      | None | Some O => labels
      | Some equals =>
          match sdrop (S equals) encoded with
          | String q rest =>
              if q != dquote then labels else
              let key := stake equals encoded in
              match find_quote q rest with
              | None => labels
              | Some i =>
                  let literal := String q (stake (S i) rest) in
                  match unquote literal with
                  | None => labels
                  | Some v => parse_labels n (trim_prefix (sdrop (S i) rest) ",") (<[key:=v]> labels)
                  end
              end
          | EmptyString => labels
          end
      end
  end.
Definition parsePrometheusLabels (encoded : string) : strmap :=
  parse_labels (S (String.length encoded)) encoded ∅.

Definition parseVLLMCacheConfig (text : string) : nilmap :=
  match List.find (fun l => has_prefix l "vllm:cache_config_info{") (scan_lines text) with
  | None => None
  | Some line =>
      match index_byte line "{", last_index_byte line "}" with
      | Some start, Some end_ =>
          if (end_ <=? start)%nat then None
          else Some (parsePrometheusLabels (stake (end_ - S start) (sdrop (S start) line)))
      | _, _ => None
      end
  end.

(** ** The compiled-in drivers *)

(** The vLLM and SGLang [build] differ only in the flag naming the model. *)
Definition hub_build (modelFlag : string) (m : LLMModel) (args : slice string) : slice string :=
  let ref := ms_model (m_spec m) in
  let args := append args [modelFlag; ref_source ref] in
  let args := if ref_revision ref != "" then append args ["--revision"; ref_revision ref] else args in
  append args ["--served-model-name"; ref_name ref].

Definition vllmDriver : runtimeDriver := {|
  kind := BackendVLLM;
  capabilities := mkCapabilities true true true true true CacheFormatHuggingFace "/health";
  injectedFlags := ["--model"; "--revision"; "--served-model-name"];
  toolCallFlag := "--tool-call-parser";
  reasoningFlag := "--reasoning-parser";
  chatTemplateFlags := ["--chat-template"];
  maxConcurrencyFlags := ["--max-num-seqs"];
  build := hub_build "--model";
  parseMetrics := Some parseVLLMCacheConfig;
|}.

Definition llamaCPPDriver : runtimeDriver := {|
  kind := BackendLlamaCpp;
  capabilities := mkCapabilities true false false true true CacheFormatGGUF "/health";
  injectedFlags := ["-m"; "--model"; "--alias"];
  toolCallFlag := "";
  reasoningFlag := "";
  chatTemplateFlags := ["--chat-template-file"; "--jinja"];
  maxConcurrencyFlags := ["--parallel"; "-np"];
  build := fun m args =>
    let ref := ms_model (m_spec m) in
    append args ["-m"; ref_source ref; "--alias"; ref_name ref];
  parseMetrics := None;
|}.

Definition sglangDriver : runtimeDriver := {|
  kind := BackendSGLang;
  capabilities := mkCapabilities true true true false true CacheFormatHuggingFace "/health_generate";
  injectedFlags := ["--model-path"; "--revision"; "--served-model-name"];
  toolCallFlag := "--tool-call-parser";
  reasoningFlag := "--reasoning-parser";
  chatTemplateFlags := [];
  maxConcurrencyFlags := ["--max-running-requests"];
  build := hub_build "--model-path";
  parseMetrics := None;
|}.

Notation Registry := (gmap string runtimeDriver).
Definition NewRegistry (drivers : list runtimeDriver) : Registry :=
  fold_left (fun r d => <[kind d := d]> r) drivers ∅.
Definition DefaultRegistry : Registry := NewRegistry [vllmDriver; llamaCPPDriver; sglangDriver].
Definition RegistryDriver (r : Registry) (k : BackendType) : result runtimeDriver :=
  match r !! k with
  | Some d => Ok d
  | None => Err (errorf ("unsupported backend type " +:+ quote k))
  end.

(** ** Observing a backend over HTTP *)

(** [io.ReadAll(io.LimitReader(body, limit))]. *)
Fixpoint limit_read (limit : Z) (s : string) : string :=
  match s with
  | EmptyString => EmptyString
  | String c s' => if limit <=? 0 then EmptyString else String c (limit_read (limit - 1) s')
  end.

Definition maxResponseBody : Z := Z.shiftl 8 20.

(** [client]: whether an HTTP client was supplied. *)
Definition getText (client : bool) (url : string) (limit : Z) : kprog (result string) :=
  if negb client then Ret (Err (errorf "HTTP client is required")) else
  let! resp := call (HttpGet url) in
  Ret (try r := resp in
       try raw := hr_body r in
       let body := limit_read limit raw in
       guard hr_code r =? 200
         else errorf (url +:+ " returned " +:+ hr_status r +:+ ": " +:+ trim_space body) in
       Ok body).

Definition CheckHealth (d : runtimeDriver) (client : bool) (baseURL : string) : kprog (result unit) :=
  let! r := getText client (trim_suffix baseURL "/" +:+ cap_healthPath (capabilities d)) 4096 in
  Ret (match r with
       | Ok _ => Ok tt
       | Err e => Err (wrap (kind d +:+ " health check: ") e)
       end).

Section discovery.
(** [json.Unmarshal] of an OpenAI model list: the [id] of each [data] entry. *)
Context (decodeModelIDs : string -> result (list string)).

Definition DiscoverModels (d : runtimeDriver) (client : bool) (baseURL : string)
    : kprog (result (list string)) :=
  if negb (cap_discovery (capabilities d)) then
    Ret (Err (errorf ("backend " +:+ quote (kind d) +:+ " does not support OpenAI model discovery")))
  else
    let! body := getText client (trim_suffix baseURL "/" +:+ "/v1/models") maxResponseBody in
    Ret (try b := body in
         match decodeModelIDs b with
         | Ok ids => Ok (List.filter (fun id => id != "") ids)
         | Err e => Err (wrap ("decode " +:+ kind d +:+ " model discovery response: ") e)
         end).

Definition atoi (s : string) : option Z :=
  match parse_int64 s with Ok n => Some n | Err _ => None end.

Definition max_concurrency (d : runtimeDriver) (launch : strmap) : Z :=
  default 0 (first_some (fun flag => launch !! flag ≫= atoi) (maxConcurrencyFlags d)).

Definition joinErrors (errs : list error) : option error :=
  match errs with
  | [] => None
  | _ => Some (errorf (join (char1 newline) (map err_msg errs)))
  end.

Definition CollectRuntimeMetadata (d : runtimeDriver) (client : bool) (baseURL : string)
    (m : LLMModel) : kprog (RuntimeMetadata * option error) :=
  let! now := call Now in
  let launch := launchArguments (elems (EffectiveArgs d m)) in
  let template := t ← m_template m; Some (mkResolved (ct_configMap t) (ct_key t) (ct_sha256 t)) in
  let! (served, errs1) :=
    (if cap_discovery (capabilities d) then
       let! r := DiscoverModels d client baseURL in
       Ret (match r with Ok ids => (ids, []) | Err e => ([], [e]) end)
     else Ret ([], [])) in
  let! (kv, errs2) :=
    match parseMetrics d with
    | None => Ret (None, [])
    | Some parse =>
        let! r := getText client (trim_suffix baseURL "/" +:+ "/metrics") maxResponseBody in
        Ret (match r with Ok text => (parse text, []) | Err e => (None, [e]) end)
    end in
  Ret (mkRuntimeMetadata now served (srv_maxModelLen (m_serving m)) (max_concurrency d launch)
         launch kv template, joinErrors (errs1 ++ errs2)).
End discovery.

(** ** [validateArgs] and [effectiveArgs] of the controllers ([llmmodel_controller.go]) *)

Definition validateArgs (m : LLMModel) : result unit :=
  try d := RegistryDriver DefaultRegistry (m_backend m) in
  Validate d m.

Definition effectiveArgs (m : LLMModel) : slice string :=
  match RegistryDriver DefaultRegistry (m_backend m) with
  | Ok d => EffectiveArgs d m
  | Err _ => append None (srv_args (m_serving m))
  end.

(** ** Facts *)

Lemma DefaultRegistry_spec k d :
  RegistryDriver DefaultRegistry k = Ok d <->
  (k = BackendVLLM /\ d = vllmDriver) \/ (k = BackendLlamaCpp /\ d = llamaCPPDriver)
  \/ (k = BackendSGLang /\ d = sglangDriver).
Proof.
  unfold RegistryDriver.
  change DefaultRegistry with (<[BackendSGLang:=sglangDriver]> (<[BackendLlamaCpp:=llamaCPPDriver]>
    (<[BackendVLLM:=vllmDriver]> (∅ : Registry)))).
  rewrite !lookup_insert, lookup_empty.
  assert (BackendVLLM <> BackendSGLang /\ BackendVLLM <> BackendLlamaCpp
          /\ BackendLlamaCpp <> BackendSGLang) as (?&?&?) by (vm_compute; intuition congruence).
  repeat case_decide; naive_solver.
Qed.

Lemma RegistryDriver_kind k d : RegistryDriver DefaultRegistry k = Ok d -> kind d = k.
Proof. intros [[-> ->]|[[-> ->]|[-> ->]]]%DefaultRegistry_spec; done. Qed.
