(* ===== verification/Samples.v ===== *)
(** * Concrete resources

    The models, backends and Deployments of [config/samples] in miniature: the
    inputs at which the witnesses evaluate the definitions. *)

From S2P Require Import Prelude GoStrings Types.

Definition sample_meta (name : string) (gen : Z) : ObjectMeta :=
  mkMeta name "llm" "1" gen 1000 None [] None None None.
Definition idle_status : LLMModelStatus := mkModelStatus ModelPhaseReady false None None [] 1.

Definition gemma : LLMModel := mkModel (sample_meta "gemma" 1)
  (mkModelSpec (mkModelRef "google/gemma" "google/gemma" "abc123" "") None
     (mkServing BackendVLLM "Gemma" 8192 "gemma4" "" None ["--max-num-seqs"; "8"]) None)
  idle_status.

Definition laguna_artifact : ArtifactSpec :=
  mkArtifact "60Gi" ["laguna.gguf"] "gguf/laguna".
Definition laguna_template : ChatTemplateSpec :=
  mkChatTemplate "templates" "laguna.jinja"
    "e3b0c44298fc1c149afbf4c8996fb92427ae41e4649b934ca495991b7852b855".
Definition laguna : LLMModel := mkModel (sample_meta "laguna" 1)
  (mkModelSpec (mkModelRef "poolside/laguna" "/models/laguna/laguna.gguf" "def456" "poolside/laguna-gguf")
     (Some laguna_artifact)
     (mkServing BackendLlamaCpp "Laguna" 32768 "" "" (Some laguna_template) ["--parallel"; "2"]) None)
  idle_status.

Definition runtime_container : Container :=
  mkContainer "runtime" None [] None ∅ ∅ "image".
Definition sidecar : Container := mkContainer "sidecar" (Some ["--port"; "9000"]) [] None ∅ ∅ "exporter".
Definition sample_template : PodTemplate :=
  mkPodTemplate None None (mkPodSpec [sidecar; runtime_container] None "gpu-node").
Definition sample_backend (name : string) (ty : BackendType) : LLMBackend :=
  mkBackend (sample_meta name 1)
    (mkBackendSpec ty None
       (Some (mkWorkload "runtime" (mkBackendDeployment "" (Some 0) "Recreate" sample_template)
                (mkBackendService "" 8000 "" None)))
       "" "" "" 0 "" None)
    (mkBackendStatus BackendPhaseStopped "" None 0 0 [] 1).
Definition vllm_backend : LLMBackend := sample_backend "llm-vllm" BackendVLLM.
Definition llama_backend : LLMBackend := sample_backend "llm-laguna" BackendLlamaCpp.

Definition sample_deployment (name : string) (replicas : Z) (st : DeploymentStatus) : Deployment :=
  mkDeployment (sample_meta name 1)
    (mkDeploymentSpec (Some replicas) None sample_template "Recreate" "") st.
Definition empty_status : DeploymentStatus := mkDeploymentStatus 0 0 0 1.
Definition rolled_status : DeploymentStatus := mkDeploymentStatus 1 1 1 1.

(** Serving gemma, asked at generation 2 to serve laguna. *)
Definition sample_active : LLMActiveModel := mkActive (sample_meta "default" 2) "poolside/laguna"
  (mkActiveStatus "google/gemma" BackendVLLM ActiveModelPhaseStable "" (Some 500) None 1 [] 1).
