(* ===== verification/DriverProps.v ===== *)
(** * Properties of the backend drivers

    Sizes are parsed independently of map order, exactly below the int64 bound and
    modulo 2^64 above it; validation is characterised condition by condition; injected
    arguments are only ever appended and are what the launch-argument
    observation reports; cache requests are total on validated models. *)

From Stdlib Require Import Ascii.
From S2P Require Import Prelude GoStrings GoPath Types Effects Api Driver Samples.

(** ** Sizes *)

Lemma sapp_split (a b c d : string) :
  a +:+ b = c +:+ d -> (exists r, b = r +:+ d) \/ (exists r, d = r +:+ b).
Proof.
  revert c; induction a as [|x a IH]; intros c.
  - change ("" +:+ b) with b. intros ->. left. by exists c.
  - destruct c as [|y c]; rewrite ?sapp_cons.
    + change ("" +:+ d) with d. intros <-. right. by exists (String x a).
    + intros [= _ H]. eauto.
Qed.

Lemma suffixes_comparable s a b :
  has_suffix s a = true -> has_suffix s b = true -> has_suffix a b || has_suffix b a = true.
Proof.
  intros [p ->]%has_suffix_spec [q Hq]%has_suffix_spec.
  apply orb_true_iff. rewrite !has_suffix_spec. by eapply sapp_split.
Qed.

(** A size string ends in at most one of the table's suffixes. *)
Lemma sizeTable_unique s e1 e2 :
  In e1 sizeTable -> In e2 sizeTable ->
  has_suffix s (fst e1) = true -> has_suffix s (fst e2) = true -> e1 = e2.
Proof.
  intros H1 H2 Hs1 Hs2. pose proof (suffixes_comparable _ _ _ Hs1 Hs2) as Hc. clear Hs1 Hs2.
  simpl in H1, H2.
  repeat match goal with H : _ \/ _ |- _ => destruct H as [H|H] end;
    subst; simpl in *; try done; vm_compute in Hc; discriminate.
Qed.

Lemma find_unique {A} (f : A -> bool) l l' :
  l ≡ₚ l' ->
  (forall x y, In x l' -> In y l' -> f x = true -> f y = true -> x = y) ->
  List.find f l = List.find f l'.
Proof.
  intros Hp Hu.
  destruct (List.find f l) as [x|] eqn:E1, (List.find f l') as [y|] eqn:E2; [| | |done].
  - apply find_some in E1 as [Hx Fx], E2 as [Hy Fy]. f_equal. apply Hu; auto.
    by rewrite <- Hp.
  - apply find_some in E1 as [Hx Fx]. eapply find_none in E2; [|rewrite <- Hp; exact Hx]. congruence.
  - apply find_some in E2 as [Hy Fy]. eapply find_none in E1; [|rewrite Hp; exact Hy]. congruence.
Qed.

(** [parseSize] ranges over a Go map, whose order is random; the result is the
    same for every order. *)
Theorem parseSize_order_irrelevant (table : list (string * Z)) (s : string) :
  table ≡ₚ sizeTable -> parseSizeWith table s = parseSize s.
Proof.
  intros Hp. unfold parseSize, parseSizeWith.
  rewrite (find_unique _ table sizeTable Hp); [done|].
  intros e1 e2. apply sizeTable_unique.
Qed.

Lemma parseSize_order_witness :
  rev sizeTable ≡ₚ sizeTable /\ parseSizeWith (rev sizeTable) "60Gi" = parseSize "60Gi".
Proof.
  assert (rev sizeTable ≡ₚ sizeTable) as H by (symmetry; apply Permutation_rev).
  split; [exact H | apply (parseSize_order_irrelevant (rev sizeTable) "60Gi"); exact H].
Defined.

Lemma digit_pretty x : (x < 10)%N -> digit (pretty_N_char x) = Some (Z.of_N x).
Proof.
  intros Hx.
  assert (x = 0 \/ x = 1 \/ x = 2 \/ x = 3 \/ x = 4 \/ x = 5 \/ x = 6 \/ x = 7 \/ x = 8 \/ x = 9)%N
    as Hc by lia.
  repeat destruct Hc as [->|Hc]; subst; reflexivity.
Qed.

Lemma parse_digits_go x :
  exists k, 0 <= k /\ forall acc s,
    parse_digits acc (pretty_N_go x s) = parse_digits (acc * 10 ^ k + Z.of_N x) s.
Proof.
  induction (N.lt_wf_0 x) as [x _ IH].
  destruct (decide (x = 0)%N) as [->|Hx].
  - exists 0. split; [lia|]. intros acc s. rewrite pretty_N_go_0. f_equal. lia.
  - destruct (IH (x / 10)%N) as (k & Hk & H); [apply N.div_lt; lia|].
    exists (k + 1). split; [lia|]. intros acc s.
    rewrite pretty_N_go_step by lia. rewrite H. cbn [parse_digits].
    rewrite digit_pretty by (apply N.mod_upper_bound; lia).
    f_equal. rewrite Z.pow_add_r by lia.
    pose proof (N.div_mod' x 10) as E. nia.
Qed.

Lemma pretty_N_go_cons x s : (0 < x)%N -> exists c t, pretty_N_go x s = String c t /\ digit c <> None.
Proof.
  revert s. induction (N.lt_wf_0 x) as [x _ IH]; intros s Hx.
  rewrite pretty_N_go_step by done.
  destruct (decide (x / 10 = 0)%N) as [->|Hd].
  - rewrite pretty_N_go_0. eexists _, _. split; [done|].
    rewrite digit_pretty by (apply N.mod_upper_bound; lia). done.
  - apply IH; [apply N.div_lt; lia | apply N.neq_0_lt_0, Hd].
Qed.

Lemma parse_signed_show n : 0 < n -> parse_signed (show_int n) = Some n.
Proof.
  intros Hn. destruct n as [|p|p]; try lia.
  change (show_int (Z.pos p)) with (pretty_N_go (N.pos p) "").
  destruct (parse_digits_go (N.pos p)) as (k & _ & H).
  destruct (pretty_N_go_cons (N.pos p) "" ltac:(lia)) as (c & t & E & Hc).
  assert (parse_unsigned (pretty_N_go (N.pos p) "") = Some (Z.pos p)) as Hu.
  { unfold parse_unsigned. rewrite E, <- E, H. simpl. f_equal. }
  rewrite E in *. unfold parse_signed.
  destruct c as [[] [] [] [] [] [] [] []]; try exact Hu; by destruct Hc.
Qed.

(** The units a size may carry: none, or a suffix of the table. *)
Definition sizeUnits : list (string * Z) := ("", 1) :: sizeTable.

Lemma sizeUnits_positive suf mult : In (suf, mult) sizeUnits -> 0 < mult.
Proof. simpl. naive_solver lia. Qed.

Lemma parse_digits_stops (d t : string) (c : ascii) (acc : Z) :
  digit c = None -> parse_digits acc (d +:+ String c t) = None.
Proof.
  intros Hc. revert acc. induction d as [|x d IH]; intros acc.
  - change ("" +:+ String c t) with (String c t). simpl. by rewrite Hc.
  - rewrite sapp_cons. simpl. destruct (digit x); [apply IH | done].
Qed.

Lemma parse_unsigned_stops (d t : string) (c : ascii) :
  digit c = None -> parse_unsigned (d +:+ String c t) = None.
Proof.
  intros Hc. unfold parse_unsigned.
  destruct (d +:+ String c t) eqn:E; [done|]. rewrite <- E. by apply parse_digits_stops.
Qed.

(** A number carries no unit: its last character is a digit. *)
Lemma number_has_no_unit (s : string) (n : Z) (e : string * Z) :
  parse_signed s = Some n -> In e sizeTable -> has_suffix s (fst e) = false.
Proof.
  intros Hs He. apply not_true_iff_false. intros [d ->]%has_suffix_spec.
  assert (exists c t, fst e = String c t /\ digit c = None /\ c <> "-"%char /\ c <> "+"%char)
    as (c & t & Et & Hc & Hm & Hp).
  { simpl in He. repeat destruct He as [<-|He]; try done; eexists _, _; simpl; by repeat split. }
  rewrite Et in Hs. destruct d as [|x d].
  - change ("" +:+ String c t) with (String c t) in Hs.
    pose proof (parse_unsigned_stops "" t c Hc) as Hu.
    change ("" +:+ String c t) with (String c t) in Hu. unfold parse_signed in Hs.
    destruct c as [[] [] [] [] [] [] [] []]; congruence.
  - pose proof (parse_unsigned_stops (String x d) t c Hc) as Hu.
    pose proof (parse_unsigned_stops d t c Hc) as Hd.
    rewrite sapp_cons in *. unfold parse_signed in Hs.
    destruct x as [[] [] [] [] [] [] [] []]; rewrite ?Hu, ?Hd in Hs; discriminate.
Qed.

(** The entry [parseSize] finds in the table is the unit the size carries. *)
Lemma unit_found (digits suf : string) (mult n : Z) :
  In (suf, mult) sizeUnits -> parse_signed digits = Some n ->
  match List.find (fun e => has_suffix (digits +:+ suf) (fst e)) sizeTable with
  | Some (suffix, value) => (value, trim_suffix (digits +:+ suf) suffix)
  | None => (1, digits +:+ suf)
  end = (mult, digits).
Proof.
  intros [[= <- <-]|Hin] Hd; destruct (List.find _ sizeTable) as [e|] eqn:E.
  - apply find_some in E as [He Hs]. rewrite sapp_nil_r, (number_has_no_unit _ _ _ Hd He) in Hs. done.
  - by rewrite sapp_nil_r.
  - apply find_some in E as [He Hs].
    assert (e = (suf, mult)) as -> by (eapply sizeTable_unique; eauto; apply has_suffix_spec; eauto).
    by rewrite trim_suffix_app.
  - eapply find_none in E; [|exact Hin]. simpl in E.
    assert (has_suffix (digits +:+ suf) suf = true) by (apply has_suffix_spec; eauto). congruence.
Qed.

Lemma parse_int64_ok (s : string) (n : Z) :
  parse_int64 s = Ok n <-> parse_signed s = Some n /\ in_int64 n.
Proof.
  unfold parse_int64. rewrite <- in_int64b_spec.
  destruct (parse_signed s) as [y|]; [|naive_solver].
  destruct (in_int64b y) eqn:E; naive_solver congruence.
Qed.

(** What [parseSize] accepts, and what it makes of it. *)
Lemma parseSize_ok (s : string) (v : Z) :
  parseSize s = Ok v <->
  exists digits suf mult n,
    s = digits +:+ suf /\ In (suf, mult) sizeUnits
    /\ parse_signed digits = Some n /\ 0 < n < 2 ^ 63 /\ v = int64 (n * mult).
Proof.
  unfold parseSize, parseSizeWith. split.
  - intros H. destruct (List.find _ sizeTable) as [[suf mult]|] eqn:E.
    + apply find_some in E as [Hin [d ->]%has_suffix_spec]. rewrite trim_suffix_app in H. ok_inv.
      apply parse_int64_ok in H0 as [? []]. exists d, suf, mult, x. repeat split; try (done || lia). by right.
    + ok_inv. apply parse_int64_ok in H0 as [? []].
      exists s, "", 1, x. rewrite sapp_nil_r. repeat split; try (done || lia). by left.
  - intros (d & suf & mult & n & -> & Hin & Hd & Hn & ->).
    rewrite (unit_found _ _ _ _ Hin Hd).
    assert (parse_int64 d = Ok n) as -> by (apply parse_int64_ok; unfold in_int64; split; [done | lia]).
    simpl. by destruct (Z.ltb_spec 0 n); [|lia].
Qed.

Lemma parseSize_show (suf : string) (mult n : Z) :
  In (suf, mult) sizeUnits -> 0 < n < 2 ^ 63 ->
  parseSize (show_int n +:+ suf) = Ok (int64 (n * mult)).
Proof.
  intros Hin Hn. apply parseSize_ok. exists (show_int n), suf, mult, n.
  repeat split; try (done || lia). apply parse_signed_show; lia.
Qed.

Lemma int64_exact_iff (x : Z) : 0 < x -> int64 x = x <-> x < 2 ^ 63.
Proof.
  intros Hx. split; [intros <-; apply int64_range | intros; apply int64_id; unfold in_int64; lia].
Qed.

(** C37: [parseSize] accepts exactly a positive int64 number followed by no unit or by one
    of the six units, and its result is the number times the unit reduced to a signed
    64-bit integer; so a written size is parsed to its own number of bytes exactly
    when that number is below 2^63, and silently to another one otherwise
    (8589934592Gi to -2^63 bytes). *)
Theorem parseSize_wraps :
  (forall s v,
     parseSize s = Ok v <->
     exists digits suf mult n,
       s = digits +:+ suf /\ In (suf, mult) (("", 1) :: sizeTable)
       /\ parse_signed digits = Some n /\ 0 < n < 2 ^ 63 /\ v = int64 (n * mult))
  /\ (forall suf mult n,
        In (suf, mult) (("", 1) :: sizeTable) -> 0 < n < 2 ^ 63 ->
        (parseSize (show_int n +:+ suf) = Ok (n * mult) <-> n * mult < 2 ^ 63)).
Proof.
  split; [exact parseSize_ok|].
  intros suf mult n Hin Hn. rewrite (parseSize_show _ _ _ Hin Hn).
  pose proof (sizeUnits_positive _ _ Hin).
  rewrite <- int64_exact_iff by nia. split; [intros [= E]; exact E | by intros ->].
Qed.

Lemma parseSize_wraps_witness :
  parseSize (show_int 60 +:+ "Gi") = Ok (60 * 1073741824)
  /\ parseSize (show_int 8589934592 +:+ "Gi") <> Ok (8589934592 * 1073741824)
  /\ parseSize "8589934592Gi" = Ok (- 2 ^ 63).
Proof.
  assert (In ("Gi", 1073741824) (("", 1) :: sizeTable)) as H by (simpl; auto).
  split; [|split].
  - apply (proj2 parseSize_wraps "Gi" 1073741824 60 H); lia.
  - intros E. apply (proj2 parseSize_wraps "Gi" 1073741824 8589934592 H) in E; lia.
  - vm_compute; reflexivity.
Defined.

(** ** Validation *)

(** What a driver accepts, condition by condition. *)
Record serving_ok (d : runtimeDriver) (m : LLMModel) : Prop := {
  so_kind : m_backend m = "" \/ m_backend m = kind d;
  so_args : Forall (fun arg => is_injected (injectedFlags d) arg = false) (srv_args (m_serving m));
  so_tool : srv_toolCallParser (m_serving m) <> "" ->
    cap_toolCallParser (capabilities d) = true
    /\ containsFlag (srv_args (m_serving m)) (toolCallFlag d) = false;
  so_reasoning : srv_reasoningParser (m_serving m) <> "" ->
    cap_reasoningParser (capabilities d) = true
    /\ containsFlag (srv_args (m_serving m)) (reasoningFlag d) = false;
  so_template : m_template m <> None ->
    cap_chatTemplate (capabilities d) = true
    /\ Forall (fun f => containsFlag (srv_args (m_serving m)) f = false) (chatTemplateFlags d);
  so_size : forall art, ms_artifact (m_spec m) = Some art -> art_expectedSize art <> "" ->
    exists n, parseSize (art_expectedSize art) = Ok n;
  so_gguf : forall art, ms_artifact (m_spec m) = Some art ->
    cap_cacheFormat (capabilities d) = CacheFormatGGUF ->
    ref_artifactRepository (ms_model (m_spec m)) <> "" /\ art_files art <> []
    /\ (art_target art <> "" -> target_ok (art_target art) = true);
}.

Lemma ValidateArgs_ok d args :
  ValidateArgs d args = Ok tt <-> Forall (fun arg => is_injected (injectedFlags d) arg = false) args.
Proof.
  unfold ValidateArgs. rewrite <- find_none_forall. destruct (List.find _ _); naive_solver.
Qed.

Lemma Validate_parsers_ok d m :
  Validate_parsers d m = Ok tt <->
  (srv_toolCallParser (m_serving m) <> "" ->
    cap_toolCallParser (capabilities d) = true
    /\ containsFlag (srv_args (m_serving m)) (toolCallFlag d) = false)
  /\ (srv_reasoningParser (m_serving m) <> "" ->
    cap_reasoningParser (capabilities d) = true
    /\ containsFlag (srv_args (m_serving m)) (reasoningFlag d) = false).
Proof.
  unfold Validate_parsers.
  do 2 case_bool_decide; destruct (cap_toolCallParser _), (cap_reasoningParser _);
    do 2 destruct (containsFlag _ _); simpl; naive_solver.
Qed.

Lemma Validate_template_ok d m :
  Validate_template d m = Ok tt <->
  (m_template m <> None ->
    cap_chatTemplate (capabilities d) = true
    /\ Forall (fun f => containsFlag (srv_args (m_serving m)) f = false) (chatTemplateFlags d)).
Proof.
  unfold Validate_template. rewrite <- find_none_forall.
  destruct (m_template m); [|naive_solver].
  destruct (cap_chatTemplate _), (List.find _ _); naive_solver.
Qed.

Lemma Validate_artifact_ok d m :
  Validate_artifact d m = Ok tt <->
  (forall art, ms_artifact (m_spec m) = Some art -> art_expectedSize art <> "" ->
    exists n, parseSize (art_expectedSize art) = Ok n)
  /\ (forall art, ms_artifact (m_spec m) = Some art ->
    cap_cacheFormat (capabilities d) = CacheFormatGGUF ->
    ref_artifactRepository (ms_model (m_spec m)) <> "" /\ art_files art <> []
    /\ (art_target art <> "" -> target_ok (art_target art) = true)).
Proof.
  unfold Validate_artifact. destruct (ms_artifact (m_spec m)) as [art|]; [|naive_solver].
  assert (forall P : ArtifactSpec -> Prop, (forall a, Some art = Some a -> P a) <-> P art) as Hsome
    by naive_solver.
  rewrite !Hsome. destruct (art_files art) eqn:Ef;
    repeat case_bool_decide; destruct (parseSize (art_expectedSize art)), (target_ok (art_target art));
    simpl; naive_solver.
Qed.

Lemma rbind_unit (r k : result unit) :
  rbind r (fun _ => k) = Ok tt <-> r = Ok tt /\ k = Ok tt.
Proof. destruct r as [[]|]; simpl; intuition discriminate. Qed.

Lemma Validate_ok d m : Validate d m = Ok tt <-> serving_ok d m.
Proof.
  unfold Validate.
  destruct ((m_backend m != "") && (m_backend m != kind d)) eqn:E.
  - split; [done|]. intros [[Hk|Hk] _ _ _ _ _ _]; ok_inv; rewrite bool_decide_eq_false in *; done.
  - assert (m_backend m = "" \/ m_backend m = kind d) as Hk.
    { apply andb_false_iff in E as [E|E]; ok_inv; rewrite bool_decide_eq_true in *; auto. }
    rewrite !rbind_unit, ValidateArgs_ok, Validate_parsers_ok, Validate_template_ok,
      Validate_artifact_ok.
    split; [intros (?&[??]&?&[??]); by constructor | intros []; done].
Qed.

(** [Validate] accepts exactly the models whose serving configuration the driver
    supports: no injected flag in the raw arguments, no structured parser or
    template the runtime lacks or that is also given raw, a parseable size, and for
    GGUF a repository, files and a target rooted at gguf/. *)
Theorem Validate_characterised (d : runtimeDriver) (m : LLMModel) :
  Validate d m = Ok tt <-> serving_ok d m.
Proof. apply Validate_ok. Qed.

Lemma proper_gguf : proper "gguf".
Proof. vm_compute. intuition congruence. Qed.

(** A clean path below gguf/ stays below it. *)
Lemma gguf_confined t :
  has_prefix t "gguf/" = true -> clean t = t ->
  exists rest, split_on slash t = "gguf" :: rest /\ Forall proper rest /\ rest <> [].
Proof.
  intros Hp Hc. destruct (clean_fixed_below "gguf" t proper_gguf Hp Hc) as (rest & Hs & Hr).
  exists rest. split_and!; [done..|]. intros ->.
  apply has_prefix_spec in Hp as [r ->].
  change ("gguf/" +:+ r) with ("gguf" +:+ String slash r) in Hs.
  rewrite split_on_app_sep in Hs by done. injection Hs as Hs. by eapply split_on_nonnil.
Qed.
Lemma target_ok_confined t :
  target_ok t = true ->
  exists rest, split_on slash t = "gguf" :: rest /\ Forall proper rest /\ rest <> [].
Proof.
  unfold target_ok. intros H. ok_inv. rewrite bool_decide_eq_true in *. by apply gguf_confined.
Qed.

(** A materialization target that passes llama.cpp validation names a place
    strictly below gguf/: its segments after the first are proper names, none empty,
    "." or "..". *)
Theorem validated_target_confined (m : LLMModel) (art : ArtifactSpec) :
  Validate llamaCPPDriver m = Ok tt -> ms_artifact (m_spec m) = Some art -> art_target art <> "" ->
  exists rest, split_on slash (art_target art) = "gguf" :: rest /\ Forall proper rest /\ rest <> [].
Proof.
  intros Hv Ha Ht. apply target_ok_confined.
  apply Validate_ok in Hv as Hok.
  by apply (so_gguf _ _ Hok art Ha eq_refl).
Qed.

Lemma validated_target_witness :
  Validate llamaCPPDriver laguna = Ok tt
  /\ exists rest, split_on slash (art_target laguna_artifact) = "gguf" :: rest
       /\ Forall proper rest /\ rest <> [].
Proof.
  assert (Validate llamaCPPDriver laguna = Ok tt) as H by (vm_compute; reflexivity).
  split; [exact H|].
  apply (validated_target_confined laguna laguna_artifact H eq_refl). vm_compute. discriminate.
Defined.

(** ** Cache requests *)

(** On a validated model the cache request is never an error; it is absent exactly
    for a GGUF runtime without an artifact; a request names the model, the driver's
    kind and layout, the repository the format calls for, and the parsed size. *)
Theorem CacheRequest_total (d : runtimeDriver) (m : LLMModel) :
  Validate d m = Ok tt ->
  exists r, CacheRequestFor d m = Ok r
  /\ (r = None <-> cap_cacheFormat (capabilities d) = CacheFormatGGUF /\ ms_artifact (m_spec m) = None)
  /\ forall q, r = Some q ->
       cr_model q = m_name m /\ cr_backend q = kind d
       /\ cs_kind (cr_cache q) = cacheManagerKind (cap_cacheFormat (capabilities d))
       /\ cs_revision (cr_cache q) = ref_revision (ms_model (m_spec m))
       /\ cs_repoID (cr_cache q) =
            (if decide (cap_cacheFormat (capabilities d) = CacheFormatGGUF)
             then ref_artifactRepository (ms_model (m_spec m)) else m_name m)
       /\ forall art, ms_artifact (m_spec m) = Some art ->
            cs_files (cr_cache q) = art_files art /\ cs_target (cr_cache q) = art_target art
            /\ (art_expectedSize art <> "" -> parseSize (art_expectedSize art) = Ok (cs_size (cr_cache q))).
Proof.
  intros Hv. unfold CacheRequestFor. rewrite Hv. simpl.
  apply Validate_ok in Hv as Hok. pose proof (so_size _ _ Hok) as Hs.
  destruct (ms_artifact (m_spec m)) as [art|].
  - assert (exists n, (if art_expectedSize art != "" then parseSize (art_expectedSize art) else Ok 0) = Ok n
              /\ (art_expectedSize art <> "" -> parseSize (art_expectedSize art) = Ok n)) as (n & -> & Hn).
    { case_bool_decide as E; simpl; [eexists; split; [done|]; done|].
      destruct (Hs art eq_refl E) as [n Hn]. eauto. }
    simpl. eexists; split; [done|]. split; [naive_solver|].
    intros q [= <-]. simpl. split_and!; try done; [by case_bool_decide; case_decide|].
    intros ? [= <-]. done.
  - destruct (cap_cacheFormat (capabilities d)) eqn:E; simpl.
    + eexists; split; [done|]. split; [naive_solver|]. intros q [= <-]. simpl. done.
    + eexists; split; [done|]. split; [done|]. done.
Qed.

Lemma CacheRequest_total_witness :
  exists r, CacheRequestFor llamaCPPDriver laguna = Ok r.
Proof.
  destruct (CacheRequest_total llamaCPPDriver laguna) as (r & Hr & _); [vm_compute; reflexivity|].
  exists r. exact Hr.
Defined.

(** ** Injected arguments and launch arguments *)

Definition flag_like (s : string) : bool := has_prefix s "-".

(** The recursion of [launchArguments] skips one or two arguments at a time. *)
Lemma launch_ind (P : list string -> Prop) :
  P [] -> (forall a, P [a]) -> (forall a b l, P l -> P (b :: l) -> P (a :: b :: l)) ->
  forall l, P l.
Proof.
  intros H0 H1 H2 l. enough (P l /\ forall a, P (a :: l)) by tauto.
  induction l as [|b l [IH1 IH2]]; auto.
Qed.

Lemma launch_from_two a b l values :
  launch_from (a :: b :: l) values =
    if flag_like a then
      if flag_like b then launch_from (b :: l) (<[a:="true"]> values)
      else launch_from l (<[a:=b]> values)
    else launch_from (b :: l) values.
Proof. reflexivity. Qed.

(** A flag is never taken for the value of the flag before it. *)
Lemma launch_from_flag l f rest values :
  flag_like f = true ->
  launch_from (l ++ f :: rest) values = launch_from (f :: rest) (launch_from l values).
Proof.
  intros Hf. revert values.
  induction l as [|a|a b l IH1 IH2] using launch_ind; intros values; [done| |].
  - change ([a] ++ f :: rest) with (a :: f :: rest). rewrite launch_from_two, Hf.
    unfold flag_like. cbn [launch_from]. by destruct (has_prefix a "-").
  - change ((a :: b :: l) ++ f :: rest) with (a :: b :: l ++ f :: rest).
    rewrite !launch_from_two. change (b :: l ++ f :: rest) with ((b :: l) ++ f :: rest).
    by rewrite !IH1, !IH2; destruct (flag_like a), (flag_like b).
Qed.

Lemma launch_from_frame l values k : k ∉ l -> launch_from l values !! k = values !! k.
Proof.
  revert values. induction l as [|a|a b l IH1 IH2] using launch_ind; intros values Hk; [done| |].
  - simpl. destruct (has_prefix a "-"); [|done]. apply lookup_insert_ne. set_solver.
  - rewrite launch_from_two.
    destruct (flag_like a), (flag_like b); rewrite ?IH1, ?IH2 by set_solver;
      rewrite ?lookup_insert_ne by set_solver; done.
Qed.

Definition flatten (pairs : list (string * string)) : list string :=
  flat_map (fun p => [p.1; p.2]) pairs.
Definition insert_all (pairs : list (string * string)) (m : strmap) : strmap :=
  fold_left (fun m p => <[p.1:=p.2]> m) pairs m.

Lemma launch_flatten pairs tail values :
  Forall (fun p => flag_like p.1 = true /\ flag_like p.2 = false) pairs ->
  launch_from (flatten pairs ++ tail) values = launch_from tail (insert_all pairs values).
Proof.
  intros Hp. revert values. induction Hp as [|[f x] ps [Hf Hx] _ IH]; intros values; [done|].
  cbn [flatten flat_map app fst snd]. rewrite launch_from_two. simpl in Hf, Hx.
  rewrite Hf, Hx. apply IH.
Qed.

Lemma insert_all_frame pairs m k : k ∉ map fst pairs -> insert_all pairs m !! k = m !! k.
Proof.
  revert m; induction pairs as [|[f x] ps IH]; intros m Hk; [done|].
  simpl in Hk. unfold insert_all in *. simpl. rewrite IH by set_solver.
  apply lookup_insert_ne. set_solver.
Qed.

Lemma insert_all_lookup pairs m k v :
  NoDup (map fst pairs) -> In (k, v) pairs -> insert_all pairs m !! k = Some v.
Proof.
  revert m; induction pairs as [|[f x] ps IH]; intros m Hd Hin; [done|].
  apply NoDup_cons in Hd as [Hf Hd]. destruct Hin as [[= -> ->]|Hin].
  - change (insert_all ((k, v) :: ps) m) with (insert_all ps (<[k:=v]> m)).
    rewrite insert_all_frame by done. apply lookup_insert_eq.
  - by apply IH.
Qed.

Lemma launch_pairs args pairs tail k v :
  Forall (fun p => flag_like p.1 = true /\ flag_like p.2 = false) pairs ->
  NoDup (map fst pairs) -> In (k, v) pairs -> k ∉ tail ->
  launchArguments (args ++ flatten pairs ++ tail) !! k = Some v.
Proof.
  intros Hp Hd Hin Ht. unfold launchArguments.
  assert (launch_from (args ++ flatten pairs ++ tail) ∅
          = launch_from (flatten pairs ++ tail) (launch_from args ∅)) as ->.
  { destruct Hp as [|[f x] ps [Hf _] _]; [done|]. by apply launch_from_flag. }
  rewrite launch_flatten by done. rewrite launch_from_frame by done.
  by apply insert_all_lookup.
Qed.

(** The flag/value pairs a driver injects after the raw arguments. *)
Definition injected_pairs (d : runtimeDriver) (m : LLMModel) : list (string * string) :=
  let ref := ms_model (m_spec m) in
  let srv := m_serving m in
  (if kind d == BackendLlamaCpp then [("-m", ref_source ref); ("--alias", ref_name ref)]
   else [(if kind d == BackendVLLM then "--model" else "--model-path", ref_source ref)]
     ++ (if ref_revision ref != "" then [("--revision", ref_revision ref)] else [])
     ++ [("--served-model-name", ref_name ref)])
  ++ (if (srv_toolCallParser srv != "") && (toolCallFlag d != "")
      then [(toolCallFlag d, srv_toolCallParser srv)] else [])
  ++ (if (srv_reasoningParser srv != "") && (reasoningFlag d != "")
      then [(reasoningFlag d, srv_reasoningParser srv)] else []).
Definition template_args (d : runtimeDriver) (m : LLMModel) : list string :=
  match m_template m with Some _ => chatTemplateArgs d | None => [] end.

Lemma EffectiveArgs_elems k d m :
  RegistryDriver DefaultRegistry k = Ok d ->
  elems (EffectiveArgs d m) = srv_args (m_serving m) ++ flatten (injected_pairs d m) ++ template_args d m.
Proof.
  intros Hd. unfold EffectiveArgs, injected_pairs, template_args, m_template, flatten.
  set (ref := ms_model (m_spec m)). set (srv := m_serving m).
  apply DefaultRegistry_spec in Hd as [[_ ->]|[[_ ->]|[_ ->]]];
    cbn [kind build toolCallFlag reasoningFlag vllmDriver llamaCPPDriver sglangDriver];
    unfold hub_build; fold ref;
    destruct (srv_chatTemplate srv); destruct (ref_revision ref != "");
    destruct (srv_toolCallParser srv != ""); destruct (srv_reasoningParser srv != "");
    eval_decisions; autorewrite with golib; simpl; rewrite <- ?app_assoc; done.
Qed.

Lemma injected_pairs_keys k d m :
  RegistryDriver DefaultRegistry k = Ok d ->
  Forall (fun p => flag_like p.1 = true) (injected_pairs d m)
  /\ NoDup (map fst (injected_pairs d m))
  /\ Forall (fun p => p.1 ∉ template_args d m) (injected_pairs d m).
Proof.
  intros Hd. unfold injected_pairs, template_args.
  apply DefaultRegistry_spec in Hd as [[_ ->]|[[_ ->]|[_ ->]]];
    cbn [kind toolCallFlag reasoningFlag vllmDriver llamaCPPDriver sglangDriver];
    destruct (m_template m); destruct (ref_revision _ != "");
    destruct (srv_toolCallParser _ != ""); destruct (srv_reasoningParser _ != "");
    eval_decisions; cbn [app map fst];
    (split_and!;
     [ repeat constructor
     | apply (bool_decide_unpack _); vm_compute; exact I
     | repeat (apply Forall_cons; split); try apply Forall_nil; cbn [fst];
       apply (bool_decide_unpack _); vm_compute; exact I ]).
Qed.

(** For every compiled-in driver the effective arguments are the raw arguments
    followed by the injected flag/value pairs and the template arguments, and, unless
    a value looks like a flag, the launch arguments recorded in the runtime metadata
    report every injected pair, whatever the raw arguments were. *)
Theorem launch_reports_injected (k : BackendType) (d : runtimeDriver) (m : LLMModel) :
  RegistryDriver DefaultRegistry k = Ok d ->
  Forall (fun p => flag_like p.2 = false) (injected_pairs d m) ->
  elems (EffectiveArgs d m)
    = srv_args (m_serving m) ++ flatten (injected_pairs d m) ++ template_args d m
  /\ forall f v, In (f, v) (injected_pairs d m) ->
       launchArguments (elems (EffectiveArgs d m)) !! f = Some v.
Proof.
  intros Hd Hv. rewrite (EffectiveArgs_elems k) by done. split; [done|].
  intros f v Hin. destruct (injected_pairs_keys k d m Hd) as (Hk & Hn & Ht).
  apply launch_pairs; [|done..|].
  - apply Forall_and. done.
  - rewrite List.Forall_forall in Ht. exact (Ht _ Hin).
Qed.

Lemma launch_reports_injected_witness :
  launchArguments (elems (EffectiveArgs vllmDriver gemma)) !! "--served-model-name" = Some "google/gemma".
Proof.
  destruct (launch_reports_injected BackendVLLM vllmDriver gemma) as [_ H].
  - apply DefaultRegistry_spec. left. split; reflexivity.
  - repeat constructor.
  - apply H. simpl. auto.
Defined.

(** ** Prometheus labels *)

Definition plain_value (v : string) : Prop :=
  has_char dquote v = false /\ has_char backslash v = false /\ has_char newline v = false.
Definition plain_key (k : string) : Prop := k <> "" /\ has_char "=" k = false.
Definition encode_label (p : string * string) : string :=
  p.1 +:+ "=" +:+ char1 dquote +:+ p.2 +:+ char1 dquote.
Definition encode_labels (l : list (string * string)) : string := join "," (map encode_label l).

Lemma index_byte_app c k s : has_char c k = false -> index_byte (k +:+ String c s) c = Some (String.length k).
Proof.
  induction k as [|x k IH]; intros Hk.
  - change ("" +:+ String c s) with (String c s). simpl. by rewrite decide_True.
  - simpl in Hk. rewrite orb_false_iff, bool_decide_eq_false in Hk. destruct Hk as [Hx Hk].
    rewrite sapp_cons. cbn [index_byte String.length]. rewrite decide_False by done. by rewrite IH.
Qed.

Lemma sdrop_app k s : sdrop (String.length k) (k +:+ s) = s.
Proof. induction k as [|x k IH]; [done|]. rewrite sapp_cons. exact IH. Qed.
Lemma stake_app k s : stake (String.length k) (k +:+ s) = k.
Proof. induction k as [|x k IH]; [by destruct s|]. rewrite sapp_cons. simpl. by rewrite IH. Qed.
Lemma sdrop_app_cons k c s : sdrop (S (String.length k)) (k +:+ String c s) = s.
Proof. induction k as [|x k IH]; [done|]. rewrite sapp_cons. exact IH. Qed.
Lemma stake_app_cons k c s : stake (S (String.length k)) (k +:+ String c s) = k +:+ char1 c.
Proof.
  induction k as [|x k IH]; [by destruct s|]. rewrite !sapp_cons. cbn [String.length stake].
  f_equal. exact IH.
Qed.

Lemma find_quote_plain prev v s :
  plain_value v -> prev <> backslash -> find_quote prev (v +:+ String dquote s) = Some (String.length v).
Proof.
  intros (Hd & Hb & _). revert prev. induction v as [|x v IH]; intros prev Hp.
  - change ("" +:+ String dquote s) with (String dquote s). cbn [find_quote].
    by rewrite bool_decide_eq_true_2, bool_decide_eq_false_2.
  - simpl in Hd, Hb. rewrite sapp_cons. cbn [find_quote String.length]. ok_inv.
    rewrite !bool_decide_eq_false in *. rewrite bool_decide_eq_false_2 by done. simpl.
    by rewrite IH.
Qed.

Lemma unquote_body_plain v n : plain_value v -> (String.length v <= n)%nat -> unquote_body n v = Some v.
Proof.
  intros (Hd & Hb & Hn). revert n; induction v as [|x v IH]; intros n Hlen; [by destruct n|].
  destruct n as [|n]; [simpl in Hlen; lia|]. simpl in Hd, Hb, Hn, Hlen. ok_inv.
  rewrite !bool_decide_eq_false in *. cbn [unquote_body].
  rewrite !bool_decide_eq_false_2 by done. simpl. rewrite IH by (done || lia). done.
Qed.

Lemma unquote_plain v : plain_value v -> unquote (String dquote (v +:+ char1 dquote)) = Some v.
Proof.
  intros Hv. unfold unquote. rewrite bool_decide_eq_true_2 by done.
  assert (cut_suffix (v +:+ char1 dquote) (char1 dquote) = Some v) as -> by (by apply cut_suffix_spec).
  simpl. by apply unquote_body_plain.
Qed.

Lemma parse_labels_step n k v rest m :
  plain_key k -> plain_value v ->
  parse_labels (S n) (encode_label (k, v) +:+ rest) m
  = parse_labels n (trim_prefix rest ",") (<[k:=v]> m).
Proof.
  intros [Hk0 Hk] Hv. unfold encode_label. simpl fst; simpl snd.
  assert ((k +:+ "=" +:+ char1 dquote +:+ v +:+ char1 dquote) +:+ rest
          = k +:+ String "=" (String dquote (v +:+ String dquote rest))) as ->.
  { rewrite sapp_assoc. f_equal. change ("=" +:+ ?t) with (String "=" t).
    rewrite sapp_cons. f_equal. change (char1 dquote +:+ ?t) with (String dquote t).
    rewrite sapp_cons. f_equal. rewrite sapp_assoc. done. }
  cbn [parse_labels].
  rewrite bool_decide_eq_false_2 by (by destruct k; rewrite ?sapp_cons).
  rewrite index_byte_app by done.
  destruct (String.length k) as [|len] eqn:El; [by destruct k|]. rewrite <- El.
  rewrite sdrop_app_cons. rewrite bool_decide_eq_true_2 by done. cbn [negb].
  rewrite find_quote_plain by done.
  rewrite stake_app_cons, sdrop_app_cons, unquote_plain, stake_app by done. done.
Qed.

Lemma parse_labels_encoded l n m :
  Forall (fun p => plain_key p.1 /\ plain_value p.2) l -> (length l <= n)%nat ->
  parse_labels (S n) (encode_labels l) m = insert_all l m.
Proof.
  intros Hl. revert n m. induction Hl as [|[k v] l [Hk Hv] Hl IH]; intros n m Hn; [done|].
  destruct n as [|n]; [simpl in Hn; lia|]. simpl in Hn. unfold encode_labels. cbn [map].
  destruct l as [|p l].
  - simpl join. rewrite <- (sapp_nil_r (encode_label (k, v))).
    rewrite parse_labels_step by done. done.
  - change (join "," (encode_label (k, v) :: map encode_label (p :: l)))
      with (encode_label (k, v) +:+ String "," (encode_labels (p :: l))).
    rewrite parse_labels_step by done.
    change (trim_prefix (String "," (encode_labels (p :: l))) ",") with (encode_labels (p :: l)).
    rewrite IH by (simpl in *; lia). done.
Qed.

Lemma encode_labels_length l :
  Forall (fun p => plain_key p.1 /\ plain_value p.2) l ->
  (length l <= String.length (encode_labels l))%nat.
Proof.
  unfold encode_labels. induction 1 as [|[k v] l [[Hk _] _] Hl IH]; [simpl; lia|].
  destruct l as [|p l].
  - simpl. unfold encode_label. rewrite slength_app. destruct k; [done | simpl; lia].
  - change (join "," (map encode_label ((k, v) :: p :: l)))
      with (encode_label (k, v) +:+ "," +:+ join "," (map encode_label (p :: l))).
    rewrite !slength_app. simpl length in *. simpl (String.length ","). lia.
Qed.

(** Labels printed in exposition format, with keys free of '=' and values free of
    quotes, backslashes and newlines, are read back exactly (a repeated key keeps its
    last value). *)
Theorem prometheus_labels_roundtrip (l : list (string * string)) :
  Forall (fun p => plain_key p.1 /\ plain_value p.2) l ->
  parsePrometheusLabels (encode_labels l) = insert_all l ∅.
Proof.
  intros Hl. unfold parsePrometheusLabels. apply parse_labels_encoded; [done|].
  by apply encode_labels_length.
Qed.

Lemma prometheus_labels_witness :
  parsePrometheusLabels (encode_labels [("block_size", "16"); ("cache_dtype", "auto")])
  = insert_all [("block_size", "16"); ("cache_dtype", "auto")] ∅.
Proof.
  apply prometheus_labels_roundtrip.
  repeat constructor; vm_compute; try reflexivity; discriminate.
Defined.
