(* ===== verification/Workload.v ===== *)
(** * Backend workloads and chat templates

    [internal/controller/backend_workload.go], and from
    [llmactivemodel_controller.go] the functions on a Deployment's pod template:
    the reserved chat-template volume and mount, the activation of a model, and
    the test whether a Deployment already runs a model. *)

From S2P Require Import Prelude GoStrings Types Effects Api Driver.

Definition activeModelAnno : string := "llm.cogito.dev/active-model".
Definition switchedAtAnno : string := "llm.cogito.dev/switched-at".
Definition chatTemplateAnno : string := "llm.cogito.dev/chat-template-sha256".
Definition chatTemplateVolumeName : string := "llm-chat-template".
Definition chatTemplateMountDir : string := "/etc/llm-templates".
Definition chatTemplateMountFile : string := "chat-template.jinja".
Definition backendLabel : string := "llm.cogito.dev/backend".

(** ** Names *)

Definition backendDeploymentName (b : LLMBackend) : string :=
  match b_workload (b_spec b) with
  | Some w => if bd_name (w_deployment w) != "" then bd_name (w_deployment w) else Name (b_meta b)
  | None => b_deploymentRef (b_spec b)
  end.
Definition backendServiceName (b : LLMBackend) : string :=
  match b_workload (b_spec b) with
  | Some w => if bs_name (w_service w) != "" then bs_name (w_service w) else Name (b_meta b)
  | None => b_serviceRef (b_spec b)
  end.
Definition backendContainerName (b : LLMBackend) : string :=
  match b_workload (b_spec b) with
  | Some w => w_containerName w
  | None => b_containerName (b_spec b)
  end.
Definition backendPort (b : LLMBackend) : Z :=
  match b_workload (b_spec b) with
  | Some w => bs_port (w_service w)
  | None => b_port (b_spec b)
  end.
Definition backendLabels (b : LLMBackend) : strmap := {[backendLabel := Name (b_meta b)]}.
(** A fresh map: the existing entries, then the required ones over them. *)
Definition mergeLabels (existing required : nilmap) : nilmap :=
  Some (mentries required ∪ mentries existing).
Definition hasContainer (cs : list Container) (name : string) : bool :=
  existsb (fun c => ctr_name c == name) cs.
(** The first container of that name: its index and value. *)
Definition findContainer (name : string) (cs : list Container) : option (nat * Container) :=
  list_find (fun c => ctr_name c = name) cs.

(** ** The reserved chat-template volume and mount *)

Definition is_reserved_volume (v : Volume) : bool := vol_name v == chatTemplateVolumeName.
Definition is_reserved_mount (v : VolumeMount) : bool := vm_name v == chatTemplateVolumeName.

Definition volume_carries (t : ChatTemplateSpec) (v : Volume) : bool :=
  match vol_configMap v with
  | None => false
  | Some src =>
      (cmv_name src == ct_configMap t) &&
      match cmv_items src with
      | [item] => (kp_key item == ct_key t) && (kp_path item == chatTemplateMountFile)
      | _ => false
      end
  end.

Definition chatTemplateMounted (vols : slice Volume) (mounts : slice VolumeMount)
    (template : option ChatTemplateSpec) : bool :=
  match template with
  | None => negb (existsb is_reserved_volume (elems vols))
            && negb (existsb is_reserved_mount (elems mounts))
  | Some t =>
      match List.filter is_reserved_volume (elems vols) with
      | [v] =>
          volume_carries t v &&
          match List.find is_reserved_mount (elems mounts) with
          | Some mt => (vm_mountPath mt == chatTemplateMountDir) && vm_readOnly mt
          | None => false
          end
      | _ => false
      end
  end.

Definition template_volume (t : ChatTemplateSpec) : Volume :=
  mkVolume chatTemplateVolumeName
    (Some (mkCMSource (ct_configMap t) [mkKeyToPath (ct_key t) chatTemplateMountFile ""] "")) "".
Definition template_mount : VolumeMount :=
  mkMount chatTemplateVolumeName chatTemplateMountDir true "".

(** The volumes and the runtime container's mounts afterwards, and whether they changed. *)
Definition applyChatTemplate (vols : slice Volume) (mounts : slice VolumeMount)
    (template : option ChatTemplateSpec) : slice Volume * slice VolumeMount * bool :=
  if match template with Some _ => chatTemplateMounted vols mounts template | None => false end
  then (vols, mounts, false)
  else
    let beforeVolumes := append None (elems vols) in
    let beforeMounts := append None (elems mounts) in
    let vols' := filter_in_place (fun v => negb (is_reserved_volume v)) vols in
    let mounts' := filter_in_place (fun v => negb (is_reserved_mount v)) mounts in
    let vols' := match template with Some t => append vols' [template_volume t] | None => vols' end in
    let mounts' := match template with Some _ => append mounts' [template_mount] | None => mounts' end in
    (vols', mounts', (beforeVolumes != vols') || (beforeMounts != mounts')).

(** ** Activating a model on a Deployment *)

Definition template_digest (m : LLMModel) : string :=
  match m_template m with Some t => ct_sha256 t | None => "" end.

(** Whether the runtime container, the template or its annotations must change. *)
Definition activation_changed (m : LLMModel) (spec : DeploymentSpec) (c : Container) : bool :=
  let tmpl := dep_template spec in
  let argsChanged := negb (bool_decide (ctr_args c = effectiveArgs m)) in
  let activeChanged := (pt_annotations tmpl == None) || (mget (pt_annotations tmpl) activeModelAnno != m_name m) in
  let '(_, _, templateChanged) :=
    applyChatTemplate (pod_volumes (pt_spec tmpl)) (ctr_mounts c) (m_template m) in
  let templateAnnotationChanged := mget (pt_annotations tmpl) chatTemplateAnno != template_digest m in
  argsChanged || activeChanged || templateChanged || templateAnnotationChanged.

(** The spec [activateDeployment] wants at the container [(i, c)], at time [now]. *)
Definition activated_spec (now : string) (m : LLMModel) (spec : DeploymentSpec)
    (i : nat) (c : Container) : DeploymentSpec :=
  let tmpl := dep_template spec in
  let pod := pt_spec tmpl in
  let changed := activation_changed m spec c in
  let '(vols, mounts, _) := applyChatTemplate (pod_volumes pod) (ctr_mounts c) (m_template m) in
  let annotations :=
    if changed then
      let a := <[switchedAtAnno := now]> (<[activeModelAnno := m_name m]> (mentries (pt_annotations tmpl))) in
      Some (if template_digest m == "" then delete chatTemplateAnno a
            else <[chatTemplateAnno := template_digest m]> a)
    else pt_annotations tmpl in
  let args := if changed then effectiveArgs m else ctr_args c in
  let c' := with_args (with_mounts c mounts) args in
  mkDeploymentSpec (Some 1) (dep_selector spec)
    (mkPodTemplate (pt_labels tmpl) annotations
       (mkPodSpec (<[i := c']> (pod_containers pod)) vols (pod_rest pod)))
    (dep_strategy spec) (dep_rest spec).

Definition with_dspec (d : Deployment) (s : DeploymentSpec) : Deployment :=
  mkDeployment (d_meta d) s (d_status d).
Definition containers (d : Deployment) : list Container :=
  pod_containers (pt_spec (dep_template (d_spec d))).

Definition no_container (b : LLMBackend) (d : Deployment) : error :=
  errorf ("container " +:+ quote (backendContainerName b) +:+ " not found in deployment "
          +:+ quote (Name (d_meta d))).

Section activation.
(** [t.UTC().Format(time.RFC3339Nano)]. *)
Context (formatTime : Z -> string).

Definition activateDeployment (ns : string) (m : LLMModel) (b : LLMBackend) : kprog (result unit) :=
  let! got := call (GetDeployment ns (backendDeploymentName b)) in
  match got with
  | Err e => Ret (Err (wrap "get deployment: " e))
  | Ok d =>
      match findContainer (backendContainerName b) (containers d) with
      | None => Ret (Err (no_container b d))
      | Some (i, c) =>
          let! now := (if activation_changed m (d_spec d) c then call Now else Ret 0) in
          let spec := activated_spec (formatTime now) m (d_spec d) i c in
          if d_spec d == spec then Ret (Ok tt)
          else
            let! r := call (PatchDeployment d (with_dspec d spec)) in
            Ret (try _ := r in Ok tt)
      end
  end.
End activation.

(** Whether a Deployment spec already runs the model; [None] without the container. *)
Definition spec_matches (m : LLMModel) (cname : string) (spec : DeploymentSpec) : option bool :=
  let tmpl := dep_template spec in
  match findContainer cname (pod_containers (pt_spec tmpl)) with
  | None => None
  | Some (_, c) => Some (
      bool_decide (ctr_args c = effectiveArgs m)
      && (mget (pt_annotations tmpl) activeModelAnno == m_name m)
      && chatTemplateMounted (pod_volumes (pt_spec tmpl)) (ctr_mounts c) (m_template m)
      && (mget (pt_annotations tmpl) chatTemplateAnno == template_digest m))
  end.

Definition deploymentMatchesModel (ns : string) (m : LLMModel) (b : LLMBackend) : kprog (result bool) :=
  let! got := call (GetDeployment ns (backendDeploymentName b)) in
  Ret (match got with
       | Err e => Err (wrap "get deployment: " e)
       | Ok d => match spec_matches m (backendContainerName b) (d_spec d) with
                 | Some r => Ok r
                 | None => Err (no_container b d)
                 end
       end).

(** ** Preserving the transition's runtime across a backend reconcile *)

Definition with_pod (t : PodTemplate) (p : PodSpec) : PodTemplate :=
  mkPodTemplate (pt_labels t) (pt_annotations t) p.
Definition with_containers (p : PodSpec) (cs : list Container) : PodSpec :=
  mkPodSpec cs (pod_volumes p) (pod_rest p).

Definition preserveChatTemplateMount (current desired : PodTemplate) (currentRuntime : Container)
    (cname : string) : PodTemplate :=
  match List.find is_reserved_volume (elems (pod_volumes (pt_spec current))),
        List.find is_reserved_mount (elems (ctr_mounts currentRuntime)) with
  | Some v, Some mt =>
      let pod := pt_spec desired in
      let vols := append (filter_in_place (fun v => negb (is_reserved_volume v)) (pod_volumes pod)) [v] in
      let cs :=
        match findContainer cname (pod_containers pod) with
        | None => pod_containers pod
        | Some (i, c) =>
            <[i := with_mounts c (append (filter_in_place (fun x => negb (is_reserved_mount x))
                                            (ctr_mounts c)) [mt])]> (pod_containers pod)
        end in
      with_pod desired (mkPodSpec cs vols (pod_rest pod))
  | _, _ => desired
  end.

Definition keep_annotation (current : strmap) (acc : strmap) (key : string) : strmap :=
  match current !! key with Some v => <[key := v]> acc | None => acc end.

Definition preserveTransitionRuntime (current desired : PodTemplate) (cname : string) : PodTemplate :=
  let desired :=
    match findContainer cname (pod_containers (pt_spec desired)),
          findContainer cname (pod_containers (pt_spec current)) with
    | Some (i, c), Some (_, cur) =>
        let desired := with_pod desired (with_containers (pt_spec desired)
          (<[i := with_args c (append None (elems (ctr_args cur)))]> (pod_containers (pt_spec desired)))) in
        preserveChatTemplateMount current desired cur cname
    | _, _ => desired
    end in
  match pt_annotations current with
  | None => desired
  | Some cur =>
      mkPodTemplate (pt_labels desired)
        (Some (fold_left (keep_annotation cur) [activeModelAnno; switchedAtAnno; chatTemplateAnno]
                 (mentries (pt_annotations desired))))
        (pt_spec desired)
  end.

(** ** Materializing a workload-mode backend *)

(** The spec of the generated Service over the fetched (or fresh) one. *)
Definition desired_service (b : LLMBackend) (w : BackendWorkloadSpec) (s : Service) : Service :=
  let port := bs_port (w_service w) in
  mkService
    (with_annotations (with_labels (s_meta s) (mergeLabels (Labels (s_meta s)) (Some (backendLabels b))))
       (mergeLabels (Annotations (s_meta s)) (bs_annotations (w_service w))))
    (mkServiceSpec "ClusterIP" (ss_clusterIPs (s_spec s)) (Some (backendLabels b))
       [mkServicePort (if bs_portName (w_service w) == "" then "http" else bs_portName (w_service w))
          (int32 port) (int32 port) "TCP"] "").

(** The Deployment to write, given the fetched one (if any). *)
Definition desired_deployment (b : LLMBackend) (w : BackendWorkloadSpec) (old : option Deployment)
    : Deployment :=
  let labels := backendLabels b in
  let user := bd_podTemplate (w_deployment w) in
  let tmpl := mkPodTemplate (mergeLabels (pt_labels user) (Some labels)) (pt_annotations user) (pt_spec user) in
  let tmpl := match old with
              | Some d => preserveTransitionRuntime (dep_template (d_spec d)) tmpl (w_containerName w)
              | None => tmpl
              end in
  let meta := match old with
              | Some d => d_meta d
              | None => fresh_meta (backendDeploymentName b) (Namespace (b_meta b))
              end in
  let replicas := match old with
                  | Some d => dep_replicas (d_spec d)
                  | None => Some (default 0 (bd_replicas (w_deployment w)))
                  end in
  mkDeployment (with_labels meta (mergeLabels (Labels meta) (Some labels)))
    (mkDeploymentSpec replicas (Some labels) tmpl (bd_strategy (w_deployment w)) "")
    (match old with Some d => d_status d | None => mkDeploymentStatus 0 0 0 0 end).

Section ensure.
(** [controllerutil.SetControllerReference]: the object's metadata with the
    controller reference set, or an error when another controller owns it. *)
Context (setControllerReference : ObjectMeta -> ObjectMeta -> result ObjectMeta).

Definition get_or_none {A} (what : string) (r : result A) : result (option A) :=
  match r with
  | Ok a => Ok (Some a)
  | Err e => if err_is ErrNotFound e then Ok None else Err (wrap what e)
  end.

Definition ensureService (b : LLMBackend) (w : BackendWorkloadSpec) : kprog (result unit) :=
  let ns := Namespace (b_meta b) in
  let! got := call (GetService ns (backendServiceName b)) in
  match get_or_none "get generated service: " got with
  | Err e => Ret (Err e)
  | Ok old =>
      let before := default (mkService (fresh_meta (backendServiceName b) ns)
                               (mkServiceSpec "" "" None [] "")) old in
      let s := desired_service b w before in
      match setControllerReference (b_meta b) (s_meta s) with
      | Err e => Ret (Err (wrap "set service owner: " e))
      | Ok meta =>
          let s := mkService meta (s_spec s) in
          match old with
          | None =>
              let! r := call (CreateService s) in
              Ret (match r with Ok _ => Ok tt | Err e => Err (wrap "create generated service: " e) end)
          | Some _ =>
              if before == s then Ret (Ok tt) else
              let! r := call (PatchService before s) in
              Ret (match r with Ok _ => Ok tt | Err e => Err (wrap "update generated service: " e) end)
          end
      end
  end.

Definition ensureDeployment (b : LLMBackend) (w : BackendWorkloadSpec) : kprog (result unit) :=
  let! got := call (GetDeployment (Namespace (b_meta b)) (backendDeploymentName b)) in
  match get_or_none "get generated deployment: " got with
  | Err e => Ret (Err e)
  | Ok old =>
      let d := desired_deployment b w old in
      match setControllerReference (b_meta b) (d_meta d) with
      | Err e => Ret (Err (wrap "set deployment owner: " e))
      | Ok meta =>
          let d := mkDeployment meta (d_spec d) (d_status d) in
          match old with
          | None =>
              let! r := call (CreateDeployment d) in
              Ret (match r with Ok _ => Ok tt | Err e => Err (wrap "create generated deployment: " e) end)
          | Some before =>
              if before == d then Ret (Ok tt) else
              let! r := call (PatchDeployment before d) in
              Ret (match r with Ok _ => Ok tt | Err e => Err (wrap "update generated deployment: " e) end)
          end
      end
  end.

Definition ensureBackendWorkload (b : LLMBackend) : kprog (result unit) :=
  match b_workload (b_spec b) with
  | None => Ret (Ok tt)
  | Some w =>
      if (w_containerName w == "") || (bs_port (w_service w) =? 0) then
        Ret (Err (errorf "workload.containerName and workload.service.port are required"))
      else if negb (hasContainer (pod_containers (pt_spec (bd_podTemplate (w_deployment w)))) (w_containerName w)) then
        Ret (Err (errorf ("workload.containerName " +:+ quote (w_containerName w) +:+
               " is not present in workload.deployment.podTemplate")))
      else
        let! r := ensureService b w in
        match r with
        | Err e => Ret (Err e)
        | Ok _ => ensureDeployment b w
        end
  end.
End ensure.
