(* ===== verification/WorkloadProps.v ===== *)
(** * Properties of activation and of backend reconciles

    Activation makes a Deployment match its model and leaves sidecars, foreign
    volumes and every unrelated field alone; a matching Deployment is not patched
    again; a backend reconcile never touches the replica count and keeps a matching
    Deployment matching unless the user's template uses what is reserved for models. *)

From S2P Require Import Prelude GoStrings Types Effects Api Driver Workload Samples.

(** ** Containers *)

Lemma findContainer_some name cs i c :
  findContainer name cs = Some (i, c) ->
  cs !! i = Some c /\ ctr_name c = name /\ (i < length cs)%nat.
Proof.
  unfold findContainer. intros (Hi & Hn & _)%list_find_Some.
  split_and!; [done..|]. by apply lookup_lt_Some in Hi.
Qed.

(** Replacing the found container by one of the same name finds the new one. *)
Lemma findContainer_insert name cs i c c' :
  findContainer name cs = Some (i, c) -> ctr_name c' = name ->
  findContainer name (<[i := c']> cs) = Some (i, c').
Proof.
  unfold findContainer. intros (Hi & Hn & Hf)%list_find_Some Hc'.
  apply list_find_Some. split_and!; [|done|].
  - apply list_lookup_insert_eq. by apply lookup_lt_Some in Hi.
  - intros j y Hj Hlt. rewrite list_lookup_insert_ne in Hj by lia. eauto.
Qed.

(** ** The reserved volume and mount *)

Definition foreign_volumes (s : slice Volume) : list Volume :=
  List.filter (fun v => negb (is_reserved_volume v)) (elems s).
Definition foreign_mounts (s : slice VolumeMount) : list VolumeMount :=
  List.filter (fun v => negb (is_reserved_mount v)) (elems s).

Lemma filter_negb_nil {A} (f : A -> bool) l : List.filter f (List.filter (fun x => negb (f x)) l) = [].
Proof. induction l as [|x l IH]; simpl; [done|]. destruct (f x) eqn:E; simpl; rewrite ?E; done. Qed.
Lemma existsb_filter_negb {A} (f : A -> bool) l : existsb f (List.filter (fun x => negb (f x)) l) = false.
Proof. induction l as [|x l IH]; simpl; [done|]. destruct (f x) eqn:E; simpl; rewrite ?E; done. Qed.
Lemma find_filter_negb {A} (f : A -> bool) l : List.find f (List.filter (fun x => negb (f x)) l) = None.
Proof. induction l as [|x l IH]; simpl; [done|]. destruct (f x) eqn:E; simpl; rewrite ?E; done. Qed.
Lemma find_app_none {A} (f : A -> bool) l l' :
  List.find f l = None -> List.find f (l ++ l') = List.find f l'.
Proof. induction l as [|x l IH]; simpl; [done|]. by destruct (f x). Qed.
Lemma filter_app_list {A} (f : A -> bool) l l' : List.filter f (l ++ l') = List.filter f l ++ List.filter f l'.
Proof. apply List.filter_app. Qed.

Lemma applyChatTemplate_mounted vols mounts t vols' mounts' ch :
  applyChatTemplate vols mounts t = (vols', mounts', ch) -> chatTemplateMounted vols' mounts' t = true.
Proof.
  unfold applyChatTemplate. destruct t as [t|].
  - destruct (chatTemplateMounted vols mounts (Some t)) eqn:E; intros [= <- <- <-]; [done|].
    unfold chatTemplateMounted. autorewrite with golib.
    rewrite filter_app_list, filter_negb_nil.
    change ([] ++ List.filter is_reserved_volume [template_volume t]) with [template_volume t].
    cbv beta iota. rewrite find_app_none by apply find_filter_negb.
    change (List.find is_reserved_mount [template_mount]) with (Some template_mount).
    unfold volume_carries. cbn. by rewrite !bool_decide_eq_true_2.
  - intros [= <- <- <-]. unfold chatTemplateMounted. autorewrite with golib.
    by rewrite !existsb_filter_negb.
Qed.

Lemma applyChatTemplate_foreign vols mounts t vols' mounts' ch :
  applyChatTemplate vols mounts t = (vols', mounts', ch) ->
  foreign_volumes vols' = foreign_volumes vols /\ foreign_mounts mounts' = foreign_mounts mounts.
Proof.
  unfold applyChatTemplate, foreign_volumes, foreign_mounts.
  destruct t as [t|]; [destruct (chatTemplateMounted _ _ _)|];
    intros [= <- <- <-]; [done| |]; autorewrite with golib;
    rewrite ?filter_app_list, !filter_idem; simpl; by rewrite ?app_nil_r.
Qed.

(** ** Activation *)

(** The untouched part of a container, and of a spec around its runtime container. *)
Record only_runtime_changed (i : nat) (old new : DeploymentSpec) : Prop := {
  orc_selector : dep_selector new = dep_selector old;
  orc_strategy : dep_strategy new = dep_strategy old;
  orc_rest : dep_rest new = dep_rest old;
  orc_labels : pt_labels (dep_template new) = pt_labels (dep_template old);
  orc_pod_rest : pod_rest (pt_spec (dep_template new)) = pod_rest (pt_spec (dep_template old));
  orc_sidecars : forall j, j <> i ->
    pod_containers (pt_spec (dep_template new)) !! j = pod_containers (pt_spec (dep_template old)) !! j;
  orc_container : forall c, pod_containers (pt_spec (dep_template old)) !! i = Some c ->
    exists c', pod_containers (pt_spec (dep_template new)) !! i = Some c'
      /\ ctr_name c' = ctr_name c /\ ctr_env c' = ctr_env c /\ ctr_rest c' = ctr_rest c
      /\ ctr_requests c' = ctr_requests c /\ ctr_limits c' = ctr_limits c
      /\ foreign_mounts (ctr_mounts c') = foreign_mounts (ctr_mounts c);
  orc_volumes : foreign_volumes (pod_volumes (pt_spec (dep_template new)))
                = foreign_volumes (pod_volumes (pt_spec (dep_template old)));
  orc_annotations : forall k, k ∉ [activeModelAnno; switchedAtAnno; chatTemplateAnno] ->
    mlookup (pt_annotations (dep_template new)) k = mlookup (pt_annotations (dep_template old)) k;
}.

Lemma anno_distinct :
  activeModelAnno <> switchedAtAnno /\ activeModelAnno <> chatTemplateAnno
  /\ switchedAtAnno <> chatTemplateAnno.
Proof. vm_compute. intuition discriminate. Qed.

Lemma activated_frame now m spec i c cname :
  findContainer cname (pod_containers (pt_spec (dep_template spec))) = Some (i, c) ->
  only_runtime_changed i spec (activated_spec now m spec i c).
Proof.
  intros Hf. apply findContainer_some in Hf as (Hi & Hn & Hlt). unfold activated_spec.
  destruct (applyChatTemplate _ _ _) as [[vols mounts] ch] eqn:Ea.
  apply applyChatTemplate_foreign in Ea as [Hv Hm].
  constructor; simpl; try done.
  - intros j Hj. by apply list_lookup_insert_ne.
  - intros c0 Hc0. rewrite Hi in Hc0. injection Hc0 as <-.
    eexists. rewrite list_lookup_insert_eq by done. split; [done|]. simpl. done.
  - intros k Hk. destruct (activation_changed m spec c); [|done]. unfold mlookup, mentries. simpl.
    assert (k <> activeModelAnno /\ k <> switchedAtAnno /\ k <> chatTemplateAnno) as (?&?&?) by set_solver.
    destruct (pt_annotations (dep_template spec)) as [a|]; simpl;
      destruct (template_digest m == ""); rewrite ?lookup_delete_ne, ?lookup_insert_ne by done; done.
Qed.

Lemma activated_matches now m spec i c cname :
  findContainer cname (pod_containers (pt_spec (dep_template spec))) = Some (i, c) ->
  spec_matches m cname (activated_spec now m spec i c) = Some true.
Proof.
  intros Hf. destruct (findContainer_some _ _ _ _ Hf) as (_ & Hn & _).
  unfold spec_matches, activated_spec.
  unfold activation_changed.
  destruct (applyChatTemplate _ _ _) as [[vols mounts] ch] eqn:Ea.
  apply applyChatTemplate_mounted in Ea. cbn [dep_template pt_spec pod_containers pod_volumes pt_annotations].
  erewrite findContainer_insert by (done || exact Hf).
  cbn [ctr_args ctr_mounts with_args with_mounts]. rewrite Ea.
  destruct (_ || _) eqn:Hch.
  - rewrite bool_decide_eq_true_2 by done.
    destruct anno_distinct as (?&?&?). rewrite !mget_Some.
    destruct (decide (template_digest m = "")) as [Ed|Ed];
      [rewrite (bool_decide_eq_true_2 _ Ed) | rewrite (bool_decide_eq_false_2 _ Ed)].
    + rewrite lookup_delete_ne, lookup_insert_ne, lookup_insert_eq, lookup_delete_eq by done.
      by rewrite Ed, !bool_decide_eq_true_2.
    + rewrite (lookup_insert_ne _ chatTemplateAnno), lookup_insert_ne, !lookup_insert_eq by done.
      by rewrite !bool_decide_eq_true_2.
  - ok_inv. rewrite !bool_decide_eq_true in *. rewrite !bool_decide_eq_true_2 by done. done.
Qed.

(** C14: every patch [activateDeployment] sends is built on the Deployment it fetched,
    scales it to one replica, makes it match the model, and differs from it only in
    the runtime container's arguments, the reserved chat-template volume and mount and
    the three transition annotations: sidecars, foreign volumes and mounts, labels and
    all other fields are kept. *)
Theorem activation_patch_correct (W : Type) (h : handler kev W) (w : W) (fmt : Z -> string)
    (ns : string) (m : LLMModel) (b : LLMBackend) (base d : Deployment) :
  (base, d) ∈ patches (trace h (activateDeployment fmt ns m b) w) ->
  dep_replicas (d_spec d) = Some 1
  /\ spec_matches m (backendContainerName b) (d_spec d) = Some true
  /\ d_meta d = d_meta base /\ d_status d = d_status base
  /\ exists i c, findContainer (backendContainerName b) (containers base) = Some (i, c)
       /\ only_runtime_changed i (d_spec base) (d_spec d).
Proof.
  unfold trace, activateDeployment. cbn [run bind call].
  destruct (h _ (GetDeployment _ _) w) as [[d0|e] w1]; cbn [run bind call]; [|set_solver].
  destruct (findContainer _ _) as [[i c]|] eqn:Hf; cbn [run bind call]; [|set_solver].
  rewrite run_bind. match goal with |- context [run h ?p w1] => set (clock := p) end.
  assert (patches (run h clock w1).1.1 = []) as Hp1
    by (subst clock; destruct (activation_changed _ _ _); cbn; by destruct (h Z Now w1)).
  destruct (run h clock w1) as [[tr1 now] w2]. cbn [fst] in Hp1.
  case_bool_decide; cbn [run bind call fst snd];
    [rewrite patches_cons, patches_app, Hp1; set_solver|].
  destruct (h _ (PatchDeployment _ _) w2) as [r w3]. cbn [fst snd].
  rewrite patches_cons, patches_app, Hp1. cbn.
  intros [= -> ->]%list_elem_of_singleton. cbn [d_spec d_meta d_status with_dspec].
  split_and!; [|by eapply activated_matches|done|done|].
  - unfold activated_spec. by destruct (applyChatTemplate _ _ _) as [[??]?].
  - exists i, c. split; [done|]. by eapply activated_frame.
Qed.

(** The services of a run that answers every request from a script of Deployments. *)
Definition fixed_deployment (d : Deployment) : handler kev unit := fun X e w =>
  (match e in kev X return X with
   | GetDeployment _ _ => Ok d
   | PatchDeployment _ d => Ok d
   | CreateDeployment d => Ok d
   | ScaleDeployment d _ => Ok d
   | GetActive _ _ => Err (errorf "") | ListActive _ => Err (errorf "")
   | UpdateActiveStatus a => Ok a
   | GetModel _ _ => Err (errorf "") | ListModels _ => Err (errorf "")
   | UpdateModel m => Ok m | UpdateModelStatus m => Ok m
   | GetBackend _ _ => Err (errorf "") | ListBackends _ => Err (errorf "")
   | UpdateBackend b => Ok b | UpdateBackendStatus b => Ok b
   | GetOverlay _ _ => Err (errorf "") | ListOverlays _ => Err (errorf "")
   | UpdateOverlayStatus o => Ok o
   | GetService _ _ => Err (mkError "" ErrNotFound) | CreateService s => Ok s | PatchService _ s => Ok s
   | GetConfigMap _ _ => Err (errorf "")
   | HttpGet _ => Err (errorf "") | HttpPostCache _ _ => Err (errorf "")
   | Now => 7 | WaitTick _ _ => None | Metric _ => tt | RecordEvent _ _ => tt
   end, w).

Lemma activation_patch_witness :
  exists base d,
    (base, d) ∈ patches (trace (fixed_deployment (sample_deployment "llm-laguna" 0 empty_status))
                   (activateDeployment show_int "llm" laguna llama_backend) tt)
    /\ dep_replicas (d_spec d) = Some 1.
Proof.
  set (tr := trace _ _ _).
  assert (exists p, patches tr = [p]) as [[base d] Hp]
    by (eexists; subst tr; vm_compute; reflexivity).
  exists base, d. assert ((base, d) ∈ patches tr) as Hin by (rewrite Hp; apply list_elem_of_singleton; reflexivity).
  split; [exact Hin|]. apply (activation_patch_correct unit _ _ _ _ _ _ _ _ Hin).
Defined.

Definition normalized {A} (s : slice A) : Prop := s <> Some [].

Lemma append_nil_id {A} (s : slice A) : normalized s -> append None (elems s) = s.
Proof. destruct s as [[|x l]|]; done. Qed.

Lemma applyChatTemplate_idle vols mounts t :
  chatTemplateMounted vols mounts t = true -> normalized vols -> normalized mounts ->
  applyChatTemplate vols mounts t = (vols, mounts, false).
Proof.
  intros Hm Hv Hmt. unfold applyChatTemplate. destruct t as [t|]; [by rewrite Hm|].
  unfold chatTemplateMounted in Hm. ok_inv.
  assert (forall A (f : A -> bool) (s : slice A), existsb f (elems s) = false ->
            filter_in_place (fun x => negb (f x)) s = s) as Hid.
  { intros A f [l|] Hl; simpl in *; [|done]. f_equal. apply filter_all.
    apply existsb_false_forall in Hl. eapply Forall_impl; [exact Hl|]. by intros x ->. }
  rewrite !Hid, !append_nil_id by done. by rewrite !bool_decide_eq_true_2.
Qed.

(** A Deployment that already runs the model at one replica is left alone: the
    spec activation asks for is the spec it has, so no patch is sent and no rollout is
    triggered. *)
Theorem matching_deployment_not_patched (now : string) (m : LLMModel) (spec : DeploymentSpec)
    (cname : string) (i : nat) (c : Container) :
  spec_matches m cname spec = Some true ->
  findContainer cname (pod_containers (pt_spec (dep_template spec))) = Some (i, c) ->
  dep_replicas spec = Some 1 -> m_name m <> "" ->
  normalized (pod_volumes (pt_spec (dep_template spec))) -> normalized (ctr_mounts c) ->
  activated_spec now m spec i c = spec.
Proof.
  intros Hs Hf Hr Hn Hv Hm. unfold spec_matches in Hs. rewrite Hf in Hs. injection Hs as Hs.
  ok_inv. unfold activated_spec, activation_changed. rewrite applyChatTemplate_idle by done.
  rewrite !bool_decide_eq_true in *.
  assert (pt_annotations (dep_template spec) <> None) as Ha by (intros E; rewrite E in *; done).
  rewrite (bool_decide_eq_true_2 (ctr_args c = _)) by done.
  rewrite (bool_decide_eq_false_2 _ Ha). rewrite !bool_decide_eq_true_2 by done.
  destruct spec as [rep sel [lbl an [cs vols prest]] str rest], c as [n a e mts rq lm rst]. simpl in *.
  rewrite list_insert_id by (by apply findContainer_some in Hf as (? & _)). by subst.
Qed.

Lemma matching_deployment_witness :
  exists spec i c, spec_matches gemma "runtime" spec = Some true /\ activated_spec "later" gemma spec i c = spec.
Proof.
  set (c0 := runtime_container).
  set (spec := activated_spec "now" gemma (d_spec (sample_deployment "x" 0 empty_status)) 1 c0).
  assert (exists c, findContainer "runtime" (pod_containers (pt_spec (dep_template spec))) = Some (1%nat, c)
            /\ normalized (ctr_mounts c)) as (c & Hf & Hm).
  { eexists. split; [vm_compute; reflexivity | vm_compute; discriminate]. }
  exists spec, 1%nat, c.
  assert (spec_matches gemma "runtime" spec = Some true) as Hs by (vm_compute; reflexivity).
  split; [exact Hs|].
  apply (matching_deployment_not_patched "later" gemma spec "runtime" 1 c Hs Hf);
    [reflexivity | discriminate | vm_compute; discriminate | exact Hm].
Defined.

(** ** Backend reconciles *)

Lemma append_normalized {A} (s : slice A) xs : normalized s -> normalized (append s xs).
Proof. destruct s as [[|x l]|], xs; unfold normalized; simpl; intros H; try done; congruence. Qed.

Lemma effectiveArgs_normalized m : normalized (effectiveArgs m).
Proof.
  unfold effectiveArgs. destruct (RegistryDriver _ _) as [d|e] eqn:Hd; [|by apply append_normalized].
  assert (normalized (build d m (append None (srv_args (m_serving m))))) as Hb.
  { apply DefaultRegistry_spec in Hd as [[_ ->]|[[_ ->]|[_ ->]]]; cbn [build vllmDriver llamaCPPDriver sglangDriver];
      unfold hub_build; try case_match; repeat apply append_normalized; done. }
  unfold EffectiveArgs. repeat case_match; repeat apply append_normalized; done.
Qed.

(** The user's pod template leaves the controller's names alone. *)
Record unreserved (cname : string) (t : PodTemplate) : Prop := {
  un_volumes : existsb is_reserved_volume (elems (pod_volumes (pt_spec t))) = false;
  un_mounts : forall i c, findContainer cname (pod_containers (pt_spec t)) = Some (i, c) ->
    existsb is_reserved_mount (elems (ctr_mounts c)) = false;
  un_active : mget (pt_annotations t) activeModelAnno = "";
  un_digest : mget (pt_annotations t) chatTemplateAnno = "";
}.

(** What [spec_matches] reads of a pod template. *)
Definition template_matches (m : LLMModel) (cname : string) (t : PodTemplate) : option bool :=
  match findContainer cname (pod_containers (pt_spec t)) with
  | None => None
  | Some (_, c) => Some (
      bool_decide (ctr_args c = effectiveArgs m)
      && (mget (pt_annotations t) activeModelAnno == m_name m)
      && chatTemplateMounted (pod_volumes (pt_spec t)) (ctr_mounts c) (m_template m)
      && (mget (pt_annotations t) chatTemplateAnno == template_digest m))
  end.

Lemma keep_lookup (cur acc : strmap) k k' :
  keep_annotation cur acc k !! k' = if decide (k = k') then union_with (fun x _ => Some x) (cur !! k) (acc !! k')
                                    else acc !! k'.
Proof.
  unfold keep_annotation. case_decide as E; [subst k'|].
  - destruct (cur !! k) eqn:Hc; rewrite ?lookup_insert_eq; by destruct (acc !! k).
  - destruct (cur !! k) eqn:Hc; by rewrite ?lookup_insert_ne.
Qed.

Lemma keep_annotations_get (cur user : strmap) k :
  k = activeModelAnno \/ k = chatTemplateAnno -> mget (Some user) k = "" ->
  mget (Some (fold_left (keep_annotation cur) [activeModelAnno; switchedAtAnno; chatTemplateAnno] user)) k
  = mget (Some cur) k.
Proof.
  destruct anno_distinct as (?&?&?). intros Hk Hu. cbn [fold_left]. rewrite mget_Some in *.
  assert (forall o1 o2 : option string, default "" o2 = "" ->
    default "" (union_with (fun x _ => Some x) o1 o2) = default "" o1) as Hgen
    by (intros [] []; simpl; congruence).
  rewrite !keep_lookup. destruct Hk as [-> | ->].
  - rewrite (decide_False (P := chatTemplateAnno = _)), (decide_False (P := switchedAtAnno = _)),
      decide_True, mget_Some by done.
    by apply Hgen.
  - rewrite decide_True, (decide_False (P := switchedAtAnno = _)), decide_False, mget_Some by done.
    by apply Hgen.
Qed.

(** The mount of a live container carried over to an unreserved template. *)
Lemma preserve_mount_mounted (vols uvols : slice Volume) (mounts umounts : slice VolumeMount) t v mt :
  chatTemplateMounted vols mounts (Some t) = true ->
  List.find is_reserved_volume (elems vols) = Some v -> List.find is_reserved_mount (elems mounts) = Some mt ->
  chatTemplateMounted (append (filter_in_place (fun v => negb (is_reserved_volume v)) uvols) [v])
    (append (filter_in_place (fun x => negb (is_reserved_mount x)) umounts) [mt]) (Some t) = true.
Proof.
  unfold chatTemplateMounted. intros Hm Hv Hmt. autorewrite with golib.
  apply find_some in Hv as Hv'. destruct Hv' as [Hin Hres]. apply find_some in Hmt as Hmt'. destruct Hmt' as [_ Hresm].
  rewrite filter_app_list, filter_negb_nil, find_app_none by apply find_filter_negb.
  simpl. rewrite Hres, Hresm. rewrite Hmt in Hm.
  destruct (List.filter is_reserved_volume (elems vols)) as [|v0 [|]] eqn:Hf; try done.
  assert (In v [v0]) as [->|[]] by (rewrite <- Hf; by apply filter_In). done.
Qed.

Lemma preserve_matches m cname current user :
  template_matches m cname current = Some true -> unreserved cname user ->
  is_Some (findContainer cname (pod_containers (pt_spec user))) ->
  template_matches m cname (preserveTransitionRuntime current user cname) = Some true.
Proof.
  intros Hm [Huv Hum Hua Hud] [[i c] Hc]. specialize (Hum i c Hc).
  unfold template_matches in Hm. destruct (findContainer cname (pod_containers (pt_spec current))) as [[j cur]|] eqn:Hcur; [|done].
  injection Hm as Hm. rewrite !andb_true_iff in Hm. destruct Hm as (((Ha & Hn) & Ht) & Hd).
  rewrite !bool_decide_eq_true in *. unfold preserveTransitionRuntime. rewrite Hc, Hcur.
  rewrite append_nil_id by (rewrite Ha; apply effectiveArgs_normalized). rewrite Ha.
  set (c1 := with_args c (effectiveArgs m)).
  assert (findContainer cname (<[i := c1]> (pod_containers (pt_spec user))) = Some (i, c1)) as Hc1.
  { eapply findContainer_insert; [exact Hc|]. by apply findContainer_some in Hc as (_ & ? & _). }
  set (user1 := with_pod user _).
  assert (exists c2, findContainer cname (pod_containers (pt_spec (preserveChatTemplateMount current user1 cur cname))) = Some (i, c2)
    /\ ctr_args c2 = effectiveArgs m
    /\ chatTemplateMounted (pod_volumes (pt_spec (preserveChatTemplateMount current user1 cur cname)))
         (ctr_mounts c2) (m_template m) = true
    /\ pt_annotations (preserveChatTemplateMount current user1 cur cname) = pt_annotations user) as (c2 & Hf & Ha2 & Ht2 & Han).
  { unfold preserveChatTemplateMount. destruct (m_template m) as [t|] eqn:Htm.
    - assert (exists v mt, List.find is_reserved_volume (elems (pod_volumes (pt_spec current))) = Some v
        /\ List.find is_reserved_mount (elems (ctr_mounts cur)) = Some mt) as (v & mt & Hv & Hmt).
      { unfold chatTemplateMounted in Ht. destruct (List.filter _ _) as [|v [|]] eqn:Hfl; try done.
        destruct (List.find is_reserved_mount _) as [mt|]; [|by rewrite andb_false_r in Ht].
        destruct (List.find is_reserved_volume _) as [v'|] eqn:Hfv; [by eauto|].
        assert (In v [v]) as Hv by (by left). rewrite <- Hfl in Hv. apply filter_In in Hv as [Hin Hr].
        by rewrite (find_none _ _ Hfv _ Hin) in Hr. }
      rewrite Hv, Hmt. subst user1. cbn [pt_spec with_pod with_containers pod_containers pod_volumes pt_annotations].
      rewrite Hc1. eexists. split; [eapply findContainer_insert; [exact Hc1|]; by apply findContainer_some in Hc as (_ & ? & _)|].
      split; [done|]. split; [|done]. cbn [ctr_mounts with_mounts]. by eapply preserve_mount_mounted.
    - unfold chatTemplateMounted in Ht. ok_inv.
      assert (List.find is_reserved_volume (elems (pod_volumes (pt_spec current))) = None) as ->
        by (by apply find_none_forall, existsb_false_forall).
      exists c1. split_and!; try done. apply andb_true_iff. by split; apply negb_true_iff. }
  unfold template_matches. destruct (pt_annotations current) as [cura|].
  - cbn [pt_spec pt_annotations]. rewrite Hf, Ha2, Ht2, Han.
    rewrite !keep_annotations_get by (auto; by destruct (pt_annotations user)).
    by rewrite !bool_decide_eq_true_2.
  - rewrite Hf, Ha2, Ht2, Han, Hua, Hud.
    change (mget None activeModelAnno) with "" in Hn. change (mget None chatTemplateAnno) with "" in Hd.
    by rewrite !bool_decide_eq_true_2.
Qed.

Lemma hasContainer_found cs name : hasContainer cs name = true -> is_Some (findContainer name cs).
Proof.
  intros (c & Hc & Hn%bool_decide_eq_true)%existsb_exists. apply list_elem_of_In in Hc.
  unfold findContainer. destruct (list_find _ _) as [[i c']|] eqn:E; [done|]. apply list_find_None in E.
  rewrite Forall_forall in E. by destruct (E c Hc).
Qed.

Lemma desired_matches (b : LLMBackend) (w : BackendWorkloadSpec) (d : Deployment) (m : LLMModel) :
  spec_matches m (w_containerName w) (d_spec d) = Some true ->
  unreserved (w_containerName w) (bd_podTemplate (w_deployment w)) ->
  hasContainer (pod_containers (pt_spec (bd_podTemplate (w_deployment w)))) (w_containerName w) = true ->
  spec_matches m (w_containerName w) (d_spec (desired_deployment b w (Some d))) = Some true.
Proof.
  intros Hm Hu Hc.
  apply (preserve_matches m (w_containerName w) (dep_template (d_spec d))
    (mkPodTemplate (mergeLabels (pt_labels (bd_podTemplate (w_deployment w))) (Some (backendLabels b)))
       (pt_annotations (bd_podTemplate (w_deployment w))) (pt_spec (bd_podTemplate (w_deployment w)))) Hm).
  - destruct Hu. by constructor.
  - by apply hasContainer_found.
Qed.

(** The Deployment a backend reconcile writes over [base], which it read. *)
Definition keeps_transition (b : LLMBackend) (w : BackendWorkloadSpec) (base d : Deployment) : Prop :=
  dep_replicas (d_spec d) = dep_replicas (d_spec base)
  /\ forall m, spec_matches m (w_containerName w) (d_spec base) = Some true ->
       unreserved (w_containerName w) (bd_podTemplate (w_deployment w)) ->
       spec_matches m (w_containerName w) (d_spec d) = Some true.

Definition workload_rules (b : LLMBackend) (w : BackendWorkloadSpec) : contract kev (list (obs kev)) :=
  traced (E := kev) (fun _ _ _ => True) (fun X e tr =>
    match e with
    | PatchDeployment base d =>
        Obs (GetDeployment (Namespace (b_meta b)) (backendDeploymentName b)) (Ok base) ∈ tr
        /\ keeps_transition b w base d
    | _ => True
    end).

Lemma rg_workload scr b w :
  b_workload (b_spec b) = Some w ->
  rg (workload_rules b w) (ensureBackendWorkload scr b) [] (fun _ _ => True).
Proof.
  intros Hw. unfold ensureBackendWorkload. rewrite Hw. destruct (_ || _); [done|].
  destruct (hasContainer _ _) eqn:Hc; cbn [negb]; [|done].
  assert (within (workload_rules b w) (fun _ => True) (ensureService scr b w)) as Hs
    by (unfold ensureService; stay_within).
  apply rg_bind. eapply rg_mono; [by apply Hs|]. intros tr [[]|e] _; [|done].
  unfold ensureDeployment. split; [done|]. intros got _. cbn [rg bind record workload_rules traced].
  destruct got as [base|e]; cbn [get_or_none].
  - destruct (scr _ _) as [meta|e]; [|done]. case_bool_decide; [done|].
    split; [|by intros [] _]. split; [set_solver|]. split; [done|].
    intros m Hm Hu. by apply desired_matches.
  - destruct (err_is _ _); [|done]. destruct (scr _ _) as [meta|e']; [|done]. split; [done|]. by intros [] _.
Qed.

(** C15: a backend reconcile does not undo a transition.  Whatever the services answer, a
    patch of the workload's Deployment is based on the Deployment this run read and keeps its
    replica count; and when that Deployment matched a model (arguments, active-model
    annotation, chat-template volume, mount and digest) the patched one still matches it,
    provided the user's pod template stays clear of the controller's names: no volume and,
    in the runtime container, no mount called llm-chat-template, and neither of the
    active-model and chat-template annotations.  Admission does not enforce the proviso. *)
Theorem backend_reconcile_keeps_transition (W : Type) (h : handler kev W) (w : W)
    (scr : ObjectMeta -> ObjectMeta -> result ObjectMeta) (b : LLMBackend)
    (tr1 tr2 : list (obs kev)) (base d : Deployment) (reply : result Deployment) :
  trace h (ensureBackendWorkload scr b) w = tr1 ++ Obs (PatchDeployment base d) reply :: tr2 ->
  exists wl, b_workload (b_spec b) = Some wl
    /\ Obs (GetDeployment (Namespace (b_meta b)) (backendDeploymentName b)) (Ok base) ∈ tr1
    /\ dep_replicas (d_spec d) = dep_replicas (d_spec base)
    /\ forall m, spec_matches m (w_containerName wl) (d_spec base) = Some true ->
         unreserved (w_containerName wl) (bd_podTemplate (w_deployment wl)) ->
         spec_matches m (w_containerName wl) (d_spec d) = Some true.
Proof.
  intros Htr. destruct (b_workload (b_spec b)) as [wl|] eqn:Hw.
  - exists wl. split; [done|].
    destruct (rg_run_any (workload_rules b wl) h (ensureBackendWorkload scr b) [] w (fun _ _ => True))
      as [Hm _]; [done|by apply rg_workload|].
    specialize (Hm _ _ _ Htr). unfold workload_rules in Hm. rewrite ghost_traced in Hm. exact Hm.
  - unfold ensureBackendWorkload in Htr. rewrite Hw in Htr. by destruct tr1.
Qed.

(** The llama.cpp Deployment running laguna. *)
Definition running_laguna : Deployment :=
  with_dspec (sample_deployment "llm-laguna" 0 empty_status)
    (activated_spec "now" laguna (d_spec (sample_deployment "x" 0 empty_status)) 1 runtime_container).

Lemma running_laguna_unreserved : unreserved "runtime" sample_template.
Proof.
  constructor; [reflexivity| |reflexivity|reflexivity].
  intros i c H. vm_compute in H. injection H as <- <-. reflexivity.
Qed.

Lemma backend_reconcile_witness :
  spec_matches laguna "runtime" (d_spec running_laguna) = Some true
  /\ exists tr1 d reply tr2,
       trace (fixed_deployment running_laguna) (ensureBackendWorkload (fun _ m => Ok m) llama_backend) tt
         = tr1 ++ Obs (PatchDeployment running_laguna d) reply :: tr2
       /\ spec_matches laguna "runtime" (d_spec d) = Some true.
Proof.
  assert (spec_matches laguna "runtime" (d_spec running_laguna) = Some true) as Hm by (vm_compute; reflexivity).
  split; [exact Hm|].
  set (tr := trace _ _ _).
  assert (exists tr1 d reply, tr = tr1 ++ Obs (PatchDeployment running_laguna d) reply :: [])
    as (tr1 & d & reply & Htr).
  { exists (take 3 tr). eexists _, _. subst tr. vm_compute. reflexivity. }
  exists tr1, d, reply, []. split; [exact Htr|].
  destruct (backend_reconcile_keeps_transition unit (fixed_deployment running_laguna) tt (fun _ m => Ok m) llama_backend
              tr1 [] running_laguna d reply Htr) as (wl & Hw & _ & _ & H).
  injection Hw as <-. apply (H laguna Hm), running_laguna_unreserved.
Defined.
