(* ===== verification/CacheClient.v ===== *)
(** * The cache-manager client ([internal/cache/client.go])

    [Ensure], [Sweep] and [Healthz]: which replies of the cache-manager count as
    success and what the caller learns from them. *)

From S2P Require Import Prelude GoStrings Types Effects Api Driver.

Definition CacheHot : string := "hot".
Definition CacheCold : string := "cold".
Definition CacheExternal : string := "external".

Section client.
(** [http.NewRequestWithContext]: the error for an unparsable URL, if any. *)
Context (newRequest : string -> option error).

(** [NewWithHTTPClient]: the base URL the client keeps. *)
Definition NewWithHTTPClient (baseURL : string) : string := trim_suffix baseURL "/".

Definition read_message (r : http_response) : string :=
  match hr_body r with Ok b => trim_space (limit_read 4096 b) | Err _ => "" end.

Definition Ensure (baseURL : string) (req : CacheRequest) : kprog (result string) :=
  let url := baseURL +:+ "/v1/ensure" in
  let what := "ensure cached model " +:+ quote (cr_model req) +:+ ": " in
  match newRequest url with
  | Some e => Ret (Err (wrap "create ensure request: " e))
  | None =>
      let! resp := call (HttpPostCache url req) in
      Ret (match resp with
           | Err e => Err (wrap what e)
           | Ok r =>
               if Z.quot (hr_code r) 100 =? 2 then Ok (hr_cacheResult r)
               else Err (errorf (what +:+ hr_status r +:+ ": " +:+ read_message r))
           end)
  end.

Definition Sweep (baseURL : string) (req : CacheRequest) : kprog (result unit) :=
  let url := baseURL +:+ "/v1/sweep" in
  match newRequest url with
  | Some e => Ret (Err (wrap "create sweep request: " e))
  | None =>
      let! resp := call (HttpPostCache url req) in
      Ret (match resp with
           | Err e => Err (wrap "sweep cache: " e)
           | Ok r =>
               if Z.quot (hr_code r) 100 =? 2 then Ok tt
               else Err (errorf ("sweep cache: " +:+ hr_status r +:+ ": " +:+ read_message r))
           end)
  end.

Definition Healthz (baseURL : string) : kprog (result unit) :=
  let! resp := call (HttpGet (baseURL +:+ "/healthz")) in
  Ret (match resp with
       | Err e => Err (wrap "cache-manager health check: " e)
       | Ok r =>
           if (hr_code r =? 204) || (hr_code r =? 200) then Ok tt
           else Err (errorf ("cache-manager health check: " +:+ hr_status r))
       end).
End client.
