(* ===== verification/ActiveModel.v ===== *)
(** * The active-model reconciler ([internal/controller/llmactivemodel_controller.go])

    [Reconcile] decides whether a transition is due; [executeTransition] runs it:
    announce, validate, scale the previous backend down, fill the cache, patch the
    target Deployment, wait for rollout and health, publish.  Its body is cut at the
    source's own numbered steps; [executeTransition] composes the steps in the order
    of the code.  Between any two of them the code calls [checkCurrent], which
    re-reads the resource and gives up when its generation or target has moved.

    The waits poll until the transition context, [transitionCtx], expires.  The loops of the
    source have no bound of their own; here they have fuel, [executeTransition_for n], and
    [executeTransition] takes [rounds r] of it.  [Liveness] shows that for every service
    whose clock ends the context in time more fuel changes nothing, and bounds
    the ticks of a run for every amount of fuel. *)

From S2P Require Import Prelude GoStrings Types Effects Api Driver Workload CacheClient.

Definition ModelActiveCondition : string := "ModelActive".
Definition TransitionCompleteCond : string := "TransitionComplete".
Definition ArtifactCachedCondition : string := "ArtifactCached".

Record ActiveReconciler := mkActiveReconciler {
  CacheManagerURL : string;
  TransitionTimeout : Z;
  ProbeInterval : Z;
  TransitionsEnabled : bool;
  AllowedTransitionModels : gset string;
  (** an event recorder is configured *)
  Recorder : bool;
}.

Definition backendProbeWait : Z := seconds 2.
Definition defaultTransitionTimeout : Z := seconds 1800.

Definition transitionTimeout (r : ActiveReconciler) : Z :=
  if TransitionTimeout r =? 0 then defaultTransitionTimeout else TransitionTimeout r.
Definition probeInterval (r : ActiveReconciler) : Z :=
  if 0 <? ProbeInterval r then ProbeInterval r else backendProbeWait.
(** [context.WithTimeout(ctx, timeout)] *)
Definition transitionCtx (r : ActiveReconciler) : context := WithTimeout ReconcileContext (transitionTimeout r).
(** The rounds the waits can get before the transition context is done. *)
Definition rounds (r : ActiveReconciler) : nat :=
  S (Z.to_nat (transitionTimeout r / probeInterval r)).

(** ** Lookups *)

(** [less] of [singletonOwner]: creation time, then name. *)
Definition owner_less (a b : LLMActiveModel) : bool :=
  let left := CreationTimestamp (a_meta a) in
  let right := CreationTimestamp (a_meta b) in
  if left =? right then String.ltb (Name (a_meta a)) (Name (a_meta b)) else left <? right.

Definition owner_of (items : list LLMActiveModel) : string :=
  match sort_slice owner_less items with
  | [] => ""
  | a :: _ => Name (a_meta a)
  end.

Definition singletonOwner (ns : string) : kprog (result string) :=
  let! list := call (ListActive ns) in
  Ret (try items := list in Ok (owner_of items)).

Definition findModel (ns modelName : string) : kprog (result LLMModel) :=
  let! list := call (ListModels ns) in
  Ret (try items := list in
       match List.find (fun m => m_name m == modelName) items with
       | Some m => Ok m
       | None => Err (errorf ("no LLMModel with name " +:+ quote modelName +:+ " found"))
       end).

Definition findBackend (ns : string) (backendType : BackendType) (backendRef : option string)
    : kprog (result LLMBackend) :=
  match backendRef with
  | Some name => call (GetBackend ns name)
  | None =>
      let! list := call (ListBackends ns) in
      Ret (try items := list in
           match List.find (fun b => b_type (b_spec b) == backendType) items with
           | Some b => Ok b
           | None => Err (errorf ("no backend found for type " +:+ quote backendType))
           end)
  end.

(** [enqueueActiveModelForModel] and [enqueueActiveModelForBackend]: every active
    model of the changed object's namespace, as (namespace, name) requests. *)
Definition enqueueActiveModels (ns : string) : kprog (list (string * string)) :=
  let! list := call (ListActive ns) in
  Ret (match list with
       | Err _ => []
       | Ok items => map (fun a => (Namespace (a_meta a), Name (a_meta a))) items
       end).

(** ** Status updates *)

Definition set_phase (p : LLMActiveModelPhase) (a : LLMActiveModel) : LLMActiveModel :=
  let s := a_status a in
  with_astatus a (mkActiveStatus (ast_modelName s) (ast_backendType s) p (ast_transitionFrom s)
    (ast_transitionStarted s) (ast_transitionDuration s) (ast_transitionGeneration s)
    (ast_conditions s) (ast_observedGeneration s)).
Definition set_served (model : string) (backend : BackendType) (a : LLMActiveModel) : LLMActiveModel :=
  let s := a_status a in
  with_astatus a (mkActiveStatus model backend (ast_phase s) (ast_transitionFrom s)
    (ast_transitionStarted s) (ast_transitionDuration s) (ast_transitionGeneration s)
    (ast_conditions s) (ast_observedGeneration s)).
Definition set_observed (a : LLMActiveModel) : LLMActiveModel :=
  let s := a_status a in
  with_astatus a (mkActiveStatus (ast_modelName s) (ast_backendType s) (ast_phase s)
    (ast_transitionFrom s) (ast_transitionStarted s) (ast_transitionDuration s)
    (ast_transitionGeneration s) (ast_conditions s) (Generation (a_meta a))).
(** The generation token of a fresh attempt. *)
Definition set_token (now : Z) (gen : Z) (a : LLMActiveModel) : LLMActiveModel :=
  let s := a_status a in
  with_astatus a (mkActiveStatus (ast_modelName s) (ast_backendType s) (ast_phase s)
    (ast_modelName s) (Some now) (ast_transitionDuration s) gen
    (ast_conditions s) (ast_observedGeneration s)).
Definition set_duration (d : Z) (a : LLMActiveModel) : LLMActiveModel :=
  let s := a_status a in
  with_astatus a (mkActiveStatus (ast_modelName s) (ast_backendType s) (ast_phase s)
    (ast_transitionFrom s) (ast_transitionStarted s) (Some d) (ast_transitionGeneration s)
    (ast_conditions s) (ast_observedGeneration s)).

(** [setActiveCondition(&activeModel.Status, ...)], which reads the clock. *)
Definition mark (ty : string) (st : ConditionStatus) (reason message : string)
    (a : LLMActiveModel) : kprog LLMActiveModel :=
  let! now := call Now in
  Ret (with_astatus a (setActiveCondition now ty st reason message (a_status a))).

(** The two conditions of a completed transition. *)
Definition mark_complete (a : LLMActiveModel) : kprog LLMActiveModel :=
  let! a := mark ModelActiveCondition ConditionTrue "Active" "Model is active" a in
  mark TransitionCompleteCond ConditionTrue "Complete" "Transition complete" a.

Definition failTransition (a : LLMActiveModel) (modelName reason metricReason : string)
    (cause : error) : kprog outcome :=
  let! a := mark ModelActiveCondition ConditionFalse reason (err_msg cause)
              (set_phase ActiveModelPhaseFailed a) in
  do! call (Metric (TransitionFailure modelName metricReason)) ;
  let! r := call (UpdateActiveStatus a) in
  Ret (match r with
       | Err e => fail_with e
       | Ok _ => Return (mkResult false (seconds 30)) None
       end).

(** Leaving [executeTransition] through [failTransition]. *)
Definition failed {A} (a : LLMActiveModel) (m : LLMModel) (reason metricReason : string)
    (cause : error) : kprog (outcome + A) :=
  let! r := failTransition a (m_name m) reason metricReason cause in leave r.

(** ** Staying current *)

Definition ensureTransitionCurrent (a : LLMActiveModel) (target : string) (generation : Z)
    : kprog (result unit) :=
  let! got := call (GetActive (Namespace (a_meta a)) (Name (a_meta a))) in
  Ret (try current := got in
       if negb (Generation (a_meta current) =? generation)
          || (a_specModel current != target)
          || negb (ast_transitionGeneration (a_status current) =? generation)
       then Err (mkError "transition cancelled: requested model or generation changed"
                   ErrTransitionChanged)
       else Ok tt).

Definition transitionCheckResult (e : error) : outcome :=
  if err_is ErrTransitionChanged e then Return (mkResult true 0) None else fail_with e.

(** [if err := checkCurrent(); err != nil { return transitionCheckResult(err, logger) }] *)
Definition checkpoint (a : LLMActiveModel) (m : LLMModel) (gen : Z) : kprog (outcome + unit) :=
  let! r := ensureTransitionCurrent a (m_name m) gen in
  match r with
  | Ok _ => Ret (inr tt)
  | Err e => leave (transitionCheckResult e)
  end.

(** ** Waiting *)

Definition deadlineExceeded : error := mkError "context deadline exceeded" ErrDeadline.

(** The loop of [waitForScaleDown] and [waitForRollout]: tick, check, probe. *)
Fixpoint poll (n : nat) (ctx : context) (interval : Z) (check : kprog (result unit))
    (probe : kprog (result bool)) : kprog (result unit) :=
  let! tick := call (WaitTick ctx interval) in
  match tick, n with
  | Some e, _ => Ret (Err e)
  | None, O => Ret (Err deadlineExceeded)
  | None, S n' =>
      let! c := check in
      match c with
      | Err e => Ret (Err e)
      | Ok _ =>
          let! r := probe in
          match r with
          | Err e => Ret (Err e)
          | Ok true => Ret (Ok tt)
          | Ok false => poll n' ctx interval check probe
          end
      end
  end.

Definition scaled_down (d : Deployment) : bool :=
  (ds_replicas (d_status d) =? 0) && (ds_available (d_status d) =? 0).
Definition rolled_out (d : Deployment) : bool :=
  (Generation (d_meta d) <=? ds_observedGeneration (d_status d))
  && (ds_updated (d_status d) =? 1) && (ds_available (d_status d) =? 1).
Definition probe_deployment (name ns : string) (ready : Deployment -> bool) : kprog (result bool) :=
  let! got := call (GetDeployment ns name) in
  Ret (try d := got in Ok (ready d)).

Definition waitForScaleDown (n : nat) (ctx : context) (interval : Z) (name ns : string)
    (check : kprog (result unit)) : kprog (result unit) :=
  poll n ctx interval check (probe_deployment name ns scaled_down).
Definition waitForRollout (n : nat) (ctx : context) (interval : Z) (name ns : string)
    (check : kprog (result unit)) : kprog (result unit) :=
  poll n ctx interval check (probe_deployment name ns rolled_out).

(** Check, probe, tick: the health of the runtime is tried before the first wait. *)
Fixpoint waitForBackendHealth (n : nat) (ctx : context) (interval : Z) (d : runtimeDriver) (url : string)
    (check : kprog (result unit)) : kprog (result unit) :=
  let! c := check in
  match c with
  | Err e => Ret (Err e)
  | Ok _ =>
      let! h := CheckHealth d true url in
      match h with
      | Ok _ => Ret (Ok tt)
      | Err lastErr =>
          let! tick := call (WaitTick ctx interval) in
          match tick, n with
          | None, S n' => waitForBackendHealth n' ctx interval d url check
          | _, _ => Ret (Err (wrap "backend did not become healthy: " lastErr))
          end
      end
  end.

(** ** Deployments *)

Definition scaleDeployment (name ns : string) (replicas : Z) : kprog (result unit) :=
  let! got := call (GetDeployment ns name) in
  match got with
  | Err e => Ret (Err e)
  | Ok d =>
      let! r := call (ScaleDeployment d replicas) in
      Ret (try _ := r in Ok tt)
  end.

Definition offline_value (v : string) : bool :=
  equal_fold (trim_space v) "true" || (v == "1") || equal_fold (trim_space v) "yes"
  || equal_fold (trim_space v) "on".

Definition container_offline (c : Container) : bool :=
  match List.find (fun e => env_name e == "HF_HUB_OFFLINE") (ctr_env c) with
  | Some e => offline_value (env_value e)
  | None => false
  end.

Definition deployment_offline (cname : string) (d : Deployment) : bool :=
  match findContainer cname (containers d) with
  | Some (_, c) => container_offline c
  | None => false
  end.

Definition backendOfflineMode (b : LLMBackend) : kprog (result bool) :=
  let! got := call (GetDeployment (Namespace (b_meta b)) (backendDeploymentName b)) in
  Ret (match got with
       | Err e => Err (wrap "get target deployment for offline-mode inspection: " e)
       | Ok d => Ok (deployment_offline (backendContainerName b) d)
       end).

Section transition.
Context (lib : golib) (r : ActiveReconciler).

(** [validateChatTemplate] ([llmmodel_controller.go]). *)
Definition template_content_ok (t : ChatTemplateSpec) (cm : ConfigMap) : result unit :=
  match mlookup (cm_data cm) (ct_key t) with
  | None => Err (errorf ("chat template ConfigMap " +:+ quote (Name (cm_meta cm)) +:+
              " does not contain key " +:+ quote (ct_key t)))
  | Some content =>
      guard sha256hex lib content == ct_sha256 t
        else errorf ("chat template digest mismatch: got " +:+ sha256hex lib content +:+
               ", want " +:+ ct_sha256 t) in
      Ok tt
  end.

Definition validateChatTemplate (m : LLMModel) : kprog (result unit) :=
  match m_template m with
  | None => Ret (Ok tt)
  | Some t =>
      if (ct_configMap t == "") || (ct_key t == "") then
        Ret (Err (errorf "chatTemplate.configMapKeyRef.name and key are required"))
      else if negb (String.length (ct_sha256 t) =? 64)%nat then
        Ret (Err (errorf "chatTemplate.sha256 must be a lowercase hexadecimal SHA-256 digest"))
      else
        let! got := call (GetConfigMap (Namespace (m_meta m)) (ct_configMap t)) in
        Ret (match got with
             | Err e => Err (wrap ("get chat template ConfigMap " +:+ quote (ct_configMap t) +:+ ": ") e)
             | Ok cm => template_content_ok t cm
             end)
  end.

(** *** The steps of [executeTransition] *)

Definition already_failed (a : LLMActiveModel) : bool :=
  (ast_phase (a_status a) == ActiveModelPhaseFailed)
  && (ast_transitionGeneration (a_status a) =? Generation (a_meta a)).
Definition needs_token (a : LLMActiveModel) : bool :=
  negb (already_failed a)
  && ((ast_phase (a_status a) != ActiveModelPhaseTransitioning)
      || negb (ast_transitionGeneration (a_status a) =? Generation (a_meta a))
      || (ast_transitionStarted (a_status a) == None)).

(** Persist the generation token before any external mutation. *)
Definition announce (a : LLMActiveModel) : kprog (outcome + LLMActiveModel) :=
  if needs_token a then
    let! now := call Now in
    let a := set_token now (Generation (a_meta a)) (set_phase ActiveModelPhaseTransitioning a) in
    let! a := mark ModelActiveCondition ConditionFalse "Transitioning" "Transition in progress" a in
    let! u := call (UpdateActiveStatus a) in
    match u with
    | Err e => leave (fail_with e)
    | Ok a => Ret (inr a)
    end
  else Ret (inr a).

(** The driver, its validation of the model, and the pinned template. *)
Definition prepare (a : LLMActiveModel) (m : LLMModel) : kprog (outcome + runtimeDriver) :=
  match RegistryDriver DefaultRegistry (m_backend m) with
  | Err e => failed a m "UnsupportedBackend" "unsupported_backend" e
  | Ok d =>
      match Validate d m with
      | Err e => failed a m "InvalidServingConfiguration" "invalid_serving_configuration" e
      | Ok _ =>
          let! t := validateChatTemplate m in
          match t with
          | Err e => failed a m "TemplateInvalid" "template_invalid" e
          | Ok _ => Ret (inr d)
          end
      end
  end.

(** The backend serving the model the transition started from. *)
Definition previous_backend (a : LLMActiveModel) (m : LLMModel)
    : kprog (outcome + option LLMBackend) :=
  let ns := Namespace (a_meta a) in
  let from := ast_transitionFrom (a_status a) in
  let? (previousType, previous) :=
    (if from != "" then
       let! pm := findModel ns from in
       match pm with
       | Err _ => Ret (inr (ast_backendType (a_status a), None))
       | Ok pm =>
           let! pb := findBackend ns (m_backend pm) (ms_backendRef (m_spec pm)) in
           match pb with
           | Err e => failed a m "PreviousBackendNotFound" "previous_backend_not_found" e
           | Ok pb => Ret (inr (m_backend pm, Some pb))
           end
       end
     else Ret (inr (ast_backendType (a_status a), None))) in
  match previous with
  | Some pb => Ret (inr (Some pb))
  | None =>
      if (previousType != "") && (previousType != m_backend m) then
        let! pb := findBackend ns previousType None in
        Ret (inr (match pb with Ok pb => Some pb | Err _ => None end))
      else Ret (inr None)
  end.

(** Step 1: scale the previous backend down when it is not the target. *)
Definition scale_down_previous (n : nat) (a : LLMActiveModel) (m : LLMModel) (b : LLMBackend) (gen : Z)
    (previous : option LLMBackend) : kprog (outcome + unit) :=
  match previous with
  | None => Ret (inr tt)
  | Some pb =>
      if backendDeploymentName pb != backendDeploymentName b then
        let ns := Namespace (a_meta a) in
        do? checkpoint a m gen ;
        let! s := scaleDeployment (backendDeploymentName pb) ns 0 in
        match s with
        | Err e => failed a m "ScaleDownFailed" "scale_down_failed" e
        | Ok _ =>
            let! w := waitForScaleDown n (transitionCtx r) (probeInterval r) (backendDeploymentName pb) ns
                        (ensureTransitionCurrent a (m_name m) gen) in
            match w with
            | Ok _ => Ret (inr tt)
            | Err e =>
                if err_is ErrTransitionChanged e then leave (transitionCheckResult e)
                else failed a m "ScaleDownTimeout" "scale_down_timeout" e
            end
        end
      else Ret (inr tt)
  end.

(** Record the cache state and its condition on the model. *)
Definition set_cached (location : string) (t now : Z) (m : LLMModel) : LLMModel :=
  let s := m_status m in
  with_mstatus m (setCondition now ArtifactCachedCondition ConditionTrue location "Artifact cached"
    (mkModelStatus (mst_phase s) (mst_active s) (Some (mkCacheState location (Some t)))
       (mst_runtime s) (mst_conditions s) (mst_observedGeneration s))).

(** Step 2: materialize the artifact; an offline backend needs a hot snapshot.
    The model afterwards is the server's copy of the status update. *)
Definition ensure_cached (a : LLMActiveModel) (m : LLMModel) (b : LLMBackend) (gen : Z)
    (d : runtimeDriver) : kprog (outcome + LLMModel) :=
  match CacheRequestFor d m with
  | Err e => failed a m "InvalidCacheConfiguration" "invalid_cache_configuration" e
  | Ok cacheRequest =>
      let! off := backendOfflineMode b in
      match off with
      | Err e => failed a m "OfflineModeInspectionFailed" "offline_mode_inspection_failed" e
      | Ok offline =>
          match cacheRequest with
          | Some req =>
              if CacheManagerURL r != "" then
                let! res := Ensure (newRequest lib) (NewWithHTTPClient (CacheManagerURL r)) req in
                match res with
                | Err e => failed a m "CacheFailed" "cache_failed" e
                | Ok result =>
                    if offline && (result != CacheHot) then
                      failed a m "OfflineSnapshotUnavailable" "offline_snapshot_unavailable"
                        (errorf ("cache-manager returned " +:+ quote result +:+
                           " for offline backend; a hot snapshot is required before startup"))
                    else
                      do? checkpoint a m gen ;
                      let! t := call Now in
                      let! now := call Now in
                      let! u := call (UpdateModelStatus (set_cached result t now m)) in
                      match u with
                      | Err e => leave (fail_with e)
                      | Ok m => Ret (inr m)
                      end
                end
              else if offline then
                failed a m "OfflineSnapshotUnavailable" "offline_snapshot_unavailable"
                  (errorf "offline backend requires a hot cache snapshot, but cache materialization is unavailable")
              else Ret (inr m)
          | None =>
              if offline then
                failed a m "OfflineSnapshotUnavailable" "offline_snapshot_unavailable"
                  (errorf "offline backend requires a hot cache snapshot, but cache materialization is unavailable")
              else Ret (inr m)
          end
      end
  end.

(** Step 3: patch the target Deployment. *)
Definition activate (a : LLMActiveModel) (m : LLMModel) (b : LLMBackend) : kprog (outcome + unit) :=
  let! p := activateDeployment (formatTime lib) (Namespace (a_meta a)) m b in
  match p with
  | Err e => failed a m "PatchFailed" "patch_failed" e
  | Ok _ => Ret (inr tt)
  end.

Definition backend_url (b : LLMBackend) : string :=
  "http://" +:+ backendServiceName b +:+ ":" +:+ show_int (backendPort b).

(** Steps 4 and 5: rollout, then runtime health. *)
Definition await_ready (n : nat) (a : LLMActiveModel) (m : LLMModel) (b : LLMBackend) (gen : Z)
    (d : runtimeDriver) : kprog (outcome + unit) :=
  let check := ensureTransitionCurrent a (m_name m) gen in
  let! w := waitForRollout n (transitionCtx r) (probeInterval r) (backendDeploymentName b) (Namespace (a_meta a)) check in
  match w with
  | Err e =>
      if err_is ErrTransitionChanged e then leave (transitionCheckResult e)
      else failed a m "RolloutFailed" "rollout_failed" e
  | Ok _ =>
      do? checkpoint a m gen ;
      let! h := waitForBackendHealth n (transitionCtx r) (probeInterval r) d (backend_url b) check in
      match h with
      | Err e => failed a m "HealthCheckFailed" "health_check_failed" e
      | Ok _ => Ret (inr tt)
      end
  end.

Definition set_model_state (active : bool) (p : LLMModelPhase) (rt : option RuntimeMetadata)
    (m : LLMModel) : LLMModel :=
  let s := m_status m in
  with_mstatus m (mkModelStatus p active (mst_cacheState s) rt (mst_conditions s)
    (mst_observedGeneration s)).

(** Steps 6 and 7: runtime metadata (best effort), then the model is Active. *)
Definition publish_model (a : LLMActiveModel) (m : LLMModel) (b : LLMBackend) (gen : Z)
    (d : runtimeDriver) : kprog (outcome + LLMModel) :=
  let! (meta, _) := CollectRuntimeMetadata (decodeModelIDs lib) d true (backend_url b) m in
  do? checkpoint a m gen ;
  let! u := call (UpdateModelStatus (set_model_state true ModelPhaseActive (Some meta) m)) in
  match u with
  | Err e => leave (fail_with (wrap "update target model status: " e))
  | Ok m => Ret (inr m)
  end.

(** Step 8: the model the transition started from is no longer active. *)
Definition deactivate_previous (a : LLMActiveModel) (m : LLMModel) : kprog (outcome + unit) :=
  let from := ast_transitionFrom (a_status a) in
  if (from != "") && (from != m_name m) then
    let! pm := findModel (Namespace (a_meta a)) from in
    match pm with
    | Err _ => Ret (inr tt)
    | Ok pm =>
        let! u := call (UpdateModelStatus
                    (set_model_state false ModelPhaseReady (mst_runtime (m_status pm)) pm)) in
        match u with
        | Err e => leave (fail_with (wrap "deactivate previous model: " e))
        | Ok _ => Ret (inr tt)
        end
    end
  else Ret (inr tt).

(** [time.Since]: the difference of two times, saturating at the ends of a [Duration]. *)
Definition sub_time (t u : Z) : Z := Z.max (- 2 ^ 63) (Z.min (2 ^ 63 - 1) (t - u)).

(** Step 9: Stable, with metrics and an event. *)
Definition mark_stable (a : LLMActiveModel) (m : LLMModel) : kprog (outcome + outcome) :=
  match ast_transitionStarted (a_status a) with
  | None => leave Panic
  | Some started =>
      let! now := call Now in
      let duration := sub_time now started in
      let! a := mark_complete
        (set_duration duration (set_phase ActiveModelPhaseStable
           (set_served (m_name m) (m_backend m) a))) in
      let! u := call (UpdateActiveStatus a) in
      match u with
      | Err e => leave (fail_with e)
      | Ok a =>
          do! call (Metric (TransitionDuration duration (m_name m))) ;
          do! call (Metric (ModelSwitch (ast_transitionFrom (a_status a)) (m_name m) (m_backend m))) ;
          do! (if Recorder r then
                 call (RecordEvent "TransitionComplete"
                   ("Switched to model " +:+ m_name m +:+ " in " +:+ showDuration lib duration))
               else Ret tt) ;
          Ret (inr (Return done_result None))
      end
  end.

(** The transition, its loops given [n] rounds each. *)
Definition executeTransition_for (n : nat) (a : LLMActiveModel) (m : LLMModel) (b : LLMBackend) : kprog outcome :=
  let gen := Generation (a_meta a) in
  body (
    let? a := announce a in
    do? checkpoint a m gen ;
    let? d := prepare a m in
    let? previous := previous_backend a m in
    do? scale_down_previous n a m b gen previous ;
    do? checkpoint a m gen ;
    let? m := ensure_cached a m b gen d in
    do? checkpoint a m gen ;
    do? activate a m b ;
    do? checkpoint a m gen ;
    do? await_ready n a m b gen d ;
    do? checkpoint a m gen ;
    let? m := publish_model a m b gen d in
    do? checkpoint a m gen ;
    do? deactivate_previous a m ;
    do? checkpoint a m gen ;
    mark_stable a m).
Definition executeTransition : LLMActiveModel -> LLMModel -> LLMBackend -> kprog outcome :=
  executeTransition_for (rounds r).

(** ** [Reconcile] *)

(** Failed with a condition; the update's own error is returned only where the
    source does ([strict]). *)
Definition refuse (strict : bool) (p : LLMActiveModelPhase) (reason message : string)
    (res : Result) (a : LLMActiveModel) : kprog outcome :=
  let! a := mark ModelActiveCondition ConditionFalse reason message (set_phase p a) in
  let! u := call (UpdateActiveStatus a) in
  Ret (match u with
       | Err e => if strict then fail_with e else Return res None
       | Ok _ => Return res None
       end).

Definition retry30 : Result := mkResult false (seconds 30).

Definition canary_denied (m : LLMModel) : bool :=
  negb (bool_decide (AllowedTransitionModels r = ∅))
  && negb (bool_decide (m_name m ∈ AllowedTransitionModels r)).

(** From the canary and kill-switch checks on: a transition is due. *)
Definition transition_due (a : LLMActiveModel) (m : LLMModel) (b : LLMBackend) : kprog outcome :=
  if negb (TransitionsEnabled r) then
    refuse true ActiveModelPhaseTransitioning "TransitionsDisabled"
      "Model transitions are disabled on this controller manager" done_result a
  else if canary_denied m then
    refuse true ActiveModelPhaseFailed "CanaryDenied"
      ("model " +:+ quote (m_name m) +:+ " is not in the transition canary allowlist") done_result a
  else executeTransition a m b.

(** The target is what the status says is served: only a drifted Deployment
    needs a transition. *)
Definition settle (a : LLMActiveModel) (m : LLMModel) (b : LLMBackend) : kprog outcome :=
  let! x := deploymentMatchesModel (Namespace (a_meta a)) m b in
  match x with
  | Err e => Ret (fail_with e)
  | Ok false => transition_due a m b
  | Ok true =>
      if ast_phase (a_status a) == ActiveModelPhaseStable then Ret (Return done_result None)
      else
        let! a := mark_complete (set_served (ast_modelName (a_status a)) (m_backend m)
                    (set_phase ActiveModelPhaseStable a)) in
        let! u := call (UpdateActiveStatus a) in
        Ret (match u with Err e => fail_with e | Ok _ => Return done_result None end)
  end.

Definition reconcile_owner (a : LLMActiveModel) : kprog outcome :=
  let ns := Namespace (a_meta a) in
  let! fm := findModel ns (a_specModel a) in
  match fm with
  | Err e => refuse false ActiveModelPhaseFailed "ModelNotFound" (err_msg e) retry30 a
  | Ok m =>
      let! fb := findBackend ns (m_backend m) (ms_backendRef (m_spec m)) in
      match fb with
      | Err e => refuse false ActiveModelPhaseFailed "BackendNotFound" (err_msg e) retry30 a
      | Ok b =>
          if (ast_modelName (a_status a) == a_specModel a)
             && (ast_backendType (a_status a) == m_backend m)
          then settle a m b
          else transition_due a m b
      end
  end.

Definition Reconcile (ns name : string) : kprog outcome :=
  let! got := call (GetActive ns name) in
  match got with
  | Err e => Ret (Return done_result (ignoreNotFound e))
  | Ok a =>
      let a := set_observed a in
      let! own := singletonOwner (Namespace (a_meta a)) in
      match own with
      | Err e => Ret (fail_with e)
      | Ok owner =>
          if owner != Name (a_meta a) then
            refuse true ActiveModelPhaseFailed "DuplicateActiveModel"
              ("LLMActiveModel " +:+ quote owner +:+ " owns transitions in namespace "
               +:+ quote (Namespace (a_meta a))) retry30 a
          else reconcile_owner a
      end
  end.
End transition.
