(* ===== verification/Protocol.v ===== *)
(** * The protocol of a transition

    One contract for [executeTransition]: a history that records what has been
    observed, and for every request that changes something the history that must
    precede it.  Each step of the transition is shown to keep the contract; the
    properties of whole runs follow in [ActiveModelProps]. *)

From S2P Require Import Prelude GoStrings Types Effects Api Driver Workload CacheClient ActiveModel.

(** ** What an observation says *)

(** The resource re-read by [checkCurrent] still asks for [target] at [gen]. *)
Definition still_current (target : string) (gen : Z) (cur : LLMActiveModel) : bool :=
  (Generation (a_meta cur) =? gen) && (a_specModel cur == target)
  && (ast_transitionGeneration (a_status cur) =? gen).

Definition confirms (ns name target : string) (gen : Z) (o : obs kev) : bool :=
  match obs_req o in kev X return X -> bool with
  | GetActive ns' name' => fun r =>
      match r with
      | Ok cur => (ns' == ns) && (name' == name) && still_current target gen cur
      | Err _ => false
      end
  | _ => fun _ => false
  end (obs_reply o).

(** Reads that may sit between a check and the write it protects. *)
Definition quiet (o : obs kev) : bool :=
  match obs_req o with GetDeployment _ _ | ListModels _ | Now => true | _ => false end.

Definition observes (ns name : string) (ready : Deployment -> bool) (o : obs kev) : bool :=
  match obs_req o in kev X return X -> bool with
  | GetDeployment ns' name' => fun r =>
      match r with Ok d => (ns' == ns) && (name' == name) && ready d | Err _ => false end
  | _ => fun _ => false
  end (obs_reply o).

Definition answers_200 (url : string) (o : obs kev) : bool :=
  match obs_req o in kev X return X -> bool with
  | HttpGet u => fun r => match r with Ok x => (u == url) && (hr_code x =? 200) | Err _ => false end
  | _ => fun _ => false
  end (obs_reply o).

(** The cache-manager accepted the request and reports a hot snapshot. *)
Definition reports_hot (o : obs kev) : bool :=
  match obs_req o in kev X return X -> bool with
  | HttpPostCache _ _ => fun r =>
      match r with Ok x => (Z.quot (hr_code x) 100 =? 2) && (hr_cacheResult x == CacheHot) | Err _ => false end
  | _ => fun _ => false
  end (obs_reply o).

(** The phase of a status the API server accepted. *)
Definition accepted_phase (o : obs kev) : option LLMActiveModelPhase :=
  match obs_req o in kev X return X -> option LLMActiveModelPhase with
  | UpdateActiveStatus a => fun r => match r with Ok _ => Some (ast_phase (a_status a)) | Err _ => None end
  | _ => fun _ => None
  end (obs_reply o).

(** ** Documented behaviour of the API server

    An object fetched by name has that name, and the copy returned by a status
    update has the spec, the identity and the status that were submitted (times
    may lose precision). *)

Record stored (a a' : LLMActiveModel) : Prop := {
  stored_name : Name (a_meta a') = Name (a_meta a);
  stored_ns : Namespace (a_meta a') = Namespace (a_meta a);
  stored_model : ast_modelName (a_status a') = ast_modelName (a_status a);
  stored_phase : ast_phase (a_status a') = ast_phase (a_status a);
  stored_from : ast_transitionFrom (a_status a') = ast_transitionFrom (a_status a);
  stored_started : ast_transitionStarted (a_status a') = None <-> ast_transitionStarted (a_status a) = None;
}.

Definition api_server (X : Type) (e : kev X) : X -> Prop :=
  match e in kev X return X -> Prop with
  | GetDeployment ns name => fun r =>
      match r with Ok d => Name (d_meta d) = name | Err _ => True end
  | UpdateActiveStatus a => fun r => match r with Ok a' => stored a a' | Err _ => True end
  | UpdateModelStatus m => fun r => match r with Ok m' => m_spec m' = m_spec m | Err _ => True end
  | _ => fun _ => True
  end.

(** The backend of a model among a fixed set of backends. *)
Definition resolve (backends : list LLMBackend) (m : LLMModel) : option LLMBackend :=
  match ms_backendRef (m_spec m) with
  | Some name => List.find (fun b => Name (b_meta b) == name) backends
  | None => List.find (fun b => b_type (b_spec b) == m_backend m) backends
  end.
(** ** The history and the contract *)

Record history := mkHistory {
  (** confirmed current, and only quiet reads since *)
  fresh : bool;
  (** the cache-manager reported a hot snapshot *)
  hot : bool;
  (** the target was observed rolled out, and no Deployment changed since *)
  rolled : bool;
  (** ... and then answered its health check *)
  healthy : bool;
  (** the phase last written *)
  last : option LLMActiveModelPhase;
}.
Definition no_history : history := mkHistory false false false false None.

Section protocol.
(** The transition: the resource, the target and its backend. *)
Context (lib : golib) (r : ActiveReconciler).
Context (a0 : LLMActiveModel) (m0 : LLMModel) (b : LLMBackend).
(** What may be relied on beyond [api_server]; whether a hot snapshot must have been
    reported before the target is patched. *)
Context (Extra : forall X, kev X -> X -> Prop) (must_hot : bool).

Notation ns := (Namespace (a_meta a0)).
Notation gen := (Generation (a_meta a0)).
Notation target := (m_name m0).
Notation dep := (backendDeploymentName b).

Definition health_url : string :=
  match RegistryDriver DefaultRegistry (m_backend m0) with
  | Ok d => trim_suffix (backend_url b) "/" +:+ cap_healthPath (capabilities d)
  | Err _ => ""
  end.

(** The history after one more observation. *)
Definition remember (o : obs kev) (s : history) : history := {|
  fresh := confirms ns (Name (a_meta a0)) target gen o || (fresh s && quiet o);
  hot := hot s || reports_hot o;
  rolled := observes ns dep rolled_out o || (rolled s && negb (mutates_deployment o));
  healthy := (rolled s && answers_200 health_url o) || (healthy s && negb (mutates_deployment o));
  last := match accepted_phase o with Some p => Some p | None => last s end;
|}.

Definition may_patch (s : history) : Prop :=
  fresh s = true /\ (must_hot = true -> hot s = true).

Definition may_write (a : LLMActiveModel) (s : history) : Prop :=
  match ast_phase (a_status a) with
  | ActiveModelPhaseNone => False
  | ActiveModelPhaseTransitioning =>
      already_failed a0 = false /\ ast_modelName (a_status a) = ast_modelName (a_status a0)
  | ActiveModelPhaseFailed => ast_modelName (a_status a) = ast_modelName (a_status a0)
  | ActiveModelPhaseStable =>
      fresh s = true /\ healthy s = true
      /\ ast_modelName (a_status a) = target /\ ast_backendType (a_status a) = m_backend m0
  end.

(** What the target's driver asks the cache manager for, at the ensure endpoint. *)
Definition cache_request (url : string) (req : CacheRequest) : Prop :=
  (exists base, url = base +:+ "/v1/ensure") /\ exists d, RegistryDriver DefaultRegistry (m_backend m0) = Ok d /\ CacheRequestFor d m0 = Ok (Some req).

Definition permitted (X : Type) (e : kev X) (s : history) : Prop :=
  match e with
  | PatchDeployment _ _ => may_patch s
  | ScaleDeployment _ _ => fresh s = true
  | CreateDeployment _ => False
  | UpdateActiveStatus a => may_write a s
  | UpdateModelStatus _ => fresh s = true
  | CreateService _ | PatchService _ _ | UpdateModel _ | UpdateBackend _ => False
  | UpdateBackendStatus _ | UpdateOverlayStatus _ => False
  | HttpPostCache url req => cache_request url req
  | _ => True
  end.

Definition protocol : contract kev history := {|
  rely := fun X e x _ => api_server X e x /\ Extra X e x;
  permit := permitted;
  record := fun X e x s => remember (Obs e x) s;
|}.

(** No result has been written yet. *)
Definition undecided (s : history) : Prop :=
  last s = None \/ last s = Some ActiveModelPhaseTransitioning.

(** How the outcome relates to the status left behind. *)
Definition told (s : history) (out : outcome) : Prop :=
  match out with
  | Panic => ast_transitionStarted (a_status a0) = None /\ already_failed a0 = true
  | Return res (Some _) => res = done_result
  | Return res None =>
      (res = retry30 /\ last s = Some ActiveModelPhaseFailed)
      \/ (res = mkResult true 0 /\ undecided s)
      \/ (res = done_result /\ last s = Some ActiveModelPhaseStable)
  end.

(** The model the transition started from. *)
Definition started_from : string :=
  if needs_token a0 then ast_modelName (a_status a0) else ast_transitionFrom (a_status a0).

(** What every step may assume of the resources it is handed. *)
Record going (s : history) (a : LLMActiveModel) (m : LLMModel) : Prop := {
  going_undecided : undecided s;
  going_name : Name (a_meta a) = Name (a_meta a0);
  going_ns : Namespace (a_meta a) = ns;
  going_model : ast_modelName (a_status a) = ast_modelName (a_status a0);
  going_from : ast_transitionFrom (a_status a) = started_from;
  going_started : ast_transitionStarted (a_status a) = None ->
    ast_transitionStarted (a_status a0) = None /\ already_failed a0 = true;
  going_spec : m_spec m = m_spec m0;
}.

(** ** Reading and the history *)

(** [s'] is [s] after requests that wrote no status and changed no Deployment. *)
Record extends (s s' : history) : Prop := {
  ext_last : last s' = last s;
  ext_hot : hot s = true -> hot s' = true;
  ext_rolled : rolled s = true -> rolled s' = true;
  ext_healthy : healthy s = true -> healthy s' = true;
}.
#[local] Instance extends_preorder : PreOrder extends.
Proof. split; [intros s; by constructor | intros s1 s2 s3 [] []; constructor; congruence || auto]. Qed.

Definition reads {X} (e : kev X) : bool :=
  match e with
  | PatchDeployment _ _ | ScaleDeployment _ _ | CreateDeployment _ | UpdateActiveStatus _
  | UpdateModelStatus _ | CreateService _ | PatchService _ _ | UpdateModel _ | UpdateBackend _
  | UpdateBackendStatus _ | UpdateOverlayStatus _ | HttpPostCache _ _ => false
  | _ => true
  end.

(** Neither a change of a Deployment nor of the active model's status. *)
Definition neutral {X} (e : kev X) : bool :=
  match e with
  | PatchDeployment _ _ | ScaleDeployment _ _ | CreateDeployment _ | UpdateActiveStatus _ => false
  | _ => true
  end.

Lemma remember_neutral {X} (e : kev X) x s : neutral e = true -> extends s (remember (Obs e x) s).
Proof.
  intros He. constructor; simpl.
  - by destruct e.
  - by intros ->.
  - intros ->. destruct e; try discriminate He; simpl; rewrite ?orb_true_r; done.
  - intros ->. destruct e; try discriminate He; simpl; rewrite ?orb_true_r; done.
Qed.

Lemma remember_quiet (o : obs kev) s : quiet o = true -> fresh s = true -> fresh (remember o s) = true.
Proof. intros Hq Hf. simpl. rewrite Hq, Hf. apply orb_true_r. Qed.

Lemma rg_read {X} (e : kev X) s (Q : history -> X -> Prop) :
  reads e = true ->
  (forall x, api_server X e x -> Extra X e x -> extends s (remember (Obs e x) s) ->
     Q (remember (Obs e x) s) x) ->
  rg protocol (call e) s Q.
Proof.
  intros He HQ. apply rg_call; [by destruct e|].
  intros x [Hx Hex]. apply HQ; [done..|].
  apply remember_neutral. by destruct e.
Qed.

Lemma going_extends s s' a m : extends s s' -> going s a m -> going s' a m.
Proof. intros [Hl _ _ _] []. constructor; try done. unfold undecided in *. by rewrite Hl. Qed.

(** A step that leaves with an outcome tells the truth about the status. *)
Definition stage {A} (p : kprog (outcome + A)) (s : history) (Q : history -> A -> Prop) : Prop :=
  rg protocol p s (fun s' x => match x with inl out => told s' out | inr v => Q s' v end).

Lemma stage_bind {A B} (p : kprog (outcome + A)) (f : A -> kprog (outcome + B)) s Q :
  stage p s (fun s' v => stage (f v) s' Q) -> stage (ebind p f) s Q.
Proof.
  intros Hp. apply rg_ebind. eapply rg_mono; [exact Hp|]. by intros s' [].
Qed.
Lemma stage_mono {A} (p : kprog (outcome + A)) s (Q Q' : history -> A -> Prop) :
  stage p s Q -> (forall s' v, Q s' v -> Q' s' v) -> stage p s Q'.
Proof. intros Hp HQ. eapply rg_mono; [exact Hp|]. intros s' []; auto. Qed.

Lemma rg_mark ty st reason message a s (Q : history -> LLMActiveModel -> Prop) :
  (forall now s', extends s s' -> (fresh s = true -> fresh s' = true) ->
     Q s' (with_astatus a (setActiveCondition now ty st reason message (a_status a)))) ->
  rg protocol (mark ty st reason message a) s Q.
Proof.
  intros HQ. apply rg_bind, rg_read; [done|]. intros now _ _ Hext. simpl.
  apply HQ; [done|]. by apply remember_quiet.
Qed.

Lemma stage_failed {A} s a m reason metricReason cause (Q : history -> A -> Prop) :
  ast_modelName (a_status a) = ast_modelName (a_status a0) ->
  stage (failed a m reason metricReason cause) s Q.
Proof.
  intros Ha. apply rg_bind, rg_bind, rg_mark. intros now s1 _ _.
  apply rg_bind, rg_read; [done|]. intros [] _ _ _. apply rg_bind, rg_call; [done|].
  intros [a'|e] _; cbn; [left; done | done].
Qed.

(** [failed] keeps the model of the status, which the steps have not touched. *)
Ltac fails :=
  apply stage_failed; match goal with H : going _ ?a _ |- context [a_status ?a] => exact (going_model _ _ _ H) end.

Lemma told_check s e : undecided s -> told s (transitionCheckResult e).
Proof. intros Hu. unfold transitionCheckResult. destruct (err_is _ _); simpl; auto. Qed.

Lemma rg_check s a m (Q : history -> result unit -> Prop) :
  going s a m ->
  (forall s' res, extends s s' -> (res = Ok tt -> fresh s' = true) -> Q s' res) ->
  rg protocol (ensureTransitionCurrent a (m_name m) (Generation (a_meta a0))) s Q.
Proof.
  intros [_ Hn Hns _ _ _ Hm] HQ. apply rg_bind, rg_read; [done|].
  intros got _ _ Hext. simpl. apply HQ; [done|].
  destruct got as [cur|e]; simpl; [|done]. destruct (_ || _ || _) eqn:E; [done|]. intros _.
  ok_inv. rewrite bool_decide_eq_true in *. unfold m_name in *.
  rewrite Hn, Hns, Hm in *. apply orb_true_iff. left.
  unfold confirms, still_current. cbn [obs_req obs_reply].
  by rewrite !andb_true_iff, !bool_decide_eq_true.
Qed.

Lemma stage_checkpoint s a m :
  going s a m ->
  stage (checkpoint a m (Generation (a_meta a0))) s
    (fun s' _ => going s' a m /\ fresh s' = true /\ extends s s').
Proof.
  intros Hg. apply rg_bind. eapply rg_check; [exact Hg|]. intros s' res Hext Hres.
  pose proof (going_extends _ _ _ _ Hext Hg) as Hg'.
  destruct res as [[]|e]; cbn; [auto | by apply told_check; destruct Hg'].
Qed.

(** ** Waiting *)

Lemma rg_poll n ctx i check probe (P : history -> Prop) s :
  (forall s1, extends s s1 -> rg protocol check s1 (fun s2 _ => extends s1 s2)) ->
  (forall s1, extends s s1 ->
     rg protocol probe s1 (fun s2 x => extends s1 s2 /\ (x = Ok true -> P s2))) ->
  rg protocol (poll n ctx i check probe) s (fun s' res => extends s s' /\ (res = Ok tt -> P s')).
Proof.
  revert s. induction n as [|n IH]; intros s Hc Hp;
    (apply rg_bind, rg_read; [done|]; intros [e|] _ _ Ht; [by split|]); [by split|].
  apply rg_bind. eapply rg_mono; [by apply Hc|]. intros s2 [u|e] H2; [|split; [by etransitivity|done]].
  apply rg_bind. eapply rg_mono; [apply Hp; by etransitivity|].
  intros s3 [[]|e] [H3 HP]; [split; [by do 2 etransitivity|auto]| |split; [by do 2 etransitivity|done]].
  assert (extends s s3) as Hs3 by (by do 2 etransitivity).
  eapply rg_mono; [apply IH; intros s' Hs'; [apply Hc|apply Hp]; by etransitivity|].
  intros s' res [Hs' HQ]. split; [by etransitivity|done].
Qed.

Lemma rg_probe name ready s (P : history -> Prop) :
  (forall d, Name (d_meta d) = name -> ready d = true ->
     P (remember (Obs (GetDeployment (Namespace (a_meta a0)) name) (Ok d)) s)) ->
  rg protocol (probe_deployment name (Namespace (a_meta a0)) ready) s
    (fun s' x => extends s s' /\ (x = Ok true -> P s')).
Proof.
  intros HP. apply rg_bind, rg_read; [done|]. intros [d|e] Hapi _ Hext; simpl; [|done].
  split; [done|]. intros [= Hr]. by apply HP.
Qed.

Lemma observes_found ns name ready d :
  ready d = true -> observes ns name ready (Obs (GetDeployment ns name) (Ok d)) = true.
Proof. intros Hr. unfold observes. cbn [obs_req obs_reply]. by rewrite Hr, !bool_decide_eq_true_2. Qed.

Lemma rg_wait_scale_down n ctx i s a m p :
  going s a m ->
  rg protocol (waitForScaleDown n ctx i p (Namespace (a_meta a0))
                 (ensureTransitionCurrent a (m_name m) (Generation (a_meta a0)))) s
    (fun s' res => extends s s' /\ (res = Ok tt -> True)).
Proof.
  intros Hg. apply rg_poll; intros s1 H1; [|by apply rg_probe].
  eapply rg_check; [by eapply going_extends|]. by intros.
Qed.

Lemma rg_wait_rollout n ctx i s a m :
  going s a m ->
  rg protocol (waitForRollout n ctx i (backendDeploymentName b) (Namespace (a_meta a0))
                 (ensureTransitionCurrent a (m_name m) (Generation (a_meta a0)))) s
    (fun s' res => extends s s' /\ (res = Ok tt -> rolled s' = true)).
Proof.
  intros Hg. apply rg_poll.
  - intros s1 H1. eapply rg_check; [by eapply going_extends|]. by intros.
  - intros s1 H1. apply rg_probe. intros d _ Hd. unfold remember. cbn [rolled].
    by rewrite observes_found.
Qed.

Lemma rg_health d s :
  RegistryDriver DefaultRegistry (m_backend m0) = Ok d ->
  rg protocol (CheckHealth d true (backend_url b)) s
    (fun s' res => extends s s' /\ (res = Ok tt -> rolled s = true -> healthy s' = true)).
Proof.
  intros Hd. apply rg_bind, rg_bind, rg_read; [done|]. intros [x|e] _ _ Hext; simpl; [|done].
  split; [done|]. destruct (hr_body x) as [body|e]; simpl; [|done].
  destruct (hr_code x =? 200) eqn:Hc; [|done]. intros _ Hr.
  unfold remember. cbn [healthy]. rewrite Hr. apply orb_true_iff. left. unfold answers_200, health_url. cbn [obs_req obs_reply].
  by rewrite Hd, Hc, bool_decide_eq_true_2.
Qed.

Lemma rg_wait_health n ctx i d s a m :
  RegistryDriver DefaultRegistry (m_backend m0) = Ok d -> going s a m -> rolled s = true ->
  rg protocol (waitForBackendHealth n ctx i d (backend_url b)
                 (ensureTransitionCurrent a (m_name m) (Generation (a_meta a0)))) s
    (fun s' res => extends s s' /\ (res = Ok tt -> healthy s' = true)).
Proof.
  intros Hd. revert s. induction n as [|n IH]; intros s Hg Hr;
    (apply rg_bind; eapply rg_check; [exact Hg|]; intros s1 [u|e] H1 _; [|by split];
     apply rg_bind; eapply rg_mono; [by apply rg_health|]; intros s2 [u'|e] [H2 Hh];
     [split; [by etransitivity | intros _; destruct u'; apply Hh; [done | by apply H1]]|];
     apply rg_bind, rg_read; [done|]; intros [e'|] _ _ H3; [split; [by do 2 etransitivity|done]|]).
  { split; [by do 2 etransitivity|done]. }
  set (s3 := remember _ _) in *. assert (extends s s3) as Hs by (by do 2 etransitivity).
  eapply rg_mono; [apply IH; [by eapply going_extends | by apply Hs]|].
  intros s' res [Hs' HQ]. split; [by etransitivity|done].
Qed.

(** ** The steps *)

Lemma stage_announce s :
  last s = None ->
  stage (announce a0) s (fun s' a => going s' a m0).
Proof.
  intros Hl. unfold stage, announce.
  destruct (needs_token a0) eqn:Hn.
  - apply rg_bind, rg_read; [done|]. intros now _ _ H1.
    apply rg_bind, rg_mark. intros now2 s2 H2 _.
    assert (last s2 = None) as Hl2 by (rewrite (ext_last _ _ H2), (ext_last _ _ H1); done).
    apply rg_bind, rg_call.
    + unfold needs_token in Hn. cbn. by destruct (already_failed a0).
    + intros [a'|e] [Hapi _]; cbn; [|done]. destruct Hapi as [Ha1 Ha2 Ham Ha3 Ha4 Ha5].
      constructor; try done; [by right| |].
      * rewrite Ha4. unfold started_from. by rewrite Hn.
      * intros Hs. apply Ha5 in Hs. done.
  - cbn. constructor; try done; [by left| |].
    + unfold started_from. by rewrite Hn.
    + intros Hs. split; [done|]. unfold needs_token in Hn. rewrite Hs in Hn.
      destruct (already_failed a0); [done|].
      rewrite (bool_decide_eq_true_2 (None = None)), orb_true_r in Hn by done. done.
Qed.

Lemma stage_prepare s a m :
  going s a m ->
  stage (prepare lib a m) s (fun s' d => going s' a m /\ extends s s'
    /\ RegistryDriver DefaultRegistry (m_backend m0) = Ok d /\ Validate d m = Ok tt).
Proof.
  intros Hg. unfold stage, prepare.
  destruct (RegistryDriver _ _) as [d|e] eqn:Hd; [|fails].
  destruct (Validate d m) as [[]|e] eqn:Hv; [|fails].
  assert (RegistryDriver DefaultRegistry (m_backend m0) = Ok d) as Hd0.
  { rewrite <- Hd. unfold m_backend, m_serving. by rewrite (going_spec _ _ _ Hg). }
  apply rg_bind. unfold validateChatTemplate.
  destruct (m_template m) as [t|]; [|done].
  destruct (_ || _); [fails|]. destruct (negb _); [fails|].
  apply rg_bind, rg_read; [done|]. intros [cm|e] _ _ Hext; [|fails].
  cbn [rg]. destruct (template_content_ok _ _ _) as [[]|e]; [|fails].
  cbn [rg]. split_and!; [by eapply going_extends|done..].
Qed.

Lemma rg_findModel s name (Q : history -> result LLMModel -> Prop) :
  (forall res s', extends s s' -> (fresh s = true -> fresh s' = true) -> Q s' res) ->
  rg protocol (findModel (Namespace (a_meta a0)) name) s Q.
Proof.
  intros HQ. apply rg_bind, rg_read; [done|]. intros x _ _ Hext. cbn [rg].
  apply HQ; [done|]. by apply remember_quiet.
Qed.

Lemma rg_findBackend s ns ty ref (Q : history -> result LLMBackend -> Prop) :
  (forall s' res, extends s s' -> Q s' res) -> rg protocol (findBackend ns ty ref) s Q.
Proof.
  intros HQ. destruct ref as [name|]; cbn [findBackend].
  - apply rg_read; [done|]. intros x _ _ Hext. by apply HQ.
  - apply rg_bind, rg_read; [done|]. intros x _ _ Hext. by apply HQ.
Qed.

Lemma stage_previous s a m :
  going s a m -> stage (previous_backend a m) s (fun s' _ => going s' a m /\ extends s s').
Proof.
  intros Hg. unfold stage, previous_backend. rewrite (going_ns _ _ _ Hg).
  apply stage_bind with (s := s). apply stage_mono with (Q := fun s' _ => extends s s').
  - unfold stage. case_bool_decide; cbn [negb]; [done|].
    apply rg_bind, rg_findModel. intros [pm|e] s1 H1 _; [|done].
    apply rg_bind, rg_findBackend. intros s2 [pb|e] H2; [by cbn; etransitivity|fails].
  - intros s1 [ty v] H1. unfold stage.
    assert (going s1 a m) as Hg1 by (by eapply going_extends).
    destruct v as [pb|]; [done|]. destruct (_ && _); [|done].
    apply rg_bind, rg_findBackend. intros s2 res H2. cbn [rg].
    split; [by eapply going_extends|by etransitivity].
Qed.

(** Changing a Deployment keeps everything but freshness and readiness. *)
Lemma remember_carries (o : obs kev) s :
  accepted_phase o = None ->
  last (remember o s) = last s /\ (hot s = true -> hot (remember o s) = true).
Proof. intros Ha. unfold remember. cbn. rewrite Ha. split; [done|]. by intros ->. Qed.

Lemma going_last s s' a m : last s' = last s -> going s a m -> going s' a m.
Proof. intros Hl []. constructor; try done. unfold undecided in *. by rewrite Hl. Qed.

Lemma rg_scale name s :
  fresh s = true ->
  rg protocol (scaleDeployment name (Namespace (a_meta a0)) 0) s (fun s' _ => last s' = last s).
Proof.
  intros Hf. apply rg_bind, rg_read; [done|]. intros [d|e] _ _ Hext; cbn [rg]; [|by apply Hext].
  apply rg_bind, rg_call; [by apply remember_quiet|]. intros x _. cbn [rg protocol record].
  destruct (remember_carries (Obs (ScaleDeployment d 0) x)
    (remember (Obs (GetDeployment (Namespace (a_meta a0)) name) (Ok d)) s) eq_refl) as [-> _]. by apply Hext.
Qed.

Lemma stage_scale_down n s a m v :
  going s a m ->
  stage (scale_down_previous r n a m b (Generation (a_meta a0)) v) s (fun s' _ => going s' a m).
Proof.
  intros Hg. unfold stage, scale_down_previous. destruct v as [pb|]; [|done].
  case_bool_decide as Heq; cbn [negb]; [done|].
  rewrite (going_ns _ _ _ Hg). apply stage_bind with (s := s).
  eapply stage_mono; [by apply stage_checkpoint|]. intros s1 _ (Hg1 & Hf1 & _).
  apply rg_bind. eapply rg_mono; [by apply rg_scale|]. intros s2 [[]|e] Hl; [|fails].
  assert (going s2 a m) as Hg2 by (by eapply going_last).
  apply rg_bind. eapply rg_mono; [by apply rg_wait_scale_down|].
  intros s3 [[]|e] [H3 _]; [by eapply going_extends|].
  destruct (err_is _ e); [|fails]. cbn. by apply told_check, (going_extends _ _ _ _ H3 Hg2).
Qed.

(** When a hot snapshot is demanded, the target is known to be offline. *)
Definition offline_known : Prop :=
  must_hot = true -> forall d,
    Extra _ (GetDeployment (Namespace (b_meta b)) (backendDeploymentName b)) (Ok d) ->
    deployment_offline (backendContainerName b) d = true.

Lemma rg_ensure url req s (Q : history -> result string -> Prop) :
  cache_request (url +:+ "/v1/ensure") req ->
  (forall s' res, extends s s' -> (res = Ok CacheHot -> hot s' = true) -> Q s' res) ->
  rg protocol (Ensure (newRequest lib) url req) s Q.
Proof.
  intros Hreq HQ. unfold Ensure. destruct (newRequest lib _) as [e|]; [by apply HQ|].
  apply rg_bind, rg_call; [done|]. intros x _. cbn [rg].
  pose proof (remember_neutral (HttpPostCache (url +:+ "/v1/ensure") req) x s eq_refl) as Hext. apply HQ; [done|].
  destruct x as [x|e]; [|done]. destruct (_ =? 2) eqn:Hc; [|done]. intros [= Hh].
  unfold remember. cbn [hot]. apply orb_true_iff. right. unfold reports_hot. cbn [obs_req obs_reply].
  by rewrite Hc, (bool_decide_eq_true_2 _ Hh).
Qed.

(** A status write on a model, made while current. *)
Lemma stage_model_write m' (post : error -> error) s a m :
  going s a m -> fresh s = true -> m_spec m' = m_spec m ->
  stage (let! u := call (UpdateModelStatus m') in
         match u with Err e => leave (fail_with (post e)) | Ok m => Ret (inr m) end) s
    (fun s' m2 => going s' a m2 /\ extends s s').
Proof.
  intros Hg Hf Hm. apply rg_bind, rg_call; [done|]. intros [m2|e] [Hapi _]; [|done].
  assert (extends s (remember (Obs (UpdateModelStatus m') (Ok m2)) s)) as Hext
    by (by apply remember_neutral).
  cbn [rg]. split; [|done]. apply (going_extends _ _ a m Hext) in Hg. destruct Hg.
  constructor; try done. cbn in Hapi. congruence.
Qed.

Lemma cache_request_spec d m m' : m_spec m = m_spec m' -> CacheRequestFor d m = CacheRequestFor d m'.
Proof.
  unfold CacheRequestFor, Validate, Validate_parsers, Validate_template, Validate_artifact, m_backend, m_template, m_serving.
  by intros ->.
Qed.

Lemma stage_ensure_cached s a m d :
  offline_known -> going s a m -> RegistryDriver DefaultRegistry (m_backend m0) = Ok d ->
  stage (ensure_cached lib r a m b (Generation (a_meta a0)) d) s
    (fun s' m' => going s' a m' /\ extends s s' /\ (must_hot = true -> hot s' = true)).
Proof.
  intros Hoff Hg Hd. unfold stage, ensure_cached.
  destruct (CacheRequestFor d m) as [req|e] eqn:Hreq; [|fails].
  apply rg_bind, rg_bind, rg_read; [done|]. intros [dep|e] _ Hex H1; [|fails].
  cbn [rg]. set (s1 := remember _ s) in *. clearbody s1.
  set (offline := deployment_offline _ dep) in *.
  assert (must_hot = true -> offline = true) as Ho by (intros Hm; by apply Hoff).
  clearbody offline. assert (going s1 a m) as Hg1 by (by eapply going_extends).
  assert (forall s2 Q, extends s s2 -> going s2 a m -> offline = false ->
            (going s2 a m /\ extends s s2 /\ (must_hot = true -> hot s2 = true) -> Q) -> Q) as Hskip.
  { intros s2 Q ?? Hf HQ. apply HQ. split_and!; [done..|]. intros Hm%Ho. congruence. }
  destruct req as [req|]; [|destruct offline; [fails|by eapply Hskip]].
  case_bool_decide; cbn [negb]; [destruct offline; [fails|by eapply Hskip]|].
  apply rg_bind, rg_ensure; [split; [by eexists|]; exists d; by rewrite <- (cache_request_spec d m m0) by apply (going_spec _ _ _ Hg)|].
  intros s2 res H2 Hh. destruct res as [result|e]; [|fails].
  destruct (offline && _) eqn:Hcold; [fails|].
  assert (must_hot = true -> hot s2 = true) as Hhot.
  { intros Hm. apply Hh. apply andb_false_iff in Hcold as [Hc|Hc]; [rewrite Ho in Hc by done; done|].
    apply negb_false_iff, bool_decide_eq_true in Hc. by subst. }
  apply stage_bind. eapply stage_mono; [apply stage_checkpoint; by eapply going_extends|].
  intros s3 _ (Hg3 & Hf3 & H3). apply rg_bind, rg_read; [done|]. intros t _ _ H4.
  apply rg_bind, rg_read; [done|]. intros now _ _ H5.
  eapply stage_mono; [eapply (stage_model_write _ (fun e => e) _ a m);
    [by do 2 (eapply going_extends; [eassumption|])| by do 2 (apply remember_quiet; [done|]) | done]|].
  intros s6 m2 [Hg6 H6].
  assert (extends s2 s6) as H26 by (by do 4 (etransitivity; [eassumption|])).
  split_and!; [done| |intros Hm; apply H26; auto].
  by do 2 (etransitivity; [eassumption|]).
Qed.

Lemma stage_activate s a m :
  going s a m -> may_patch s ->
  stage (activate lib a m b) s (fun s' _ => going s' a m).
Proof.
  intros Hg (Hf & Hh). unfold stage, activate. rewrite (going_ns _ _ _ Hg).
  apply rg_bind. unfold activateDeployment. apply rg_bind, rg_read; [done|].
  intros [d|e] _ _ H1; [|fails].
  destruct (findContainer _ _) as [[i c]|]; [|fails].
  set (o1 := Obs (GetDeployment _ _) _) in *.
  assert (fresh (remember o1 s) = true) as Hf1 by (by apply remember_quiet).
  apply rg_bind.
  assert (forall s2 now, extends s s2 -> fresh s2 = true ->
    rg protocol (if d_spec d == activated_spec (formatTime lib now) m (d_spec d) i c then Ret (Ok tt)
                 else let! x := call (PatchDeployment d (with_dspec d
                        (activated_spec (formatTime lib now) m (d_spec d) i c))) in
                      Ret (try _ := x in Ok tt)) s2
      (fun s' a1 => rg protocol match a1 with
                    | Ok _ => Ret (inr tt)
                    | Err e => failed a m "PatchFailed" "patch_failed" e
                    end s' (fun s' x => match x with inl out => told s' out | inr _ => going s' a m end)))
    as Hpatch.
  { intros s2 now H2 Hf2. case_bool_decide; [cbn [rg]; by eapply going_extends|].
    apply rg_bind, rg_call; [split; [done|intros; apply H2; auto]|].
    intros [d'|e] _; [|fails]. cbn [rg rbind].
    eapply going_last; [|by eapply going_extends]. by apply remember_carries. }
  destruct (activation_changed _ _ _); [|by apply Hpatch].
  apply rg_read; [done|]. intros now _ _ H2. apply Hpatch; [by etransitivity|].
  by apply remember_quiet.
Qed.

Lemma stage_await n s a m d :
  RegistryDriver DefaultRegistry (m_backend m0) = Ok d -> going s a m ->
  stage (await_ready r n a m b (Generation (a_meta a0)) d) s
    (fun s' _ => going s' a m /\ healthy s' = true).
Proof.
  intros Hd Hg. unfold stage, await_ready. rewrite (going_ns _ _ _ Hg).
  apply rg_bind. eapply rg_mono; [by apply rg_wait_rollout|]. intros s1 [[]|e] [H1 Hr].
  2:{ destruct (err_is _ e); [|fails]. cbn. by apply told_check, (going_extends _ _ _ _ H1 Hg). }
  apply stage_bind. eapply stage_mono; [apply stage_checkpoint; by eapply going_extends|].
  intros s2 _ (Hg2 & _ & H2). apply rg_bind.
  eapply rg_mono; [apply rg_wait_health; [done..|by apply H2, Hr]|].
  intros s3 [[]|e] [H3 Hh]; [|fails]. cbn. split; [by eapply going_extends|auto].
Qed.

Lemma rg_getText client url limit s (Q : history -> result string -> Prop) :
  (forall s' res, extends s s' -> Q s' res) -> rg protocol (getText client url limit) s Q.
Proof.
  intros HQ. unfold getText. destruct (negb client); [by apply HQ|].
  apply rg_bind, rg_read; [done|]. intros x _ _ Hext. by apply HQ.
Qed.

Lemma rg_collect d client url m s (Q : history -> RuntimeMetadata * option error -> Prop) :
  (forall s' res, extends s s' -> Q s' res) ->
  rg protocol (CollectRuntimeMetadata (decodeModelIDs lib) d client url m) s Q.
Proof.
  intros HQ. apply rg_bind, rg_read; [done|]. intros now _ _ H1.
  assert (forall s1 (parse : option (string -> nilmap)) ids errs, extends s s1 ->
    rg protocol (let! (kv, errs2) :=
      match parse with
      | None => Ret (None, [])
      | Some parse =>
          let! r := getText client (trim_suffix url "/" +:+ "/metrics") maxResponseBody in
          Ret (match r with Ok text => (parse text, []) | Err e => (None, [e]) end)
      end in
      Ret (mkRuntimeMetadata now ids (srv_maxModelLen (m_serving m))
             (max_concurrency d (launchArguments (elems (EffectiveArgs d m))))
             (launchArguments (elems (EffectiveArgs d m))) kv
             (t ← m_template m; Some (mkResolved (ct_configMap t) (ct_key t) (ct_sha256 t))),
           joinErrors (errs ++ errs2))) s1 Q) as Htail.
  { intros s1 [parse|] ids errs Hs1; apply rg_bind; [|by apply HQ].
    apply rg_bind, rg_getText. intros s2 res H2.
    destruct res; apply HQ; by etransitivity. }
  apply rg_bind. destruct (cap_discovery _) eqn:Hc; [|by apply Htail].
  apply rg_bind. unfold DiscoverModels. rewrite Hc. cbn [negb].
  apply rg_bind, rg_getText. intros s2 [body|e] H2; cbn [rg rbind];
    [destruct (decodeModelIDs lib body)|]; apply Htail; by etransitivity.
Qed.

Lemma stage_publish s a m d :
  going s a m -> healthy s = true ->
  stage (publish_model lib a m b (Generation (a_meta a0)) d) s
    (fun s' m' => going s' a m' /\ healthy s' = true).
Proof.
  intros Hg Hh. apply rg_bind, rg_collect. intros s1 [meta errs] H1.
  apply stage_bind. eapply stage_mono; [apply stage_checkpoint; by eapply going_extends|].
  intros s2 _ (Hg2 & Hf2 & H2).
  eapply stage_mono; [by apply (stage_model_write _ (wrap "update target model status: ") _ a m)|].
  intros s3 m' [Hg3 H3]. split; [done|]. by apply H3, H2, H1.
Qed.

Lemma stage_deactivate s a m :
  going s a m -> healthy s = true -> fresh s = true ->
  stage (deactivate_previous a m) s (fun s' _ => going s' a m /\ healthy s' = true).
Proof.
  intros Hg Hh Hf. unfold stage, deactivate_previous. rewrite (going_ns _ _ _ Hg).
  destruct (_ && _); [|done]. apply rg_bind, rg_findModel. intros res s1 H1 Hf1.
  destruct res as [pm|e]; [|split; [by eapply going_extends|by apply H1]].
  apply rg_bind, rg_call; [by apply Hf1|]. intros u _.
  assert (extends s1 (remember (Obs (UpdateModelStatus (set_model_state false ModelPhaseReady
    (mst_runtime (m_status pm)) pm)) u) s1)) as H2 by (by apply remember_neutral).
  destruct u; [|done]. cbn [rg].
  split; [eapply going_extends; [|exact Hg]; by etransitivity | by apply H2, H1].
Qed.

Lemma stage_stable s a m :
  going s a m -> healthy s = true -> fresh s = true ->
  rg protocol (mark_stable lib r a m) s
    (fun s' x => match x with inl out | inr out => told s' out end).
Proof.
  intros Hg Hh Hf. unfold mark_stable.
  destruct (ast_transitionStarted (a_status a)) as [st|] eqn:Hst.
  2:{ by apply (going_started _ _ _ Hg) in Hst as [? ?]. }
  apply rg_bind, rg_read; [done|]. intros now _ _ H1.
  apply rg_bind, rg_bind, rg_mark. intros n1 s2 H2 Hf2.
  apply rg_mark. intros n2 s3 H3 Hf3. apply rg_bind, rg_call.
  - cbn. split_and!; [by apply Hf3, Hf2, remember_quiet | by apply H3, H2, H1 | |].
    + unfold m_name. by rewrite (going_spec _ _ _ Hg).
    + unfold m_backend, m_serving. by rewrite (going_spec _ _ _ Hg).
  - intros [a'|e] _; [|done]. set (s4 := record _ _ _ _).
    assert (last s4 = Some ActiveModelPhaseStable) as Hl by done. clearbody s4.
    apply rg_bind, rg_read; [done|]. intros [] _ _ H5.
    apply rg_bind, rg_read; [done|]. intros [] _ _ H6.
    assert (forall s', extends (remember (Obs (Metric (ModelSwitch (ast_transitionFrom (a_status a'))
      (m_name m) (m_backend m))) tt) (remember (Obs (Metric (TransitionDuration (sub_time now st) (m_name m))) tt) s4)) s' ->
        told s' (Return done_result None)) as Hdone.
    { intros s' Hs'. right; right. split; [done|].
      by rewrite (ext_last _ _ Hs'), (ext_last _ _ H6), (ext_last _ _ H5). }
    apply rg_bind. destruct (Recorder r); [|by apply Hdone].
    apply rg_read; [done|]. intros [] _ _ H7. by apply Hdone.
Qed.

(** The whole transition keeps the protocol, and its outcome tells what was written. *)
Theorem rg_executeTransition s :
  last s = None -> offline_known ->
  rg protocol (executeTransition lib r a0 m0 b) s told.
Proof.
  intros Hl Hoff. apply rg_body.
  apply stage_bind. eapply stage_mono; [by apply stage_announce|]. intros s1 a Hg1.
  apply stage_bind. eapply stage_mono; [by apply stage_checkpoint|]. intros s2 _ (Hg2 & _ & _).
  apply stage_bind. eapply stage_mono; [by apply stage_prepare|]. intros s3 d (Hg3 & _ & Hd & _).
  apply stage_bind. eapply stage_mono; [by apply stage_previous|]. intros s4 v (Hg4 & _).
  apply stage_bind. eapply stage_mono; [by apply stage_scale_down|]. intros s5 u5 Hg5.
  apply stage_bind. eapply stage_mono; [by apply stage_checkpoint|]. intros s6 _ (Hg6 & _ & H6).
  apply stage_bind. eapply stage_mono; [by apply stage_ensure_cached|]. intros s7 m (Hg7 & H7 & Hh7).
  apply stage_bind. eapply stage_mono; [by apply stage_checkpoint|]. intros s8 _ (Hg8 & Hf8 & H8).
  apply stage_bind. eapply stage_mono.
  { apply stage_activate; [done|]. split; [done|]. intros Hm. by apply H8, Hh7. }
  intros s9 u9 Hg9.
  apply stage_bind. eapply stage_mono; [by apply stage_checkpoint|]. intros s10 _ (Hg10 & _ & _).
  apply stage_bind. eapply stage_mono; [by apply stage_await|]. intros s11 _ (Hg11 & Hh11).
  apply stage_bind. eapply stage_mono; [by apply stage_checkpoint|]. intros s12 _ (Hg12 & _ & H12).
  apply stage_bind. eapply stage_mono; [apply stage_publish; [done|by apply H12]|].
  intros s13 m' (Hg13 & Hh13).
  apply stage_bind. eapply stage_mono; [by apply stage_checkpoint|]. intros s14 _ (Hg14 & Hf14 & H14).
  apply stage_bind. eapply stage_mono; [apply stage_deactivate; [done|by apply H14|done]|].
  intros s15 _ (Hg15 & Hh15).
  apply stage_bind. eapply stage_mono; [by apply stage_checkpoint|]. intros s16 _ (Hg16 & Hf16 & H16).
  apply stage_stable; [done|by apply H16|done].
Qed.
End protocol.

(** ** Steps that neither wait nor change a Deployment

    Most steps of a transition stay within any contract that lets such requests pass. *)

Definition plain {X} (e : kev X) : bool :=
  match e with
  | PatchDeployment _ _ | ScaleDeployment _ _ | CreateDeployment _ | WaitTick _ _ => false
  | _ => true
  end.

Section plain_steps.
Context {S : Type} (c : contract kev S) (J : S -> Prop).
Context (Hplain : forall X (e : kev X) s, plain e = true -> J s -> permit c e s /\ forall x, J (record c e x s)).
Context (lib : golib) (r : ActiveReconciler) (b : LLMBackend).
Notation stays := (within c J).

Lemma plain_call {X} (e : kev X) : plain e = true -> stays (call e).
Proof using Hplain. intros He. apply within_call; [intros s Hs; by apply Hplain|intros s x Hs; by apply Hplain]. Qed.
#[local] Hint Extern 1 (within _ _ (call _)) => (apply plain_call; reflexivity) : within.

Lemma plain_failTransition a name reason metricReason cause : stays (failTransition a name reason metricReason cause).
Proof using Hplain. unfold failTransition, mark. stay_within. Qed.
Lemma plain_check a target gen : stays (ensureTransitionCurrent a target gen).
Proof using Hplain. unfold ensureTransitionCurrent. stay_within. Qed.
#[local] Hint Resolve plain_failTransition plain_check : within.
Lemma plain_failed {A} a m reason metricReason cause : stays (failed (A := A) a m reason metricReason cause).
Proof using Hplain. unfold failed, leave. stay_within. Qed.
Lemma plain_checkpoint a m gen : stays (checkpoint a m gen).
Proof using Hplain. unfold checkpoint, leave. stay_within. Qed.
#[local] Hint Resolve plain_failed plain_checkpoint : within.
Lemma plain_announce a : stays (announce a).
Proof using Hplain. unfold announce, mark, leave. stay_within. Qed.
Lemma plain_prepare a m : stays (prepare lib a m).
Proof using Hplain. unfold prepare, validateChatTemplate. stay_within. Qed.
Lemma plain_previous a m : stays (previous_backend a m).
Proof using Hplain. unfold previous_backend, findModel, findBackend, ebind. stay_within. Qed.
Lemma plain_ensure_cached a m gen d : stays (ensure_cached lib r a m b gen d).
Proof using Hplain. unfold ensure_cached, backendOfflineMode, Ensure, leave, ebind. stay_within. Qed.
Lemma plain_probe name ns ready : stays (probe_deployment name ns ready).
Proof using Hplain. unfold probe_deployment. stay_within. Qed.
Lemma plain_health d url : stays (CheckHealth d true url).
Proof using Hplain. unfold CheckHealth, getText. stay_within. Qed.
Lemma plain_publish a m gen d : stays (publish_model lib a m b gen d).
Proof using Hplain. unfold publish_model, CollectRuntimeMetadata, DiscoverModels, getText, leave, ebind. stay_within. Qed.
Lemma plain_deactivate a m : stays (deactivate_previous a m).
Proof using Hplain. unfold deactivate_previous, findModel, leave. stay_within. Qed.
Lemma plain_stable a m : stays (mark_stable lib r a m).
Proof using Hplain. unfold mark_stable, mark_complete, mark, leave. stay_within. Qed.
End plain_steps.
