(* ===== verification/ActiveModelProps.v ===== *)
(** * Properties of model transitions

    What every run of [executeTransition] does, against every API server that
    behaves as documented ([api_server]) and otherwise arbitrary replies: errors,
    concurrent edits of any resource, cancellation at any wait, any runtime and
    any cache-manager. *)

From S2P Require Import Prelude GoStrings Types Effects Api Driver Workload CacheClient ActiveModel Protocol Samples.

(** The phase of the last status write the server accepted. *)
Definition last_phase (tr : list (obs kev)) : option LLMActiveModelPhase :=
  list.last (omap accepted_phase tr).

Definition anything (X : Type) (e : kev X) (x : X) : Prop := True.
Definition both (R R' : forall X, kev X -> X -> Prop) (X : Type) (e : kev X) (x : X) : Prop :=
  R X e x /\ R' X e x.

Section runs.
Context {W : Type} (h : handler kev W) (w : W) (lib : golib) (r : ActiveReconciler).
Context (a : LLMActiveModel) (m : LLMModel) (b : LLMBackend).
Notation tr := (trace h (executeTransition lib r a m b) w).

(** A run under the protocol: every request was permitted by what precedes it. *)
Lemma protocol_run Extra must_hot :
  obeys (both api_server Extra) h -> offline_known b Extra must_hot ->
  let c := protocol a m b Extra must_hot in
  (forall tr1 o tr2, tr = tr1 ++ o :: tr2 ->
     permitted a m must_hot _ (obs_req o) (ghost c no_history tr1))
  /\ told a (ghost c no_history tr) (value h (executeTransition lib r a m b) w).
Proof.
  intros Hh Ho c.
  destruct (rg_obeys c (both api_server Extra) h (executeTransition lib r a m b) no_history w
              (told a)) as [Hm HQ]; [done|done| |done].
  by apply rg_executeTransition.
Qed.

Lemma no_extra : obeys api_server h -> obeys (both api_server anything) h.
Proof. intros Hh X e w'. split; [apply Hh | done]. Qed.
Lemma not_offline Extra : offline_known b Extra false.
Proof. by intros. Qed.

(** ** From the history to the trace *)
Context (Extra : forall X, kev X -> X -> Prop) (must_hot : bool).
Notation c := (protocol a m b Extra must_hot).

Lemma fresh_since tr1 :
  fresh (ghost c no_history tr1) = true ->
  exists t1 chk t2, tr1 = t1 ++ chk :: t2
    /\ confirms (Namespace (a_meta a)) (Name (a_meta a)) (m_name m) (Generation (a_meta a)) chk = true
    /\ Forall (fun o => quiet o = true) t2.
Proof.
  apply (ghost_since c (fun s => fresh s = true) (fun _ chk => confirms _ _ _ _ chk = true)
           (fun o => quiet o = true)); [|done].
  intros s [X e x]. cbn [protocol record obs_req obs_reply remember fresh].
  rewrite orb_true_iff, andb_true_iff. tauto.
Qed.

Lemma hot_since tr1 :
  hot (ghost c no_history tr1) = true ->
  exists t1 o t2, tr1 = t1 ++ o :: t2 /\ reports_hot o = true.
Proof.
  intros Hh.
  destruct (ghost_since c (fun s => hot s = true) (fun _ o => reports_hot o = true)
    (fun _ => True) no_history tr1) as (t1 & o & t2 & -> & Ho & _); [|done..|by eauto].
  intros s [X e x]. cbn [protocol record obs_req obs_reply remember hot].
  rewrite orb_true_iff. tauto.
Qed.

Lemma healthy_since tr1 :
  healthy (ghost c no_history tr1) = true ->
  exists t1 o1 t2 o2 t3, tr1 = t1 ++ o1 :: t2 ++ o2 :: t3
    /\ observes (Namespace (a_meta a)) (backendDeploymentName b) rolled_out o1 = true
    /\ answers_200 (health_url m b) o2 = true
    /\ Forall (fun o => mutates_deployment o = false) (t2 ++ t3).
Proof.
  intros Hd.
  destruct (ghost_since c (fun s => healthy s = true)
    (fun s o => rolled s = true /\ answers_200 (health_url m b) o = true)
    (fun o => mutates_deployment o = false) no_history tr1) as (t12 & o2 & t3 & -> & (Hs & Ho2) & H3); [|done..|].
  { intros s [X e x]. cbn [protocol record obs_req obs_reply remember healthy].
    rewrite orb_true_iff, !andb_true_iff, negb_true_iff. tauto. }
  destruct (ghost_since c (fun s => rolled s = true)
    (fun _ o => observes (Namespace (a_meta a)) (backendDeploymentName b) rolled_out o = true)
    (fun o => mutates_deployment o = false) no_history t12) as (t1 & o1 & t2 & -> & Ho1 & H2); [|done..|].
  { intros s [X e x]. cbn [protocol record obs_req obs_reply remember rolled].
    rewrite orb_true_iff, andb_true_iff, negb_true_iff. tauto. }
  exists t1, o1, t2, o2, t3. rewrite <- app_assoc. split_and!; [done..|]. by apply Forall_app.
Qed.

Lemma last_ghost tr1 : last (ghost c no_history tr1) = last_phase tr1.
Proof.
  induction tr1 as [|[X e x] tr1 IH] using rev_ind; [done|].
  rewrite ghost_app. unfold last_phase in *. rewrite omap_app.
  cbn [ghost fold_left protocol record obs_req obs_reply remember last]. rewrite IH.
  simpl. destruct (accepted_phase (Obs e x)); [by rewrite last_snoc | by rewrite app_nil_r].
Qed.
End runs.

(** ** A cluster to run against

    Every service behaves: gemma is being served, laguna is asked for at
    generation 2, Deployments report the state the waits look for. *)

Definition sample_lib : golib := mkGolib show_int show_int
  (fun _ => ct_sha256 laguna_template) (fun s => Ok [s]) (fun _ => None)
  (fun _ => Some 5) (fun s => Ok [s]).
Definition sample_reconciler : ActiveReconciler :=
  mkActiveReconciler "http://cache/" (seconds 10) (seconds 2) true ∅ true.
Definition current_active : LLMActiveModel := mkActive (sample_meta "default" 2) "poolside/laguna"
  (mkActiveStatus "google/gemma" BackendVLLM ActiveModelPhaseTransitioning "google/gemma" (Some 900) None 2 [] 2).
Definition ok_response : http_response := mkResponse 200 "200 OK" "hot" (Ok "poolside/laguna").
Definition offline_container : Container :=
  mkContainer "runtime" None [mkEnv "HF_HUB_OFFLINE" " True " ""] None ∅ ∅ "image".
Definition offline_deployment (name : string) : Deployment :=
  mkDeployment (sample_meta name 1)
    (mkDeploymentSpec (Some 0) None (mkPodTemplate None None
       (mkPodSpec [sidecar; offline_container] None "gpu-node")) "Recreate" "") rolled_status.

Definition cluster : handler kev unit := fun X e w =>
  (match e in kev X return X with
   | GetDeployment _ name =>
       Ok (if name == "llm-vllm" then sample_deployment name 0 empty_status else offline_deployment name)
   | PatchDeployment _ d => Ok d
   | CreateDeployment d => Ok d
   | ScaleDeployment d _ => Ok d
   | GetActive _ _ => Ok current_active | ListActive _ => Ok [current_active]
   | UpdateActiveStatus a => Ok a
   | GetModel _ _ => Err (errorf "") | ListModels _ => Ok [gemma; laguna]
   | UpdateModel m => Ok m | UpdateModelStatus m => Ok m
   | GetBackend _ name =>
       match List.find (fun b => Name (b_meta b) == name) [vllm_backend; llama_backend] with
       | Some b => Ok b
       | None => Err (mkError "not found" ErrNotFound)
       end
   | ListBackends _ => Ok [vllm_backend; llama_backend]
   | UpdateBackend b => Ok b | UpdateBackendStatus b => Ok b
   | GetOverlay _ _ => Err (errorf "") | ListOverlays _ => Ok []
   | UpdateOverlayStatus o => Ok o
   | GetService _ _ => Err (mkError "" ErrNotFound) | CreateService s => Ok s | PatchService _ s => Ok s
   | GetConfigMap _ name => Ok (mkConfigMap (sample_meta name 1) (Some {["laguna.jinja" := "template"]}))
   | HttpGet _ => Ok ok_response | HttpPostCache _ _ => Ok ok_response
   | Now => 1000 | WaitTick _ _ => None | Metric _ => tt | RecordEvent _ _ => tt
   end, w).

Lemma cluster_api : obeys api_server cluster.
Proof.
  intros X e w. destruct e; cbn; try exact I; try reflexivity.
  - constructor; reflexivity.
  - case_bool_decide; reflexivity.
Qed.

Lemma split_first {A} (f : A -> bool) l :
  existsb f l = true -> exists l1 x l2, l = l1 ++ x :: l2 /\ f x = true.
Proof.
  intros (x & Hx & Hf)%existsb_exists. apply in_split in Hx as (l1 & l2 & ->). eauto.
Qed.

Notation sample_run := (trace cluster (executeTransition sample_lib sample_reconciler
                                         sample_active laguna llama_backend) tt).

(** ** What a transition may do, and when *)

(** A request that changes a Deployment, a model's status, or declares success. *)
Definition consequential (o : obs kev) : bool :=
  mutates_deployment o || is_some (model_write_of o)
  || match active_write_of o with Some a' => ast_phase (a_status a') == ActiveModelPhaseStable | None => false end.

(** C1: a transition never acts on a stale request.  Before every change of a Deployment,
    every write of a model's status and the final Stable status, the active model was
    re-read and still asked for this model at this generation, with this attempt's token;
    between that check and the write there are only reads of Deployments, of the model
    list and of the clock: no wait, no HTTP call, no other write. *)
Theorem acts_only_while_current (W : Type) (h : handler kev W) (w : W) (lib : golib)
    (r : ActiveReconciler) (a : LLMActiveModel) (m : LLMModel) (b : LLMBackend)
    (tr1 tr2 : list (obs kev)) (o : obs kev) :
  obeys api_server h ->
  trace h (executeTransition lib r a m b) w = tr1 ++ o :: tr2 ->
  consequential o = true ->
  exists t1 chk t2, tr1 = t1 ++ chk :: t2
    /\ confirms (Namespace (a_meta a)) (Name (a_meta a)) (m_name m) (Generation (a_meta a)) chk = true
    /\ Forall (fun o => quiet o = true) t2.
Proof.
  intros Hh Htr Ho.
  destruct (protocol_run h w lib r a m b anything false (no_extra h Hh) (not_offline _ _)) as [Hperm _].
  specialize (Hperm _ _ _ Htr). eapply fresh_since.
  destruct o as [X e x]; destruct e; cbn in *; try discriminate Ho; try done; [|by apply Hperm].
  unfold may_write in Hperm. case_bool_decide as Hp; [|done]. rewrite Hp in Hperm. by apply Hperm.
Qed.

Lemma acts_only_while_current_witness :
  exists tr1 o tr2, sample_run = tr1 ++ o :: tr2 /\ consequential o = true
    /\ exists t1 chk t2, tr1 = t1 ++ chk :: t2 /\ confirms "llm" "default" "poolside/laguna" 2 chk = true.
Proof.
  destruct (split_first consequential sample_run) as (tr1 & o & tr2 & Htr & Ho); [vm_compute; reflexivity|].
  exists tr1, o, tr2. split; [exact Htr|]. split; [exact Ho|].
  destruct (acts_only_while_current unit cluster tt sample_lib sample_reconciler sample_active laguna
              llama_backend tr1 tr2 o cluster_api Htr Ho) as (t1 & chk & t2 & H1 & H2 & _).
  exists t1, chk, t2. split; [exact H1 | exact H2].
Defined.

(** C5: Stable means serving.  A transition writes Stable only with the target's name and
    backend type, and only after it observed the target Deployment rolled out (its status
    caught up with its spec, one updated and one available replica) and then got a 200
    from the runtime's health endpoint; no Deployment was changed in between or since. *)
Theorem stable_only_when_serving (W : Type) (h : handler kev W) (w : W) (lib : golib)
    (r : ActiveReconciler) (a : LLMActiveModel) (m : LLMModel) (b : LLMBackend)
    (tr1 tr2 : list (obs kev)) (o : obs kev) (a' : LLMActiveModel) :
  obeys api_server h ->
  trace h (executeTransition lib r a m b) w = tr1 ++ o :: tr2 ->
  active_write_of o = Some a' -> ast_phase (a_status a') = ActiveModelPhaseStable ->
  ast_modelName (a_status a') = m_name m /\ ast_backendType (a_status a') = m_backend m
  /\ exists t1 o1 t2 o2 t3, tr1 = t1 ++ o1 :: t2 ++ o2 :: t3
       /\ observes (Namespace (a_meta a)) (backendDeploymentName b) rolled_out o1 = true
       /\ answers_200 (health_url m b) o2 = true
       /\ Forall (fun o => mutates_deployment o = false) (t2 ++ t3).
Proof.
  intros Hh Htr Ho Hp.
  destruct (protocol_run h w lib r a m b anything false (no_extra h Hh) (not_offline _ _)) as [Hperm _].
  specialize (Hperm _ _ _ Htr).
  destruct o as [X e x]; destruct e; cbn in *; try discriminate Ho. injection Ho as ->.
  unfold may_write in Hperm. rewrite Hp in Hperm. destruct Hperm as (_ & Hhe & Hn & Hb).
  split_and!; [done..|]. by eapply healthy_since.
Qed.

Definition writes_phase (p : LLMActiveModelPhase) (o : obs kev) : bool :=
  match active_write_of o with Some a' => ast_phase (a_status a') == p | None => false end.

Lemma stable_only_when_serving_witness :
  exists o a', active_write_of o = Some a' /\ ast_phase (a_status a') = ActiveModelPhaseStable
    /\ o ∈ sample_run /\ ast_modelName (a_status a') = "poolside/laguna".
Proof.
  destruct (split_first (writes_phase ActiveModelPhaseStable) sample_run)
    as (tr1 & o & tr2 & Htr & Ho); [vm_compute; reflexivity|].
  unfold writes_phase in Ho. destruct (active_write_of o) as [a'|] eqn:Ha; [|discriminate Ho].
  apply bool_decide_eq_true in Ho. exists o, a'. split; [exact Ha|]. split; [exact Ho|]. split.
  - rewrite Htr. set_solver.
  - apply (stable_only_when_serving unit cluster tt sample_lib sample_reconciler sample_active laguna
              llama_backend tr1 tr2 o a' cluster_api Htr Ha Ho).
Defined.

(** The target runs with [HF_HUB_OFFLINE] set, whenever its Deployment is read. *)
Definition offline_target (b : LLMBackend) (X : Type) (e : kev X) : X -> Prop :=
  match e in kev X return X -> Prop with
  | GetDeployment ns name => fun r => forall d, r = Ok d ->
      ns = Namespace (b_meta b) -> name = backendDeploymentName b ->
      deployment_offline (backendContainerName b) d = true
  | _ => fun _ => True
  end.

(** An offline runtime is started only from a hot snapshot.  When the target's runtime
    container opts into [HF_HUB_OFFLINE], its Deployment is patched only after the
    cache-manager accepted the request and reported a hot snapshot. *)
Theorem offline_needs_hot_snapshot (W : Type) (h : handler kev W) (w : W) (lib : golib)
    (r : ActiveReconciler) (a : LLMActiveModel) (m : LLMModel) (b : LLMBackend)
    (tr1 tr2 : list (obs kev)) (o : obs kev) :
  obeys (both api_server (offline_target b)) h ->
  trace h (executeTransition lib r a m b) w = tr1 ++ o :: tr2 ->
  is_Some (patch_of o) ->
  exists t1 hit t2, tr1 = t1 ++ hit :: t2 /\ reports_hot hit = true.
Proof.
  intros Hh Htr Ho.
  destruct (protocol_run h w lib r a m b (offline_target b) true Hh) as [Hperm _];
    [intros _ d Hd; by apply Hd|].
  specialize (Hperm _ _ _ Htr). eapply hot_since.
  destruct o as [X e x]; destruct e; cbn in *; try by destruct Ho. by apply Hperm.
Qed.

Lemma cluster_offline : obeys (both api_server (offline_target llama_backend)) cluster.
Proof.
  intros X e w. split; [apply cluster_api|]. destruct e; try exact I.
  intros d Hd _ ->. vm_compute in Hd. injection Hd as <-. vm_compute. reflexivity.
Qed.

Lemma offline_needs_hot_snapshot_witness :
  exists tr1 o tr2 t1 hit t2, is_Some (patch_of o) /\ sample_run = tr1 ++ o :: tr2
    /\ tr1 = t1 ++ hit :: t2 /\ reports_hot hit = true.
Proof.
  destruct (split_first (fun o => is_some (patch_of o)) sample_run) as (tr1 & o & tr2 & Htr & Ho);
    [vm_compute; reflexivity|].
  assert (is_Some (patch_of o)) as Ho' by (destruct (patch_of o); [eexists; reflexivity | discriminate Ho]).
  destruct (offline_needs_hot_snapshot unit cluster tt sample_lib sample_reconciler sample_active laguna
     llama_backend tr1 tr2 o cluster_offline Htr Ho') as (t1 & hit & t2 & H1 & H2).
  exists tr1, o, tr2, t1, hit, t2. split; [exact Ho'|]. split; [exact Htr|]. split; [exact H1 | exact H2].
Defined.

(** C11: the outcome tells what the status says.  A transition that returns without an error
    either asks for a retry in 30 s having recorded Failed, or asks for an immediate retry
    having recorded no result, or is done having recorded Stable.  It dereferences a nil
    start time only for a resource that arrived Failed at its own generation without one. *)
Theorem outcome_matches_status (W : Type) (h : handler kev W) (w : W) (lib : golib)
    (r : ActiveReconciler) (a : LLMActiveModel) (m : LLMModel) (b : LLMBackend) :
  obeys api_server h ->
  let tr := trace h (executeTransition lib r a m b) w in
  match value h (executeTransition lib r a m b) w with
  | Return res None =>
      (res = retry30 /\ last_phase tr = Some ActiveModelPhaseFailed)
      \/ (res = mkResult true 0
          /\ (last_phase tr = None \/ last_phase tr = Some ActiveModelPhaseTransitioning))
      \/ (res = done_result /\ last_phase tr = Some ActiveModelPhaseStable)
  | Return res (Some _) => res = done_result
  | Panic => ast_transitionStarted (a_status a) = None /\ already_failed a = true
  end.
Proof.
  intros Hh tr.
  destruct (protocol_run h w lib r a m b anything false (no_extra h Hh) (not_offline _ _)) as [_ Hq].
  unfold told, undecided in Hq. by rewrite last_ghost in Hq.
Qed.

Lemma outcome_matches_status_witness :
  value cluster (executeTransition sample_lib sample_reconciler sample_active laguna llama_backend) tt
    = Return done_result None /\ last_phase sample_run = Some ActiveModelPhaseStable.
Proof.
  pose proof (outcome_matches_status unit cluster tt sample_lib sample_reconciler sample_active laguna
                llama_backend cluster_api) as H.
  assert (value cluster (executeTransition sample_lib sample_reconciler sample_active laguna llama_backend) tt
            = Return done_result None) as Hv by (vm_compute; reflexivity).
  split; [exact Hv|]. cbv zeta in H. rewrite Hv in H.
  destruct H as [[H _]|[[H _]|[_ H]]]; [discriminate H | discriminate H | exact H].
Defined.

(** C17: a failed attempt stays visible.  Retrying a generation that already failed never
    writes Transitioning again: every status it writes is Failed or Stable. *)
Theorem failed_generation_not_reannounced (W : Type) (h : handler kev W) (w : W) (lib : golib)
    (r : ActiveReconciler) (a : LLMActiveModel) (m : LLMModel) (b : LLMBackend) (a' : LLMActiveModel) :
  obeys api_server h -> already_failed a = true ->
  a' ∈ active_writes (trace h (executeTransition lib r a m b) w) ->
  ast_phase (a_status a') = ActiveModelPhaseFailed \/ ast_phase (a_status a') = ActiveModelPhaseStable.
Proof.
  intros Hh Hf (o & Ho & Hw)%list_elem_of_omap.
  destruct (protocol_run h w lib r a m b anything false (no_extra h Hh) (not_offline _ _)) as [Hperm _].
  apply list_elem_of_split in Ho as (tr1 & tr2 & Htr). specialize (Hperm _ _ _ Htr).
  destruct o as [X e x]; destruct e; cbn in *; try discriminate Hw. injection Hw as ->.
  unfold may_write in Hperm. destruct (ast_phase _); [done|auto|destruct Hperm; congruence|auto].
Qed.

Definition failed_active : LLMActiveModel := mkActive (sample_meta "default" 2) "poolside/laguna"
  (mkActiveStatus "google/gemma" BackendVLLM ActiveModelPhaseFailed "google/gemma" (Some 900) None 2 [] 2).

Lemma failed_generation_not_reannounced_witness :
  let writes := active_writes (trace cluster (executeTransition sample_lib sample_reconciler failed_active
                                 laguna llama_backend) tt) in
  already_failed failed_active = true
  /\ length writes = 1%nat
  /\ Forall (fun a' => Generation (a_meta a') = Generation (a_meta failed_active)
       /\ (ast_phase (a_status a') = ActiveModelPhaseFailed \/ ast_phase (a_status a') = ActiveModelPhaseStable))
       writes.
Proof.
  cbn zeta.
  assert (already_failed failed_active = true) as Hf by (vm_compute; reflexivity).
  split; [exact Hf|]. split; [vm_compute; reflexivity|].
  apply Forall_forall. intros a' Ha'. split.
  - revert a' Ha'. apply Forall_forall. vm_compute. repeat constructor.
  - apply (failed_generation_not_reannounced unit cluster tt sample_lib sample_reconciler failed_active
             laguna llama_backend a' cluster_api Hf Ha').
Defined.

(** ** When a reconcile stays passive *)

(** Transitions are switched off, or another resource owns them, or the model asked for
    is outside the canary list. *)
Definition blocked (r : ActiveReconciler) (ns name : string) (R : forall X, kev X -> X -> Prop) : Prop :=
  TransitionsEnabled r = false
  \/ (forall a items, R _ (GetActive ns name) (Ok a) -> R _ (ListActive (Namespace (a_meta a))) (Ok items) ->
        owner_of items <> Name (a_meta a))
  \/ (forall a items m, R _ (GetActive ns name) (Ok a) -> R _ (ListModels (Namespace (a_meta a))) (Ok items) ->
        m ∈ items -> m_name m = a_specModel a -> canary_denied r m = true).

(** Requests that leave Deployments, the cache and the models alone. *)
Definition passive (o : obs kev) : bool :=
  negb (mutates_deployment o) && negb (is_some (ensure_of o)) && negb (is_some (model_write_of o)).

Section passive.
Context (r : ActiveReconciler) (ns name : string) (R : forall X, kev X -> X -> Prop).

Definition hands_off : contract kev unit := {|
  rely := fun X e x _ => R X e x;
  permit := fun X e _ => forall x, passive (Obs e x) = true;
  record := fun _ _ _ s => s;
|}.

Lemma rg_refuse strict p reason message res a s :
  rg hands_off (refuse strict p reason message res a) s (fun _ _ => True).
Proof. by repeat (split; [done|]; intros ? _). Qed.

Lemma rg_transition_due lib a m b s :
  TransitionsEnabled r = false \/ canary_denied r m = true ->
  rg hands_off (transition_due lib r a m b) s (fun _ _ => True).
Proof.
  intros Hb. unfold transition_due. destruct (TransitionsEnabled r); cbn [negb]; [|apply rg_refuse].
  destruct Hb as [?|Hd]; [done | rewrite Hd; apply rg_refuse].
Qed.

Lemma rg_blocked lib :
  blocked r ns name R -> rg hands_off (Reconcile lib r ns name) tt (fun _ _ => True).
Proof.
  intros Hb. apply rg_bind. split; [done|]. intros [a|e] Ha; [|done]. cbn [record hands_off rg].
  apply rg_bind. split; [done|]. intros [items|e] Hi; [|done]. cbn [rg rbind bind].
  case_bool_decide as Hown; cbn [negb]; [|apply rg_refuse].
  assert (forall items m, R _ (ListModels (Namespace (a_meta (set_observed a)))) (Ok items) -> m ∈ items ->
            m_name m = a_specModel a -> TransitionsEnabled r = false \/ canary_denied r m = true) as Hgate.
  { intros items' m Hl Hm Hn. destruct Hb as [?|[Ho|Hc]]; [by left| |right; exact (Hc a items' m Ha Hl Hm Hn)].
    by destruct (Ho a items Ha Hi). }
  unfold reconcile_owner. apply rg_bind. split; [done|]. intros [ms|e] Hms; [|apply rg_refuse].
  cbn [rg rbind bind]. destruct (List.find _ ms) as [m|] eqn:Hm; [|apply rg_refuse].
  apply find_some in Hm as [Hm Hn%bool_decide_eq_true].
  specialize (Hgate _ _ Hms (proj2 (list_elem_of_In _ _) Hm) Hn). apply rg_bind.
  assert (forall b, rg hands_off (if (ast_modelName (a_status (set_observed a)) == a_specModel (set_observed a))
             && (ast_backendType (a_status (set_observed a)) == m_backend m)
          then settle lib r (set_observed a) m b else transition_due lib r (set_observed a) m b) tt
            (fun _ _ => True)) as Hrest.
  { intros b. destruct (_ && _); [|by apply rg_transition_due].
    apply rg_bind. split; [done|]. intros x _. cbn [rg bind].
    destruct x as [d|e]; [|done]. destruct (spec_matches _ _ _) as [[]|]; [|by apply rg_transition_due|done].
    case_bool_decide; [done|]. by repeat (split; [done|]; intros ? _). }
  destruct (ms_backendRef (m_spec m)) as [bn|]; (split; [done|]; intros x _; cbn [rg bind]).
  - destruct x; [apply Hrest | apply rg_refuse].
  - destruct (rbind x _); [apply Hrest | apply rg_refuse].
Qed.
End passive.

(** C13: a blocked reconcile changes nothing but the status.  While transitions are
    disabled, or another LLMActiveModel owns the namespace, or the target is outside the
    canary allow-list, [Reconcile] sends no Deployment change, no cache request and no
    model status, whatever the services reply. *)
Theorem blocked_reconcile_is_passive (W : Type) (h : handler kev W) (w : W) (lib : golib)
    (r : ActiveReconciler) (ns name : string) (R : forall X, kev X -> X -> Prop) :
  obeys R h -> blocked r ns name R ->
  Forall (fun o => passive o = true) (trace h (Reconcile lib r ns name) w).
Proof.
  intros Hh Hb.
  destruct (rg_obeys (hands_off R) R h (Reconcile lib r ns name) tt w (fun _ _ => True))
    as [Hm _]; [done|done|by apply rg_blocked|].
  apply Forall_forall. intros o (tr1 & tr2 & Htr)%list_elem_of_split.
  specialize (Hm _ _ _ Htr). destruct o as [X e x]. apply Hm.
Qed.

Lemma blocked_reconcile_witness :
  Forall (fun o => passive o = true)
    (trace cluster (Reconcile sample_lib (mkActiveReconciler "http://cache" 0 0 true {["google/gemma"]} true)
                      "llm" "default") tt)
  /\ Forall (fun o => passive o = true) (trace cluster (Reconcile sample_lib
       (mkActiveReconciler "http://cache" 0 0 false ∅ true) "llm" "default") tt).
Proof.
  split; apply (blocked_reconcile_is_passive unit cluster tt _ _ _ _
                  (fun X e x => x = (cluster X e tt).1)); try (intros X e []; reflexivity).
  - right; right. intros a items m Ha Hi Hm Hn. cbn in Ha, Hi. injection Ha as ->. injection Hi as ->.
    unfold canary_denied. rewrite Hn. vm_compute. reflexivity.
  - left. reflexivity.
Defined.

(** ** Ownership *)

Lemma owner_less_asym x y : owner_less x y = true -> owner_less y x = false.
Proof.
  unfold owner_less. rewrite (Z.eqb_sym (CreationTimestamp (a_meta y))).
  destruct (_ =? _) eqn:E; [apply string_ltb_asym | lia].
Qed.
Lemma owner_less_neg_trans x y z :
  owner_less x y = false -> owner_less y z = false -> owner_less x z = false.
Proof.
  unfold owner_less. destruct (CreationTimestamp (a_meta x) =? CreationTimestamp (a_meta y)) eqn:E1,
    (CreationTimestamp (a_meta y) =? CreationTimestamp (a_meta z)) eqn:E2,
    (CreationTimestamp (a_meta x) =? CreationTimestamp (a_meta z)) eqn:E3; try lia.
  apply string_ltb_neg_trans.
Qed.

(** The owner is the name of a least item. *)
Lemma owner_of_least items :
  items <> [] -> exists x, x ∈ items /\ owner_of items = Name (a_meta x)
    /\ Forall (fun y => owner_less y x = false) items.
Proof.
  intros Hne. unfold owner_of.
  pose proof (sort_slice_perm owner_less items) as Hp.
  pose proof (sort_slice_sorted owner_less owner_less_asym owner_less_neg_trans items) as Hs.
  destruct (sort_slice owner_less items) as [|x l]; [by apply Permutation_nil in Hp|].
  exists x. split_and!; [rewrite <- Hp; by left | done |].
  rewrite <- Hp. inversion Hs as [|? ? _ Hx]; subst. constructor; [|done].
  destruct (owner_less x x) eqn:E; [|done]. by rewrite (owner_less_asym _ _ E) in E.
Qed.

(** Exactly one owner per namespace, whoever asks.  The owner does not depend on the
    order in which the API server lists the resources; it is the name of a listed resource,
    no other resource is older, and none of the same age has a smaller name. *)
Theorem singleton_owner_deterministic (items items' : list LLMActiveModel) :
  items ≡ₚ items' -> items <> [] ->
  owner_of items' = owner_of items
  /\ exists x, x ∈ items /\ owner_of items = Name (a_meta x)
       /\ forall y, y ∈ items -> CreationTimestamp (a_meta x) <= CreationTimestamp (a_meta y)
            /\ (CreationTimestamp (a_meta y) = CreationTimestamp (a_meta x) ->
                String.ltb (Name (a_meta y)) (Name (a_meta x)) = false).
Proof.
  intros Hp Hne. destruct (owner_of_least items Hne) as (x & Hx & Ho & Hl).
  assert (items' <> []) as Hne'.
  { intros ->. by apply Permutation_nil_r in Hp. }
  destruct (owner_of_least items' Hne') as (x' & Hx' & Ho' & Hl').
  rewrite Forall_forall in Hl, Hl'. split.
  - rewrite Ho, Ho'. rewrite Hp in Hx. rewrite <- Hp in Hx'.
    apply Hl' in Hx. apply Hl in Hx'. unfold owner_less in Hx, Hx'.
    rewrite (Z.eqb_sym (CreationTimestamp (a_meta x'))) in Hx'.
    destruct (_ =? _) eqn:E; [by apply string_ltb_total | lia].
  - exists x. split_and!; [done..|]. intros y Hy. apply Hl in Hy. unfold owner_less in Hy.
    destruct (_ =? _) eqn:E; [split; [lia|auto] | split; lia].
Qed.

Definition named_active (name : string) : LLMActiveModel :=
  mkActive (sample_meta name 2) "poolside/laguna" (a_status sample_active).

Lemma singleton_owner_witness :
  owner_of [named_active "beta"; named_active "alpha"] = "alpha".
Proof.
  assert (owner_of [named_active "alpha"; named_active "beta"] = "alpha") as <- by (vm_compute; reflexivity).
  apply (singleton_owner_deterministic [named_active "alpha"; named_active "beta"]
           [named_active "beta"; named_active "alpha"]); [apply perm_swap | discriminate].
Defined.
