(* ===== verification/Handover.v ===== *)
(** * Handing the GPUs over

    Before a transition patches its target's Deployment it takes the previous backend down.
    Which backend that is, the transition finds out itself; this file reads its findings and
    what it did about them off the requests of the run, whatever the services reply. *)

From S2P Require Import Prelude GoStrings Types Effects Api Driver Workload CacheClient ActiveModel Protocol ActiveModelProps Samples.

(** ** What a run finds out about the previous backend *)

(** The resource after [announce]: the server's copy of the status update, if there was one. *)
Definition announced (a : LLMActiveModel) (t : list (obs kev)) (a' : LLMActiveModel) : Prop :=
  if needs_token a then exists submitted, Obs (UpdateActiveStatus submitted) (Ok a') ∈ t else a' = a.

(** The first backend of a type in a reply to [List]. *)
Definition first_of_type (ty : BackendType) (x : result (list LLMBackend)) : option LLMBackend :=
  match x with Ok items => List.find (fun b => b_type (b_spec b) == ty) items | Err _ => None end.
(** The model of a name in a reply to [List]. *)
Definition listed (name : string) (x : result (list LLMModel)) : option LLMModel :=
  match x with Ok items => List.find (fun m => m_name m == name) items | Err _ => None end.

(** The lookup of a model's backend found [pb]. *)
Definition looked_up (ns : string) (pm : LLMModel) (t : list (obs kev)) (pb : LLMBackend) : Prop :=
  match ms_backendRef (m_spec pm) with
  | Some name => Obs (GetBackend ns name) (Ok pb) ∈ t
  | None => exists x, Obs (ListBackends ns) x ∈ t /\ first_of_type (m_backend pm) x = Some pb
  end.

(** What the lookups of the run identify as the previous backend.
    - The model the transition started from was listed: its own backend.
    - No such model, or the list failed: the first backend of the status's backend
      type, when that is another type than the target's and such a backend was listed;
      otherwise none. *)
Definition identified (a : LLMActiveModel) (m : LLMModel) (t : list (obs kev)) (previous : option LLMBackend) : Prop :=
  let ns := Namespace (a_meta a) in
  let from := ast_transitionFrom (a_status a) in
  let ty := ast_backendType (a_status a) in
  (exists x pm pb, from <> "" /\ Obs (ListModels ns) x ∈ t /\ listed from x = Some pm
     /\ looked_up ns pm t pb /\ previous = Some pb)
  \/ ((from = "" \/ exists x, Obs (ListModels ns) x ∈ t /\ listed from x = None)
      /\ if (ty != "") && (ty != m_backend m)
         then exists x, Obs (ListBackends ns) x ∈ t /\ previous = first_of_type ty x
         else previous = None).

(** The Deployment [p] was scaled to zero, and after that it was observed with no replica
    left; no Deployment was changed since the scaling. *)
Definition stopped (ns p : string) (t : list (obs kev)) : Prop :=
  exists t1 d d' t2 observed t3,
    t = t1 ++ Obs (ScaleDeployment d 0) (Ok d') :: t2 ++ Obs (GetDeployment ns p) (Ok observed) :: t3
    /\ Name (d_meta d) = p /\ scaled_down observed = true
    /\ Forall (fun o => mutates_deployment o = false) (t2 ++ t3).

(** The previous backend was identified, and stopped if it is not the target. *)
Definition handed_over (a : LLMActiveModel) (m : LLMModel) (b : LLMBackend) (tr : list (obs kev)) : Prop :=
  exists a' previous t t', tr = t ++ t'
    /\ announced a t a' /\ ast_transitionFrom (a_status a') = started_from a
    /\ identified a' m t previous
    /\ forall pb, previous = Some pb -> backendDeploymentName pb <> backendDeploymentName b ->
         stopped (Namespace (a_meta a)) (backendDeploymentName pb) t'.

Lemma stopped_more ns p t t' :
  Forall (fun o => mutates_deployment o = false) t' -> stopped ns p t -> stopped ns p (t ++ t').
Proof.
  intros Ht (t1 & d & d' & t2 & observed & t3 & -> & Hn & Hs & Hf).
  exists t1, d, d', t2, observed, (t3 ++ t'). split_and!; [|done|done|].
  - by rewrite <- app_assoc; cbn; rewrite <- app_assoc.
  - rewrite app_assoc. by apply Forall_app.
Qed.
Lemma handed_over_more a m b tr t :
  Forall (fun o => mutates_deployment o = false) t -> handed_over a m b tr -> handed_over a m b (tr ++ t).
Proof.
  intros Ht (a' & previous & t1 & t2 & -> & H1 & H2 & H3 & H4). exists a', previous, t1, (t2 ++ t).
  split_and!; [by rewrite app_assoc|done..|]. intros pb Hpb Hne. apply stopped_more; auto.
Qed.

Section handover.
Context (lib : golib) (r : ActiveReconciler) (n : nat).
Context (a0 : LLMActiveModel) (m0 : LLMModel) (b : LLMBackend).

(** A Deployment is patched only after the handover. *)
Definition patches_late (X : Type) (e : kev X) (tr : list (obs kev)) : Prop :=
  match e with PatchDeployment _ _ => handed_over a0 m0 b tr | _ => True end.
Abbreviation proceeds := (proceeds api_server patches_late).
Abbreviation does := (does api_server patches_late).
Abbreviation free := (within (traced api_server patches_late) (fun _ => True)).

(** No Deployment is changed. *)
Definition steady : contract kev unit := {|
  rely := fun _ _ _ _ => True;
  permit := fun X e _ => match e with
    | PatchDeployment _ _ | ScaleDeployment _ _ | CreateDeployment _ => False | _ => True end;
  record := fun _ _ _ s => s;
|}.
Abbreviation calm := (within steady (fun _ => True)).

Ltac seen := repeat first [rewrite elem_of_cons | rewrite elem_of_app]; tauto.

(** ** Steps that patch nothing *)

Lemma free_plain X (e : kev X) (tr : list (obs kev)) :
  plain e = true -> True -> permit (traced api_server patches_late) e tr /\ forall x : X, True.
Proof. by destruct e. Qed.
Lemma calm_plain X (e : kev X) (s : unit) : plain e = true -> True -> permit steady e s /\ forall x : X, True.
Proof. by destruct e. Qed.

Lemma free_poll k ctx i check probe : free check -> free probe -> free (poll k ctx i check probe).
Proof. intros Hc Hp. induction k as [|k IH]; cbn [poll]; stay_within. Qed.
Lemma calm_poll k ctx i check probe : calm check -> calm probe -> calm (poll k ctx i check probe).
Proof. intros Hc Hp. induction k as [|k IH]; cbn [poll]; stay_within. Qed.
Lemma free_await a m gen d : free (await_ready r n a m b gen d).
Proof.
  pose proof (plain_check _ _ free_plain) as Hc. pose proof (plain_failed (A := unit) _ _ free_plain) as Hf.
  pose proof (plain_checkpoint _ _ free_plain) as Hcp. pose proof (plain_health _ _ free_plain) as Hh.
  assert (forall k ctx i d url check, free check -> free (waitForBackendHealth k ctx i d url check)) as Hw.
  { intros k ctx i d' url check Hck. induction k as [|k IH]; cbn [waitForBackendHealth]; stay_within. }
  pose proof (plain_probe _ _ free_plain) as Hp. pose proof free_poll as Hpo.
  unfold await_ready, waitForRollout, leave, ebind. stay_within; eauto.
Qed.

(** A step that goes on without changing a Deployment. *)
Lemma proceeds_calm {A} (p : kprog (outcome + A)) :
  free p -> calm p -> proceeds p (fun t _ => Forall (fun o => mutates_deployment o = false) t).
Proof.
  intros Hf Hc. eapply does_mono; [apply (does_and_keeps _ _ steady); [by apply does_within|by split]|].
  intros t [?|v] [_ Ht]; [done|]. eapply Forall_impl; [exact Ht|]. intros [X e x]. by destruct e.
Qed.

(** [failed] never goes on. *)
Lemma proceeds_failed {A} a m reason metricReason cause Φ :
  proceeds (failed (A := A) a m reason metricReason cause) Φ.
Proof.
  unfold failed. eapply proceeds_bind; [apply does_within, (plain_failTransition _ _ free_plain)|].
  intros t1 out _. by apply does_ret.
Qed.

(** ** Finding the previous backend *)

Lemma proceeds_announce :
  proceeds (announce a0) (fun t a => announced a0 t a /\ ast_transitionFrom (a_status a) = started_from a0
    /\ Namespace (a_meta a) = Namespace (a_meta a0)).
Proof.
  unfold announce, announced, started_from. destruct (needs_token a0) eqn:Hn; [|by apply proceeds_ret].
  apply does_reply; [done|]. intros now.
  set (a1 := set_token _ _ _).
  apply (does_bind _ _ _ _ (fun _ a2 => ast_transitionFrom (a_status a2) = ast_modelName (a_status a0)
    /\ Namespace (a_meta a2) = Namespace (a_meta a0))).
  { apply does_reply; [done|]. intros now2. by apply does_ret. }
  intros t1 a2 [Hf Hns]. eapply does_bind; [apply (does_call _ _ _ (fun t x => t = [Obs (UpdateActiveStatus a2) x]
    /\ forall a', x = Ok a' -> stored a2 a')); [done|]|].
  { intros x Hx. split; [done|]. by intros a' ->. }
  intros t2 [a'|e] [-> Hst]; [|by apply does_ret]. apply does_ret. destruct (Hst a' eq_refl).
  split_and!; [exists a2; seen|congruence|congruence].
Qed.

Lemma does_findModel ns name :
  does (findModel ns name) (fun t res => exists x, t = [Obs (ListModels ns) x]
    /\ match res with Ok pm => listed name x = Some pm | Err _ => listed name x = None end).
Proof.
  unfold findModel. apply does_reply; [done|]. intros x. apply does_ret. exists x. split; [done|].
  destruct x as [items|e]; cbn; [|done]. by destruct (List.find _ items).
Qed.

Lemma does_findBackend ns pm :
  does (findBackend ns (m_backend pm) (ms_backendRef (m_spec pm))) (fun t res =>
    forall pb, res = Ok pb -> looked_up ns pm t pb).
Proof.
  unfold findBackend, looked_up. destruct (ms_backendRef (m_spec pm)) as [name|].
  - apply does_call; [done|]. intros x _ pb ->. seen.
  - apply does_reply; [done|]. intros x. apply does_ret. intros pb Hpb. exists x. split; [seen|].
    destruct x as [items|e]; cbn in *; [|done]. by destruct (List.find _ items); [injection Hpb as ->|].
Qed.

Lemma does_findBackend_type ns ty :
  does (findBackend ns ty None) (fun t res => exists x, t = [Obs (ListBackends ns) x]
    /\ match res with Ok pb => Some pb | Err _ => None end = first_of_type ty x).
Proof.
  unfold findBackend. apply does_reply; [done|]. intros x. apply does_ret. exists x. split; [done|].
  destruct x as [items|e]; cbn; [|done]. by destruct (List.find _ items).
Qed.

Lemma looked_up_more ns pm t t' pb : t ⊆ t' -> looked_up ns pm t pb -> looked_up ns pm t' pb.
Proof. unfold looked_up. destruct (ms_backendRef _); [auto|]. intros Hs (x & ? & ?). eauto. Qed.

Lemma proceeds_previous a :
  proceeds (previous_backend a m0) (fun t previous => identified a m0 t previous).
Proof.
  unfold previous_backend, identified. set (ns := Namespace _). set (from := ast_transitionFrom _).
  set (ty := ast_backendType _).
  apply (proceeds_ebind _ _ _ _ (fun t tv =>
    (exists x pm pb, from <> "" /\ Obs (ListModels ns) x ∈ t /\ listed from x = Some pm
       /\ looked_up ns pm t pb /\ tv.2 = Some pb)
    \/ (from = "" \/ exists x, Obs (ListModels ns) x ∈ t /\ listed from x = None) /\ tv = (ty, None))).
  - case_bool_decide as Hf; cbn [negb]; [apply proceeds_ret; right; auto|].
    eapply proceeds_bind; [apply does_findModel|]. intros t1 [pm|e] (x & -> & Hx).
    2:{ apply proceeds_ret. right. split; [|done]. right. exists x. split; [seen|done]. }
    eapply proceeds_bind; [apply does_findBackend|]. intros t2 [pb|e] Hpb.
    2:{ apply proceeds_failed. }
    apply proceeds_ret. left. exists x, pm, pb. split_and!; [done|seen|done| |done].
    eapply looked_up_more; [|by apply Hpb]. intros o Ho. seen.
  - intros t1 [ty' previous] [(x & pm & pb & H1 & H2 & H3 & H4 & H5)|[H1 [= -> ->]]].
    + cbn in H5. subst previous. apply proceeds_ret. left. exists x, pm, pb. rewrite app_nil_r. by split_and!.
    + destruct (_ && _) eqn:Hty.
      * eapply proceeds_bind; [apply does_findBackend_type|]. intros t2 res (x & -> & Hx).
        apply proceeds_ret. right. split; [destruct H1 as [?|(y & ? & ?)]; [by left|right; exists y; split; [seen|done]]|].
        exists x. split; [seen|done].
      * apply proceeds_ret. right. split; [|done]. destruct H1 as [?|(y & ? & ?)]; [by left|right; exists y; split; [seen|done]].
Qed.

(** ** Taking it down *)

Lemma does_scale name ns :
  does (scaleDeployment name ns 0) (fun t res => res = Ok tt -> exists d d',
    t = [Obs (GetDeployment ns name) (Ok d); Obs (ScaleDeployment d 0) (Ok d')] /\ Name (d_meta d) = name).
Proof.
  unfold scaleDeployment. eapply does_bind; [apply (does_call _ _ _ (fun t x => t = [Obs (GetDeployment ns name) x]
    /\ forall d, x = Ok d -> Name (d_meta d) = name)); [done|]|].
  { intros x Hx. split; [done|]. by intros d ->. }
  intros t1 [d|e] [-> Hn]; [|by apply does_ret]. apply does_reply; [done|]. intros [d'|e]; apply does_ret; [|done].
  intros _. exists d, d'. split; [done|]. by apply Hn.
Qed.

Lemma does_wait k ctx i name ns check :
  free check -> calm check ->
  does (waitForScaleDown k ctx i name ns check) (fun t res => Forall (fun o => mutates_deployment o = false) t
    /\ (res = Ok tt -> exists t1 d, t = t1 ++ [Obs (GetDeployment ns name) (Ok d)] /\ scaled_down d = true)).
Proof.
  intros Hf Hc. unfold waitForScaleDown.
  assert (forall k, does (poll k ctx i check (probe_deployment name ns scaled_down)) (fun t res =>
    res = Ok tt -> exists t1 d, t = t1 ++ [Obs (GetDeployment ns name) (Ok d)] /\ scaled_down d = true)) as Hp.
  { clear k. induction k as [|k IH]; cbn [poll]; (apply does_reply; [done|]; intros [e|]); try by apply does_ret.
    eapply does_bind; [by apply does_within|]. intros t1 [[]|e] _; [|by apply does_ret].
    apply (does_bind _ _ _ _ (fun t x => x = Ok true ->
      exists d, t = [Obs (GetDeployment ns name) (Ok d)] /\ scaled_down d = true)).
    { unfold probe_deployment. apply does_reply; [done|]. intros [d|e]; apply does_ret; [|done]. intros [= Hd]. eauto. }
    intros t2 [[]|e] H2; [|..|by apply does_ret].
    - apply does_ret. intros _. destruct (H2 eq_refl) as (d & -> & Hd). rewrite app_nil_r.
      eexists (_ :: t1), d. by split.
    - eapply does_mono; [exact IH|]. intros t3 res H3 Hres. destruct (H3 Hres) as (t4 & d & -> & Hd).
      exists (Obs (WaitTick ctx i) None :: t1 ++ t2 ++ t4), d. split; [|done]. cbn. by rewrite <- !app_assoc. }
  eapply does_mono; [apply (does_and_keeps _ _ steady); [apply Hp|]|].
  - split; [done|]. apply calm_poll; [done|]. unfold probe_deployment. stay_within.
  - intros t res [H Ht]. split; [|done]. eapply Forall_impl; [exact Ht|]. intros [X e x]. by destruct e.
Qed.

Lemma proceeds_scale_down a gen previous :
  Namespace (a_meta a) = Namespace (a_meta a0) ->
  proceeds (scale_down_previous r n a m0 b gen previous) (fun t _ =>
    forall pb, previous = Some pb -> backendDeploymentName pb <> backendDeploymentName b ->
      stopped (Namespace (a_meta a0)) (backendDeploymentName pb) t).
Proof.
  intros Hns. unfold scale_down_previous. rewrite Hns.
  destruct previous as [pb|]; [|by apply proceeds_ret].
  case_bool_decide as Hne; cbn [negb]; [by apply proceeds_ret; intros ? [= <-] ?|].
  eapply proceeds_ebind; [apply proceeds_within, (plain_checkpoint _ _ free_plain)|]. intros t1 [] _.
  eapply proceeds_bind; [apply does_scale|]. intros t2 [[]|e] H2.
  2:{ apply proceeds_failed. }
  destruct (H2 eq_refl) as (d & d' & -> & Hd).
  eapply proceeds_bind; [apply does_wait; [apply (plain_check _ _ free_plain)|apply (plain_check _ _ calm_plain)]|]. intros t3 [[]|e] [Hf H3].
  - apply proceeds_ret. intros ? [= <-] _. destruct (H3 eq_refl) as (t4 & observed & -> & Ho).
    exists (t1 ++ [Obs (GetDeployment (Namespace (a_meta a0)) (backendDeploymentName pb)) (Ok d)]), d, d', t4, observed, [].
    rewrite !app_nil_r. split_and!; [by rewrite <- !app_assoc|done|done|]. by apply Forall_app in Hf as [? _].
  - destruct (err_is _ e); [by apply does_ret|]. apply proceeds_failed.
Qed.

(** ** The whole transition *)

Lemma rg_activate a m tr :
  handed_over a0 m0 b tr ->
  rg (traced api_server patches_late) (activate lib a m b) tr (fun _ _ => True).
Proof.
  intros Hh. unfold activate, activateDeployment. apply rg_bind, rg_bind, rg_call; [done|]. intros [d|e] _.
  2:{ cbn [rg]. by eapply rg_mono; [by apply (plain_failed _ _ free_plain)|]. }
  cbn [record traced]. destruct (findContainer _ _) as [[i c]|].
  2:{ cbn [rg]. by eapply rg_mono; [by apply (plain_failed _ _ free_plain)|]. }
  set (tr1 := tr ++ _). assert (handed_over a0 m0 b tr1) as H1 by (apply handed_over_more; [by repeat constructor|done]).
  clearbody tr1. apply rg_bind.
  assert (forall s2 now, handed_over a0 m0 b s2 ->
    rg (traced api_server patches_late) (if d_spec d == activated_spec (formatTime lib now) m (d_spec d) i c then Ret (Ok tt)
                 else let! x := call (PatchDeployment d (with_dspec d
                        (activated_spec (formatTime lib now) m (d_spec d) i c))) in
                      Ret (try _ := x in Ok tt)) s2
      (fun s' a1 => rg (traced api_server patches_late) match a1 with
                    | Ok _ => Ret (inr tt)
                    | Err e => failed a m "PatchFailed" "patch_failed" e
                    end s' (fun _ (_ : outcome + unit) => True))) as Hpatch.
  { intros s2 now H2. case_bool_decide; [done|]. apply rg_bind, rg_call; [exact H2|].
    intros [d'|e] _; [done|]. cbn [rg]. by eapply rg_mono; [by apply (plain_failed _ _ free_plain)|]. }
  destruct (activation_changed _ _ _); [|by apply Hpatch].
  apply rg_call; [done|]. intros now _. apply Hpatch. apply handed_over_more; [by repeat constructor|done].
Qed.

Lemma rg_handover : rg (traced api_server patches_late) (executeTransition_for lib r n a0 m0 b) [] (fun _ _ => True).
Proof.
  unfold executeTransition_for. apply rg_body.
  assert (forall (p : kprog (outcome + outcome)) tr, free p ->
    rg (traced api_server patches_late) p tr (fun _ x => match x with inl _ | inr _ => True end)) as Hfree.
  { intros p tr Hp. eapply rg_mono; [by apply Hp|]. by intros s' []. }
  apply rg_ebind. eapply rg_mono; [apply proceeds_announce|]. intros s1 [?|a] (t1 & -> & H1); [done|].
  destruct H1 as (Han & Hfrom & Hns). cbn [app].
  apply rg_ebind. eapply rg_mono; [apply (proceeds_within _ _ _ (plain_checkpoint _ _ free_plain _ _ _))|]. intros s2 [?|[]] (t2 & -> & _); [done|].
  apply rg_ebind. eapply rg_mono; [apply (proceeds_within _ _ _ (plain_prepare _ _ free_plain _ _ _))|]. intros s3 [?|d] (t3 & -> & _); [done|].
  apply rg_ebind. eapply rg_mono; [apply proceeds_previous|]. intros s4 [?|previous] (t4 & -> & Hid); [done|].
  apply rg_ebind. eapply rg_mono; [by apply proceeds_scale_down|]. intros s5 [?|[]] (t5 & -> & Hdown); [done|].
  assert (handed_over a0 m0 b (((((t1 ++ t2) ++ t3) ++ t4)) ++ t5)) as Hh.
  { exists a, previous, (((t1 ++ t2) ++ t3) ++ t4), t5. split_and!; [done| |done| |done].
    - unfold announced in *. destruct (needs_token a0); [|done]. destruct Han as [su ?]. exists su. seen.
    - assert (t4 ⊆ ((t1 ++ t2) ++ t3) ++ t4) as Hs by (intros o Ho; seen).
      destruct Hid as [(x & pm & pb & ? & ? & ? & ? & ?)|[Hl Hty]]; [left|right].
      + exists x, pm, pb. split_and!; [done|by apply Hs|done|by eapply looked_up_more|done].
      + split; [destruct Hl as [?|(x & ? & ?)]; [by left|right; exists x; split; [by apply Hs|done]]|].
        destruct (_ && _); [|done]. destruct Hty as (x & ? & ?). exists x. split; [by apply Hs|done]. }
  revert Hh. generalize (((((t1 ++ t2) ++ t3) ++ t4)) ++ t5). clear - Hfree. intros tr Hh.
  apply rg_ebind. eapply rg_mono; [apply (proceeds_calm _ (plain_checkpoint _ _ free_plain _ _ _) (plain_checkpoint _ _ calm_plain _ _ _))|].
  intros s6 [?|[]] (t6 & -> & H6); [done|]. apply (handed_over_more _ _ _ _ _ H6) in Hh.
  apply rg_ebind. eapply rg_mono; [apply (proceeds_calm _ (plain_ensure_cached _ _ free_plain _ _ _ _ _ _ _) (plain_ensure_cached _ _ calm_plain _ _ _ _ _ _ _))|].
  intros s7 [?|m] (t7 & -> & H7); [done|]. apply (handed_over_more _ _ _ _ _ H7) in Hh.
  apply rg_ebind. eapply rg_mono; [apply (proceeds_calm _ (plain_checkpoint _ _ free_plain _ _ _) (plain_checkpoint _ _ calm_plain _ _ _))|].
  intros s8 [?|[]] (t8 & -> & H8); [done|]. apply (handed_over_more _ _ _ _ _ H8) in Hh.
  apply rg_ebind. eapply rg_mono; [by apply rg_activate|]. intros s9 [?|[]] _; [done|].
  apply Hfree. pose proof (plain_checkpoint _ _ free_plain). pose proof free_await.
  pose proof (plain_publish _ _ free_plain). pose proof (plain_deactivate _ _ free_plain).
  pose proof (plain_stable _ _ free_plain). unfold ebind. stay_within; auto.
Qed.
End handover.


(** The cluster's replies are those of its table. *)
Lemma cluster_replies {A} (p : kprog A) w o : o ∈ trace cluster p w -> obs_reply o = (cluster _ (obs_req o) tt).1.
Proof. apply (obeys_trace (fun X e x => x = (cluster X e tt).1)). by intros X e []. Qed.

(** In the sample run gemma's backend is what the lookups identify. *)
Lemma sample_identified a' t previous :
  (forall o, o ∈ t -> obs_reply o = (cluster _ (obs_req o) tt).1) ->
  ast_transitionFrom (a_status a') = "google/gemma" ->
  identified a' laguna t previous -> previous = Some vllm_backend.
Proof.
  intros Hr Hf [(x & pm & pb & _ & Hx & Hl & Hb & ->)|[[E|(x & Hx & Hl)] _]].
  - apply Hr in Hx. cbn in Hx. subst x. rewrite Hf in Hl. vm_compute in Hl. injection Hl as <-.
    destruct Hb as (x & Hx & Hb). apply Hr in Hx. cbn in Hx. subst x. vm_compute in Hb. by injection Hb as <-.
  - congruence.
  - apply Hr in Hx. cbn in Hx. subst x. rewrite Hf in Hl. by vm_compute in Hl.
Qed.

