(* ===== verification/Liveness.v ===== *)
(** * Transitions complete, and give up in time

    Two quantitative facts about [executeTransition].  Against services that come
    up within the rounds the waits have, it reaches Stable; and against services whose
    clock ends the transition context in time, whatever else they do, its waits end with
    it: the fuel of the loops is never what ends them, and the ticks of a run are bounded. *)

From S2P Require Import Prelude GoStrings Types Effects Api Driver Workload CacheClient ActiveModel Protocol ActiveModelProps Samples.

(** ** Progress *)

Section progress.
Context (lib : golib) (r : ActiveReconciler).
Context (a0 : LLMActiveModel) (m0 : LLMModel) (b : LLMBackend).
Context (models : list LLMModel) (backends : list LLMBackend).
(** The number of ticks after which everything is ready; whether the target is offline. *)
Context (K : nat) (offline : bool).

Notation ns := (Namespace (a_meta a0)).
Notation dep := (backendDeploymentName b).

(** What the services reply after [s] ticks: the request stays current, writes are
    accepted, the target has its runtime container, which is [offline] or not, the cache
    manager answers 200, and for an offline target [hot], the context does not expire, and from
    tick [K] on Deployments have settled and HTTP endpoints answer 200. *)
Definition cooperative (X : Type) (e : kev X) : X -> nat -> Prop :=
  match e in kev X return X -> nat -> Prop with
  | GetActive _ _ => fun x _ =>
      exists cur, x = Ok cur /\ still_current (m_name m0) (Generation (a_meta a0)) cur = true
  | UpdateActiveStatus a => fun x _ => exists a', x = Ok a' /\ stored a a'
  | UpdateModelStatus m => fun x _ => exists m', x = Ok m' /\ m_spec m' = m_spec m
  | ListModels _ => fun x _ => x = Ok models
  | ListBackends _ => fun x _ => x = Ok backends
  | GetBackend _ name => fun x _ =>
      forall b, List.find (fun b => Name (b_meta b) == name) backends = Some b -> x = Ok b
  | GetConfigMap _ _ => fun x _ => exists cm, x = Ok cm /\
      forall t, m_template m0 = Some t -> template_content_ok lib t cm = Ok tt
  | GetDeployment _ name => fun x s => exists d, x = Ok d
      /\ (name = dep -> is_Some (findContainer (backendContainerName b) (containers d))
                        /\ deployment_offline (backendContainerName b) d = offline)
      /\ ((K <= s)%nat -> (if decide (name = dep) then rolled_out d else scaled_down d) = true)
  | PatchDeployment _ _ => fun x _ => exists d, x = Ok d
  | ScaleDeployment _ _ => fun x _ => exists d, x = Ok d
  | HttpGet _ => fun x s => (K <= s)%nat ->
      exists resp body, x = Ok resp /\ hr_code resp = 200 /\ hr_body resp = Ok body
  | HttpPostCache _ _ => fun x _ => exists resp, x = Ok resp /\ hr_code resp = 200
      /\ (offline = true -> hr_cacheResult resp = CacheHot)
  | WaitTick _ _ => fun x _ => x = None
  | _ => fun _ _ => True
  end.

Definition clocked : contract kev nat := {|
  rely := cooperative;
  permit := fun _ _ _ => True;
  record := fun X e _ s => match e with WaitTick _ _ => S s | _ => s end;
|}.

(** The step finishes without leaving the transition, and time does not run back. *)
Definition live {A} (p : kprog (outcome + A)) (s : nat) (Q : nat -> A -> Prop) : Prop :=
  rg clocked p s (fun s' x => match x with inl _ => False | inr v => (s <= s')%nat /\ Q s' v end).

Lemma live_bind {A B} (p : kprog (outcome + A)) (f : A -> kprog (outcome + B)) s Q :
  live p s (fun s' v => live (f v) s' Q) -> live (ebind p f) s Q.
Proof.
  intros Hp. apply rg_ebind. eapply rg_mono; [exact Hp|]. intros s' [?|v]; [done|].
  intros [Hs Hf]. eapply rg_mono; [exact Hf|]. intros s2 [?|?]; [done|]. intros [??]. split; [lia|done].
Qed.
Lemma live_from {A} (p : kprog (outcome + A)) s0 s Q :
  (s0 <= s)%nat -> live p s Q ->
  rg clocked p s (fun s' x => match x with inl _ => False | inr v => (s0 <= s')%nat /\ Q s' v end).
Proof. intros Hs Hp. eapply rg_mono; [exact Hp|]. intros s' []; [done|]. intros []. split; [lia|done]. Qed.
Lemma live_mono {A} (p : kprog (outcome + A)) s (Q Q' : nat -> A -> Prop) :
  live p s Q -> (forall s' v, (s <= s')%nat -> Q s' v -> Q' s' v) -> live p s Q'.
Proof. intros Hp HQ. eapply rg_mono; [exact Hp|]. intros s' []; [done|]. intros []; auto. Qed.

(** The resources a step is handed. *)
Record on_course (a : LLMActiveModel) (m : LLMModel) : Prop := {
  oc_ns : Namespace (a_meta a) = ns;
  oc_from : ast_transitionFrom (a_status a) = started_from a0;
  oc_started : is_Some (ast_transitionStarted (a_status a));
  oc_spec : m_spec m = m_spec m0;
}.

Lemma rg_current a m s (Q : nat -> result unit -> Prop) :
  m_spec m = m_spec m0 -> Q s (Ok tt) ->
  rg clocked (ensureTransitionCurrent a (m_name m) (Generation (a_meta a0))) s Q.
Proof.
  intros Hm HQ. split; [done|]. intros x (cur & -> & Hc). cbn [rg bind rbind record clocked].
  assert (m_name m = m_name m0) as -> by (unfold m_name; by rewrite Hm).
  unfold still_current in Hc. rewrite !andb_true_iff in Hc. destruct Hc as ((-> & ->) & ->). exact HQ.
Qed.

Lemma live_checkpoint a m s : on_course a m ->
  live (checkpoint a m (Generation (a_meta a0))) s (fun _ _ => True).
Proof. intros []. apply rg_bind, rg_current; [done|]. by cbn. Qed.

Lemma live_poll n ctx i a m name ready s (P : nat -> result unit -> Prop) :
  m_spec m = m_spec m0 -> (1 <= n)%nat -> (K <= s + n)%nat ->
  (forall s' d, (K <= s')%nat -> cooperative _ (GetDeployment ns name) (Ok d) s' -> ready d = true) ->
  (forall s', (s <= s')%nat -> P s' (Ok tt)) ->
  rg clocked (poll n ctx i (ensureTransitionCurrent a (m_name m) (Generation (a_meta a0)))
                (probe_deployment name ns ready)) s P.
Proof.
  intros Hm. revert s. induction n as [|n IH]; intros s Hn HK Hr HP; [lia|].
  split; [done|]. intros x ->. cbn [record clocked bind].
  apply rg_bind, rg_current; [done|]. apply rg_bind. split; [done|].
  intros x Hx. pose proof Hx as (d & -> & _). cbn [rg bind rbind record clocked].
  destruct (ready d) eqn:Hd; [apply HP; lia|].
  assert (~ (K <= S s)%nat) as Hlt by (intros Hle; rewrite (Hr _ _ Hle Hx) in Hd; done).
  apply IH; [lia..|done|]. intros s' Hs'. apply HP. lia.
Qed.

Lemma live_health n ctx i a m d url s (P : nat -> result unit -> Prop) :
  m_spec m = m_spec m0 -> (K <= s + n)%nat -> (forall s', (s <= s')%nat -> P s' (Ok tt)) ->
  rg clocked (waitForBackendHealth n ctx i d url
                (ensureTransitionCurrent a (m_name m) (Generation (a_meta a0)))) s P.
Proof.
  intros Hm. revert s. induction n as [|n IH]; intros s HK HP;
    (apply rg_bind, rg_current; [done|]; apply rg_bind, rg_bind; split; [done|]; intros x Hx;
     cbn [rg bind record clocked]).
  - destruct Hx as (resp & body & -> & Hc & Hb); [lia|]. cbn [rbind]. rewrite Hb. cbn [rbind].
    rewrite Hc. apply HP. lia.
  - match goal with |- context [rbind x ?k] => destruct (rbind x k) end; cbn [rg]; [apply HP; lia|].
    apply rg_bind. split; [done|]. intros t ->. cbn [bind record clocked rg].
    apply IH; [lia|]. intros s' Hs'. apply HP. lia.
Qed.

(** *** The steps *)

Lemma live_announce s :
  (already_failed a0 = true -> is_Some (ast_transitionStarted (a_status a0))) ->
  live (announce a0) s (fun _ a => on_course a m0).
Proof.
  intros Hst. unfold live, announce. destruct (needs_token a0) eqn:Hn.
  - split; [done|]. intros now _. split; [done|]. intros now2 _. cbn [bind].
    split; [done|]. intros x (a' & -> & [Ha1 Ha2 _ Ha3 Ha4 Ha5]). cbn [bind rg record clocked].
    split; [lia|]. constructor; [done| |by apply not_eq_None_Some; rewrite Ha5|done].
    rewrite Ha4. unfold started_from. by rewrite Hn.
  - cbn [rg]. split; [lia|]. constructor; [done|unfold started_from; by rewrite Hn| |done].
    unfold needs_token in Hn. destruct (already_failed a0); [by apply Hst|].
    apply not_eq_None_Some. intros E. rewrite E in Hn.
    rewrite (bool_decide_eq_true_2 (None = None)), orb_true_r in Hn by done. done.
Qed.

(** The chat template names a key and a full digest. *)
Definition template_complete : Prop := forall t, m_template m0 = Some t ->
  ct_configMap t <> "" /\ ct_key t <> "" /\ String.length (ct_sha256 t) = 64%nat.

Lemma live_prepare a d s :
  template_complete -> RegistryDriver DefaultRegistry (m_backend m0) = Ok d -> Validate d m0 = Ok tt ->
  live (prepare lib a m0) s (fun _ d' => d' = d).
Proof.
  intros Ht Hd Hv. unfold live, prepare. rewrite Hd, Hv. apply rg_bind. unfold validateChatTemplate.
  destruct (m_template m0) as [t|] eqn:Hm; [|by cbn].
  destruct (Ht t Hm) as (H1 & H2 & H3).
  rewrite (bool_decide_eq_false_2 _ H1), (bool_decide_eq_false_2 _ H2), H3. cbn [negb Nat.eqb orb].
  split; [done|]. intros x (cm & -> & Hcm). cbn [bind rg]. by rewrite (Hcm t Hm).
Qed.

(** A model the transition started from has a backend, if it still exists. *)
Definition previous_resolves : Prop :=
  forall pm, List.find (fun m => m_name m == started_from a0) models = Some pm ->
    is_Some (resolve backends pm).

Lemma live_previous a m s :
  previous_resolves -> on_course a m -> live (previous_backend a m) s (fun _ _ => True).
Proof.
  intros Hp [Hns Hf _ _]. unfold previous_backend. rewrite Hns, Hf. apply live_bind.
  apply live_mono with (Q := fun _ _ => True).
  - unfold live. destruct (negb _); [|by cbn]. split; [done|]. intros x ->. cbn [bind rbind].
    destruct (List.find _ models) as [pm|] eqn:Hpm; [|by cbn].
    destruct (Hp pm Hpm) as [pb Hpb]. apply rg_bind. unfold resolve in Hpb. unfold findBackend.
    destruct (ms_backendRef (m_spec pm)) as [name|]; (split; [done|]; intros x Hx).
    + by rewrite (Hx _ Hpb).
    + cbn in Hx. subst x. cbn [bind rg rbind]. by rewrite Hpb.
  - intros s1 [ty [pb|]] _ _; unfold live; [by cbn|].
    destruct (_ && _); [|by cbn]. split; [done|]. by intros x _.
Qed.

Lemma live_scale_down n a m v s :
  on_course a m -> (1 <= n)%nat -> (K <= s + n)%nat ->
  live (scale_down_previous r n a m b (Generation (a_meta a0)) v) s (fun _ _ => True).
Proof.
  intros Hc Hn HK. destruct v as [pb|]; [|by cbn]. unfold scale_down_previous.
  case_bool_decide as Hne; cbn [negb]; [by cbn|]. rewrite (oc_ns _ _ Hc). apply live_bind.
  eapply live_mono; [by apply live_checkpoint|]. intros s1 _ Hs1 _.
  split; [done|]. intros x (d & -> & _). split; [done|]. intros x (d' & ->). cbn [bind rbind record clocked].
  apply rg_bind, live_poll; [apply Hc|lia|lia| |intros s' Hs'; cbn; split; [lia|done]].
  intros s' d0 Hs' (d1 & [= <-] & _ & Hr). specialize (Hr Hs'). by rewrite decide_False in Hr.
Qed.

(** An offline target has an artifact to request and a cache manager to request it from. *)
Definition cache_available (req : option CacheRequest) : Prop :=
  offline = true -> is_Some req /\ CacheManagerURL r <> "".

Lemma live_ensure_cached a m d req s :
  on_course a m -> CacheRequestFor d m = Ok req -> (forall u, newRequest lib u = None) ->
  cache_available req ->
  live (ensure_cached lib r a m b (Generation (a_meta a0)) d) s (fun _ m' => m_spec m' = m_spec m0).
Proof.
  intros Hc Hreq Hnew Hca. unfold live, ensure_cached. rewrite Hreq.
  split; [done|]. intros x (dd & -> & Hoff & _). cbn [bind record clocked].
  destruct (Hoff eq_refl) as [_ ->]. pose proof (oc_spec _ _ Hc) as Hm.
  destruct req as [req|]; [|destruct offline eqn:Eo; [by destruct (Hca Eo) as [[]]|by cbn]].
  case_bool_decide as Hurl; cbn [negb]; [destruct offline eqn:Eo; [by destruct (Hca Eo) as [_ []]|by cbn]|].
  apply rg_bind. unfold Ensure. rewrite Hnew. split; [done|]. intros x (resp & -> & Hcode & Hhot).
  cbn [bind rg record clocked]. rewrite Hcode. change (Z.quot 200 100 =? 2) with true. cbn [andb].
  assert (offline && (hr_cacheResult resp != CacheHot) = false) as ->
    by (destruct offline; [rewrite Hhot by done; by rewrite bool_decide_eq_true_2|done]).
  apply live_bind. eapply live_mono; [by apply live_checkpoint|]. intros s1 _ Hs1 _.
  split; [done|]. intros t _. split; [done|]. intros now _. split; [done|].
  intros x (m' & -> & Hm'). cbn [bind rg record clocked]. split; [lia|]. rewrite Hm'. done.
Qed.

Lemma live_activate a m s : on_course a m -> live (activate lib a m b) s (fun _ _ => True).
Proof.
  intros Hc. unfold live, activate. rewrite (oc_ns _ _ Hc). apply rg_bind. unfold activateDeployment.
  split; [done|]. intros x (d & -> & Hd & _). cbn [bind record clocked].
  destruct (Hd eq_refl) as [[[i c] ->] _]. apply rg_bind.
  assert (forall now, rg clocked
    (if d_spec d == activated_spec (formatTime lib now) m (d_spec d) i c then Ret (Ok tt)
     else let! x := call (PatchDeployment d (with_dspec d
            (activated_spec (formatTime lib now) m (d_spec d) i c))) in Ret (try _ := x in Ok tt)) s
    (fun s' p => rg clocked match p with
                 | Ok _ => Ret (inr tt)
                 | Err e => failed a m "PatchFailed" "patch_failed" e
                 end s' (fun s' x => match x with inl _ => False | inr v => (s <= s')%nat /\ True end))) as Hp.
  { intros now. case_bool_decide; [by cbn|]. split; [done|]. intros x (d' & ->). by cbn. }
  destruct (activation_changed _ _ _); [|apply Hp]. split; [done|]. intros now _. apply Hp.
Qed.

Lemma live_await n a m d s :
  on_course a m -> (1 <= n)%nat -> (K <= s + n)%nat ->
  live (await_ready r n a m b (Generation (a_meta a0)) d) s (fun _ _ => True).
Proof.
  intros Hc Hn HK. unfold live, await_ready. rewrite (oc_ns _ _ Hc).
  apply rg_bind, live_poll; [apply Hc|lia|lia| |].
  { intros s' d0 Hs' (d1 & [= <-] & _ & Hr). specialize (Hr Hs'). by rewrite decide_True in Hr. }
  intros s1 Hs1. apply live_from; [done|]. apply live_bind.
  eapply live_mono; [by apply live_checkpoint|]. intros s2 _ Hs2 _.
  apply rg_bind, live_health; [apply Hc|lia|]. intros s3 Hs3. by cbn.
Qed.

Lemma rg_collect_live d url m s (Q : nat -> RuntimeMetadata * option error -> Prop) :
  (forall res, Q s res) -> rg clocked (CollectRuntimeMetadata (decodeModelIDs lib) d true url m) s Q.
Proof.
  intros HQ. apply rg_bind. split; [done|]. intros now _. cbn [rg record clocked].
  apply rg_bind. unfold DiscoverModels. destruct (cap_discovery (capabilities d));
    destruct (parseMetrics d); cbn [negb]; repeat (split; [done|]; intros ? _);
    cbn [rg record clocked bind];
    repeat (case_match; cbn [rg record clocked bind]; repeat (split; [done|]; intros ? _)); try apply HQ.
Qed.

Lemma live_publish a m d s :
  on_course a m ->
  live (publish_model lib a m b (Generation (a_meta a0)) d) s (fun _ m' => m_spec m' = m_spec m0).
Proof.
  intros Hc. unfold live, publish_model. apply rg_bind, rg_collect_live. intros [meta errs].
  apply live_bind. eapply live_mono; [by apply live_checkpoint|]. intros s1 _ Hs1 _.
  split; [done|]. intros x (m' & -> & Hm'). cbn. split; [lia|]. rewrite Hm'. apply Hc.
Qed.

Lemma live_deactivate a m s :
  on_course a m -> live (deactivate_previous a m) s (fun _ _ => True).
Proof.
  intros Hc. unfold live, deactivate_previous. destruct (_ && _); [|by cbn].
  split; [done|]. intros x ->. cbn [bind rbind].
  destruct (List.find _ models); [|by cbn]. split; [done|]. intros x (m' & -> & _). by cbn.
Qed.

Lemma live_stable a m s :
  on_course a m -> live (mark_stable lib r a m) s (fun _ out => out = Return done_result None).
Proof.
  intros Hc. unfold live, mark_stable. destruct (oc_started _ _ Hc) as [st ->].
  split; [done|]. intros now _. split; [done|]. intros n1 _. split; [done|]. intros n2 _.
  split; [done|]. intros x (a' & -> & _). cbn [bind]. split; [done|]. intros [] _.
  split; [done|]. intros [] _. cbn [bind]. destruct (Recorder r); [|by cbn].
  split; [done|]. intros [] _. by cbn.
Qed.

Theorem rg_completes d req :
  RegistryDriver DefaultRegistry (m_backend m0) = Ok d -> Validate d m0 = Ok tt ->
  CacheRequestFor d m0 = Ok req -> (forall u, newRequest lib u = None) -> cache_available req ->
  template_complete -> previous_resolves ->
  (already_failed a0 = true -> is_Some (ast_transitionStarted (a_status a0))) ->
  (K <= rounds r)%nat ->
  rg clocked (executeTransition lib r a0 m0 b) 0%nat (fun _ out => out = Return done_result None).
Proof.
  intros Hd Hv Hreq Hnew Hca Ht Hp Hst HK. apply rg_body.
  eapply (rg_mono clocked) with (Q := fun s' x => match x with inl _ => False
    | inr v => (0 <= s')%nat /\ v = Return done_result None end); [|intros s' [?|v]; [done|by intros [_ ?]]].
  apply live_bind. eapply live_mono; [by apply live_announce|]. intros s1 a _ Hc.
  apply live_bind. eapply live_mono; [by apply live_checkpoint|]. intros s2 _ _ _.
  apply live_bind. eapply live_mono; [by apply live_prepare|]. intros s3 d' _ ->.
  apply live_bind. eapply live_mono; [by apply live_previous|]. intros s4 v _ _.
  apply live_bind. eapply live_mono; [apply live_scale_down; [done|unfold rounds; lia|lia]|]. intros s5 _ _ _.
  apply live_bind. eapply live_mono; [by apply live_checkpoint|]. intros s6 _ _ _.
  apply live_bind. eapply live_mono; [by eapply live_ensure_cached|]. intros s7 m _ Hm.
  assert (on_course a m) as Hc' by (destruct Hc; by constructor).
  apply live_bind. eapply live_mono; [by apply live_checkpoint|]. intros s8 _ _ _.
  apply live_bind. eapply live_mono; [by apply live_activate|]. intros s9 _ _ _.
  apply live_bind. eapply live_mono; [by apply live_checkpoint|]. intros s10 _ _ _.
  apply live_bind. eapply live_mono; [apply live_await; [done|unfold rounds; lia|lia]|]. intros s11 _ _ _.
  apply live_bind. eapply live_mono; [by apply live_checkpoint|]. intros s12 _ _ _.
  apply live_bind. eapply live_mono; [by apply live_publish|]. intros s13 m' _ Hm'.
  assert (on_course a m') as Hc2 by (destruct Hc; by constructor).
  apply live_bind. eapply live_mono; [by apply live_checkpoint|]. intros s14 _ _ _.
  apply live_bind. eapply live_mono; [by apply live_deactivate|]. intros s15 _ _ _.
  apply live_bind. eapply live_mono; [by apply live_checkpoint|]. intros s16 _ _ _.
  by apply live_stable.
Qed.
End progress.


(** Services that need two ticks: until then Deployments are unsettled and the runtime
    refuses connections.  The runtime container is offline or not. *)
Definition slow_deployment (offline : bool) (name : string) (st : DeploymentStatus) : Deployment :=
  mkDeployment (sample_meta name 1)
    (mkDeploymentSpec (Some 0) None (mkPodTemplate None None
       (mkPodSpec [sidecar; if offline then offline_container else runtime_container] None "gpu-node")) "Recreate" "") st.
Definition slow_cluster (offline : bool) : handler kev nat := fun X e n =>
  match e in kev X return X * nat with
  | GetDeployment _ name =>
      (Ok (slow_deployment offline name
             (if (2 <=? n)%nat then if name == "llm-laguna" then rolled_status else empty_status
              else mkDeploymentStatus 1 0 0 0)), n)
  | WaitTick _ _ => (None, S n)
  | HttpGet _ => (if (2 <=? n)%nat then Ok ok_response else Err (errorf "connection refused"), n)
  | e => ((cluster _ e tt).1, n)
  end.

Lemma slow_cluster_honours offline :
  honours (clocked sample_lib sample_active laguna llama_backend [gemma; laguna]
             [vllm_backend; llama_backend] 2 offline) (slow_cluster offline) (fun s w => s = w).
Proof.
  intros X e s w ->. destruct e; (split; [|reflexivity]); cbn -[Nat.leb]; try exact Logic.I; try reflexivity;
    try (eexists; split; [reflexivity|]); try reflexivity.
  - constructor; reflexivity.
  - intros b0 Hb. rewrite Hb. reflexivity.
  - split.
    + intros _. destruct offline; (split; [eexists; vm_compute; reflexivity | vm_compute; reflexivity]).
    + intros Hle%Nat.leb_le. rewrite Hle. case_decide as Hn.
      * subst name. vm_compute. reflexivity.
      * rewrite bool_decide_eq_false_2 by (intros E; apply Hn; rewrite E; reflexivity). reflexivity.
  - eexists. reflexivity.
  - eexists. reflexivity.
  - intros t [= <-]. vm_compute. reflexivity.
  - intros Hle%Nat.leb_le. rewrite Hle. do 2 eexists. split; [reflexivity|]. split; reflexivity.
  - split; reflexivity.
Qed.


(** ** Waiting ends with the transition context *)

Definition is_tick (o : obs kev) : bool := match obs_req o with WaitTick _ _ => true | _ => false end.
Definition ticks (tr : list (obs kev)) : nat := length (List.filter is_tick tr).

(** The services keep time: [elapsed] is the time since the transition began, and never
    runs back.  [select] on the end of a context and on [time.After(interval)] takes the
    latter only if the context had not expired when it began to wait, and then the interval
    has passed.  Nothing is assumed of a wait on a context without a timeout. *)
Definition timed {W} (h : handler kev W) (elapsed : W -> Z) : Prop :=
  forall X (e : kev X) w,
    elapsed w <= elapsed (h X e w).2
    /\ match e in kev T return T -> Prop with
       | WaitTick (WithTimeout _ timeout) interval => fun x =>
           x = None -> elapsed w < timeout /\ elapsed w + interval <= elapsed (h X e w).2
       | _ => fun _ => True
       end (h X e w).1.

Section waiting.
Context (r : ActiveReconciler).

Lemma probeInterval_pos : 0 < probeInterval r.
Proof. unfold probeInterval. destruct (Z.ltb_spec 0 (ProbeInterval r)); [done|]. reflexivity. Qed.

Definition own_wait (ctx : context) (interval : Z) : bool :=
  bool_decide (ctx = transitionCtx r) && (interval =? probeInterval r).

(** The ghost state: the rounds waited so far, and whether a wait saw the context end.
    Every wait is on the transition's own context at its probe interval, and none is begun
    after the context was seen to end. *)
Definition timely : contract kev (nat * bool) := {|
  rely := fun X e => match e in kev T return T -> nat * bool -> Prop with
    | WaitTick ctx interval => fun x s => own_wait ctx interval = true -> x = None -> (s.1 < rounds r)%nat
    | _ => fun _ _ => True
    end;
  permit := fun X e s => match e with
    | WaitTick ctx interval => own_wait ctx interval = true /\ s.2 = false
    | _ => True
    end;
  record := fun X e => match e in kev T return T -> nat * bool -> nat * bool with
    | WaitTick ctx interval => fun x s =>
        if own_wait ctx interval
        then match x with None => (S s.1, s.2) | Some _ => (s.1, true) end else s
    | _ => fun _ s => s
    end;
|}.

(** Time passes with the rounds. *)
Lemma timed_honours {W} (h : handler kev W) elapsed :
  timed h elapsed ->
  honours timely h (fun s w => Z.of_nat s.1 * probeInterval r <= elapsed w /\ (s.1 <= rounds r)%nat).
Proof.
  intros Ht X e [k over] w [Hk Hb]. destruct (Ht X e w) as [Hmono Htick]. cbn [fst] in *.
  pose proof probeInterval_pos as Hi.
  destruct e; try (cbn; split; [done|split; [lia|done]]).
  cbn [rely record timely fst snd]. unfold own_wait.
  destruct (bool_decide (ctx = transitionCtx r)) eqn:Hc; cbn [andb]; [|split; [done|cbn; split; [lia|done]]].
  apply bool_decide_eq_true in Hc as ->. destruct (Z.eqb_spec interval (probeInterval r)) as [->|];
    [|split; [done|cbn; split; [lia|done]]].
  cbn [transitionCtx] in Htick. destruct (h _ _ w) as [x w']. cbn [fst snd] in *.
  assert (x = None -> (k < rounds r)%nat) as Hlt.
  { intros Hx. destruct (Htick Hx) as [Hlt _]. unfold rounds.
    assert (Z.of_nat k <= transitionTimeout r / probeInterval r) by (apply Z.div_le_lower_bound; nia). lia. }
  split; [done|]. destruct x as [err|]; cbn [fst]; [split; [lia|done]|].
  destruct (Htick eq_refl) as [_ Hpass]. specialize (Hlt eq_refl). split; [nia|lia].
Qed.

(** *** The fuel is never what ends a wait *)

(** Two programs that make the same requests as long as the replies can be relied on. *)
Inductive agree {A} : kprog A -> kprog A -> nat * bool -> Prop :=
| agree_refl p s : agree p p s
| agree_vis X (e : kev X) k k' s :
    (forall x, rely timely e x s -> agree (k x) (k' x) (record timely e x s)) -> agree (Vis e k) (Vis e k') s.

Lemma agree_run {W A} (h : handler kev W) I (p q : kprog A) s w :
  honours timely h I -> I s w -> agree p q s -> run h p w = run h q w.
Proof.
  intros Hh HI Ha. revert w HI. induction Ha as [|X e k k' s _ IH]; intros w HI; [done|]. cbn [run].
  destruct (Hh X e s w HI) as [Hr HI']. destruct (h X e w) as [x w']. by rewrite (IH x Hr w' HI').
Qed.

Lemma rounds_grow {X} (e : kev X) x s : (s.1 <= (record timely e x s).1)%nat.
Proof. destruct e; cbn; try done. destruct (own_wait _ _); [|done]. destruct x; cbn; lia. Qed.

Lemma agree_bind {A B} (p q : kprog A) (f g : A -> kprog B) s :
  agree p q s -> (forall a s', (s.1 <= s'.1)%nat -> agree (f a) (g a) s') -> agree (bind p f) (bind q g) s.
Proof.
  assert (forall (p : kprog A) s, (forall a s', (s.1 <= s'.1)%nat -> agree (f a) (g a) s') ->
    agree (bind p f) (bind p g) s) as Hsame.
  { clear. induction p as [a|X e k IH]; intros s Hf; cbn [bind]; [by apply Hf|].
    apply agree_vis. intros x _. apply IH. intros a s' Hs'. apply Hf. pose proof (rounds_grow e x s). lia. }
  induction 1 as [p s|X e k k' s _ IH]; intros Hf; [by apply Hsame|]. cbn [bind]. apply agree_vis.
  intros x Hx. apply IH; [done|]. intros a s' Hs'. apply Hf. pose proof (rounds_grow e x s). lia.
Qed.
Lemma agree_ebind {L A B} (p q : kprog (L + A)) (f g : A -> kprog (L + B)) s :
  agree p q s -> (forall a s', (s.1 <= s'.1)%nat -> agree (f a) (g a) s') -> agree (ebind p f) (ebind q g) s.
Proof. intros Hp Hf. apply agree_bind; [done|]. intros [l|a] s' Hs'; [apply agree_refl|by apply Hf]. Qed.

Abbreviation poll' n := (poll n (transitionCtx r) (probeInterval r)).
Abbreviation health' n := (waitForBackendHealth n (transitionCtx r) (probeInterval r)).

Lemma own_wait_own : own_wait (transitionCtx r) (probeInterval r) = true.
Proof. unfold own_wait. by rewrite bool_decide_eq_true_2, Z.eqb_refl. Qed.

Lemma agree_poll n n' check probe s :
  (rounds r <= s.1 + n)%nat -> (rounds r <= s.1 + n')%nat -> agree (poll' n check probe) (poll' n' check probe) s.
Proof.
  revert n' s. induction n as [|n IH]; intros n' s Hn Hn'.
  - destruct n' as [|n']; [apply agree_refl|]. cbn [poll bind call]. apply agree_vis.
    intros [e|] Hx; [apply agree_refl|]. specialize (Hx own_wait_own eq_refl). lia.
  - destruct n' as [|n'].
    + cbn [poll bind call]. apply agree_vis. intros [e|] Hx; [apply agree_refl|].
      specialize (Hx own_wait_own eq_refl). lia.
    + cbn [poll bind call]. apply agree_vis. intros [e|] Hx; [apply agree_refl|].
      cbn [record timely]. rewrite own_wait_own.
      apply agree_bind; [apply agree_refl|]. intros [[]|e] s1 H1; [|apply agree_refl].
      apply agree_bind; [apply agree_refl|]. intros [[]|e] s2 H2; [apply agree_refl| |apply agree_refl].
      cbn [fst] in *. apply IH; lia.
Qed.

Lemma agree_health n n' d url check s :
  (rounds r <= s.1 + n)%nat -> (rounds r <= s.1 + n')%nat -> agree (health' n d url check) (health' n' d url check) s.
Proof.
  revert n' s. induction n as [|n IH]; intros n' s Hn Hn'; destruct n' as [|n']; try apply agree_refl;
    cbn [waitForBackendHealth]; (apply agree_bind; [apply agree_refl|]; intros [[]|e] s1 H1; [|apply agree_refl]);
    (apply agree_bind; [apply agree_refl|]; intros [[]|e] s2 H2; [apply agree_refl|]);
    cbn [bind call]; apply agree_vis; (intros [e'|] Hx; [apply agree_refl|]); specialize (Hx own_wait_own eq_refl);
    [lia..|]. cbn [record timely]. rewrite own_wait_own. cbn [bind]. apply IH; cbn [fst]; lia.
Qed.

Lemma agree_transition lib n n' a m b s :
  (rounds r <= n)%nat -> (rounds r <= n')%nat ->
  agree (executeTransition_for lib r n a m b) (executeTransition_for lib r n' a m b) s.
Proof.
  intros Hn Hn'. unfold executeTransition_for, body. apply agree_bind; [|intros ? ? _; apply agree_refl].
  do 4 (apply agree_ebind; [apply agree_refl|]; intros ? ? _).
  apply agree_ebind.
  { unfold scale_down_previous, waitForScaleDown. destruct a3 as [pb|]; [|apply agree_refl].
    destruct (negb _); [|apply agree_refl]. apply agree_ebind; [apply agree_refl|]. intros [] ? _.
    apply agree_bind; [apply agree_refl|]. intros [[]|e] ? _; [|apply agree_refl].
    apply agree_bind; [apply agree_poll; lia|]. intros ? ? _. apply agree_refl. }
  do 5 (intros ? ? _; apply agree_ebind; [apply agree_refl|]). intros ? ? _. apply agree_ebind.
  { unfold await_ready, waitForRollout. apply agree_bind; [apply agree_poll; lia|].
    intros [[]|e] ? _; [|apply agree_refl]. apply agree_ebind; [apply agree_refl|]. intros [] ? _.
    apply agree_bind; [apply agree_health; lia|]. intros ? ? _. apply agree_refl. }
  intros ? ? _. apply agree_refl.
Qed.

(** *** How often a transition ticks *)

(** A stretch of waiting: if it goes on, it has not seen the context end. *)
Abbreviation undone := (fun s : nat * bool => s.2 = false).
Lemma timely_plain X (e : kev X) s : plain e = true -> undone s -> permit timely e s /\ forall x, undone (record timely e x s).
Proof. by destruct e. Qed.

Lemma timely_poll n check probe s :
  within timely undone check -> within timely undone probe -> undone s ->
  rg timely (poll' n check probe) s (fun s' res => res = Ok tt -> undone s').
Proof.
  intros Hc Hp. revert s. induction n as [|n IH]; intros s Hs; cbn [poll];
    (apply rg_bind, rg_call; [by split; [apply own_wait_own|]|]); intros [e|] _; try done.
  cbn [record timely]. rewrite own_wait_own. apply rg_bind. eapply rg_mono; [by apply Hc|].
  intros s1 [[]|e] H1; [|done]. apply rg_bind. eapply rg_mono; [by apply Hp|].
  intros s2 [[]|e] H2; [by cbn| |done]. by apply IH.
Qed.
Lemma timely_health n d url check s :
  within timely undone check -> undone s ->
  rg timely (health' n d url check) s (fun s' res => res = Ok tt -> undone s').
Proof.
  intros Hc. revert s. induction n as [|n IH]; intros s Hs; cbn [waitForBackendHealth];
    (apply rg_bind; eapply rg_mono; [by apply Hc|]; intros s1 [[]|e] H1; [|done]);
    (apply rg_bind; eapply rg_mono; [by apply (plain_health _ _ timely_plain)|]; intros s2 [[]|e] H2; [by cbn|]);
    (apply rg_bind, rg_call; [by split; [apply own_wait_own|]|]); intros [e'|] _; try done.
  cbn [record timely]. rewrite own_wait_own. by apply IH.
Qed.

(** A step of the transition: no wait after the context ended. *)
Definition timely_step {A} (p : kprog (outcome + A)) : Prop :=
  forall s, undone s -> rg timely p s (fun s' x => match x with inl _ => True | inr _ => undone s' end).

Lemma step_plain {A} (p : kprog (outcome + A)) : within timely undone p -> timely_step p.
Proof. intros Hp s Hs. eapply rg_mono; [by apply Hp|]. by intros s' []. Qed.
Lemma step_ebind {A B} (p : kprog (outcome + A)) (f : A -> kprog (outcome + B)) :
  timely_step p -> (forall a, timely_step (f a)) -> timely_step (ebind p f).
Proof.
  intros Hp Hf s Hs. apply rg_ebind. eapply rg_mono; [by apply Hp|]. intros s' [o|a] Hs'; [done|by apply Hf].
Qed.
(** Giving up changes nothing any more. *)
Lemma step_over {A} (p : kprog (outcome + A)) s :
  (forall s, rg timely p s (fun _ x => match x with inl _ => True | inr _ => False end)) ->
  rg timely p s (fun s' x => match x with inl _ => True | inr _ => undone s' end).
Proof. intros Hp. eapply rg_mono; [apply Hp|]. by intros s' []. Qed.
Lemma over_failed {A} a m reason metricReason cause s :
  rg timely (failed (A := A) a m reason metricReason cause) s
    (fun _ x => match x with inl _ => True | inr _ => False end).
Proof. unfold failed, failTransition, mark. apply rg_bind. repeat (split; [done|]; intros ? _). by cbn. Qed.

Lemma step_scale_down n a m b gen previous : timely_step (scale_down_previous r n a m b gen previous).
Proof.
  unfold scale_down_previous, waitForScaleDown. destruct previous as [pb|]; [|by intros s Hs].
  destruct (negb _); [|by intros s Hs].
  apply step_ebind; [apply step_plain, (plain_checkpoint _ _ timely_plain)|]. intros [] s Hs.
  apply rg_bind. unfold scaleDeployment. apply rg_bind, rg_call; [done|]. intros [d|e] _;
    [|apply step_over, over_failed]. apply rg_bind, rg_call; [done|]. intros [d'|e] _; [|apply step_over, over_failed].
  cbn [rg rbind record timely]. apply rg_bind.
  eapply rg_mono; [apply timely_poll; [apply (plain_check _ _ timely_plain)|apply (plain_probe _ _ timely_plain)|done]|].
  intros s1 [[]|e] H1; [by apply H1|]. destruct (err_is _ e); [done|]. apply step_over, over_failed.
Qed.

Lemma step_await n a m b gen d : timely_step (await_ready r n a m b gen d).
Proof.
  intros s Hs. unfold await_ready, waitForRollout. apply rg_bind.
  eapply rg_mono; [apply timely_poll; [apply (plain_check _ _ timely_plain)|apply (plain_probe _ _ timely_plain)|done]|].
  intros s1 [[]|e] H1; [|destruct (err_is _ e); [done|apply step_over, over_failed]].
  apply (step_ebind _ _ (step_plain _ (plain_checkpoint _ _ timely_plain _ _ _))); [|by apply H1].
  intros [] s2 H2. apply rg_bind.
  eapply rg_mono; [apply timely_health; [apply (plain_check _ _ timely_plain)|done]|].
  intros s3 [[]|e] H3; [by apply H3|apply step_over, over_failed].
Qed.

Lemma step_activate lib a m b : timely_step (activate lib a m b).
Proof.
  intros s Hs. eapply rg_mono with (Q := fun s' _ => undone s'); [|by intros s' []].
  unfold activate, activateDeployment. apply rg_bind, rg_bind, rg_call; [done|]. intros [d|e] _;
    [|by apply (plain_failed _ _ timely_plain)].
  destruct (findContainer _ _) as [[i c]|]; [|by apply (plain_failed _ _ timely_plain)].
  destruct (activation_changed _ _ _); apply rg_bind; [apply rg_call; [done|]; intros now _|cbn [rg]];
    (case_bool_decide; [done|]); apply rg_bind, rg_call; try done; intros [d'|e] _; try done;
    by apply (plain_failed _ _ timely_plain).
Qed.

Lemma rg_timely lib n a m b : rg timely (executeTransition_for lib r n a m b) (0%nat, false) (fun _ _ => True).
Proof.
  apply rg_body.
  assert (forall p : kprog (outcome + outcome), timely_step p ->
    rg timely p (0%nat, false) (fun _ x => match x with inl _ | inr _ => True end)) as Hstep.
  { intros p Hp. eapply rg_mono; [by apply Hp|]. by intros s' []. }
  apply Hstep.
  pose proof (fun a m gen => step_plain _ (plain_checkpoint _ _ timely_plain a m gen)) as Hc.
  apply step_ebind; [apply step_plain, (plain_announce _ _ timely_plain)|]. intros a1.
  apply step_ebind; [apply Hc|]. intros [].
  apply step_ebind; [apply step_plain, (plain_prepare _ _ timely_plain)|]. intros d.
  apply step_ebind; [apply step_plain, (plain_previous _ _ timely_plain)|]. intros previous.
  apply step_ebind; [apply step_scale_down|]. intros []. apply step_ebind; [apply Hc|]. intros [].
  apply step_ebind; [apply step_plain, (plain_ensure_cached _ _ timely_plain)|]. intros m1.
  apply step_ebind; [apply Hc|]. intros []. apply step_ebind; [apply step_activate|]. intros [].
  apply step_ebind; [apply Hc|]. intros []. apply step_ebind; [apply step_await|]. intros [].
  apply step_ebind; [apply Hc|]. intros [].
  apply step_ebind; [apply step_plain, (plain_publish _ _ timely_plain)|]. intros m2.
  apply step_ebind; [apply Hc|]. intros [].
  apply step_ebind; [apply step_plain, (plain_deactivate _ _ timely_plain)|]. intros [].
  apply step_ebind; [apply Hc|]. intros []. apply step_plain, (plain_stable _ _ timely_plain).
Qed.

(** The ghost state counts the ticks. *)
Lemma ticks_cons o tr : ticks (o :: tr) = ((if is_tick o then 1 else 0) + ticks tr)%nat.
Proof. unfold ticks. cbn. by destruct (is_tick o). Qed.
Lemma ghost_cons s o tr : ghost timely s (o :: tr) = ghost timely (record timely (obs_req o) (obs_reply o) s) tr.
Proof. done. Qed.
Lemma monitored_cons s o tr :
  monitored timely s (o :: tr) ->
  permit timely (obs_req o) s /\ monitored timely (record timely (obs_req o) (obs_reply o) s) tr.
Proof.
  intros Hm. split; [exact (Hm [] o tr eq_refl)|]. intros tr1 o' tr2 ->. apply (Hm (o :: tr1) o' tr2 eq_refl).
Qed.
Lemma ghost_over tr k : monitored timely (k, true) tr -> ticks tr = 0%nat /\ ghost timely (k, true) tr = (k, true).
Proof.
  induction tr as [|[X e x] tr IH]; intros Hm; [done|]. apply monitored_cons in Hm as [Ho Ht].
  rewrite ticks_cons, ghost_cons. destruct e; try exact (IH Ht). by destruct Ho.
Qed.
Lemma ghost_ticks tr k :
  monitored timely (k, false) tr ->
  (k + ticks tr = (ghost timely (k, false) tr).1 + if (ghost timely (k, false) tr).2 then 1 else 0)%nat.
Proof.
  revert k. induction tr as [|[X e x] tr IH]; intros k Hm; [cbn; lia|].
  apply monitored_cons in Hm as [Ho Ht]. rewrite ticks_cons, ghost_cons.
  destruct e; try (apply (IH k Ht)). cbn in Ho. destruct Ho as [Ho _].
  cbn [is_tick obs_req obs_reply record timely fst snd] in Ht |- *. rewrite Ho in Ht |- *. destruct x as [err|].
  - destruct (ghost_over tr k Ht) as [Hz ->]. rewrite Hz. cbn. lia.
  - specialize (IH (S k) Ht). lia.
Qed.
End waiting.

(** C16: waiting ends with the transition context.  The loops of the source run until the
    context is done; the context of a transition ends with its timeout.  Against services that
    keep time ([timed]), whatever else they do: the transition ticks at most as often
    as its timeout holds probe intervals, and two times more, however much fuel
    its loops are given; and with [rounds r] or more the amount of fuel makes no difference
    at all, so no run of [executeTransition] ends where the code would wait on. *)
Theorem transition_waits_bounded (W : Type) (h : handler kev W) (elapsed : W -> Z) (w : W) (lib : golib)
    (r : ActiveReconciler) (a : LLMActiveModel) (m : LLMModel) (b : LLMBackend) :
  timed h elapsed -> 0 <= elapsed w ->
  (forall n, Z.of_nat (ticks (trace h (executeTransition_for lib r n a m b) w))
             <= Z.max 0 (transitionTimeout r / probeInterval r) + 2)
  /\ (forall n, (rounds r <= n)%nat ->
        run h (executeTransition_for lib r n a m b) w = run h (executeTransition lib r a m b) w).
Proof.
  intros Ht Hw. pose proof (timed_honours r h elapsed Ht) as Hh. split.
  - intros n.
    destruct (rg_run (timely r) h _ (executeTransition_for lib r n a m b) (0%nat, false) w _ Hh
                ltac:(cbn; split; [lia|lia]) (rg_timely r lib n a m b)) as (Hm & _ & [_ Hk]).
    apply ghost_ticks in Hm. unfold rounds in Hk.
    destruct (ghost _ _ _) as [k over]. cbn [fst snd] in *. destruct over; lia.
  - intros n Hn. eapply (agree_run r h _ _ _ (0%nat, false)); [exact Hh|cbn; split; [lia|lia]|].
    by apply agree_transition.
Qed.

(** A cluster with a clock: a wait takes its interval, a request no time, and a context with a
    timeout ends when the clock has reached it.  No Deployment ever settles. *)
Definition clock_cluster : handler kev Z := fun X e now =>
  match e in kev X return X * Z with
  | WaitTick (WithTimeout _ timeout) interval =>
      if now <? timeout then (None, now + Z.max 0 interval) else (Some deadlineExceeded, now)
  | GetDeployment _ name => (Ok (sample_deployment name 0 (mkDeploymentStatus 1 0 0 0)), now)
  | e => ((cluster _ e tt).1, now)
  end.
Lemma clock_cluster_timed : timed clock_cluster id.
Proof.
  intros X e now. destruct e; try (split; [apply Z.le_refl|exact I]). destruct ctx as [|parent timeout].
  - split; [apply Z.le_refl|exact I].
  - cbn. destruct (Z.ltb_spec now timeout); cbn; split; unfold id; try lia; by intros.
Qed.

Lemma transition_waits_bounded_witness :
  let stuck n := executeTransition_for sample_lib sample_reconciler n sample_active laguna llama_backend in
  ticks (trace clock_cluster (stuck 1000%nat) 0) = 6%nat
  /\ Z.of_nat (ticks (trace clock_cluster (stuck 1000%nat) 0))
     <= Z.max 0 (transitionTimeout sample_reconciler / probeInterval sample_reconciler) + 2
  /\ run clock_cluster (stuck 1000%nat) 0
     = run clock_cluster (executeTransition sample_lib sample_reconciler sample_active laguna llama_backend) 0.
Proof.
  cbn zeta.
  destruct (transition_waits_bounded Z clock_cluster id 0 sample_lib sample_reconciler sample_active laguna
    llama_backend clock_cluster_timed (Z.le_refl 0)) as [H1 H2].
  split; [vm_compute; reflexivity|]. split; [apply H1|]. apply H2. vm_compute. lia.
Defined.
