(* ===== verification/ModelCtl.v ===== *)
(** * The model reconciler ([internal/controller/llmmodel_controller.go])

    Deletion protection, validation, and the phase of an [LLMModel]. *)

From S2P Require Import Prelude GoStrings Types Effects Api Driver Workload ActiveModel ActiveModelProps Samples.

Definition ModelConfiguredCondition : string := "ModelConfigured".
Definition TemplateResolvedCondition : string := "TemplateResolved".

Definition with_model_finalizers (m : LLMModel) (f : list string) : LLMModel :=
  mkModel (with_finalizers (m_meta m) f) (m_spec m) (m_status m).
Definition set_model_phase (p : LLMModelPhase) (m : LLMModel) : LLMModel :=
  let s := m_status m in
  with_mstatus m (mkModelStatus p (mst_active s) (mst_cacheState s) (mst_runtime s)
    (mst_conditions s) (mst_observedGeneration s)).
Definition set_model_observed (m : LLMModel) : LLMModel :=
  let s := m_status m in
  with_mstatus m (mkModelStatus (mst_phase s) (mst_active s) (mst_cacheState s) (mst_runtime s)
    (mst_conditions s) (Generation (m_meta m))).

Section model_controller.
Context (lib : golib).

Definition resolveBackend (m : LLMModel) : kprog (result LLMBackend) :=
  let ns := Namespace (m_meta m) in
  match ms_backendRef (m_spec m) with
  | Some name =>
      let! got := call (GetBackend ns name) in
      Ret (match got with
           | Ok b => Ok b
           | Err e => Err (wrap ("backend " +:+ quote name +:+ " not found: ") e)
           end)
  | None =>
      let! list := call (ListBackends ns) in
      Ret (match list with
           | Err e => Err (wrap "listing backends: " e)
           | Ok items =>
               match List.find (fun b => b_type (b_spec b) == m_backend m) items with
               | Some b => Ok b
               | None => Err (errorf ("no backend found for type " +:+ quote (m_backend m)))
               end
           end)
  end.

(** [setCondition], then Failed, then the status update. *)
Definition reject_model (ty reason : string) (cause : error) (m : LLMModel) : kprog outcome :=
  let! now := call Now in
  let m := set_model_phase ModelPhaseFailed
             (with_mstatus m (setCondition now ty ConditionFalse reason (err_msg cause) (m_status m))) in
  let! u := call (UpdateModelStatus m) in
  Ret (match u with
       | Err e => fail_with (wrap "update status: " e)
       | Ok _ => Return done_result None
       end).

Definition accept_model (m : LLMModel) : kprog outcome :=
  let! m :=
    (if is_some (m_template m) then
       let! now := call Now in
       Ret (with_mstatus m (setCondition now TemplateResolvedCondition ConditionTrue "Resolved"
              "Chat template ConfigMap key matches pinned SHA-256" (m_status m)))
     else Ret m) in
  let! now := call Now in
  let m := with_mstatus m (setCondition now ModelConfiguredCondition ConditionTrue "Configured"
             "Model is configured and backend exists" (m_status m)) in
  let m := set_model_phase (if mst_active (m_status m) then ModelPhaseActive else ModelPhaseReady) m in
  let! u := call (UpdateModelStatus m) in
  Ret (match u with
       | Err e => fail_with (wrap "update status: " e)
       | Ok _ => Return done_result None
       end).

Definition reconcileModel (m : LLMModel) : kprog outcome :=
  let m := set_model_observed m in
  let! b := resolveBackend m in
  match b with
  | Err e => reject_model ModelConfiguredCondition "BackendNotFound" e m
  | Ok _ =>
      match validateArgs m with
      | Err e => reject_model ModelConfiguredCondition "InvalidServingConfiguration" e m
      | Ok _ =>
          let! t := validateChatTemplate lib m in
          match t with
          | Err e => reject_model TemplateResolvedCondition "TemplateInvalid" e m
          | Ok _ => accept_model m
          end
      end
  end.

Definition ReconcileModel (ns name : string) : kprog outcome :=
  let! got := call (GetModel ns name) in
  match got with
  | Err e => Ret (Return done_result (ignoreNotFound e))
  | Ok m =>
      if negb (time_is_zero (DeletionTimestamp (m_meta m))) then
        if mst_active (m_status m) then
          Ret (fail_with (errorf ("cannot delete active model " +:+ m_name m +:+ ", deactivate first")))
        else
          let! u := call (UpdateModel (with_model_finalizers m
                      (removeFinalizer ModelProtectionFinalizer (Finalizers (m_meta m))))) in
          Ret (match u with Err e => fail_with e | Ok _ => Return done_result None end)
      else if negb (containsString (Finalizers (m_meta m)) ModelProtectionFinalizer) then
        let! u := call (UpdateModel (with_model_finalizers m
                    (addFinalizer ModelProtectionFinalizer (Finalizers (m_meta m))))) in
        match u with
        | Err e => Ret (fail_with e)
        | Ok m => reconcileModel m
        end
      else reconcileModel m
  end.

(** The watches: models whose template lives in the changed ConfigMap, and every
    model when a backend changes. *)
Definition requests_of (ms : list LLMModel) : list (string * string) :=
  map (fun m => (Namespace (m_meta m), Name (m_meta m))) ms.
Definition enqueueForConfigMap (ns cmName : string) : kprog (list (string * string)) :=
  let! list := call (ListModels ns) in
  Ret (match list with
       | Err _ => []
       | Ok items => requests_of (List.filter (fun m =>
           match m_template m with Some t => ct_configMap t == cmName | None => false end) items)
       end).
Definition enqueueForBackend (ns : string) : kprog (list (string * string)) :=
  let! list := call (ListModels ns) in
  Ret (match list with Err _ => [] | Ok items => requests_of items end).
End model_controller.

(** ** Properties *)

(** The ConfigMap a request returned, if it was one. *)
Definition fetched_config_map (o : obs kev) : option ConfigMap :=
  match obs_req o in kev X return X -> option ConfigMap with
  | GetConfigMap _ _ => fun r => match r with Ok cm => Some cm | Err _ => None end
  | _ => fun _ => None
  end (obs_reply o).

(** The model a request returned, if it was one. *)
Definition fetched_model (o : obs kev) : option LLMModel :=
  match obs_req o in kev X return X -> option LLMModel with
  | GetModel _ _ => fun r => match r with Ok m => Some m | Err _ => None end
  | _ => fun _ => None
  end (obs_reply o).

Definition has_condition (ty : string) (st : ConditionStatus) (m : LLMModel) : Prop :=
  exists c, find_condition ty (mst_conditions (m_status m)) = Some c /\ cond_status c = st.

Lemma upsert_has ty st reason message now l :
  exists c, find_condition ty (upsert_condition now ty st reason message l) = Some c /\ cond_status c = st.
Proof. destruct (upsert_found ty st reason message now l) as (c & Hc & _ & Hs & _). eauto. Qed.

Section model_props.
Context (lib : golib).

(** The template of an accepted model was checked against a fetched ConfigMap. *)
Definition template_checked (w : LLMModel) (seen : option ConfigMap) : Prop :=
  forall t, m_template w = Some t -> exists cm, seen = Some cm /\ template_content_ok lib t cm = Ok tt.

Definition verdict (w : LLMModel) (seen : option ConfigMap) : Prop :=
  mst_observedGeneration (m_status w) = Generation (m_meta w)
  /\ ((mst_phase (m_status w) = (if mst_active (m_status w) then ModelPhaseActive else ModelPhaseReady)
       /\ validateArgs w = Ok tt /\ template_checked w seen
       /\ has_condition ModelConfiguredCondition ConditionTrue w)
      \/ (mst_phase (m_status w) = ModelPhaseFailed /\ exists ty, has_condition ty ConditionFalse w)).

Definition model_rules : contract kev (option ConfigMap) := {|
  rely := fun X e x _ => True;
  permit := fun X e s => match e with
    | UpdateModelStatus w => verdict w s
    | _ => True
    end;
  record := fun X e x s =>
    match fetched_config_map (Obs e x) with Some cm => Some cm | None => s end;
|}.

Lemma rg_reject ty reason e m s :
  mst_observedGeneration (m_status m) = Generation (m_meta m) ->
  rg model_rules (reject_model ty reason e m) s (fun _ _ => True).
Proof.
  intros Ho. split; [done|]. intros now _. split; [|by intros [] _].
  split; [done|]. right. split; [done|]. exists ty. apply upsert_has.
Qed.

Lemma validateArgs_spec m m' : m_spec m = m_spec m' -> validateArgs m = validateArgs m'.
Proof.
  intros Hs. unfold validateArgs, Validate, Validate_parsers, Validate_template, Validate_artifact,
    m_template, m_backend, m_serving. by rewrite Hs.
Qed.

Lemma rg_accept m s :
  mst_observedGeneration (m_status m) = Generation (m_meta m) -> validateArgs m = Ok tt ->
  template_checked m s -> rg model_rules (accept_model m) s (fun _ _ => True).
Proof.
  intros Ho Hv Ht. unfold accept_model. apply rg_bind. unfold template_checked in Ht.
  destruct (m_template m) eqn:Hm; cbn [is_some];
    repeat (split; [done|]; intros ? _); (split; [|by intros [] _]);
    (split; [exact Ho|]; left; split; [done|]; split; [by rewrite <- Hv; apply validateArgs_spec|];
     split; [|apply upsert_has]; intros t' Ht'; change (m_template m = Some t') in Ht'; apply Ht; congruence).
Qed.

Lemma rg_reconcileModel m s : rg model_rules (reconcileModel lib m) s (fun _ _ => True).
Proof.
  unfold reconcileModel. apply rg_bind.
  assert (forall s', rg model_rules (match validateArgs (set_model_observed m) with
      | Ok _ => let! t := validateChatTemplate lib (set_model_observed m) in
                match t with
                | Ok _ => accept_model (set_model_observed m)
                | Err e => reject_model TemplateResolvedCondition "TemplateInvalid" e (set_model_observed m)
                end
      | Err e => reject_model ModelConfiguredCondition "InvalidServingConfiguration" e (set_model_observed m)
      end) s' (fun _ _ => True)) as Hrest.
  { intros s'. destruct (validateArgs _) as [[]|e] eqn:Hv; [|by apply rg_reject].
    apply rg_bind. unfold validateChatTemplate.
    destruct (m_template _) as [t|] eqn:Ht; [|by apply rg_accept; [..|intros t' Ht'; congruence]].
    destruct (_ || _); [by apply rg_reject|]. destruct (negb _); [by apply rg_reject|].
    split; [done|]. intros [cm|e] _; cbn [bind rg]; [|by apply rg_reject].
    destruct (template_content_ok lib t cm) as [[]|e] eqn:Hc; [|by apply rg_reject].
    apply rg_accept; [done..|]. intros t' Ht'. exists cm. split; [done|]. congruence. }
  unfold resolveBackend. destruct (ms_backendRef _); (split; [done|]; intros x _; cbn [bind rg]).
  - destruct x; [apply Hrest | by apply rg_reject].
  - destruct x; [|by apply rg_reject]. destruct (List.find _ _); [apply Hrest | by apply rg_reject].
Qed.

Lemma rg_ReconcileModel ns name s : rg model_rules (ReconcileModel lib ns name) s (fun _ _ => True).
Proof.
  apply rg_bind. split; [done|]. intros [m|e] _; [|done]. cbn [rg].
  destruct (time_is_zero (DeletionTimestamp (m_meta m))); cbn [negb].
  - destruct (containsString _ _); cbn [negb]; [apply rg_reconcileModel|].
    split; [done|]. intros [m'|e] _; [apply rg_reconcileModel | done].
  - destruct (mst_active (m_status m)); [done|]. split; [done|]. by intros [] _.
Qed.

(** What an update of the model object may do to the object just read: add the protection
    to a live one that lacks it, or remove it from a deleted one that is not active; the
    rest of the object is written back as it was read. *)
Definition protection_update (m m' : LLMModel) : Prop :=
  if time_is_zero (DeletionTimestamp (m_meta m))
  then ModelProtectionFinalizer ∉ Finalizers (m_meta m)
       /\ m' = with_model_finalizers m (Finalizers (m_meta m) ++ [ModelProtectionFinalizer])
  else mst_active (m_status m) = false
       /\ ModelProtectionFinalizer ∉ Finalizers (m_meta m')
       /\ m' = with_model_finalizers m
                 (List.filter (fun f => f != ModelProtectionFinalizer) (Finalizers (m_meta m))).

Definition protection_rules (ns name : string) : contract kev (list (obs kev)) :=
  traced (E := kev) (fun _ _ _ => True) (fun X e tr =>
    match e with
    | UpdateModel m' => exists m, tr = [Obs (GetModel ns name) (Ok m)] /\ protection_update m m'
    | _ => True
    end).

Lemma reconcileModel_updates_no_object ns name m :
  within (protection_rules ns name) (fun _ => True) (reconcileModel lib m).
Proof.
  unfold reconcileModel, resolveBackend, reject_model, accept_model, validateChatTemplate. stay_within.
Qed.

Lemma containsString_elem l x : containsString l x = true <-> x ∈ l.
Proof.
  unfold containsString. rewrite existsb_exists. setoid_rewrite bool_decide_eq_true.
  setoid_rewrite <- list_elem_of_In. naive_solver.
Qed.
Lemma removeFinalizer_gone f l : f ∉ removeFinalizer f l.
Proof. intros [_ H%negb_true_iff]%list_elem_of_In%filter_In. by apply bool_decide_eq_false in H. Qed.

Lemma rg_protection ns name : rg (protection_rules ns name) (ReconcileModel lib ns name) [] (fun _ _ => True).
Proof.
  apply rg_bind. split; [done|]. intros [m|e] _; [|done]. cbn [rg record protection_rules traced app].
  pose proof (fun m s => reconcileModel_updates_no_object ns name m s I) as Hrest.
  destruct (time_is_zero (DeletionTimestamp (m_meta m))) eqn:Hd; cbn [negb].
  - destruct (containsString _ _) eqn:Hf; cbn [negb]; [apply Hrest|].
    split; [|intros [m'|e] _; [apply Hrest | done]].
    exists m. split; [done|]. unfold protection_update. rewrite Hd. split.
    + rewrite <- containsString_elem. congruence.
    + unfold addFinalizer. by rewrite Hf.
  - destruct (mst_active (m_status m)) eqn:Ha; [done|]. split; [|by intros [] _].
    exists m. split; [done|]. unfold protection_update. rewrite Hd. split_and!; [done| |done].
    apply removeFinalizer_gone.
Qed.
End model_props.

(** C18: Ready and Active mean validated.  Every status the model reconciler writes carries
    the observed generation and is either Failed with a False condition that says why, or
    Active/Ready according to the active flag; and then the runtime's driver accepts the
    spec, and a pinned chat template was fetched and its digest matched. *)
Theorem model_status_sound (W : Type) (h : handler kev W) (w : W) (lib : golib) (ns name : string)
    (tr1 tr2 : list (obs kev)) (o : obs kev) (m : LLMModel) :
  trace h (ReconcileModel lib ns name) w = tr1 ++ o :: tr2 -> model_write_of o = Some m ->
  mst_observedGeneration (m_status m) = Generation (m_meta m)
  /\ ((mst_phase (m_status m) = ModelPhaseFailed /\ exists ty, has_condition ty ConditionFalse m)
      \/ (mst_phase (m_status m) = (if mst_active (m_status m) then ModelPhaseActive else ModelPhaseReady)
          /\ validateArgs m = Ok tt
          /\ forall t, m_template m = Some t ->
               exists o' cm content, o' ∈ tr1 /\ fetched_config_map o' = Some cm
                 /\ mlookup (cm_data cm) (ct_key t) = Some content /\ sha256hex lib content = ct_sha256 t)).
Proof.
  intros Htr Ho.
  destruct (rg_run_any (model_rules lib) h (ReconcileModel lib ns name) None w (fun _ _ => True))
    as [Hm _]; [done|apply rg_ReconcileModel|].
  specialize (Hm _ _ _ Htr). destruct o as [X e x]; destruct e; try discriminate Ho.
  injection Ho as ->. destruct Hm as [Hg [(Hp & Hv & Ht & _)|Hf]]; (split; [done|]); [right|by left].
  split_and!; [done..|]. intros t Hmt. destruct (Ht t Hmt) as (cm & Hcm & Hok).
  destruct (ghost_since (model_rules lib) (fun s => s = Some cm) (fun _ o => fetched_config_map o = Some cm)
    (fun _ => True) None tr1) as (t1 & o' & t2 & -> & Ho' & _); [|done..|].
  { intros s [X e y]. cbn [model_rules record obs_req obs_reply].
    destruct (fetched_config_map _); intros Hs; [by left | by right]. }
  unfold template_content_ok in Hok. destruct (mlookup _ _) as [content|] eqn:Hl; [|done].
  case_bool_decide as Hs; [|done]. exists o', cm, content. split_and!; [set_solver|done..].
Qed.

(** C19: deletion protection.  The reconciler updates the model object at most once and right
    after reading it.  When the object it read is not being deleted and lacks the
    protection finalizer, the update appends it; when it is being deleted, it is not active
    and the update takes the finalizer away.  Nothing else of the object is changed. *)
Theorem active_model_not_released (W : Type) (h : handler kev W) (w : W) (lib : golib)
    (ns name : string) (tr1 tr2 : list (obs kev)) (m' : LLMModel) (reply : result LLMModel) :
  trace h (ReconcileModel lib ns name) w = tr1 ++ Obs (UpdateModel m') reply :: tr2 ->
  exists m, tr1 = [Obs (GetModel ns name) (Ok m)] /\ protection_update m m'.
Proof.
  intros Htr.
  destruct (rg_run_any (protection_rules ns name) h (ReconcileModel lib ns name) [] w (fun _ _ => True))
    as [Hm _]; [done|apply rg_protection|].
  specialize (Hm _ _ _ Htr). unfold protection_rules in Hm. rewrite ghost_traced in Hm. exact Hm.
Qed.

(** A cluster with one model, being deleted and active or not. *)
Definition model_cluster (m : LLMModel) : handler kev unit := fun X e w =>
  (match e in kev X return X with
   | GetModel _ _ => Ok m
   | GetConfigMap _ name => Ok (mkConfigMap (sample_meta name 1) (Some {["laguna.jinja" := "template"]}))
   | e => (cluster _ e tt).1
   end, w).

Lemma model_status_witness :
  exists tr1 o tr2 w, trace (model_cluster laguna) (ReconcileModel sample_lib "llm" "laguna") tt = tr1 ++ o :: tr2
    /\ model_write_of o = Some w /\ mst_observedGeneration (m_status w) = Generation (m_meta w).
Proof.
  set (tr := trace _ _ _).
  destruct (split_first (fun o => is_some (model_write_of o)) tr) as (tr1 & o & tr2 & Htr & Ho); [vm_compute; reflexivity|].
  destruct (model_write_of o) as [w|] eqn:Hw; [|discriminate Ho].
  exists tr1, o, tr2, w. split; [exact Htr|]. split; [exact Hw|].
  apply (model_status_sound unit (model_cluster laguna) tt sample_lib "llm" "laguna" tr1 tr2 o w Htr Hw).
Defined.

Definition deleted_laguna : LLMModel := mkModel
  (mkMeta "laguna" "llm" "1" 1 1000 (Some 9) [ModelProtectionFinalizer] None None None)
  (m_spec laguna) (m_status laguna).

Lemma active_model_not_released_witness :
  (exists m' reply, trace (model_cluster deleted_laguna) (ReconcileModel sample_lib "llm" "laguna") tt
     = [Obs (GetModel "llm" "laguna") (Ok deleted_laguna)] ++ Obs (UpdateModel m') reply :: []
     /\ protection_update deleted_laguna m')
  /\ (exists m' reply tr2, trace (model_cluster laguna) (ReconcileModel sample_lib "llm" "laguna") tt
     = [Obs (GetModel "llm" "laguna") (Ok laguna)] ++ Obs (UpdateModel m') reply :: tr2
     /\ protection_update laguna m').
Proof.
  split.
  - eexists _, _. split; [vm_compute; reflexivity|].
    edestruct (active_model_not_released unit (model_cluster deleted_laguna) tt sample_lib "llm" "laguna"
      [Obs (GetModel "llm" "laguna") (Ok deleted_laguna)]) as (m & E & H); [vm_compute; reflexivity|].
    apply (f_equal (omap fetched_model)) in E. injection E as <-. exact H.
  - eexists _, _, _. split; [vm_compute; reflexivity|].
    edestruct (active_model_not_released unit (model_cluster laguna) tt sample_lib "llm" "laguna"
      [Obs (GetModel "llm" "laguna") (Ok laguna)]) as (m & E & H); [vm_compute; reflexivity|].
    apply (f_equal (omap fetched_model)) in E. injection E as <-. exact H.
Defined.
