(* ===== verification/BackendCtl.v ===== *)
(** * The backend reconciler ([internal/controller/llmbackend_controller.go])

    Materializes a workload-mode backend, reflects its Deployment and its health in
    the status, and holds back the deletion of a backend that serves. *)

From S2P Require Import Prelude GoStrings Types Effects Api Driver Workload ActiveModel Protocol ActiveModelProps Samples.

Definition DeploymentExistsCondition : string := "DeploymentExists".
Definition ModelLoadedCondition : string := "ModelLoaded".
Definition BackendHealthyCondition : string := "BackendHealthy".

Definition with_backend_finalizers (b : LLMBackend) (f : list string) : LLMBackend :=
  mkBackend (with_finalizers (b_meta b) f) (b_spec b) (b_status b).
Definition set_bphase (p : LLMBackendPhase) (b : LLMBackend) : LLMBackend :=
  let s := b_status b in
  with_bstatus b (mkBackendStatus p (bst_activeModel s) (bst_activeModelSince s) (bst_replicas s)
    (bst_available s) (bst_conditions s) (bst_observedGeneration s)).
Definition set_bobserved (b : LLMBackend) : LLMBackend :=
  let s := b_status b in
  with_bstatus b (mkBackendStatus (bst_phase s) (bst_activeModel s) (bst_activeModelSince s) (bst_replicas s)
    (bst_available s) (bst_conditions s) (Generation (b_meta b))).
Definition set_breplicas (replicas available : Z) (b : LLMBackend) : LLMBackend :=
  let s := b_status b in
  with_bstatus b (mkBackendStatus (bst_phase s) (bst_activeModel s) (bst_activeModelSince s) replicas
    available (bst_conditions s) (bst_observedGeneration s)).
Definition set_bactive (model : string) (since : option Z) (b : LLMBackend) : LLMBackend :=
  let s := b_status b in
  with_bstatus b (mkBackendStatus (bst_phase s) model since (bst_replicas s)
    (bst_available s) (bst_conditions s) (bst_observedGeneration s)).

(** [setBackendCondition(&backend.Status, ...)], which reads the clock. *)
Definition bmark (ty : string) (st : ConditionStatus) (reason message : string) (b : LLMBackend)
    : kprog LLMBackend :=
  let! now := call Now in
  Ret (with_bstatus b (setBackendCondition now ty st reason message (b_status b))).

Section backend_controller.
Context (lib : golib).
(** [controllerutil.SetControllerReference]; whether an HTTP client is configured. *)
Context (setControllerReference : ObjectMeta -> ObjectMeta -> result ObjectMeta) (client : bool).

(** The active model and its switch time, from the pod template's annotations. *)
Definition read_active (d : Deployment) (b : LLMBackend) : LLMBackend :=
  let an := pt_annotations (dep_template (d_spec d)) in
  match mlookup an activeModelAnno with
  | None => b
  | Some model =>
      let since := match mlookup an switchedAtAnno with
                   | Some s => match parseTime lib s with
                               | Some t => Some t
                               | None => bst_activeModelSince (b_status b)
                               end
                   | None => bst_activeModelSince (b_status b)
                   end in
      set_bactive model since b
  end.

(** Phase and conditions from availability and health; whether to retry the probe.
    [inl] leaves the reconcile after its own status update. *)
Definition probe_backend (b : LLMBackend) : kprog (outcome + (LLMBackend * bool)) :=
  let available := bst_available (b_status b) in
  if client && (0 <? available) then
    match RegistryDriver DefaultRegistry (b_type (b_spec b)) with
    | Err e =>
        let! b := bmark BackendHealthyCondition ConditionFalse "UnsupportedBackend" (err_msg e) b in
        let! u := call (UpdateBackendStatus (set_bphase BackendPhaseFailed b)) in
        leave (match u with Err e => fail_with e | Ok _ => Return done_result None end)
    | Ok d =>
        let! h := CheckHealth d client (backend_url b) in
        match h with
        | Ok _ =>
            let! b := bmark BackendHealthyCondition ConditionTrue "Healthy" "Backend is healthy" b in
            let! b := bmark ModelLoadedCondition ConditionTrue "Loaded" "Model is loaded" b in
            Ret (inr (set_bphase BackendPhaseServing b, false))
        | Err e =>
            let! b := bmark BackendHealthyCondition ConditionFalse "Unhealthy" (err_msg e) b in
            Ret (inr (set_bphase BackendPhaseStarting b, true))
        end
    end
  else if available =? 0 then
    let! b := bmark BackendHealthyCondition ConditionFalse "NoReplicas" "No available replicas" b in
    Ret (inr (set_bphase BackendPhaseStopped b, false))
  else Ret (inr (set_bphase BackendPhaseStarting b, false)).

Definition reflect_deployment (b : LLMBackend) : kprog outcome :=
  let! got := call (GetDeployment (Namespace (b_meta b)) (backendDeploymentName b)) in
  match got with
  | Err e =>
      let! b := bmark DeploymentExistsCondition ConditionFalse "NotFound" (err_msg e) b in
      do! call (UpdateBackendStatus (set_breplicas 0 0 (set_bphase BackendPhaseFailed b))) ;
      Ret (Return (mkResult false (seconds 30)) None)
  | Ok d =>
      let! b := bmark DeploymentExistsCondition ConditionTrue "Exists" "Deployment exists" b in
      let b := set_breplicas (ds_replicas (d_status d)) (ds_available (d_status d)) b in
      let b := read_active d b in
      body (
        let? (b, retryHealth) := probe_backend b in
        let! u := call (UpdateBackendStatus b) in
        match u with
        | Err e => leave (fail_with e)
        | Ok _ =>
            if retryHealth then Ret (inr (Return (mkResult false (seconds 10)) None))
            else Ret (inr (Return done_result None))
        end)
  end.

Definition refers_to (b : LLMBackend) (m : LLMModel) : bool :=
  match ms_backendRef (m_spec m) with Some name => name == Name (b_meta b) | None => false end.

(** [backendIsActive] on the listed models and active models. *)
Definition serves (b : LLMBackend) (models : list LLMModel) (actives : list LLMActiveModel) : bool :=
  existsb (fun a => (ast_phase (a_status a) == ActiveModelPhaseStable)
    && existsb (fun m => (m_name m == ast_modelName (a_status a)) && refers_to b m) models) actives.

Definition backendIsActive (b : LLMBackend) : kprog (result bool) :=
  let ns := Namespace (b_meta b) in
  let! ms := call (ListModels ns) in
  match ms with
  | Err e => Ret (Err (wrap "list models while deleting backend: " e))
  | Ok models =>
      if existsb (fun m => mst_active (m_status m) && refers_to b m) models then Ret (Ok true) else
      let! as_ := call (ListActive ns) in
      Ret (match as_ with
           | Err e => Err (wrap "list active models while deleting backend: " e)
           | Ok actives => Ok (serves b models actives)
           end)
  end.

Definition reconcileBackendDeletion (b : LLMBackend) : kprog outcome :=
  if negb (is_some (b_workload (b_spec b)))
     || negb (containsString (Finalizers (b_meta b)) BackendWorkloadFinalizer)
  then Ret (Return done_result None)
  else
    let! active := backendIsActive b in
    match active with
    | Err e => Ret (fail_with e)
    | Ok true => Ret (Return (mkResult false (seconds 15)) None)
    | Ok false =>
        let! u := call (UpdateBackend (with_backend_finalizers b
                    (removeFinalizer BackendWorkloadFinalizer (Finalizers (b_meta b))))) in
        Ret (match u with Err e => fail_with e | Ok _ => Return done_result None end)
    end.

Definition ReconcileBackend (ns name : string) : kprog outcome :=
  let! got := call (GetBackend ns name) in
  match got with
  | Err e => Ret (Return done_result (ignoreNotFound e))
  | Ok b =>
      if negb (time_is_zero (DeletionTimestamp (b_meta b))) then reconcileBackendDeletion b
      else if is_some (b_workload (b_spec b))
              && negb (containsString (Finalizers (b_meta b)) BackendWorkloadFinalizer) then
        let! u := call (UpdateBackend (with_backend_finalizers b
                    (addFinalizer BackendWorkloadFinalizer (Finalizers (b_meta b))))) in
        Ret (match u with Err e => fail_with e | Ok _ => Return done_result None end)
      else
        let b := set_bobserved b in
        let! w := ensureBackendWorkload setControllerReference b in
        match w with
        | Err e =>
            let! b := bmark DeploymentExistsCondition ConditionFalse "WorkloadInvalid" (err_msg e) b in
            let! u := call (UpdateBackendStatus (set_bphase BackendPhaseFailed b)) in
            Ret (match u with Err e => fail_with e | Ok _ => Return done_result None end)
        | Ok _ => reflect_deployment b
        end
  end.

(** The Deployment watch: backends whose Deployment changed. *)
Definition enqueueForDeployment (ns name : string) : kprog (list (string * string)) :=
  let! list := call (ListBackends ns) in
  Ret (match list with
       | Err _ => []
       | Ok items => map (fun b => (Namespace (b_meta b), Name (b_meta b)))
           (List.filter (fun b => backendDeploymentName b == name) items)
       end).
End backend_controller.

(** ** Properties *)

(** What the reconciler has seen: its own last health probe, and the listed models
    and active models. *)
Record seen := mkSeen { probed : option (string * bool); models_seen : option (list LLMModel);
                        actives_seen : option (list LLMActiveModel) }.
Definition look (o : obs kev) (s : seen) : seen :=
  match obs_req o in kev X return X -> seen with
  | HttpGet u => fun r => mkSeen (Some (u, match r with Ok x => hr_code x =? 200 | Err _ => false end))
                            (models_seen s) (actives_seen s)
  | ListModels _ => fun r => mkSeen (probed s) (match r with Ok l => Some l | Err _ => None end) (actives_seen s)
  | ListActive _ => fun r => mkSeen (probed s) (models_seen s) (match r with Ok l => Some l | Err _ => None end)
  | _ => fun _ => s
  end (obs_reply o).

Definition unserved (b : LLMBackend) (s : seen) : Prop :=
  exists models actives, models_seen s = Some models /\ actives_seen s = Some actives
    /\ Forall (fun m => mst_active (m_status m) = true -> refers_to b m = false) models
    /\ serves b models actives = false.

(** A Serving status follows a healthy probe of this backend and reports replicas. *)
Definition serving_earned (b : LLMBackend) (s : seen) : Prop :=
  bst_phase (b_status b) = BackendPhaseServing ->
  0 < bst_available (b_status b)
  /\ exists d, RegistryDriver DefaultRegistry (b_type (b_spec b)) = Ok d
       /\ probed s = Some (trim_suffix (backend_url b) "/" +:+ cap_healthPath (capabilities d), true).

Definition stopped_ok (b : LLMBackend) : Prop :=
  bst_phase (b_status b) = BackendPhaseStopped -> bst_available (b_status b) = 0.

Definition backend_rules : contract kev seen := {|
  rely := fun _ _ _ _ => True;
  permit := fun X e s => match e with
    | UpdateBackendStatus b =>
        serving_earned b s /\ stopped_ok b /\ bst_observedGeneration (b_status b) = Generation (b_meta b)
    | UpdateBackend b =>
        if time_is_zero (DeletionTimestamp (b_meta b))
        then BackendWorkloadFinalizer ∈ Finalizers (b_meta b)
        else unserved b s
    | _ => True
    end;
  record := fun X e x s => look (Obs e x) s;
|}.

Section backend_props.
Context (lib : golib) (scr : ObjectMeta -> ObjectMeta -> result ObjectMeta) (client : bool).
Notation ok := (fun _ _ => True).

Lemma rg_bmark ty st reason message b s (Q : seen -> LLMBackend -> Prop) :
  (forall now, Q s (with_bstatus b (setBackendCondition now ty st reason message (b_status b)))) ->
  rg backend_rules (bmark ty st reason message b) s Q.
Proof. intros HQ. split; [done|]. intros now _. apply HQ. Qed.

Lemma rg_ensureBackendWorkload b s (Q : seen -> result unit -> Prop) :
  (forall res, Q s res) -> rg backend_rules (ensureBackendWorkload scr b) s Q.
Proof.
  intros HQ. unfold ensureBackendWorkload. destruct (b_workload _) as [w|]; [|apply HQ].
  destruct (_ || _); [apply HQ|]. destruct (negb _); [apply HQ|].
  assert (rg backend_rules (ensureDeployment scr b w) s Q) as Hd.
  { split; [done|]. intros x _. cbn [rg bind]. destruct (get_or_none _ x) as [old|e]; [|apply HQ].
    destruct (scr _ _); [|apply HQ]. destruct old as [before|].
    - case_bool_decide; [apply HQ|]. split; [done|]. intros y _. apply HQ.
    - split; [done|]. intros y _. apply HQ. }
  apply rg_bind. split; [done|]. intros x _. cbn [rg bind].
  destruct (get_or_none _ x) as [old|e]; [|apply HQ]. destruct (scr _ _); [|apply HQ].
  destruct old as [before|].
  - case_bool_decide; [exact Hd|]. split; [done|]. intros [|] _; [exact Hd|apply HQ].
  - split; [done|]. intros [|] _; [exact Hd|apply HQ].
Qed.

(** The probe decides the phase; what it hands on may be written. *)
Lemma rg_probe_backend b s :
  bst_observedGeneration (b_status b) = Generation (b_meta b) ->
  rg backend_rules (probe_backend client b) s
    (fun s' x => match x with
                 | inl _ => True
                 | inr (b', _) => serving_earned b' s' /\ stopped_ok b'
                     /\ bst_observedGeneration (b_status b') = Generation (b_meta b')
                 end).
Proof.
  intros Hg. unfold probe_backend.
  destruct (client && (0 <? bst_available (b_status b))) eqn:Hc.
  - apply andb_true_iff in Hc as [Hcl Hav]. destruct (RegistryDriver _ _) as [d|e] eqn:Hd.
    + apply rg_bind. unfold CheckHealth, getText. rewrite Hcl. cbn [negb].
      apply rg_bind, rg_bind. split; [done|]. intros x _. cbn [rg bind].
      match goal with |- context [rbind x ?k] => destruct (rbind x k) as [body|e] eqn:Hr end.
      * apply rg_bind, rg_bmark. intros n1. apply rg_bind, rg_bmark. intros n2. cbn [rg].
        split; [|done]. intros _. cbn. split; [lia|]. exists d. split; [exact Hd|].
        destruct x as [x|]; [|done]. cbn in Hr. destruct (hr_body x); [|done]. cbn in Hr.
        destruct (hr_code x =? 200) eqn:Hcode; [done|done].
      * apply rg_bind, rg_bmark. intros n1. cbn [rg]. split; [by intros ?|]. by split; [intros ?|].
    + apply rg_bind, rg_bmark. intros n1. split; [|by intros ? _].
      split; [by intros ?|]. by split; [intros ?|].
  - destruct (bst_available (b_status b) =? 0) eqn:H0.
    + apply rg_bind, rg_bmark. intros n1. cbn [rg]. split; [by intros ?|].
      split; [|done]. intros _. cbn. lia.
    + cbn [rg]. split; [by intros ?|]. by split; [intros ?|].
Qed.

Lemma read_active_frame d b :
  b_meta (read_active lib d b) = b_meta b
  /\ bst_observedGeneration (b_status (read_active lib d b)) = bst_observedGeneration (b_status b).
Proof. unfold read_active. by destruct (mlookup _ _). Qed.

Lemma rg_reflect b s :
  bst_observedGeneration (b_status b) = Generation (b_meta b) ->
  rg backend_rules (reflect_deployment lib client b) s ok.
Proof.
  intros Hg. split; [done|]. intros [d|e] _; cbn [bind].
  - apply rg_bind, rg_bmark. intros now. apply rg_body, rg_ebind.
    eapply rg_mono; [apply rg_probe_backend|].
    { destruct (read_active_frame d (set_breplicas (ds_replicas (d_status d)) (ds_available (d_status d))
        (with_bstatus b (setBackendCondition now DeploymentExistsCondition ConditionTrue "Exists"
           "Deployment exists" (b_status b))))) as [-> ->]. exact Hg. }
    intros s1 [?|[b' retry]] Hb; [done|]. split; [exact Hb|]. intros [|] _; cbn [bind rg]; [|done].
    by destruct retry.
  - apply rg_bind, rg_bmark. intros now. split; [|by intros [] _].
    split; [by intros ?|]. by split; [intros ?|].
Qed.

Lemma rg_deletion b s :
  time_is_zero (DeletionTimestamp (b_meta b)) = false ->
  rg backend_rules (reconcileBackendDeletion b) s ok.
Proof.
  intros Hd. unfold reconcileBackendDeletion. destruct (_ || _); [done|].
  split; [done|]. intros [models|e] _; [|done]. cbn [bind].
  destruct (existsb _ models) eqn:Ha; [done|].
  split; [done|]. intros [actives|e] _; [|done]. cbn [bind rg].
  destruct (serves b models actives) eqn:Hs; [done|]. split; [|by intros [] _].
  cbn. rewrite Hd. exists models, actives. split_and!; [done..| |exact Hs].
  apply existsb_false_forall in Ha. eapply Forall_impl; [exact Ha|].
  intros m Hm Hact. cbn in Hm. by rewrite Hact in Hm.
Qed.

Lemma rg_ReconcileBackend ns name s : rg backend_rules (ReconcileBackend lib scr client ns name) s ok.
Proof.
  split; [done|]. intros [b|e] _; [|done]. cbn [bind].
  destruct (time_is_zero (DeletionTimestamp (b_meta b))) eqn:Hd; cbn [negb]; [|by apply rg_deletion].
  destruct (is_some _ && _) eqn:Hf.
  - split; [|by intros [] _]. cbn. rewrite Hd. unfold addFinalizer.
    apply andb_true_iff in Hf as [_ Hf]. apply negb_true_iff in Hf. rewrite Hf. set_solver.
  - apply rg_bind, rg_ensureBackendWorkload. intros [[]|e]; [by apply rg_reflect|].
    apply rg_bind, rg_bmark. intros now. split; [|by intros [] _].
    split; [by intros ?|]. by split; [intros ?|].
Qed.
End backend_props.

(** C20: a backend is reported Serving only when it is.  Every status the backend reconciler
    writes carries the observed generation; Stopped is written only with no available
    replica; Serving only with one, after the runtime's health endpoint of this very
    backend answered 200 in the same reconcile. *)
Theorem backend_status_sound (W : Type) (h : handler kev W) (w : W) (lib : golib)
    (scr : ObjectMeta -> ObjectMeta -> result ObjectMeta) (client : bool) (ns name : string)
    (tr1 tr2 : list (obs kev)) (o : obs kev) (b : LLMBackend) :
  trace h (ReconcileBackend lib scr client ns name) w = tr1 ++ o :: tr2 -> backend_write_of o = Some b ->
  bst_observedGeneration (b_status b) = Generation (b_meta b)
  /\ (bst_phase (b_status b) = BackendPhaseStopped -> bst_available (b_status b) = 0)
  /\ (bst_phase (b_status b) = BackendPhaseServing ->
      0 < bst_available (b_status b)
      /\ exists d o', RegistryDriver DefaultRegistry (b_type (b_spec b)) = Ok d /\ o' ∈ tr1
           /\ answers_200 (trim_suffix (backend_url b) "/" +:+ cap_healthPath (capabilities d)) o' = true).
Proof.
  intros Htr Ho.
  destruct (rg_run_any backend_rules h (ReconcileBackend lib scr client ns name)
              (mkSeen None None None) w (fun _ _ => True)) as [Hm _]; [done|apply rg_ReconcileBackend|].
  specialize (Hm _ _ _ Htr). destruct o as [X e x]; destruct e; try discriminate Ho.
  injection Ho as ->. destruct Hm as (Hs & Hst & Hg). split_and!; [done..|]. intros Hp.
  destruct (Hs Hp) as (Hav & d & Hd & Hpr). split; [done|].
  set (url := trim_suffix _ _ +:+ _) in *.
  destruct (ghost_since backend_rules (fun s => probed s = Some (url, true))
    (fun _ o => answers_200 url o = true) (fun _ => True) (mkSeen None None None) tr1)
    as (t1 & o' & t2 & -> & Ho' & _); [|done..|exists d, o'; split_and!; [done|set_solver|done]].
  intros s [X e y]. destruct e; cbn; auto. intros [= -> Hy]. left.
  destruct y; [|done]. cbn. rewrite (bool_decide_eq_true_2 _ eq_refl). exact Hy.
Qed.

Definition listed_models (o : obs kev) : option (list LLMModel) :=
  match obs_req o in kev X return X -> option (list LLMModel) with
  | ListModels _ => fun r => match r with Ok l => Some l | Err _ => None end
  | _ => fun _ => None
  end (obs_reply o).
Definition listed_actives (o : obs kev) : option (list LLMActiveModel) :=
  match obs_req o in kev X return X -> option (list LLMActiveModel) with
  | ListActive _ => fun r => match r with Ok l => Some l | Err _ => None end
  | _ => fun _ => None
  end (obs_reply o).

Lemma models_since tr l : models_seen (ghost backend_rules (mkSeen None None None) tr) = Some l ->
  exists o, o ∈ tr /\ listed_models o = Some l.
Proof.
  intros Hl. destruct (ghost_since backend_rules (fun s => models_seen s = Some l)
    (fun _ o => listed_models o = Some l) (fun _ => True) (mkSeen None None None) tr)
    as (t1 & o & t2 & -> & Ho & _); [|done..|exists o; split; [set_solver|done]].
  intros s [X e y]. destruct e; cbn; auto.
Qed.
Lemma actives_since tr l : actives_seen (ghost backend_rules (mkSeen None None None) tr) = Some l ->
  exists o, o ∈ tr /\ listed_actives o = Some l.
Proof.
  intros Hl. destruct (ghost_since backend_rules (fun s => actives_seen s = Some l)
    (fun _ o => listed_actives o = Some l) (fun _ => True) (mkSeen None None None) tr)
    as (t1 & o & t2 & -> & Ho & _); [|done..|exists o; split; [set_solver|done]].
  intros s [X e y]. destruct e; cbn; auto.
Qed.

(** C21: a serving backend is not released.  The reconciler removes a backend's finalizer
    only after it listed the models and the active models, and found no active model, and
    no stable active resource's model, that names this backend in [backendRef]; on a
    backend that is not being deleted it only ever adds the finalizer. *)
Theorem serving_backend_not_released (W : Type) (h : handler kev W) (w : W) (lib : golib)
    (scr : ObjectMeta -> ObjectMeta -> result ObjectMeta) (client : bool) (ns name : string)
    (tr1 tr2 : list (obs kev)) (o : obs kev) (b : LLMBackend) :
  trace h (ReconcileBackend lib scr client ns name) w = tr1 ++ o :: tr2 -> backend_update_of o = Some b ->
  if time_is_zero (DeletionTimestamp (b_meta b))
  then BackendWorkloadFinalizer ∈ Finalizers (b_meta b)
  else exists o1 models o2 actives,
    o1 ∈ tr1 /\ listed_models o1 = Some models /\ o2 ∈ tr1 /\ listed_actives o2 = Some actives
    /\ (forall m, m ∈ models -> mst_active (m_status m) = true ->
          ms_backendRef (m_spec m) <> Some (Name (b_meta b)))
    /\ (forall a m, a ∈ actives -> m ∈ models -> ast_phase (a_status a) = ActiveModelPhaseStable ->
          m_name m = ast_modelName (a_status a) -> ms_backendRef (m_spec m) <> Some (Name (b_meta b))).
Proof.
  intros Htr Hw.
  destruct (rg_run_any backend_rules h (ReconcileBackend lib scr client ns name)
              (mkSeen None None None) w (fun _ _ => True)) as [Hm _]; [done|apply rg_ReconcileBackend|].
  specialize (Hm _ _ _ Htr).
  destruct o as [X e x]; destruct e; try discriminate Hw. injection Hw as ->. cbn in Hm.
  destruct (time_is_zero _); [done|]. destruct Hm as (ms & acts & Hms & Hacts & H1 & H2).
  apply models_since in Hms as (o1 & Ho1 & Hl1). apply actives_since in Hacts as (o2 & Ho2 & Hl2).
  exists o1, ms, o2, acts. split_and!; [done..| |].
  - intros m Hin Hact Href. rewrite Forall_forall in H1. specialize (H1 m Hin Hact).
    unfold refers_to in H1. rewrite Href, (bool_decide_eq_true_2 _ eq_refl) in H1. done.
  - intros a m Ha Hin Hst Hn Href. apply existsb_false_forall in H2. rewrite Forall_forall in H2.
    specialize (H2 a Ha). cbn in H2. rewrite (bool_decide_eq_true_2 _ Hst) in H2. cbn in H2.
    apply existsb_false_forall in H2. rewrite Forall_forall in H2. specialize (H2 m Hin). cbn in H2.
    rewrite (bool_decide_eq_true_2 _ Hn) in H2. unfold refers_to in H2.
    rewrite Href, (bool_decide_eq_true_2 _ eq_refl) in H2. done.
Qed.

(** ** Witnesses *)

Definition backend_cluster (b : LLMBackend) : handler kev unit := fun X e w =>
  (match e in kev X return X with GetBackend _ _ => Ok b | e => (cluster _ e tt).1 end, w).
Definition owned_meta (deleted : option Z) : ObjectMeta :=
  mkMeta "llm-laguna" "llm" "1" 3 1000 deleted [BackendWorkloadFinalizer] None None None.
Definition owned_backend (deleted : option Z) : LLMBackend :=
  mkBackend (owned_meta deleted) (b_spec llama_backend) (b_status llama_backend).
Definition set_owner (owner m : ObjectMeta) : result ObjectMeta := Ok m.

Lemma backend_status_witness :
  exists tr1 o tr2 b, trace (backend_cluster (owned_backend None))
      (ReconcileBackend sample_lib set_owner true "llm" "llm-laguna") tt = tr1 ++ o :: tr2
    /\ backend_write_of o = Some b /\ bst_phase (b_status b) = BackendPhaseServing
    /\ 0 < bst_available (b_status b).
Proof.
  set (tr := trace _ _ _).
  destruct (split_first (fun o => match backend_write_of o with
      | Some b => bst_phase (b_status b) == BackendPhaseServing | None => false end) tr)
    as (tr1 & o & tr2 & Htr & Ho); [vm_compute; reflexivity|].
  destruct (backend_write_of o) as [b|] eqn:Hw; [|discriminate Ho]. apply bool_decide_eq_true in Ho.
  exists tr1, o, tr2, b. split; [exact Htr|]. split; [exact Hw|]. split; [exact Ho|].
  apply (backend_status_sound unit _ tt sample_lib set_owner true "llm" "llm-laguna" tr1 tr2 o b Htr Hw). exact Ho.
Defined.

Lemma serving_backend_not_released_witness :
  exists tr1 o tr2 b, trace (backend_cluster (owned_backend (Some 9)))
      (ReconcileBackend sample_lib set_owner true "llm" "llm-laguna") tt = tr1 ++ o :: tr2
    /\ backend_update_of o = Some b
    /\ if time_is_zero (DeletionTimestamp (b_meta b)) then BackendWorkloadFinalizer ∈ Finalizers (b_meta b)
       else exists o1, o1 ∈ tr1.
Proof.
  set (tr := trace _ _ _).
  destruct (split_first (fun o => is_some (backend_update_of o)) tr) as (tr1 & o & tr2 & Htr & Ho); [vm_compute; reflexivity|].
  destruct (backend_update_of o) as [b|] eqn:Hw; [|discriminate Ho].
  exists tr1, o, tr2, b. split; [exact Htr|]. split; [exact Hw|].
  pose proof (serving_backend_not_released unit _ tt sample_lib set_owner true "llm" "llm-laguna" tr1 tr2 o b Htr Hw) as H.
  destruct (time_is_zero _); [exact H|]. destruct H as (o1 & ms & _ & _ & H & _). exists o1. exact H.
Defined.
