(* ===== verification/OverlayCtl.v ===== *)
(** * The overlay reconciler ([internal/controller/llmmodeloverlay_controller.go])

    An overlay is valid when its request defaults are a JSON object without a
    [model] key and its base model exists. *)

From S2P Require Import Prelude GoStrings Types Effects Api ActiveModelProps Samples.

Definition OverlayValidCondition : string := "OverlayValid".

Definition set_oobserved (o : LLMModelOverlay) : LLMModelOverlay :=
  with_ostatus o (mkOverlayStatus (ost_resolvedBaseModel (o_status o)) (ost_conditions (o_status o))
    (Generation (o_meta o))).
Definition set_resolved (base : string) (o : LLMModelOverlay) : LLMModelOverlay :=
  with_ostatus o (mkOverlayStatus base (ost_conditions (o_status o)) (ost_observedGeneration (o_status o))).

Section overlay_controller.
Context (lib : golib).

Definition validateRequestDefaults (raw : string) : result unit :=
  if (String.length raw =? 0)%nat then Ok tt else
  match decodeKeys lib raw with
  | Err e => Err (wrap "requestDefaults is not valid JSON: " e)
  | Ok keys =>
      if existsb (fun k => k == "model") keys
      then Err (errorf "requestDefaults must not contain a 'model' key")
      else Ok tt
  end.

(** Set the validity condition and write the status. *)
Definition conclude (st : ConditionStatus) (reason message : string) (post : LLMModelOverlay -> LLMModelOverlay)
    (o : LLMModelOverlay) : kprog outcome :=
  let! now := call Now in
  let! u := call (UpdateOverlayStatus (post
              (with_ostatus o (setOverlayCondition now OverlayValidCondition st reason message (o_status o))))) in
  Ret (match u with Err e => fail_with e | Ok _ => Return done_result None end).

Definition ReconcileOverlay (ns name : string) : kprog outcome :=
  let! got := call (GetOverlay ns name) in
  match got with
  | Err e => Ret (Return done_result (ignoreNotFound e))
  | Ok o =>
      let o := set_oobserved o in
      match validateRequestDefaults (o_requestDefaults o) with
      | Err e => conclude ConditionFalse "InvalidRequestDefaults" (err_msg e) (fun o => o) o
      | Ok _ =>
          let! list := call (ListModels (Namespace (o_meta o))) in
          match list with
          | Err _ => Ret (Return (mkResult false (seconds 5)) None)
          | Ok items =>
              match List.find (fun m => m_name m == o_baseModel o) items with
              | Some m => conclude ConditionTrue "Valid" "Overlay is valid" (fun o => o)
                            (set_resolved (m_name m) o)
              | None => conclude ConditionFalse "BaseModelNotFound"
                          ("no LLMModel with name " +:+ quote (o_baseModel o) +:+ " found") (set_resolved "") o
              end
          end
      end
  end.

(** The model watch compares the overlay's base model with the object name. *)
Definition enqueueForModel (ns objName : string) : kprog (list (string * string)) :=
  let! list := call (ListOverlays ns) in
  Ret (match list with
       | Err _ => []
       | Ok items => map (fun o => (Namespace (o_meta o), Name (o_meta o)))
           (List.filter (fun o => o_baseModel o == objName) items)
       end).
End overlay_controller.

(** ** Properties *)

Definition overlay_valid (o : LLMModelOverlay) : bool :=
  match find_condition OverlayValidCondition (ost_conditions (o_status o)) with
  | Some c => bool_decide (cond_status c = ConditionTrue)
  | None => false
  end.

Lemma overlay_valid_set now st reason message o post :
  (forall x, ost_conditions (o_status (post x)) = ost_conditions (o_status x)) ->
  overlay_valid (post (with_ostatus o (setOverlayCondition now OverlayValidCondition st reason message (o_status o))))
  = bool_decide (st = ConditionTrue).
Proof.
  intros Hp. unfold overlay_valid. rewrite Hp.
  cbn [o_status with_ostatus ost_conditions setOverlayCondition].
  destruct (upsert_found OverlayValidCondition st reason message now (ost_conditions (o_status o)))
    as (c & -> & _ & -> & _). done.
Qed.

Lemma validateRequestDefaults_ok lib raw :
  validateRequestDefaults lib raw = Ok tt <->
  raw = "" \/ exists keys, decodeKeys lib raw = Ok keys /\ "model" ∉ keys.
Proof.
  unfold validateRequestDefaults. destruct raw as [|c raw]; [cbn; naive_solver|]. cbn [String.length Nat.eqb].
  destruct (decodeKeys lib _) as [keys|e]; [|naive_solver].
  destruct (existsb _ keys) eqn:Hk.
  - split; [done|]. intros [?|(k & [= <-] & Hn)]; [done|]. exfalso. apply Hn.
    apply existsb_exists in Hk as (y & Hy & ->%bool_decide_eq_true). by apply list_elem_of_In.
  - split; [|done]. intros _. right. exists keys. split; [done|]. intros Hin.
    apply existsb_false_forall in Hk. rewrite Forall_forall in Hk. specialize (Hk _ Hin). done.
Qed.

Lemma conclude_writes {W} (h : handler kev W) st reason message post o w x :
  x ∈ overlay_writes (run h (conclude st reason message post o) w).1.1 ->
  exists now, x = post (with_ostatus o (setOverlayCondition now OverlayValidCondition st reason message (o_status o))).
Proof.
  unfold conclude. cbn [run bind call]. destruct (h _ Now w) as [now w3]. cbn [run bind call].
  destruct (h _ (UpdateOverlayStatus _) w3) as [u w4]. cbn.
  intros ->%list_elem_of_singleton. eauto.
Qed.

(** The writes of a run are those of the branch it takes. *)
Lemma overlay_writes_of {W} (h : handler kev W) lib ns name o items w x :
  (forall w, (h _ (GetOverlay ns name) w).1 = Ok o) ->
  (forall w, (h _ (ListModels (Namespace (o_meta o))) w).1 = Ok items) ->
  x ∈ overlay_writes (trace h (ReconcileOverlay lib ns name) w) ->
  exists now st reason message post o', x = post (with_ostatus o'
      (setOverlayCondition now OverlayValidCondition st reason message (o_status o')))
    /\ (forall y, ost_conditions (o_status (post y)) = ost_conditions (o_status y))
    /\ ost_observedGeneration (o_status x) = Generation (o_meta o)
    /\ (st = ConditionTrue <-> validateRequestDefaults lib (o_requestDefaults o) = Ok tt
                               /\ o_baseModel o ∈ map m_name items)
    /\ (st = ConditionTrue -> ost_resolvedBaseModel (o_status x) = o_baseModel o).
Proof.
  intros Hget Hlist. unfold trace, ReconcileOverlay. cbn [run bind call].
  specialize (Hget w). destruct (h _ (GetOverlay ns name) w) as [got w1]. cbn in Hget. subst got. cbn [bind].
  change (o_requestDefaults (set_oobserved o)) with (o_requestDefaults o).
  destruct (validateRequestDefaults lib (o_requestDefaults o)) as [[]|e] eqn:Hv.
  - cbn [run bind call]. change (Namespace (o_meta (set_oobserved o))) with (Namespace (o_meta o)).
    specialize (Hlist w1). destruct (h _ (ListModels _) w1) as [l w2]. cbn in Hlist. subst l. cbn [bind].
    change (o_baseModel (set_oobserved o)) with (o_baseModel o).
    destruct (List.find _ items) as [m|] eqn:Hf; destruct (run h (conclude _ _ _ _ _) w2) as [[tr out] w3] eqn:Hrun;
      cbn [fst]; intros Hx;
      (destruct (conclude_writes h _ _ _ _ _ w2 x ltac:(rewrite Hrun; exact Hx)) as [now ->]).
    + exists now, ConditionTrue, "Valid", "Overlay is valid", (fun o => o), (set_resolved (m_name m) (set_oobserved o)).
      split; [reflexivity|]; split; [done|]; split; [done|]. apply find_some in Hf as [Hin Hn%bool_decide_eq_true]. split; [|done].
      split; [|done]. intros _. split; [done|]. rewrite <- Hn. by apply list_elem_of_In, in_map.
    + exists now, ConditionFalse, "BaseModelNotFound",
        ("no LLMModel with name " +:+ quote (o_baseModel o) +:+ " found"), (set_resolved ""), (set_oobserved o).
      split; [reflexivity|]; split; [done|]; split; [done|].
      split; [|done]. split; [done|]. intros [_ Hin]. apply list_elem_of_fmap in Hin as (m & Hn & Hm).
      apply list_elem_of_In in Hm. pose proof (find_none _ _ Hf m Hm) as Hff. cbn in Hff.
      by rewrite (bool_decide_eq_true_2 _ (eq_sym Hn)) in Hff.
  - destruct (run h (conclude _ _ _ _ _) w1) as [[tr out] w3] eqn:Hrun. cbn [fst]. intros Hx.
    destruct (conclude_writes h _ _ _ _ _ w1 x ltac:(rewrite Hrun; exact Hx)) as [now ->].
    exists now, ConditionFalse, "InvalidRequestDefaults", (err_msg e), (fun o => o), (set_oobserved o).
    split; [reflexivity|]; split; [done|]; split; [done|].
    split; [|done]. split; [done|]. by intros [? _].
Qed.

(** The overlay verdict is exact.  The overlay reconciler marks an overlay valid if and
    only if its request defaults are empty or decode to an object without a [model] key and
    some listed model bears its base model's name; a valid overlay records that name. *)
Theorem overlay_verdict_exact (W : Type) (h : handler kev W) (w : W) (lib : golib) (ns name : string)
    (o : LLMModelOverlay) (items : list LLMModel) (x : LLMModelOverlay) :
  (forall w, (h _ (GetOverlay ns name) w).1 = Ok o) ->
  (forall w, (h _ (ListModels (Namespace (o_meta o))) w).1 = Ok items) ->
  x ∈ overlay_writes (trace h (ReconcileOverlay lib ns name) w) ->
  ost_observedGeneration (o_status x) = Generation (o_meta o)
  /\ (overlay_valid x = true <->
      (o_requestDefaults o = "" \/ exists keys, decodeKeys lib (o_requestDefaults o) = Ok keys /\ "model" ∉ keys)
      /\ o_baseModel o ∈ map m_name items)
  /\ (overlay_valid x = true -> ost_resolvedBaseModel (o_status x) = o_baseModel o).
Proof.
  intros Hget Hlist Hx.
  destruct (overlay_writes_of h lib ns name o items w x Hget Hlist Hx)
    as (now & st & reason & message & post & o' & -> & Hp & Hg & Hst & Hres).
  rewrite overlay_valid_set, bool_decide_eq_true by done.
  rewrite <- validateRequestDefaults_ok. done.
Qed.

Definition sample_overlay : LLMModelOverlay :=
  mkOverlay (sample_meta "fast" 4) "Fast Gemma" "google/gemma" "temperature" (mkOverlayStatus "" [] 0).
Definition overlay_cluster : handler kev unit := fun X e w =>
  (match e in kev X return X with GetOverlay _ _ => Ok sample_overlay | e => (cluster _ e tt).1 end, w).

Lemma overlay_verdict_witness :
  exists x, x ∈ overlay_writes (trace overlay_cluster (ReconcileOverlay sample_lib "llm" "fast") tt)
    /\ ost_observedGeneration (o_status x) = 4.
Proof.
  set (ws := overlay_writes _).
  assert (exists x, ws = [x]) as [x Hx] by (eexists; vm_compute; reflexivity).
  exists x. assert (x ∈ ws) as Hin by (rewrite Hx; apply list_elem_of_singleton; reflexivity).
  split; [exact Hin|].
  apply (overlay_verdict_exact unit overlay_cluster tt sample_lib "llm" "fast" sample_overlay [gemma; laguna] x);
    [intros []; reflexivity | intros []; reflexivity | exact Hin].
Defined.
