(* ===== verification/Admission.v ===== *)
(** * Admission and API conversion

    The validating webhooks ([internal/admission]), the v1beta1 [LLMBackend] and its
    conversion to and from the v1alpha1 hub ([api/cogito.dev/v1beta1]), and the
    manager's canary flag ([cmd/manager/main.go]). *)

From Stdlib Require Import Ascii.
From S2P Require Import Prelude GoStrings Types Effects Api Driver Workload ActiveModel ActiveModelProps Samples.

(** ** [LLMBackendValidator] *)

Definition hasReferences (b : LLMBackend) : bool :=
  (b_deploymentRef (b_spec b) != "") || (b_serviceRef (b_spec b) != "")
  || (b_containerName (b_spec b) != "") || negb (b_port (b_spec b) =? 0).

Definition resource_name (cap : BackendCapacitySpec) : string :=
  if cap_resourceName cap == "" then "nvidia.com/gpu" else cap_resourceName cap.
(** [Quantity.Value()] of a resource list entry; a missing entry is zero. *)
Definition quantity (l : gmap string Z) (name : string) : Z := default 0 (l !! name).

(** The checks on one container that carries the runtime's name. *)
Definition check_runtime (cap : BackendCapacitySpec) (c : Container) : result unit :=
  guard (length (elems (ctr_args c)) =? 0)%nat
    else errorf ("runtime container " +:+ quote (ctr_name c) +:+
           " must not set args; LLMModel supplies model-specific runtime arguments") in
  guard (quantity (ctr_requests c) (resource_name cap) =? cap_gpus cap)
        && (quantity (ctr_limits c) (resource_name cap) =? cap_gpus cap)
    else errorf ("runtime container " +:+ quote (ctr_name c) +:+ " GPU request and limit for "
           +:+ quote (resource_name cap) +:+ " must both equal capacity.gpus=" +:+ show_int (cap_gpus cap)) in
  Ok tt.

(** The loop over the containers: how many carry the name. *)
Fixpoint check_containers (cap : BackendCapacitySpec) (name : string) (cs : list Container) (count : Z)
    : result Z :=
  match cs with
  | [] => Ok count
  | c :: cs' =>
      if ctr_name c == name then
        try _ := check_runtime cap c in check_containers cap name cs' (count + 1)
      else check_containers cap name cs' count
  end.

Definition validateBackend (b : LLMBackend) : result unit :=
  match b_workload (b_spec b) with
  | None =>
      guard negb (negb (hasReferences b) || (b_deploymentRef (b_spec b) == "") || (b_serviceRef (b_spec b) == "")
                  || (b_containerName (b_spec b) == "") || (b_port (b_spec b) =? 0))
        else errorf "backend must declare either workload or complete deprecated deployment/service references" in
      Ok tt
  | Some w =>
      guard negb (hasReferences b)
        else errorf "workload mode cannot be combined with deprecated deploymentRef, serviceRef, containerName, or port" in
      match b_capacity (b_spec b) with
      | None => Err (errorf "workload mode requires capacity.gpus")
      | Some cap =>
          guard negb (cap_gpus cap <? 1) else errorf "workload mode requires capacity.gpus" in
          guard negb ((w_containerName w == "") || (bs_port (w_service w) =? 0))
            else errorf "workload.containerName and workload.service.port are required" in
          try count := check_containers cap (w_containerName w)
                         (pod_containers (pt_spec (bd_podTemplate (w_deployment w)))) 0 in
          guard count =? 1
            else errorf ("workload.containerName " +:+ quote (w_containerName w) +:+ " must select exactly one container") in
          let value := mget (pt_labels (bd_podTemplate (w_deployment w))) backendLabel in
          guard negb ((value != "") && (value != Name (b_meta b)))
            else errorf "pod template label llm.cogito.dev/backend is reserved for the controller" in
          Ok tt
      end
  end.

(** ** v1beta1 *)

Module V1beta1.
Record LLMBackendSpec := mkSpec {
  Type_ : BackendType; Capacity : option BackendCapacitySpec; Workload : option BackendWorkloadSpec }.
Record LLMBackend := mkBackend { meta : ObjectMeta; Spec : LLMBackendSpec; Status : LLMBackendStatus }.
End V1beta1.

(** The v1alpha1 spec that has only the v1beta1 fields. *)
Definition hub_spec (s : V1beta1.LLMBackendSpec) : LLMBackendSpec :=
  mkBackendSpec (V1beta1.Type_ s) (V1beta1.Capacity s) (V1beta1.Workload s) "" "" "" 0 "" None.

Definition validateV1Beta1Backend (b : V1beta1.LLMBackend) : result unit :=
  validateBackend (mkBackend (V1beta1.meta b) (hub_spec (V1beta1.Spec b))
    (mkBackendStatus BackendPhaseNone "" None 0 0 [] 0)).

(** [ConvertTo] fills [dst]: a nil capacity or workload leaves what [dst] holds. *)
Definition ConvertTo (src : V1beta1.LLMBackend) (dst : LLMBackend) : LLMBackend :=
  let s := b_spec dst in
  mkBackend (V1beta1.meta src)
    (mkBackendSpec (V1beta1.Type_ (V1beta1.Spec src))
       (match V1beta1.Capacity (V1beta1.Spec src) with Some c => Some c | None => b_capacity s end)
       (match V1beta1.Workload (V1beta1.Spec src) with Some w => Some w | None => b_workload s end)
       (b_deploymentRef s) (b_containerName s) (b_serviceRef s) (b_port s) (b_runtimeClassName s) (b_gpuResources s))
    (V1beta1.Status src).

Definition ConvertFrom (src : LLMBackend) (dst : V1beta1.LLMBackend) : result V1beta1.LLMBackend :=
  if negb (is_some (b_workload (b_spec src))) || hasReferences src then
    Err (errorf ("cannot convert reference-mode LLMBackend " +:+ quote (Name (b_meta src)) +:+
           " to v1beta1; migrate it to workload mode first"))
  else Ok (V1beta1.mkBackend (b_meta src)
         (V1beta1.mkSpec (b_type (b_spec src))
            (match b_capacity (b_spec src) with Some c => Some c | None => V1beta1.Capacity (V1beta1.Spec dst) end)
            (b_workload (b_spec src)))
         (b_status src)).

(** Zero values, as a conversion target. *)
Definition zero_meta : ObjectMeta := fresh_meta "" "".
Definition zero_backend : LLMBackend :=
  mkBackend zero_meta (mkBackendSpec "" None None "" "" "" 0 "" None) (mkBackendStatus BackendPhaseNone "" None 0 0 [] 0).
Definition zero_v1beta1 : V1beta1.LLMBackend :=
  V1beta1.mkBackend zero_meta (V1beta1.mkSpec "" None None) (mkBackendStatus BackendPhaseNone "" None 0 0 [] 0).

(** ** [LLMModelValidator] *)

(** [reader]: whether a client is configured. *)
Definition validateModel (reader : bool) (m : LLMModel) : kprog (result unit) :=
  match validateArgs m with
  | Err e => Ret (Err e)
  | Ok _ =>
      if negb reader then Ret (Ok tt) else
      let ns := Namespace (m_meta m) in
      let! list := call (ListModels ns) in
      match list with
      | Err e => Ret (Err (wrap "list models for canonical-name validation: " e))
      | Ok items =>
          match List.find (fun x => (Name (m_meta x) != Name (m_meta m)) && (m_name x == m_name m)) items with
          | Some x => Ret (Err (errorf ("canonical model name " +:+ quote (m_name m) +:+
                        " is already owned by LLMModel " +:+ quote (Name (m_meta x)))))
          | None =>
              match ms_backendRef (m_spec m) with
              | None => Ret (Ok tt)
              | Some ref =>
                  let! got := call (GetBackend ns ref) in
                  Ret (match got with
                       | Err e =>
                           if err_is ErrNotFound e
                           then Err (errorf ("referenced backend " +:+ quote ref +:+ " does not exist"))
                           else Err (wrap "get referenced backend: " e)
                       | Ok target =>
                           guard b_type (b_spec target) == m_backend m
                             else errorf ("referenced backend " +:+ quote (Name (b_meta target)) +:+ " has type "
                                    +:+ quote (b_type (b_spec target)) +:+ ", want " +:+ quote (m_backend m)) in
                           Ok tt
                       end)
              end
          end
      end
  end.

(** ** [parseTransitionCanaryModels] *)

Definition parseTransitionCanaryModels (value : string) : gset string :=
  list_to_set (List.filter (fun s => s != "") (map trim_space (split_on ","%char value))).

(** ** Properties *)

(** The runtime container of an admitted workload: named once, no arguments, and GPUs
    requested and limited to the declared capacity. *)
Record runtime_fits (cap : BackendCapacitySpec) (c : Container) : Prop := {
  rf_args : elems (ctr_args c) = [];
  rf_request : quantity (ctr_requests c) (resource_name cap) = cap_gpus cap;
  rf_limit : quantity (ctr_limits c) (resource_name cap) = cap_gpus cap;
}.

Lemma check_runtime_ok cap c : check_runtime cap c = Ok tt <-> runtime_fits cap c.
Proof.
  unfold check_runtime. split.
  - destruct (length _ =? 0)%nat eqn:Hl; [|done]. destruct (_ && _) eqn:Hg; [|done]. intros _.
    apply andb_true_iff in Hg as [??]. constructor; [|lia..].
    apply Nat.eqb_eq in Hl. by apply nil_length_inv.
  - intros [-> -> ->]. by rewrite !Z.eqb_refl.
Qed.

Lemma check_containers_ok cap name cs count n :
  check_containers cap name cs count = Ok n <->
  Forall (runtime_fits cap) (List.filter (fun c => ctr_name c == name) cs)
  /\ n = count + Z.of_nat (length (List.filter (fun c => ctr_name c == name) cs)).
Proof.
  revert count. induction cs as [|c cs IH]; intros count; simpl.
  - split; [intros [= <-]; split; [done|lia] | intros [_ ->]; f_equal; lia].
  - case_bool_decide; [|apply IH]. simpl. destruct (check_runtime cap c) as [[]|e] eqn:Hc; simpl.
    + apply check_runtime_ok in Hc. rewrite IH, Forall_cons. split; intros [H1 H2]; (split; [tauto|lia]).
    + split; [done|]. intros [HF _]. apply Forall_cons in HF as [Hf%check_runtime_ok _]. congruence.
Qed.

(** An admissible backend: complete references, or a self-contained workload. *)
Inductive admissible (b : LLMBackend) : Prop :=
| admissible_references :
    b_workload (b_spec b) = None -> b_deploymentRef (b_spec b) <> "" -> b_serviceRef (b_spec b) <> "" ->
    b_containerName (b_spec b) <> "" -> b_port (b_spec b) <> 0 -> admissible b
| admissible_workload (w : BackendWorkloadSpec) (cap : BackendCapacitySpec) (c : Container) :
    b_workload (b_spec b) = Some w -> hasReferences b = false ->
    b_capacity (b_spec b) = Some cap -> 1 <= cap_gpus cap ->
    w_containerName w <> "" -> bs_port (w_service w) <> 0 ->
    List.filter (fun c => ctr_name c == w_containerName w)
      (pod_containers (pt_spec (bd_podTemplate (w_deployment w)))) = [c] ->
    runtime_fits cap c ->
    mget (pt_labels (bd_podTemplate (w_deployment w))) backendLabel ∈ [""; Name (b_meta b)] -> admissible b.

Lemma validateBackend_ok (b : LLMBackend) : validateBackend b = Ok tt <-> admissible b.
Proof.
  unfold validateBackend. split.
  - destruct (b_workload (b_spec b)) as [w|] eqn:Hw.
    + destruct (hasReferences b) eqn:Hr; [done|]. destruct (b_capacity (b_spec b)) as [cap|] eqn:Hc; [|done].
      cbn [negb]. intros H. ok_inv. rewrite ?bool_decide_eq_false in *.
      match goal with H : check_containers _ _ _ _ = Ok _ |- _ => apply check_containers_ok in H as [HF Hn] end.
      destruct (List.filter _ _) as [|c [|]] eqn:Hf; simpl in Hn; [lia| |lia]. inversion HF; subst.
      eapply admissible_workload; eauto; [lia..|].
      rewrite elem_of_cons, list_elem_of_singleton.
      match goal with H : (_ != _) && _ = false |- _ => apply andb_false_iff in H end.
      rewrite !negb_false_iff, !bool_decide_eq_true in *. done.
    + intros H. ok_inv. rewrite ?bool_decide_eq_false in *. apply admissible_references; auto. lia.
  - intros [Hw H1 H2 H3 H4|w cap c Hw Hr Hc Hg Hn Hp Hf Hfit Hl]; rewrite Hw.
    + unfold hasReferences. rewrite !bool_decide_eq_false_2 by done. by rewrite (proj2 (Z.eqb_neq _ _) H4).
    + rewrite Hr, Hc. cbn [negb]. rewrite (proj2 (Z.ltb_ge _ _)) by lia. cbn [negb].
      rewrite (bool_decide_eq_false_2 _ Hn), (proj2 (Z.eqb_neq _ _) Hp). cbn [negb orb].
      rewrite (proj2 (check_containers_ok cap (w_containerName w) _ 0 1)).
      2:{ rewrite Hf. split; [by apply Forall_singleton | done]. }
      simpl. rewrite elem_of_cons, list_elem_of_singleton in Hl.
      destruct Hl as [-> | ->]; [done|]. rewrite (bool_decide_eq_true_2 (Name _ = Name _)) by done.
      by rewrite andb_false_r.
Qed.

(** Backend admission accepts exactly the admissible backends: complete deprecated
    references and no workload, or a workload without references whose capacity is at
    least one GPU and whose container name selects exactly one container, with no
    arguments of its own and GPU request and limit equal to the capacity, and whose pod
    label is free or the backend's own name. *)
Theorem validateBackend_exact (b : LLMBackend) : validateBackend b = Ok tt <-> admissible b.
Proof. apply validateBackend_ok. Qed.

(** C39: v1beta1 objects survive the hub.  Converting to v1alpha1 and back gives the object
    back, for every object that has a workload; and converting an accepted v1alpha1 object
    to v1beta1 and back changes nothing but [runtimeClassName] and [gpuResources], which
    v1beta1 cannot carry and the conversion drops without an error. *)
Theorem conversion_roundtrip (v : V1beta1.LLMBackend) (b : LLMBackend) (w : BackendWorkloadSpec) :
  V1beta1.Workload (V1beta1.Spec v) = Some w ->
  ConvertFrom (ConvertTo v zero_backend) zero_v1beta1 = Ok v
  /\ forall v', ConvertFrom b zero_v1beta1 = Ok v' ->
       ConvertTo v' zero_backend =
         mkBackend (b_meta b)
           (let s := b_spec b in
            mkBackendSpec (b_type s) (b_capacity s) (b_workload s) (b_deploymentRef s) (b_containerName s)
              (b_serviceRef s) (b_port s) "" None)
           (b_status b).
Proof.
  intros Hw. split.
  - destruct v as [meta [ty cap wl] st]. simpl in Hw. subst wl. by destruct cap.
  - intros v'. unfold ConvertFrom. destruct b as [meta [ty cap wl dr cn sr port rc gpu] st]. cbn.
    destruct wl as [w'|]; [|done]. cbn. unfold hasReferences. cbn.
    destruct (bool_decide (dr = "")) eqn:H1; [|done]. destruct (bool_decide (sr = "")) eqn:H2; [|done].
    destruct (bool_decide (cn = "")) eqn:H3; [|done]. destruct (port =? 0) eqn:H4; [|done]. cbn.
    rewrite bool_decide_eq_true in *. subst. apply Z.eqb_eq in H4. subst port.
    intros [= <-]. by destruct cap.
Qed.

Lemma conversion_roundtrip_witness :
  exists w, b_workload (b_spec llama_backend) = Some w
    /\ exists v, ConvertFrom llama_backend zero_v1beta1 = Ok v
       /\ ConvertFrom (ConvertTo v zero_backend) zero_v1beta1 = Ok v.
Proof.
  eexists. split; [reflexivity|]. eexists. split; [reflexivity|].
  exact (proj1 (conversion_roundtrip (V1beta1.mkBackend (b_meta llama_backend)
    (V1beta1.mkSpec (b_type (b_spec llama_backend)) (b_capacity (b_spec llama_backend)) (b_workload (b_spec llama_backend)))
    (b_status llama_backend)) llama_backend _ eq_refl)).
Defined.

(** An admitted workload passes the checks the backend reconciler repeats, and its pod
    template has exactly one runtime container. *)
Lemma admissible_container b w :
  admissible b -> b_workload (b_spec b) = Some w ->
  exists c i, findContainer (w_containerName w) (pod_containers (pt_spec (bd_podTemplate (w_deployment w)))) = Some (i, c)
    /\ elems (ctr_args c) = [].
Proof.
  intros [Hn| w0 cap c Hw Hr Hc Hg Hn Hp Hf Hfit Hl] Hw'; [congruence|].
  rewrite Hw in Hw'. injection Hw' as ->. unfold findContainer.
  destruct (list_find _ _) as [[i c']|] eqn:E.
  - apply list_find_Some in E as (Hi & Hname & _). exists c', i. split; [done|].
    assert (In c' [c]) as [<-|[]]; [|apply Hfit].
    rewrite <- Hf. apply filter_In. split; [|by apply bool_decide_eq_true].
    apply list_elem_of_In. by eapply list_elem_of_lookup_2.
  - apply list_find_None in E. assert (In c [c]) as Hin by (by left). rewrite <- Hf in Hin.
    apply filter_In in Hin as [Hin Hname%bool_decide_eq_true]. rewrite Forall_forall in E.
    by destruct (E c (proj2 (list_elem_of_In _ _) Hin)).
Qed.

(** C38: what admission accepts, the reconciler can materialize.  For an admitted
    workload-mode backend [ensureBackendWorkload] never reports the workload invalid: its
    own checks pass, and it goes on to write the Service and then the Deployment. *)
Theorem admitted_workload_materializes (scr : ObjectMeta -> ObjectMeta -> result ObjectMeta)
    (b : LLMBackend) (w : BackendWorkloadSpec) :
  validateBackend b = Ok tt -> b_workload (b_spec b) = Some w ->
  ensureBackendWorkload scr b =
    (let! r := ensureService scr b w in
     match r with Err e => Ret (Err e) | Ok _ => ensureDeployment scr b w end).
Proof.
  intros Hv Hw. apply validateBackend_ok in Hv as Ha. unfold ensureBackendWorkload. rewrite Hw.
  destruct (admissible_container b w Ha Hw) as (c & i & Hf & _).
  destruct Ha as [Hn|w0 cap c' Hw0 _ _ _ Hn Hp _ _ _]; [congruence|].
  rewrite Hw in Hw0. injection Hw0 as <-.
  rewrite (bool_decide_eq_false_2 _ Hn), (proj2 (Z.eqb_neq _ _) Hp). cbn [orb].
  assert (hasContainer (pod_containers (pt_spec (bd_podTemplate (w_deployment w)))) (w_containerName w) = true) as ->.
  { apply existsb_exists. exists c. unfold findContainer in Hf. apply list_find_Some in Hf as (Hi & Hname & _).
    split; [|by apply bool_decide_eq_true]. apply list_elem_of_In. by eapply list_elem_of_lookup_2. }
  done.
Qed.

Definition gpu_container : Container :=
  mkContainer "runtime" None [] None {["nvidia.com/gpu" := 2]} {["nvidia.com/gpu" := 2]} "image".
Definition gpu_backend : LLMBackend :=
  mkBackend (sample_meta "llm-gpu" 1)
    (mkBackendSpec BackendVLLM (Some (mkCapacity 2 ""))
       (Some (mkWorkload "runtime"
                (mkBackendDeployment "" (Some 0) "Recreate"
                   (mkPodTemplate None None (mkPodSpec [sidecar; gpu_container] None "")))
                (mkBackendService "" 8000 "" None)))
       "" "" "" 0 "" None)
    (mkBackendStatus BackendPhaseStopped "" None 0 0 [] 1).

Lemma admitted_workload_witness :
  exists w, b_workload (b_spec gpu_backend) = Some w
    /\ ensureBackendWorkload (fun _ m => Ok m) gpu_backend =
       (let! r := ensureService (fun _ m => Ok m) gpu_backend w in
        match r with Err e => Ret (Err e) | Ok _ => ensureDeployment (fun _ m => Ok m) gpu_backend w end).
Proof.
  eexists. split; [reflexivity|].
  apply admitted_workload_materializes; [vm_compute; reflexivity | reflexivity].
Defined.

(** An admitted model is unambiguous.  When the model webhook admits a model, the
    runtime's driver accepts it, every listed model with its canonical name is the object
    itself, so a lookup by canonical name cannot return another object, and a referenced
    backend exists and has the model's backend type. *)
Theorem admitted_model_unambiguous (W : Type) (h : handler kev W) (w : W) (m : LLMModel)
    (items : list LLMModel) :
  (forall w, (h _ (ListModels (Namespace (m_meta m))) w).1 = Ok items) ->
  value h (validateModel true m) w = Ok tt ->
  validateArgs m = Ok tt
  /\ (forall x, x ∈ items -> m_name x = m_name m -> Name (m_meta x) = Name (m_meta m))
  /\ (forall x, List.find (fun y => m_name y == m_name m) items = Some x -> Name (m_meta x) = Name (m_meta m))
  /\ (forall ref, ms_backendRef (m_spec m) = Some ref ->
        exists w' b, (h _ (GetBackend (Namespace (m_meta m)) ref) w').1 = Ok b /\ b_type (b_spec b) = m_backend m).
Proof.
  intros Hl. unfold value, validateModel. destruct (validateArgs m) as [[]|e]; [|done].
  cbn [negb run bind call]. specialize (Hl w). destruct (h _ (ListModels _) w) as [l w1]. cbn in Hl. subst l.
  cbn [bind]. destruct (List.find _ items) as [x|] eqn:Hf; [done|]. intros Hv.
  assert (forall x, x ∈ items -> m_name x = m_name m -> Name (m_meta x) = Name (m_meta m)) as Huniq.
  { intros x Hx Hn. apply list_elem_of_In in Hx. pose proof (find_none _ _ Hf x Hx) as Hff. cbn in Hff.
    rewrite (bool_decide_eq_true_2 _ Hn), andb_true_r in Hff. by apply negb_false_iff, bool_decide_eq_true in Hff. }
  split_and!; [done|exact Huniq| |].
  - intros x [Hx Hn%bool_decide_eq_true]%find_some. apply Huniq; [by apply list_elem_of_In | done].
  - intros ref Href. rewrite Href in Hv. cbn [run bind call] in Hv.
    destruct (h _ (GetBackend _ _) w1) as [got w2] eqn:Hg. cbn in Hv.
    destruct got as [b|e]; [|by destruct (err_is _ _)]. case_bool_decide as Ht; [|done].
    exists w1, b. by rewrite Hg.
Qed.

Lemma admitted_model_witness :
  validateArgs gemma = Ok tt
  /\ forall x, x ∈ [gemma; laguna] -> m_name x = m_name gemma -> Name (m_meta x) = Name (m_meta gemma).
Proof.
  destruct (admitted_model_unambiguous unit cluster tt gemma [gemma; laguna]) as (H1 & H2 & _);
    [intros []; reflexivity | vm_compute; reflexivity |].
  split; [exact H1 | exact H2].
Defined.

(** The canary flag means what is written in it.  A comma-separated list of non-empty
    trimmed names without commas parses to exactly those names, and an empty or blank flag
    to the empty set, which permits every model. *)
Theorem canary_flag_roundtrip (l : list string) :
  Forall (fun x => has_char ","%char x = false /\ trim_space x = x /\ x <> "") l ->
  parseTransitionCanaryModels (join "," l) = list_to_set l.
Proof.
  intros Hl. destruct l as [|x l]; [reflexivity|]. unfold parseTransitionCanaryModels.
  change "," with (char1 ","%char). rewrite split_join; [|done|].
  2:{ eapply Forall_impl; [exact Hl|]. by intros y (? & _). }
  f_equal. revert Hl. generalize (x :: l). clear x l.
  induction 1 as [|x l (_ & Ht & Hne) _ IH]; simpl; [done|].
  rewrite Ht. rewrite (bool_decide_eq_false_2 _ Hne). simpl. by rewrite IH.
Qed.

Lemma canary_flag_witness :
  parseTransitionCanaryModels "google/gemma,poolside/laguna" = {["google/gemma"; "poolside/laguna"]}.
Proof.
  change "google/gemma,poolside/laguna" with (join "," ["google/gemma"; "poolside/laguna"]).
  rewrite (canary_flag_roundtrip ["google/gemma"; "poolside/laguna"]).
  - simpl. rewrite (right_id_L ∅ (∪)). reflexivity.
  - repeat constructor; vm_compute; congruence.
Defined.

(** Nothing in admission keeps a pod template off the controller's own names: this
    backend is accepted, and the Deployment its reconcile writes over one that runs gemma
    matches gemma no longer. *)
Definition clashing_backend : LLMBackend :=
  mkBackend (sample_meta "llm-gpu" 1)
    (mkBackendSpec BackendVLLM (Some (mkCapacity 2 ""))
       (Some (mkWorkload "runtime"
                (mkBackendDeployment "" (Some 0) "Recreate"
                   (mkPodTemplate None None
                      (mkPodSpec [sidecar; gpu_container]
                         (Some [mkVolume chatTemplateVolumeName None "emptyDir"]) "")))
                (mkBackendService "" 8000 "" None)))
       "" "" "" 0 "" None)
    (mkBackendStatus BackendPhaseStopped "" None 0 0 [] 1).
Definition running_gemma : Deployment :=
  with_dspec (sample_deployment "llm-gpu" 0 empty_status)
    (activated_spec "now" gemma (d_spec (sample_deployment "x" 0 empty_status)) 1 runtime_container).

Lemma reserved_volume_admitted :
  validateBackend clashing_backend = Ok tt
  /\ spec_matches gemma "runtime" (d_spec running_gemma) = Some true
  /\ match b_workload (b_spec clashing_backend) with
     | Some w => spec_matches gemma "runtime" (d_spec (desired_deployment clashing_backend w (Some running_gemma)))
     | None => None
     end = Some false.
Proof. split; [|split]; vm_compute; reflexivity. Qed.
