(* ===== verification/Migration.v ===== *)
(** * Migration of legacy ConfigMaps ([internal/migration/configmap.go])

    The labelled ConfigMaps of the old proxy become [LLMModel] and
    [LLMModelOverlay] objects, in namespace/name order.  The YAML and JSON codecs
    are parameters. *)

From stdpp Require Import sorting.
From S2P Require Import Prelude GoStrings Types Samples.

Definition ModelConfigLabel : string := "llm.cogito.dev/model-config".
Definition ModelOverlayLabel : string := "llm.cogito.dev/model-overlay".
Definition MigratedFromAnnotation : string := "llm.cogito.dev/migrated-from-configmap".

Record legacyModel := mkLegacy {
  lg_model : LLMModelRef; lg_artifact : option ArtifactSpec; lg_serving : ServingSpec }.

(** One document of the YAML stream: its type and the ConfigMap read from it. *)
Record document := mkDocument { doc_apiVersion : string; doc_kind : string; doc_cm : ConfigMap }.

Inductive object := ObjModel (m : LLMModel) | ObjOverlay (o : LLMModelOverlay).

Definition cm_ref (cm : ConfigMap) : string := Namespace (cm_meta cm) +:+ "/" +:+ Name (cm_meta cm).

(** The decoder's documents until the end of the stream or its error. *)
Fixpoint DecodeConfigMaps (docs : list (result document)) : result (list ConfigMap) :=
  match docs with
  | [] => Ok []
  | Err e :: _ => Err (wrap "decode input: " e)
  | Ok d :: docs' =>
      if (doc_apiVersion d == "") && (doc_kind d == "") && (Name (cm_meta (doc_cm d)) == "") then
        DecodeConfigMaps docs'
      else
        guard negb ((doc_apiVersion d != "v1") || (doc_kind d != "ConfigMap"))
          else errorf (cm_ref (doc_cm d) +:+ " is " +:+ doc_apiVersion d +:+ " " +:+ doc_kind d +:+ ", want v1 ConfigMap") in
        try rest := DecodeConfigMaps docs' in Ok (doc_cm d :: rest)
  end.

Section convert.
Context (decodeLegacy : string -> result legacyModel).
Context {V : Type} (yamlUnmarshal : string -> result V) (jsonMarshal : V -> result string).

Definition migratedObjectMeta (cm : ConfigMap) (name : string) : ObjectMeta :=
  with_annotations (fresh_meta name (Namespace (cm_meta cm)))
    (Some {[MigratedFromAnnotation := Name (cm_meta cm)]}).

Definition convertModel (cm : ConfigMap) : result LLMModel :=
  let raw := mget (cm_data cm) "model.yaml" in
  guard raw != "" else errorf ("model ConfigMap " +:+ cm_ref cm +:+ " is missing data.model.yaml") in
  match decodeLegacy raw with
  | Err e => Err (wrap ("decode model ConfigMap " +:+ cm_ref cm +:+ ": ") e)
  | Ok legacy =>
      guard negb ((ref_name (lg_model legacy) == "") || (ref_source (lg_model legacy) == "")
                  || (srv_backend (lg_serving legacy) == ""))
        else errorf ("model ConfigMap " +:+ cm_ref cm +:+ " is missing model.name, model.source, or serving.backend") in
      Ok (mkModel (migratedObjectMeta cm (Name (cm_meta cm)))
            (mkModelSpec (lg_model legacy) (lg_artifact legacy) (lg_serving legacy) None)
            (mkModelStatus ModelPhaseNone false None None [] 0))
  end.

Definition convertOverlay (cm : ConfigMap) : result LLMModelOverlay :=
  let name := mget (cm_data cm) "model_name" in
  let displayName := mget (cm_data cm) "display_name" in
  let baseModel := mget (cm_data cm) "base_model" in
  let defaults := mget (cm_data cm) "request_defaults.json" in
  guard negb ((name == "") || (displayName == "") || (baseModel == "") || (defaults == ""))
    else errorf ("overlay ConfigMap " +:+ cm_ref cm +:+
           " is missing model_name, display_name, base_model, or request_defaults.json") in
  match yamlUnmarshal defaults with
  | Err e => Err (wrap ("decode request defaults in overlay ConfigMap " +:+ cm_ref cm +:+ ": ") e)
  | Ok v =>
      match jsonMarshal v with
      | Err e => Err (wrap ("encode request defaults in overlay ConfigMap " +:+ cm_ref cm +:+ ": ") e)
      | Ok bytes => Ok (mkOverlay (migratedObjectMeta cm name) displayName baseModel bytes
                          (mkOverlayStatus "" [] 0))
      end
  end.

Definition isModel (cm : ConfigMap) : bool := mget (Labels (cm_meta cm)) ModelConfigLabel == "true".
Definition isOverlay (cm : ConfigMap) : bool := mget (Labels (cm_meta cm)) ModelOverlayLabel == "true".

(** The loop of [ConvertConfigMaps] over the sorted list. *)
Fixpoint convert_all (cms : list ConfigMap) : result (list object) :=
  match cms with
  | [] => Ok []
  | cm :: cms' =>
      if negb (isModel cm) && negb (isOverlay cm) then convert_all cms'
      else if isModel cm && isOverlay cm then
        Err (errorf ("ConfigMap " +:+ cm_ref cm +:+ " has both migration labels"))
      else if isModel cm then
        try m := convertModel cm in try rest := convert_all cms' in Ok (ObjModel m :: rest)
      else
        try o := convertOverlay cm in try rest := convert_all cms' in Ok (ObjOverlay o :: rest)
  end.

Definition cm_less (a b : ConfigMap) : bool :=
  if Namespace (cm_meta a) == Namespace (cm_meta b)
  then String.ltb (Name (cm_meta a)) (Name (cm_meta b))
  else String.ltb (Namespace (cm_meta a)) (Namespace (cm_meta b)).

Definition ConvertConfigMaps (cms : list ConfigMap) : result (list object) :=
  convert_all (sort_slice cm_less cms).
End convert.

(** ** Properties *)

Lemma string_ltb_irrefl x : String.ltb x x = false.
Proof. destruct (String.ltb x x) eqn:E; [|done]. by rewrite (string_ltb_asym _ _ E) in E. Qed.

Lemma cm_less_asym a b : cm_less a b = true -> cm_less b a = false.
Proof.
  unfold cm_less. case_bool_decide as E1; case_bool_decide as E2; try congruence; apply string_ltb_asym.
Qed.
Lemma cm_less_neg_trans a b c : cm_less a b = false -> cm_less b c = false -> cm_less a c = false.
Proof.
  unfold cm_less. destruct (cm_meta a) as [na nsa], (cm_meta b) as [nb nsb], (cm_meta c) as [nc nsc]. cbn.
  repeat case_bool_decide; subst; try congruence; try apply string_ltb_neg_trans; try done.
  intros H1 H2. exfalso. eauto using string_ltb_total.
Qed.

Definition cm_key (cm : ConfigMap) : string * string := (Namespace (cm_meta cm), Name (cm_meta cm)).

Lemma cm_less_total a b : cm_less a b = false -> cm_less b a = false -> cm_key a = cm_key b.
Proof.
  unfold cm_less, cm_key. case_bool_decide as E1; case_bool_decide as E2; try congruence; intros H1 H2.
  - rewrite E1. f_equal. by apply string_ltb_total.
  - by destruct E1; apply string_ltb_total.
Qed.

Section migration_props.
Context (decodeLegacy : string -> result legacyModel).
Context {V : Type} (yamlUnmarshal : string -> result V) (jsonMarshal : V -> result string).

Definition labelled (cm : ConfigMap) : bool := isModel cm || isOverlay cm.

(** The object stands for the ConfigMap: same namespace, its origin annotated, and the
    required fields present. *)
Definition stands_for (cm : ConfigMap) (x : object) : Prop :=
  match x with
  | ObjModel m =>
      isModel cm = true /\ isOverlay cm = false
      /\ m_meta m = migratedObjectMeta cm (Name (cm_meta cm))
      /\ m_name m <> "" /\ ref_source (ms_model (m_spec m)) <> "" /\ m_backend m <> ""
  | ObjOverlay o =>
      isModel cm = false /\ isOverlay cm = true
      /\ o_meta o = migratedObjectMeta cm (mget (cm_data cm) "model_name")
      /\ o_displayName o = mget (cm_data cm) "display_name"
      /\ o_baseModel o = mget (cm_data cm) "base_model" /\ o_baseModel o <> ""
  end.

Lemma convertModel_stands cm m :
  convertModel decodeLegacy cm = Ok m -> isModel cm = true -> isOverlay cm = false -> stands_for cm (ObjModel m).
Proof.
  unfold convertModel. intros H H1 H2. destruct (negb _); [|done].
  destruct (decodeLegacy _) as [lg|]; [|done]. ok_inv. rewrite bool_decide_eq_false in *. done.
Qed.
Lemma convertOverlay_stands cm o :
  convertOverlay yamlUnmarshal jsonMarshal cm = Ok o -> isModel cm = false -> isOverlay cm = true ->
  stands_for cm (ObjOverlay o).
Proof.
  unfold convertOverlay. intros H H1 H2. destruct (negb _) eqn:Hn; [|done]. ok_inv.
  rewrite bool_decide_eq_false in *. destruct (yamlUnmarshal _); [|done]. destruct (jsonMarshal _); [|done].
  ok_inv. done.
Qed.

Lemma convert_all_stands cms objs :
  convert_all decodeLegacy yamlUnmarshal jsonMarshal cms = Ok objs ->
  Forall2 stands_for (List.filter labelled cms) objs.
Proof.
  revert objs. induction cms as [|cm cms IH]; intros objs H; simpl in *; [ok_inv; constructor|].
  unfold labelled. destruct (isModel cm) eqn:Hm, (isOverlay cm) eqn:Ho; simpl in *; [done|..].
  - ok_inv. constructor; [by apply convertModel_stands | by apply IH].
  - ok_inv. constructor; [by apply convertOverlay_stands | by apply IH].
  - by apply IH.
Qed.
End migration_props.

(** C40: the migration loses nothing and invents nothing.  When it succeeds, its output is
    one object per labelled ConfigMap, in namespace/name order: a model or an overlay as
    the single label says, in the same namespace, annotated with the ConfigMap it came
    from, with every required field present; unlabelled ConfigMaps contribute nothing. *)
Theorem migration_complete (decodeLegacy : string -> result legacyModel) (V : Type)
    (yamlUnmarshal : string -> result V) (jsonMarshal : V -> result string)
    (cms : list ConfigMap) (objs : list object) :
  ConvertConfigMaps decodeLegacy yamlUnmarshal jsonMarshal cms = Ok objs ->
  exists sorted, sorted ≡ₚ cms /\ StronglySorted (fun a b => cm_less b a = false) sorted
    /\ Forall2 stands_for (List.filter labelled sorted) objs
    /\ length objs = length (List.filter labelled cms).
Proof.
  intros H. exists (sort_slice cm_less cms).
  pose proof (sort_slice_perm cm_less cms) as Hp.
  pose proof (convert_all_stands _ _ _ _ _ H) as HF.
  split_and!; [done|apply (sort_slice_sorted cm_less cm_less_asym cm_less_neg_trans)|done|].
  apply Forall2_length in HF. rewrite <- HF. clear -Hp. induction Hp; simpl; try done; repeat case_match; simpl; lia.
Qed.

(** The migration is deterministic.  ConfigMaps with distinct namespaces and names are
    converted to the same output, or refused with the same error, in whatever order they
    are given. *)
Theorem migration_order_independent (decodeLegacy : string -> result legacyModel) (V : Type)
    (yamlUnmarshal : string -> result V) (jsonMarshal : V -> result string) (cms cms' : list ConfigMap) :
  cms ≡ₚ cms' -> NoDup (map cm_key cms) ->
  ConvertConfigMaps decodeLegacy yamlUnmarshal jsonMarshal cms
  = ConvertConfigMaps decodeLegacy yamlUnmarshal jsonMarshal cms'.
Proof.
  intros Hp Hnd. unfold ConvertConfigMaps. f_equal.
  pose proof (sort_slice_perm cm_less cms) as H1. pose proof (sort_slice_perm cm_less cms') as H2.
  eapply (StronglySorted_unique_strong (fun a b => cm_less b a = false));
    [|apply (sort_slice_sorted cm_less cm_less_asym cm_less_neg_trans)..|by rewrite H1, H2].
  intros x y Hx Hy Hxy Hyx. rewrite H1 in Hx. rewrite H2, <- Hp in Hy.
  assert (cm_key x = cm_key y) as Hk by (symmetry; by apply cm_less_total).
  clear -Hnd Hx Hy Hk. revert Hnd Hx Hy. induction cms as [|c l IH]; intros Hnd Hx Hy; [by apply elem_of_nil in Hx|].
  cbn in Hnd. apply NoDup_cons in Hnd as [Hc Hnd]. apply elem_of_cons in Hx as [->|Hx]; apply elem_of_cons in Hy as [->|Hy]; [done| | |by apply IH].
  - destruct Hc. rewrite Hk. by apply list_elem_of_fmap_2.
  - destruct Hc. rewrite <- Hk. by apply list_elem_of_fmap_2.
Qed.

Definition sample_cm (name label : string) (data : strmap) : ConfigMap :=
  mkConfigMap (with_labels (sample_meta name 1) (Some {[label := "true"]})) (Some data).
Definition sample_cms : list ConfigMap :=
  [sample_cm "zeta" ModelConfigLabel {["model.yaml" := "yaml"]};
   sample_cm "other" "app" ∅;
   sample_cm "alpha" ModelOverlayLabel (list_to_map
     [("model_name", "fast"); ("display_name", "Fast"); ("base_model", "google/gemma"); ("request_defaults.json", "{}")])].
Definition sample_decode (_ : string) : result legacyModel :=
  Ok (mkLegacy (ms_model (m_spec gemma)) None (m_serving gemma)).

Lemma migration_complete_witness :
  exists objs, ConvertConfigMaps sample_decode (fun s => Ok s) (fun s => Ok s) sample_cms = Ok objs
    /\ length objs = 2%nat.
Proof.
  destruct (ConvertConfigMaps sample_decode (fun s => Ok s) (fun s => Ok s) sample_cms) as [objs|e] eqn:H;
    [|vm_compute in H; discriminate H].
  exists objs. split; [reflexivity|].
  destruct (migration_complete sample_decode string (fun s => Ok s) (fun s => Ok s) sample_cms objs H)
    as (_ & _ & _ & _ & ->). vm_compute. reflexivity.
Defined.

Lemma migration_order_witness :
  ConvertConfigMaps sample_decode (fun s : string => Ok s) (fun s => Ok s) sample_cms
  = ConvertConfigMaps sample_decode (fun s : string => Ok s) (fun s => Ok s) (rev sample_cms).
Proof.
  apply (migration_order_independent sample_decode string (fun s => Ok s) (fun s => Ok s));
    [apply Permutation_rev|]. vm_compute. repeat constructor; set_solver.
Defined.
