(* ===== verification/CacheFs.v ===== *)
(** * The file system and the services around the cache manager

    [cmd/llm-proxy/cache_manager.go] works on two directory trees through [os],
    [filepath] and [syscall], runs two external commands and starts background
    goroutines.  Each of these calls is a request of [fev]; replies are
    unconstrained, so that a run may interleave with any other process or
    goroutine working on the same trees. *)

From S2P Require Import Prelude GoStrings GoPath Types Effects Api.

(** What [os.FileInfo] says: the type bits of the mode, size, modification time. *)
Inductive filemode := ModeRegular | ModeDir | ModeSymlink | ModeIrregular.
#[export] Instance filemode_eq_dec : EqDecision filemode.
Proof. solve_decision. Defined.
Record fileinfo := mkInfo { fi_mode : filemode; fi_size : Z; fi_mtime : Z }.
Definition IsRegular (i : fileinfo) : bool := fi_mode i == ModeRegular.
Definition IsDir (i : fileinfo) : bool := fi_mode i == ModeDir.
Definition IsSymlink (i : fileinfo) : bool := fi_mode i == ModeSymlink.

(** [syscall.Statfs_t]. *)
Record statfs := mkStatfs { st_blocks : Z; st_bavail : Z; st_bsize : Z }.

(** The atomic counters of [cacheManager]. *)
Inductive counter := sweeps | evictions | archived | hydrated | failures.

(** The parts of a Pod that [discoverPVCLimits] reads. *)
Record VolumeMountPath := mkMount { vmp_name : string; vmp_path : string }.
Record PodContainerView := mkPodContainerView { pc_name : string; pc_mounts : list VolumeMountPath }.
Record PodVolumeView := mkPodVolumeView { pv_name : string; pv_claim : option string }.
Record PodView := mkPodView { pod_containers : list PodContainerView; pod_volumes : list PodVolumeView }.

Inductive fev : Type -> Type :=
| FStat (p : string) : fev (result fileinfo)
| FLstat (p : string) : fev (result fileinfo)
| FReadlink (p : string) : fev (result string)
| FEvalSymlinks (p : string) : fev (result string)
| FReadFile (p : string) : fev (result string)
| FWriteFile (p body : string) : fev (result unit)
(** [os.ReadDir]: the entries read, in name order, and the error that stopped it *)
| FReadDir (p : string) : fev (list string * option error)
(** [DirEntry.Info] of an entry of directory [p] *)
| FInfo (p name : string) : fev (result fileinfo)
| FMkdirAll (p : string) : fev (result unit)
| FMkdirTemp (dir prefix : string) : fev (result string)
| FRemove (p : string) : fev (result unit)
| FRemoveAll (p : string) : fev (result unit)
| FRename (from to : string) : fev (result unit)
| FSymlink (target p : string) : fev (result unit)
| FChtimes (p : string) (atime mtime : Z) : fev (result unit)
| FOpen (p : string) : fev (result unit)
| FCreate (p : string) : fev (result unit)
(** [io.CopyBuffer] from an open source into a created destination: the bytes copied *)
| FCopy (from to : string) : fev (result string)
(** [io.CopyBuffer] from an open source into a hash *)
| FReadAll (p : string) : fev (result string)
(** [Close] of a destination, or of a source whose close error is looked at *)
| FClose (p : string) : fev (result unit)
| FStatfs (p : string) : fev (result statfs)
(** the visits of [filepath.Walk] or [WalkDir]: each path with its info or error *)
| FWalk (root : string) : fev (list (string * result fileinfo))
| FGlob (pattern : string) : fev (result (list string))
(** a command with its arguments: its output and the error of the run *)
| FExec (cmd : string) (args : list string) : fev (string * option error)
| FNow : fev Z
| FCount (c : counter) (n : Z) : fev unit
| FLoad (c : counter) : fev Z
| FLock : fev unit
| FUnlock : fev unit
(** [runRecovered] around [archiveHot r hot destination] *)
| FSpawnArchive (r : CacheRequest) (hot destination : string) : fev unit
| FClusterClient : fev (result unit)
| FHostname : fev (result string)
| FNamespace : fev string
| FGetPod (ns name : string) : fev (result PodView)
(** the storage capacity of a claim, in bytes *)
| FGetPVC (ns name : string) : fev (result Z).

Notation fprog := (prog fev).

(** [artifactFile] and [artifactManifest], the inventory of a cold artifact. *)
Record artifactFile := mkArtifactFile {
  af_path : string; af_size : Z; af_sha256 : string; af_symlinkTo : string }.
#[export] Instance artifactFile_eq_dec : EqDecision artifactFile.
Proof. solve_decision. Defined.
Record artifactManifest := mkManifest {
  am_version : Z; am_cache : CacheSpec; am_files : list artifactFile }.

(** The codecs the manager calls.  Decoding yields what [json.Unmarshal] leaves
    in the zero value it is given, and whether it reported no error. *)
Record codec := mkCodec {
  specJSON : CacheSpec -> string;
  decodeSpec : string -> CacheSpec;
  manifestJSON : artifactManifest -> result string;
  decodeManifest : string -> artifactManifest * bool;
  decodeRequest : string -> result CacheRequest;
  (** the [size] and [files] printed by the discovery script *)
  decodeInventory : string -> result (Z * list string);
  (** [t.UTC().Format(time.RFC3339)] *)
  formatRFC3339 : Z -> string;
  digest : string -> string;
}.

(** [os.IsNotExist(err)] *)
Definition isNotExist (e : error) : bool := err_is ErrNotFound e.
