(* ===== verification/CacheManager.v ===== *)
(** * The cache manager ([cmd/llm-proxy/cache_manager.go])

    The sidecar that owns the hot cache: it validates requests, promotes a cold
    artifact or downloads a model, records complete artifacts under
    [hot/.llm-cache/<key>], evicts the oldest ones under pressure and archives
    hot artifacts to the cold store in the background.

    The state of a [cacheManager] between requests is its two roots and the
    discovered PVC limits; its counters and mutex are requests of [fev].  The
    proxy's [cacheSpec] and [cacheRequest] have the fields and JSON names of the
    operator's, so both are [CacheSpec] and [CacheRequest] here.  Log lines are
    left out. *)

From Stdlib Require Import Ascii.
From S2P Require Import Prelude GoStrings GoPath Types Effects Api Driver CacheFs.

Record cacheManager := mkManager {
  hotRoot : string;
  cold : string;
  limits : gmap string Z;
}.

Definition zeroSpec : CacheSpec := mkCacheSpec "" "" "" 0 [] "".

(** ** Requests and paths *)

Definition validMaterializationTarget (target : string) : result unit :=
  if (target == "") || is_abs target || (clean target != target) || (target == "gguf")
     || negb (has_prefix target "gguf/")
  then Err (errorf "file cache requires a clean materialization_target below gguf/")
  else Ok tt.

Definition validCacheRequest (r : CacheRequest) : result unit :=
  let c := cr_cache r in
  if (cr_model r == "") || ((cr_backend r != "vllm") && (cr_backend r != "llama-cpp")) then
    Err (errorf "model and supported backend are required")
  else if ((cs_kind c != "huggingface-hub") && (cs_kind c != "huggingface-files"))
          || (cs_repoID c == "") || (cs_revision c == "") || (cs_size c <? 0) then
    Err (errorf "invalid immutable cache specification")
  else if (cs_kind c == "huggingface-files") && ((length (cs_files c) =? 0)%nat || (cs_size c <? 1)) then
    Err (errorf "file cache requires files")
  else if cs_kind c == "huggingface-files" then
    try _ := validMaterializationTarget (cs_target c) in Ok tt
  else if cs_target c != "" then Err (errorf "hub cache must not set materialization_target")
  else Ok tt.

(** The directory Hugging Face names after a repository. *)
Definition repo_dir (repoID : string) : string := "models--" +:+ replace_char slash "--" repoID.

Definition materializedPath (hot : string) (spec : CacheSpec) : string :=
  if cs_kind spec == "huggingface-hub" then path_join [hot; "hub"; repo_dir (cs_repoID spec)]
  else path_join [hot; cs_target spec].

Definition cacheKey (c : CacheSpec) : string :=
  replace_char "@"%char "-" (replace_char slash "--"
    (cs_kind c +:+ "-" +:+ cs_repoID c +:+ "-" +:+ cs_revision c)).

Definition sameCacheSpec (got want : CacheSpec) : bool :=
  (cs_kind got == cs_kind want) && (cs_repoID got == cs_repoID want)
  && (cs_revision got == cs_revision want)
  && ((cs_size want =? 0) || (cs_size got =? cs_size want))
  && ((length (cs_files want) =? 0)%nat || (cs_files got == cs_files want)).

Definition validArtifactManifest (got : artifactManifest) (want : CacheSpec) : bool :=
  (am_version got =? 1) && sameCacheSpec (am_cache got) want && (0 <? length (am_files got))%nat.

(** [capacity*n/100] in [int64]. *)
Definition percent (capacity n : Z) : Z := Z.quot (int64 (capacity * n)) 100.

Definition coldArtifactDir (m : cacheManager) (key : string) : string :=
  path_join [cold m; "artifacts"; key].
Definition hotMarkers (hot : string) : string := path_join [hot; ".llm-cache"].
Definition hotMarker (hot key : string) : string := path_join [hot; ".llm-cache"; key].
Definition hotBlobStore (hot : string) : string := path_join [hot; "gguf"; ".blobs"].

Definition relativeBlobLink (linkPath blobPath : string) : result string :=
  rel (dir_name linkPath) blobPath.

Section manager.
Context (C : codec).

(** ** Markers *)

Definition complete (dir : string) : fprog bool :=
  let! x := call (FStat (path_join [dir; ".complete"])) in Ret (is_ok x).

Definition writeComplete (dir : string) : fprog (result unit) :=
  let! now := call FNow in
  call (FWriteFile (path_join [dir; ".complete"]) (formatRFC3339 C now +:+ char1 newline)).

Definition stagingDir (destination : string) : fprog (result string) :=
  do* call (FMkdirAll (dir_name destination));
  call (FMkdirTemp (dir_name destination) (base_name destination +:+ ".staging-")).

(** ** Copying *)

(** Creating [destination] from an opened [source]: what was copied. *)
Definition copyFile (source destination : string) : fprog (result string) :=
  do* call (FCreate destination);
  let! copied := call (FCopy source destination) in
  let! closed := call (FClose destination) in
  Ret (try content := copied in try _ := closed in Ok content).

Definition copyAndVerify (source destination : string) (want : artifactFile) : fprog (result unit) :=
  do* call (FOpen source);
  do* call (FMkdirAll (dir_name destination));
  let* content := copyFile source destination in
  if (Z.of_nat (String.length content) != af_size want)
     || ((af_sha256 want != "") && (digest C content != af_sha256 want)) then
    let! _ := call (FRemove destination) in
    fails ("checksum mismatch for " +:+ af_path want)
  else ok tt.

(** [if err := os.Remove(p); err != nil && !os.IsNotExist(err) { return err }] *)
Definition removeIfExists (p : string) : fprog (result unit) :=
  let! x := call (FRemove p) in
  Ret (match x with Err e => if isNotExist e then Ok tt else Err e | Ok _ => Ok tt end).

(** Directories nest at most as deep as a path has bytes, and Linux refuses
    paths of [PATH_MAX] bytes or more. *)
Definition pathMax : nat := 4096.

Fixpoint copyTree_to (depth : nat) (source destination : string) : fprog (result unit) :=
  let* info := call (FLstat source) in
  if IsSymlink info then
    let* target := call (FReadlink source) in
    do* call (FMkdirAll (dir_name destination));
    do* removeIfExists destination;
    call (FSymlink target destination)
  else if negb (IsDir info) then
    do* call (FMkdirAll (dir_name destination));
    do* call (FOpen source);
    do* copyFile source destination;
    ok tt
  else
    do* call (FMkdirAll destination);
    let! (entries, err) := call (FReadDir source) in
    match err with
    | Some e => Ret (Err e)
    | None =>
        for_each entries (fun name =>
          match depth with
          | O => fails "file name too long"
          | S depth' => copyTree_to depth' (path_join [source; name]) (path_join [destination; name])
          end)
    end.
Definition copyTree : string -> string -> fprog (result unit) := copyTree_to pathMax.

Definition replaceSymlink (path target : string) : fprog (result unit) :=
  let* tmp := call (FMkdirTemp (dir_name path) ".relink-") in
  do* call (FRemove tmp);
  deferring (call (FRemove tmp)) (
    do* call (FSymlink target tmp);
    call (FRename tmp path)).

Definition copyHuggingFaceFile (source destination blobs : string) : fprog (result unit) :=
  let* info := call (FLstat source) in
  if negb (IsSymlink info) then copyTree source destination
  else
    let* target := call (FReadlink source) in
    let sourceBlob := clean (path_join [dir_name source; target]) in
    let! blobInfo := call (FStat sourceBlob) in
    if match blobInfo with Ok i => negb (IsRegular i) | Err _ => true end then
      fails ("resolve Hugging Face blob " +:+ source)
    else
      let destinationBlob := path_join [blobs; base_name sourceBlob] in
      do* copyTree sourceBlob destinationBlob;
      do* call (FMkdirAll (dir_name destination));
      do* removeIfExists destination;
      let* link := Ret (relativeBlobLink destination destinationBlob) in
      replaceSymlink destination link.

(** ** Usage and eviction *)

Definition filesystemUsage (path : string) : fprog (result (Z * Z)) :=
  let* st := call (FStatfs path) in
  ok (int64 (int64 (st_blocks st) * st_bsize st),
      int64 (int64 (st_blocks st - st_bavail st) * st_bsize st)).

(** The callback of [directoryUsage], over the visits of the walk. *)
Fixpoint sum_regular (visits : list (string * result fileinfo)) (used : Z) : result Z :=
  match visits with
  | [] => Ok used
  | (_, Err e) :: _ => Err e
  | (_, Ok i) :: rest => sum_regular rest (if IsRegular i then int64 (used + fi_size i) else used)
  end.
Definition directoryUsage (path : string) : fprog (result Z) :=
  let! visits := call (FWalk path) in Ret (sum_regular visits 0).

Definition cacheUsage (m : cacheManager) (path : string) : fprog (result (Z * Z)) :=
  let* (capacity, used) := filesystemUsage path in
  let limit := default 0 (limits m !! path) in
  if 0 <? limit then
    let* used := directoryUsage path in
    ok (limit, used)
  else ok (capacity, used).

Definition evict (hot marker : string) : fprog (result unit) :=
  let! body := call (FReadFile (path_join [marker; "cache.json"])) in
  let spec := match body with Ok b => decodeSpec C b | Err _ => zeroSpec end in
  do! (if (cs_kind spec == "huggingface-hub") && (cs_repoID spec != "") then
         let! _ := call (FRemoveAll (materializedPath hot spec)) in Ret tt
       else if cs_kind spec == "huggingface-files" then
         let! _ := call (FRemoveAll (materializedPath hot spec)) in Ret tt
       else Ret tt);
  do* call (FRemoveAll marker);
  do! call (FCount evictions 1);
  ok tt.

(** [time.Time{}], in nanoseconds of the Unix clock. *)
Definition zeroTime : Z := -62135596800000000000.
Definition entryModTime (dir name : string) : fprog Z :=
  let! info := call (FInfo dir name) in
  Ret (match info with Ok i => fi_mtime i | Err _ => zeroTime end).

(** [sort.Slice] by modification time.  The comparison stats both entries each
    time; this is the insertion sort Go uses up to twelve entries.  [before] is
    the sorted part, its last entry first. *)
Fixpoint insert_entry (dir x : string) (before : list string) : fprog (list string) :=
  match before with
  | [] => Ret [x]
  | y :: rest =>
      let! tx := entryModTime dir x in
      let! ty := entryModTime dir y in
      if tx <? ty then let! r := insert_entry dir x rest in Ret (y :: r)
      else Ret (x :: before)
  end.
Fixpoint sort_entries (dir : string) (l before : list string) : fprog (list string) :=
  match l with
  | [] => Ret (rev before)
  | x :: l' => let! before := insert_entry dir x before in sort_entries dir l' before
  end.

(** The markers below [hot], oldest first. *)
Definition oldest_first (hot : string) : fprog (result (list string)) :=
  let! (entries, err) := call (FReadDir (hotMarkers hot)) in
  match err with
  | Some e => if isNotExist e then let! l := sort_entries (hotMarkers hot) entries [] in ok l
              else Ret (Err e)
  | None => let! l := sort_entries (hotMarkers hot) entries [] in ok l
  end.

Fixpoint sweep_loop (m : cacheManager) (hot preserve : string) (capacity : Z)
    (entries : list string) : fprog (result unit) :=
  match entries with
  | [] => ok tt
  | name :: rest =>
      if name == preserve then sweep_loop m hot preserve capacity rest
      else
        do* evict hot (hotMarker hot name);
        let* (_, used) := cacheUsage m hot in
        if used <=? percent capacity 65 then ok tt
        else sweep_loop m hot preserve capacity rest
  end.

Definition sweep (m : cacheManager) (hot preserve : string) : fprog (result unit) :=
  do! call (FCount sweeps 1);
  let* (capacity, used) := cacheUsage m hot in
  if used <=? percent capacity 80 then ok tt
  else
    let* entries := oldest_first hot in
    sweep_loop m hot preserve capacity entries.

Fixpoint space_loop (m : cacheManager) (hot : string) (incoming capacity : Z)
    (entries : list string) : fprog (result unit) :=
  match entries with
  | [] => fails "insufficient hot-cache capacity"
  | name :: rest =>
      do* evict hot (hotMarker hot name);
      let* (_, used) := cacheUsage m hot in
      if int64 (used + incoming) <=? percent capacity 95 then ok tt
      else space_loop m hot incoming capacity rest
  end.

Definition makeSpace (m : cacheManager) (hot : string) (incoming : Z) : fprog (result unit) :=
  let* (capacity, used) := cacheUsage m hot in
  if percent capacity 95 <? incoming then fails "artifact is larger than 95% of hot cache"
  else if int64 (used + incoming) <=? percent capacity 95 then ok tt
  else
    let* entries := oldest_first hot in
    space_loop m hot incoming capacity entries.

(** ** Artifact manifests *)

(** One visit of [artifactInventory]'s walk: the file it appends, if any. *)
Definition inventory_visit (root path : string) (entry : fileinfo) :
    fprog (result (option artifactFile)) :=
  if (path == root) || IsDir entry then ok None
  else
    let* relative := Ret (rel root path) in
    let* info := call (FLstat path) in
    if IsSymlink info then
      let* target := call (FReadlink path) in
      ok (Some (mkArtifactFile relative 0 "" target))
    else if negb (IsRegular info) then fails ("unsupported artifact file " +:+ relative)
    else
      do* call (FOpen path);
      let! content := call (FReadAll path) in
      let! closed := call (FClose path) in
      Ret (try content := content in try _ := closed in
           Ok (Some (mkArtifactFile relative (fi_size info) (digest C content) ""))).

Fixpoint inventory_walk (root : string) (visits : list (string * result fileinfo))
    (files : list artifactFile) : fprog (result (list artifactFile)) :=
  match visits with
  | [] => ok files
  | (_, Err e) :: _ => Ret (Err e)
  | (path, Ok entry) :: rest =>
      let* file := inventory_visit root path entry in
      inventory_walk root rest (files ++ option_list file)
  end.

Definition artifactInventory (root : string) : fprog (result (list artifactFile)) :=
  let! visits := call (FWalk root) in
  let* files := inventory_walk root visits [] in
  ok (sort_slice (fun a b => String.ltb (af_path a) (af_path b)) files).

Definition writeArtifactManifest (dir : string) (spec : CacheSpec) : fprog (result unit) :=
  let* files := artifactInventory (path_join [dir; "payload"]) in
  let* body := Ret (manifestJSON C (mkManifest 1 spec files)) in
  call (FWriteFile (path_join [dir; "artifact.json"]) body).

(** The manifest that was read, and whether it is valid for [want]. *)
Definition artifactManifestFor (dir : string) (want : CacheSpec) : fprog (artifactManifest * bool) :=
  let zero := mkManifest 0 zeroSpec [] in
  let! done := complete dir in
  if negb done then Ret (zero, false)
  else
    let! body := call (FReadFile (path_join [dir; "artifact.json"])) in
    match body with
    | Err _ => Ret (zero, false)
    | Ok b => let '(got, decoded) := decodeManifest C b in
              Ret (got, decoded && validArtifactManifest got want)
    end.

Definition validArtifactMetadata (dir : string) (want : CacheSpec) : fprog bool :=
  let! x := artifactManifestFor dir want in Ret (snd x).

Definition validArtifact (dir : string) (want : CacheSpec) : fprog bool :=
  let! done := complete dir in
  if negb done then Ret false
  else
    let! body := call (FReadFile (path_join [dir; "artifact.json"])) in
    match body with
    | Err _ => Ret false
    | Ok b =>
        let '(got, decoded) := decodeManifest C b in
        if negb decoded then Ret false
        else if negb (validArtifactManifest got want) then Ret false
        else
          let! files := artifactInventory (path_join [dir; "payload"]) in
          Ret (match files with Ok files => am_files got == files | Err _ => false end)
    end.

(** ** Materialized artifacts *)

Fixpoint files_resolve (hot : string) (spec : CacheSpec) (files : list string) : fprog bool :=
  match files with
  | [] => Ret true
  | file :: rest =>
      let path := path_join [materializedPath hot spec; file] in
      let! st := call (FStat path) in
      if negb (is_ok st) then Ret false
      else
        let! resolved := call (FEvalSymlinks path) in
        match resolved with
        | Err _ => Ret false
        | Ok resolved =>
            match rel (path_join [hot; "gguf"]) resolved with
            | Err _ => Ret false
            | Ok relative => if escapes relative then Ret false else files_resolve hot spec rest
            end
        end
  end.

Definition hotArtifactExists (r : CacheRequest) (hot : string) : fprog bool :=
  let spec := cr_cache r in
  if cs_kind spec == "huggingface-hub" then
    let! st := call (FStat (materializedPath hot spec)) in Ret (is_ok st)
  else files_resolve hot spec (cs_files spec).

Definition clearMaterialized (r : CacheRequest) (hot : string) : fprog (result unit) :=
  call (FRemoveAll (materializedPath hot (cr_cache r))).

Definition cacheResult (m : cacheManager) (r : CacheRequest) : fprog string :=
  let! inHot := complete (hotMarker (hotRoot m) (cacheKey (cr_cache r))) in
  if inHot then Ret "hot"
  else
    let! inCold := complete (coldArtifactDir m (cacheKey (cr_cache r))) in
    if inCold then Ret "cold"
    else
      let! exists_ := hotArtifactExists r (hotRoot m) in
      Ret (if exists_ then "hot" else "external").

Definition relink_file (hot : string) (spec : CacheSpec) (file : string) : fprog (result unit) :=
  let path := path_join [materializedPath hot spec; file] in
  let* oldTarget := wrapping ("read legacy link " +:+ file +:+ ": ") (call (FReadlink path)) in
  let blob := path_join [hotBlobStore hot; base_name oldTarget] in
  let! info := call (FStat blob) in
  if match info with Ok i => negb (IsRegular i) | Err _ => true end then
    fails ("resolve retained blob for " +:+ file)
  else
    let* target := Ret (relativeBlobLink path blob) in
    replaceSymlink path target.

Definition repairHotMaterialization (r : CacheRequest) (hot : string) : fprog (result unit) :=
  if cs_kind (cr_cache r) != "huggingface-files" then
    fails "cannot repair invalid non-file hot materialization"
  else
    let legacyBlobs := path_join [hot; "blobs"] in
    let hotBlobs := hotBlobStore hot in
    let! st := call (FLstat hotBlobs) in
    do* (match st with
         | Ok _ => ok tt
         | Err e =>
             if isNotExist e then
               do* call (FMkdirAll (dir_name hotBlobs));
               do* wrapping "move legacy blob store: " (call (FRename legacyBlobs hotBlobs));
               call (FSymlink (path_join ["gguf"; ".blobs"]) legacyBlobs)
             else Ret (Err e)
         end);
    for_each (cs_files (cr_cache r)) (relink_file hot (cr_cache r)).

(** The linked file of [materialize]: keep its blob once, link to it. *)
Definition materialize_link (artifact hot : string) (file : artifactFile) (from to : string) :
    fprog (result unit) :=
  let! target := call (FReadlink from) in
  match target with
  | Err _ => fails ("verify symlink " +:+ af_path file)
  | Ok target =>
      if target != af_symlinkTo file then fails ("verify symlink " +:+ af_path file)
      else
        let sourceBlob := clean (path_join [dir_name from; target]) in
        if match rel artifact sourceBlob with Ok r => escapes r | Err _ => true end then
          fails ("invalid symlink target for " +:+ af_path file)
        else
          let! info := call (FStat sourceBlob) in
          match info with
          | Err _ => fails ("resolve symlink " +:+ af_path file)
          | Ok info =>
              if negb (IsRegular info) then fails ("resolve symlink " +:+ af_path file)
              else
                let hotBlob := path_join [hot; "gguf"; ".blobs"; base_name sourceBlob] in
                let! st := call (FLstat hotBlob) in
                do* (match st with
                     | Ok _ => ok tt
                     | Err e =>
                         if isNotExist e then
                           copyAndVerify sourceBlob hotBlob
                             (mkArtifactFile (af_path file) (fi_size info) "" "")
                         else Ret (Err e)
                     end);
                do* call (FMkdirAll (dir_name to));
                let* hotTarget := Ret (relativeBlobLink to hotBlob) in
                replaceSymlink to hotTarget
          end
  end.

(** Where a manifest entry goes, relative to the hot root. *)
Definition hot_relative (spec : CacheSpec) (path : string) : result string :=
  if cs_kind spec == "huggingface-files" then
    match cut_prefix path "files/" with
    | Some relative =>
        guard relative != "" else errorf ("invalid file artifact path " +:+ path) in
        Ok (path_join [cs_target spec; relative])
    | None => Err (errorf ("invalid file artifact path " +:+ path))
    end
  else Ok path.

Definition materialize_file (r : CacheRequest) (artifact hot : string) (file : artifactFile) :
    fprog (result unit) :=
  let* relative := Ret (hot_relative (cr_cache r) (af_path file)) in
  let from := path_join [artifact; "payload"; af_path file] in
  let to := path_join [hot; relative] in
  if af_symlinkTo file != "" then materialize_link artifact hot file from to
  else copyAndVerify from to file.

Definition materialize (r : CacheRequest) (artifact hot : string) (manifest : artifactManifest) :
    fprog (result unit) :=
  do* for_each (am_files manifest) (materialize_file r artifact hot);
  do! call (FCount hydrated (cs_size (cr_cache r)));
  ok tt.

(** ** Downloading and archiving *)

Definition download_args (r : CacheRequest) (staging : string) : list string :=
  ["download"; cs_repoID (cr_cache r); "--revision"; cs_revision (cr_cache r);
   "--cache-dir"; path_join [staging; "hub"]] ++ cs_files (cr_cache r).
Definition run_download (r : CacheRequest) (staging : string) : fprog (result unit) :=
  let! (output, err) := call (FExec "hf" (download_args r staging)) in
  Ret (match err with
       | Some e => Err (mkError ("download " +:+ cs_repoID (cr_cache r) +:+ ": " +:+ err_msg e
                                 +:+ ": " +:+ trim_space output) (err_class e))
       | None => Ok tt
       end).
Definition snapshot_file (r : CacheRequest) (staging file : string) : string :=
  path_join [staging; "hub"; repo_dir (cs_repoID (cr_cache r)); "snapshots"; cs_revision (cr_cache r); file].

Definition downloadToHot (r : CacheRequest) (hot : string) : fprog (result unit) :=
  let* staging := stagingDir (path_join [hot; "staging"]) in
  deferring (call (FRemoveAll staging)) (
    do* run_download r staging;
    if cs_kind (cr_cache r) == "huggingface-hub" then
      copyTree (path_join [staging; "hub"; repo_dir (cs_repoID (cr_cache r))])
               (materializedPath hot (cr_cache r))
    else
      for_each (cs_files (cr_cache r)) (fun file =>
        copyHuggingFaceFile (snapshot_file r staging file)
          (path_join [materializedPath hot (cr_cache r); file])
          (path_join [hot; "gguf"; ".blobs"]))).

(** Publishing a staged artifact: inventory, marker, swap. *)
Definition publish (staging destination : string) (spec : CacheSpec) : fprog (result unit) :=
  do* writeArtifactManifest staging spec;
  do* writeComplete staging;
  do* call (FRemoveAll destination);
  call (FRename staging destination).

Definition downloadToCold (r : CacheRequest) (destination : string) : fprog (result unit) :=
  let* staging := stagingDir destination in
  deferring (call (FRemoveAll staging)) (
    do* call (FMkdirAll (path_join [staging; "payload"]));
    do* run_download r staging;
    do* (if cs_kind (cr_cache r) == "huggingface-hub" then
           let repo := path_join [staging; "hub"; repo_dir (cs_repoID (cr_cache r))] in
           copyTree repo (path_join [staging; "payload"; "hub"; base_name repo])
         else
           for_each (cs_files (cr_cache r)) (fun file =>
             copyHuggingFaceFile (snapshot_file r staging file)
               (path_join [staging; "payload"; "files"; file])
               (path_join [staging; "blobs"])));
    publish staging destination (cr_cache r)).

Definition archiveHot (r : CacheRequest) (hot destination : string) : fprog (result unit) :=
  let* staging := stagingDir destination in
  deferring (call (FRemoveAll staging)) (
    do* (if cs_kind (cr_cache r) == "huggingface-hub" then
           let source := materializedPath hot (cr_cache r) in
           copyTree source (path_join [staging; "payload"; "hub"; base_name source])
         else
           for_each (cs_files (cr_cache r)) (fun file =>
             copyHuggingFaceFile (path_join [materializedPath hot (cr_cache r); file])
               (path_join [staging; "payload"; "files"; file])
               (path_join [staging; "blobs"])));
    do* publish staging destination (cr_cache r);
    do! call (FCount archived (cs_size (cr_cache r)));
    ok tt).

(** ** Ensuring an artifact *)

Definition dq : string := char1 dquote.
Definition inventoryScript (spec : CacheSpec) : string :=
  "import json; from huggingface_hub import HfApi; files=[]; total=0" +:+ char1 newline
  +:+ "for x in HfApi().list_repo_tree(" +:+ dq +:+ cs_repoID spec +:+ dq
  +:+ ", revision=" +:+ dq +:+ cs_revision spec +:+ dq +:+ ", recursive=True, expand=True):"
  +:+ char1 newline
  +:+ "  path=getattr(x," +:+ dq +:+ "path" +:+ dq +:+ ",None); size=getattr(x," +:+ dq +:+ "size"
  +:+ dq +:+ ",None)" +:+ char1 newline
  +:+ "  if path and size is not None: files.append(path); total += size" +:+ char1 newline
  +:+ "print(json.dumps({" +:+ dq +:+ "size" +:+ dq +:+ ":total," +:+ dq +:+ "files" +:+ dq +:+ ":files}))".

Definition resolveCacheSpec (spec : CacheSpec) : fprog (result CacheSpec) :=
  if (cs_kind spec != "huggingface-hub") || (0 <? cs_size spec) then ok spec
  else
    let! (output, err) := call (FExec "python" ["-c"; inventoryScript spec]) in
    match err with
    | Some e => Ret (Err (wrap ("discover " +:+ cs_repoID spec +:+ "@" +:+ cs_revision spec +:+ ": ") e))
    | None =>
        match decodeInventory C output with
        | Err _ => fails ("discover " +:+ cs_repoID spec +:+ ": invalid inventory")
        | Ok (size, files) =>
            if (size <? 1) || (length files =? 0)%nat then
              fails ("discover " +:+ cs_repoID spec +:+ ": invalid inventory")
            else ok (mkCacheSpec (cs_kind spec) (cs_repoID spec) (cs_revision spec) size
                       (sort_slice String.ltb files) (cs_target spec))
        end
    end.

(** The branch of [ensureArtifact] for an artifact that is already complete. *)
Definition serve_hot (m : cacheManager) (r : CacheRequest) (key : string) : fprog (result unit) :=
  let hot := hotRoot m in
  let! materialized := hotArtifactExists r hot in
  do* (if negb materialized then
         wrapping "repair hot materialization: " (repairHotMaterialization r hot)
       else ok tt);
  let! archivedOk := validArtifactMetadata (coldArtifactDir m key) (cr_cache r) in
  do! (if negb archivedOk then call (FSpawnArchive r hot (coldArtifactDir m key)) else Ret tt);
  let! atime := call FNow in
  let! mtime := call FNow in
  let! _ := call (FChtimes (hotMarker hot key) atime mtime) in
  sweep m hot key.

(** Bringing the bytes to the hot root: from the cold store if it has them. *)
Definition fetch (m : cacheManager) (r : CacheRequest) (key : string) : fprog (result unit) :=
  let hot := hotRoot m in
  let! (manifest, valid) := artifactManifestFor (coldArtifactDir m key) (cr_cache r) in
  if valid : bool then
    do* clearMaterialized r hot;
    wrapping "promote from cold: " (materialize r (coldArtifactDir m key) hot manifest)
  else
    do* clearMaterialized r hot;
    wrapping "download to hot: " (downloadToHot r hot).

(** Recording a complete hot artifact. *)
Definition record_hot (hot key : string) (spec : CacheSpec) : fprog (result unit) :=
  do* call (FMkdirAll (hotMarker hot key));
  do* writeComplete (hotMarker hot key);
  call (FWriteFile (path_join [hotMarker hot key; "cache.json"]) (specJSON C spec)).

Definition ensureArtifact (m : cacheManager) (r : CacheRequest) : fprog (result unit) :=
  let hot := hotRoot m in
  let key := cacheKey (cr_cache r) in
  let! done := complete (hotMarker hot key) in
  if done : bool then serve_hot m r key
  else
    let* spec := resolveCacheSpec (cr_cache r) in
    let r := mkCacheRequest (cr_model r) (cr_backend r) spec in
    do* sweep m hot "";
    do* makeSpace m hot (cs_size spec);
    do* fetch m r key;
    do* record_hot hot key spec;
    do! call (FSpawnArchive r hot (coldArtifactDir m key));
    ok tt.

(** ** Handlers *)

Record reply := mkReply { rp_code : Z; rp_result : option string; rp_body : string }.
(** [http.Error] *)
Definition http_error (msg : string) (code : Z) : reply := mkReply code None (msg +:+ char1 newline).

Definition decode_and_check (payload : string) : result CacheRequest :=
  match decodeRequest C (limit_read (Z.shiftl 1 20) payload) with
  | Err e => Err (wrap "invalid request: " e)
  | Ok r => try _ := validCacheRequest r in Ok r
  end.

(** [opMu.Lock(); defer opMu.Unlock()] *)
Definition locked {A} (p : fprog A) : fprog A :=
  do! call FLock; let! x := p in do! call FUnlock; Ret x.

Definition ensure (m : cacheManager) (payload : string) : fprog reply :=
  match decode_and_check payload with
  | Err e => Ret (http_error (err_msg e) 400)
  | Ok r =>
      locked (
        let! state := cacheResult m r in
        let! x := ensureArtifact m r in
        match x with
        | Err e => do! call (FCount failures 1); Ret (http_error (err_msg e) 500)
        | Ok _ => Ret (mkReply 204 (Some state) "")
        end)
  end.

Definition sweepRequest (m : cacheManager) (payload : string) : fprog reply :=
  match decode_and_check payload with
  | Err e => Ret (http_error (err_msg e) 400)
  | Ok r =>
      locked (
        let! x := sweep m (hotRoot m) (cacheKey (cr_cache r)) in
        match x with
        | Err e => do! call (FCount failures 1); Ret (http_error (err_msg e) 500)
        | Ok _ => Ret (mkReply 204 None "")
        end)
  end.

Definition usage_lines (m : cacheManager) (name path : string) : fprog string :=
  let! u := cacheUsage m path in
  Ret (match u with
       | Err _ => ""
       | Ok (capacity, used) =>
           "llm_cache_manager_filesystem_bytes{cache=" +:+ quote name +:+ ",state=" +:+ dq
           +:+ "capacity" +:+ dq +:+ "} " +:+ show_int capacity +:+ char1 newline
           +:+ "llm_cache_manager_filesystem_bytes{cache=" +:+ quote name +:+ ",state=" +:+ dq
           +:+ "used" +:+ dq +:+ "} " +:+ show_int used +:+ char1 newline
       end).
Definition counter_line (name : string) (c : counter) : fprog string :=
  let! n := call (FLoad c) in Ret (name +:+ " " +:+ show_int n +:+ char1 newline).

Definition metrics (m : cacheManager) : fprog string :=
  let! h := usage_lines m "hot" (hotRoot m) in
  let! c := usage_lines m "cold" (cold m) in
  let! l1 := counter_line "llm_cache_manager_sweeps_total" sweeps in
  let! l2 := counter_line "llm_cache_manager_evictions_total" evictions in
  let! l3 := counter_line "llm_cache_manager_archived_bytes_total" archived in
  let! l4 := counter_line "llm_cache_manager_hydrated_bytes_total" hydrated in
  let! l5 := counter_line "llm_cache_manager_failures_total" failures in
  Ret (h +:+ c +:+ l1 +:+ l2 +:+ l3 +:+ l4 +:+ l5).

(** ** Start-up *)

Definition staging_patterns (m : cacheManager) : list string :=
  [path_join [cold m; "artifacts"; "*.staging-*"];
   path_join [hotRoot m; "staging"; "*.staging-*"];
   path_join [hotRoot m; "staging.staging-*"]].
Definition removeStaging (m : cacheManager) : fprog (result unit) :=
  for_each (staging_patterns m) (fun pattern =>
    let* entries := call (FGlob pattern) in
    for_each entries (fun entry => call (FRemoveAll entry))).

(** The claim behind every volume of [name], looked up in turn. *)
Fixpoint claim_limits (ns path name : string) (volumes : list PodVolumeView)
    (l : gmap string Z) : fprog (gmap string Z) :=
  match volumes with
  | [] => Ret l
  | v :: rest =>
      match pv_claim v with
      | Some claim =>
          if pv_name v != name then claim_limits ns path name rest l
          else
            let! pvc := call (FGetPVC ns claim) in
            claim_limits ns path name rest
              (match pvc with Ok capacity => <[path := capacity]> l | Err _ => l end)
      | None => claim_limits ns path name rest l
      end
  end.
Fixpoint mount_limits (m : cacheManager) (ns : string) (mounts : list VolumeMountPath)
    (volumes : list PodVolumeView) (l : gmap string Z) : fprog (gmap string Z) :=
  match mounts with
  | [] => Ret l
  | mount :: rest =>
      if vmp_path mount != hotRoot m then mount_limits m ns rest volumes l
      else
        let! l := claim_limits ns (vmp_path mount) (vmp_name mount) volumes l in
        mount_limits m ns rest volumes l
  end.

Definition discoverPVCLimits (m : cacheManager) : fprog cacheManager :=
  let! client := call FClusterClient in
  match client with
  | Err _ => Ret m
  | Ok _ =>
      let! host := call FHostname in
      match host with
      | Err _ => Ret m
      | Ok podName =>
          let! ns := call FNamespace in
          let! pod := call (FGetPod ns podName) in
          match pod with
          | Err _ => Ret m
          | Ok pod =>
              let mounts := match List.find (fun c => pc_name c == "cache-manager") (pod_containers pod) with
                            | Some c => pc_mounts c | None => [] end in
              let! l := mount_limits m ns mounts (pod_volumes pod) (limits m) in
              Ret (mkManager (hotRoot m) (cold m) l)
          end
      end
  end.

(** [runCacheManager] up to [ListenAndServe]. *)
Definition env (getenv : string -> string) (key fallback : string) : string :=
  if getenv key != "" then getenv key else fallback.
Definition startup (getenv : string -> string) : fprog cacheManager :=
  let m := mkManager (env getenv "CACHE_HOT_ROOT" "/cache/hot") (env getenv "CACHE_COLD" "/cold") ∅ in
  let! _ := removeStaging m in
  discoverPVCLimits m.
End manager.
