(* ===== verification/CacheSamples.v ===== *)
(** * A small disk for the cache manager

    A codec and a file system at which the witnesses evaluate the cache manager: a
    hot root at 90 % usage with one old marker, a cold store that holds the sample
    GGUF artifact, and temporary names that are never reused. *)

From Stdlib Require Import Ascii.
From S2P Require Import Prelude GoStrings GoPath Types Effects Api Driver Samples CacheFs CacheManager.

Definition laguna_request : CacheRequest :=
  mkCacheRequest "poolside/laguna" BackendLlamaCpp
    (mkCacheSpec "huggingface-files" "poolside/laguna-gguf" "def456" 64424509440 ["laguna.gguf"] "gguf/laguna").
Definition laguna_manifest : artifactManifest :=
  mkManifest 1 (cr_cache laguna_request) [mkArtifactFile "files/laguna.gguf" 4 "gguf" ""].

Definition sample_codec : codec := {|
  specJSON := fun _ => "{}";
  decodeSpec := fun _ => cr_cache laguna_request;
  manifestJSON := fun _ => Ok "{}";
  decodeManifest := fun _ => (laguna_manifest, true);
  decodeRequest := fun _ => Ok laguna_request;
  decodeInventory := fun _ => Err (errorf "no inventory");
  formatRFC3339 := fun _ => "2026-01-01T00:00:00Z";
  digest := fun s => s;
|}.

Definition sample_manager : cacheManager := mkManager "/cache/hot" "/cold" ∅.

Fixpoint ticks (n : nat) : string := match n with O => "" | S n => String "i"%char (ticks n) end.
Lemma ticks_no_slash n : has_char slash (ticks n) = false.
Proof. induction n; done. Qed.

(** The temporary directories and the deletions so far. *)
Record disk := mkDisk { made : nat; deleted : nat }.

Definition missing {A} : result A := Err (mkError "file does not exist" ErrNotFound).

Definition sample_disk : handler fev disk := fun X e =>
  match e in fev T return disk -> T * disk with
  | FStat p => fun w => (if has_prefix p "/cold/" then Ok (mkInfo ModeRegular 1 1) else missing, w)
  | FLstat _ => fun w => (Ok (mkInfo ModeRegular 4 1), w)
  | FReadlink _ => fun w => (missing, w)
  | FEvalSymlinks p => fun w => (Ok p, w)
  | FReadFile _ => fun w => (Ok "{}", w)
  | FWriteFile _ _ => fun w => (Ok tt, w)
  | FReadDir _ => fun w => ((["old"], None), w)
  | FInfo _ _ => fun w => (Ok (mkInfo ModeDir 0 1), w)
  | FMkdirAll _ => fun w => (Ok tt, w)
  | FMkdirTemp dir pre => fun w =>
      (Ok (path_join [dir; pre +:+ ticks (made w)]), mkDisk (S (made w)) (deleted w))
  | FRemove _ => fun w => (Ok tt, w)
  | FRemoveAll _ => fun w => (Ok tt, mkDisk (made w) (S (deleted w)))
  | FRename _ _ => fun w => (Ok tt, w)
  | FSymlink _ _ => fun w => (Ok tt, w)
  | FChtimes _ _ _ => fun w => (Ok tt, w)
  | FOpen _ => fun w => (Ok tt, w)
  | FCreate _ => fun w => (Ok tt, w)
  | FCopy _ _ => fun w => (Ok "gguf", w)
  | FReadAll _ => fun w => (Ok "gguf", w)
  | FClose _ => fun w => (Ok tt, w)
  | FStatfs _ => fun w =>
      (Ok (mkStatfs 100000000000 (if (deleted w =? 0)%nat then 10000000000 else 90000000000) 1), w)
  | FWalk _ => fun w => ([], w)
  | FGlob _ => fun w => (Ok [], w)
  | FExec _ _ => fun w => (("", None), w)
  | FNow => fun w => (1, w)
  | FCount _ _ => fun w => (tt, w)
  | FLoad _ => fun w => (0, w)
  | FLock => fun w => (tt, w)
  | FUnlock => fun w => (tt, w)
  | FSpawnArchive _ _ _ => fun w => (tt, w)
  | FClusterClient => fun w => (missing, w)
  | FHostname => fun w => (Ok "llm-proxy-0", w)
  | FNamespace => fun w => ("llm", w)
  | FGetPod _ _ => fun w => (missing, w)
  | FGetPVC _ _ => fun w => (missing, w)
  end.
Definition fresh_disk : disk := mkDisk 0 0.

Example sample_ensure :
  value sample_disk (ensure sample_codec sample_manager "{}") fresh_disk = mkReply 204 (Some "cold") "".
Proof. vm_compute. reflexivity. Qed.
