(* ===== verification/CacheManagerProps.v ===== *)
(** * What the cache manager guarantees

    Which requests it accepts, in particular from the operator's drivers; what
    it may delete; when it evicts; when an artifact counts as complete. *)

From Stdlib Require Import Ascii.
From stdpp Require Import sorting.
From S2P Require Import Prelude GoStrings GoPath Types Effects Api Driver Samples DriverProps CacheFs CacheManager CacheSamples.

(** ** Paths of artifacts *)

Lemma valid_target_confined target :
  validMaterializationTarget target = Ok tt ->
  exists rest, split_on slash target = "gguf" :: rest /\ Forall proper rest /\ rest <> [].
Proof.
  unfold validMaterializationTarget. intros H. ok_inv.
  rewrite bool_decide_eq_true in *. by apply gguf_confined.
Qed.

Lemma target_ok_valid target : target_ok target = true -> validMaterializationTarget target = Ok tt.
Proof.
  unfold target_ok, validMaterializationTarget. intros H. ok_inv.
  repeat match goal with H : _ = true |- _ => rewrite H end.
  match goal with H : has_prefix _ "gguf/" = true |- _ => apply has_prefix_spec in H as [r ->] end.
  reflexivity.
Qed.

Lemma replace_char_none c by_ s : has_char c by_ = false -> has_char c (replace_char c by_ s) = false.
Proof.
  intros Hb. induction s as [|a s IH]; [done|]. cbn [replace_char]. rewrite has_char_app, IH.
  case_decide; [by rewrite Hb|]. simpl. by rewrite bool_decide_eq_false_2.
Qed.
Lemma repo_dir_proper repoID : proper (repo_dir repoID).
Proof.
  unfold repo_dir. repeat split; [done..|]. rewrite has_char_app.
  by rewrite replace_char_none.
Qed.

(** A specification whose serving copy lies in its own part of the hot root. *)
Definition spec_placed (s : CacheSpec) : Prop :=
  cs_kind s = "huggingface-hub"
  \/ (cs_kind s = "huggingface-files" /\ validMaterializationTarget (cs_target s) = Ok tt).

Lemma valid_request_placed r : validCacheRequest r = Ok tt -> spec_placed (cr_cache r).
Proof.
  unfold validCacheRequest, spec_placed. intros H. ok_inv.
  case_bool_decide as E.
  - apply rbind_ok in H as ([] & H & _). by right.
  - left. destruct (bool_decide (cs_kind (cr_cache r) = "huggingface-hub")) eqn:E'; [by apply bool_decide_eq_true in E'|].
    simpl in *. done.
Qed.

Lemma materialized_placed hot s :
  clean_root hot -> spec_placed s ->
  exists sub rest, (sub = "hub" \/ sub = "gguf") /\ rest <> []
    /\ segments (materializedPath hot s) = segments hot ++ sub :: rest.
Proof.
  intros Hh [Hk|[Hk Ht]]; unfold materializedPath; rewrite Hk.
  - rewrite bool_decide_eq_true_2 by done. exists "hub", [repo_dir (cs_repoID s)].
    split_and!; [by left|done|]. apply segments_path_join; [done| |].
    + cbn [map concat]. rewrite (split_on_no_char slash (repo_dir _)); [done|].
      by destruct (repo_dir_proper (cs_repoID s)) as (_&_&_&?).
    + repeat constructor; try done. apply repo_dir_proper.
  - rewrite bool_decide_eq_false_2 by done.
    destruct (valid_target_confined _ Ht) as (rest & Hs & Hr & Hn).
    exists "gguf", rest. split_and!; [by right|done|]. apply segments_path_join; [done| |].
    + cbn [map concat]. by rewrite app_nil_r.
    + by constructor; [apply proper_gguf|].
Qed.

(** ** Which requests of the operator are accepted *)

Lemma CacheRequestFor_inv d m q :
  CacheRequestFor d m = Ok (Some q) ->
  Validate d m = Ok tt /\ cr_backend q = kind d
  /\ cs_kind (cr_cache q) = cacheManagerKind (cap_cacheFormat (capabilities d))
  /\ (cap_cacheFormat (capabilities d) = CacheFormatGGUF -> exists art, ms_artifact (m_spec m) = Some art
        /\ cs_files (cr_cache q) = art_files art /\ cs_target (cr_cache q) = art_target art).
Proof.
  unfold CacheRequestFor. intros H. apply rbind_ok in H as ([] & Hv & H).
  destruct (ms_artifact (m_spec m)) as [art|].
  - apply rbind_ok in H as (n & Hn & H). injection H as <-. simpl. split_and!; eauto.
  - case_bool_decide as E; simpl in H; [|done]. injection H as <-. simpl.
    split_and!; try done. by rewrite E.
Qed.

Lemma backend_supported b :
  (b != "vllm") && (b != "llama-cpp") = false <-> b = "vllm" \/ b = "llama-cpp".
Proof. rewrite andb_false_iff, !negb_false_iff, !bool_decide_eq_true. done. Qed.

Lemma validCacheRequest_hub r :
  cs_kind (cr_cache r) = "huggingface-hub" ->
  validCacheRequest r = Ok tt <->
  cr_model r <> "" /\ (cr_backend r = "vllm" \/ cr_backend r = "llama-cpp")
  /\ cs_repoID (cr_cache r) <> "" /\ cs_revision (cr_cache r) <> ""
  /\ 0 <= cs_size (cr_cache r) /\ cs_target (cr_cache r) = "".
Proof.
  intros Hk. unfold validCacheRequest. rewrite Hk. eval_decisions.
  split.
  - intros H. ok_inv. rewrite ?bool_decide_eq_false, ?bool_decide_eq_true, ?Z.ltb_ge in *.
    split_and!; try done. by apply backend_supported.
  - intros (H1 & H2 & H3 & H4 & H5 & H6).
    apply backend_supported in H2. apply Z.ltb_ge in H5.
    rewrite H2, H5, H6, (bool_decide_eq_true_2 ("" = "")) by done.
    by rewrite !bool_decide_eq_false_2.
Qed.

Lemma validCacheRequest_files r :
  cs_kind (cr_cache r) = "huggingface-files" ->
  validCacheRequest r = Ok tt <->
  cr_model r <> "" /\ (cr_backend r = "vllm" \/ cr_backend r = "llama-cpp")
  /\ cs_repoID (cr_cache r) <> "" /\ cs_revision (cr_cache r) <> ""
  /\ 1 <= cs_size (cr_cache r) /\ cs_files (cr_cache r) <> []
  /\ validMaterializationTarget (cs_target (cr_cache r)) = Ok tt.
Proof.
  intros Hk. unfold validCacheRequest. rewrite Hk. eval_decisions.
  split.
  - intros H. ok_inv.
    repeat match goal with u : unit |- _ => destruct u end.
    rewrite ?bool_decide_eq_false, ?bool_decide_eq_true, ?Z.ltb_ge in *.
    split_and!; try done; [by apply backend_supported|]. by destruct (cs_files (cr_cache r)).
  - intros (H1 & H2 & H3 & H4 & H5 & H6 & H7). apply backend_supported in H2.
    assert (cs_size (cr_cache r) <? 0 = false) as E0 by (apply Z.ltb_ge; lia).
    apply Z.ltb_ge in H5. rewrite H2, E0, H5, H7, !bool_decide_eq_false_2 by done.
    by destruct (cs_files (cr_cache r)).
Qed.

(** C36: a request built by a registered driver is accepted by the cache manager exactly
    when the runtime is not SGLang, the model, repository and revision are named, and
    the layout's own demands are met: for GGUF files a positive size and a target (the
    driver has already confined it and required files), for a hub snapshot a
    non-negative size and no target. *)
Theorem driver_request_accepted (k : BackendType) (d : runtimeDriver) (m : LLMModel) (q : CacheRequest) :
  RegistryDriver DefaultRegistry k = Ok d -> CacheRequestFor d m = Ok (Some q) ->
  validCacheRequest q = Ok tt <->
  k <> BackendSGLang /\ cr_model q <> "" /\ cs_repoID (cr_cache q) <> ""
  /\ cs_revision (cr_cache q) <> ""
  /\ match cap_cacheFormat (capabilities d) with
     | CacheFormatGGUF => 1 <= cs_size (cr_cache q) /\ cs_target (cr_cache q) <> ""
     | CacheFormatHuggingFace => 0 <= cs_size (cr_cache q) /\ cs_target (cr_cache q) = ""
     end.
Proof.
  intros Hd (Hv & Hb & Hk & Hg)%CacheRequestFor_inv. apply Validate_ok in Hv.
  apply DefaultRegistry_spec in Hd as [[-> ->]|[[-> ->]|[-> ->]]]; cbn in Hb, Hk |- *.
  - rewrite validCacheRequest_hub, Hb by done.
    split; intros; destruct_and!; split_and!; try done; by left.
  - rewrite validCacheRequest_files, Hb by done.
    destruct Hg as (art & Ha & Hf & Ht); [done|].
    destruct (so_gguf _ _ Hv art Ha eq_refl) as (_ & Hne & Hok). rewrite Hf, Ht.
    split; intros; destruct_and!; split_and!; try done; try (by right).
    + by intros E; rewrite E in *.
    + by apply target_ok_valid, Hok.
  - rewrite validCacheRequest_hub, Hb by done. split; [intros (_ & [E|E] & _) | intros [H _]]; done.
Qed.

Lemma driver_request_accepted_witness :
  CacheRequestFor llamaCPPDriver laguna = Ok (Some laguna_request)
  /\ validCacheRequest laguna_request = Ok tt.
Proof.
  assert (CacheRequestFor llamaCPPDriver laguna = Ok (Some laguna_request)) as H by (vm_compute; reflexivity).
  split; [exact H|].
  apply (driver_request_accepted BackendLlamaCpp llamaCPPDriver laguna laguna_request); [vm_compute; reflexivity|exact H|].
  vm_compute. repeat split; discriminate.
Defined.

(** ** Sorting the markers *)

Section sorting.
Context {S : Type} (c : contract fev S).
Context (Hpermit : forall d n s, permit c (FInfo d n) s).
Context (Hrecord : forall d n x s, record c (FInfo d n) x s = s).

Lemma rg_entryModTime dir x s (Q : S -> Z -> Prop) :
  (forall i, rely c (FInfo dir x) i s -> Q s (match i with Ok i => fi_mtime i | Err _ => zeroTime end)) ->
  rg c (entryModTime dir x) s Q.
Proof using All.
  intros HQ. unfold entryModTime. cbn [bind call rg]. split; [apply Hpermit|]. intros i Hi.
  rewrite Hrecord. by apply HQ.
Qed.

Lemma rg_insert_entry dir x before s :
  rg c (insert_entry dir x before) s (fun s' l => s' = s /\ l ≡ₚ x :: before).
Proof using All.
  induction before as [|y rest IH]; [by cbn|]. cbn [insert_entry].
  apply rg_bind, rg_entryModTime. intros ix _. apply rg_bind, rg_entryModTime. intros iy _.
  destruct (_ <? _); [|by cbn].
  apply rg_bind. eapply rg_mono; [exact IH|]. intros s' l [-> Hl]. cbn. split; [done|].
  rewrite Hl. constructor.
Qed.

Lemma rg_sort_entries dir l before s :
  rg c (sort_entries dir l before) s (fun s' r => s' = s /\ r ≡ₚ l ++ before).
Proof using All.
  revert before; induction l as [|x l IH]; intros before; cbn [sort_entries].
  - cbn. split; [done|]. symmetry. apply Permutation_rev.
  - apply rg_bind. eapply rg_mono; [apply rg_insert_entry|]. intros s' b [-> Hb].
    eapply rg_mono; [apply IH|]. intros s' r [-> Hr]. split; [done|].
    rewrite Hr, Hb. simpl. by rewrite Permutation_middle.
Qed.
End sorting.

(** ** Eviction *)

(** What a run has learnt about the hot root: the capacity of its first measurement, the
    usage of the latest, whether that one is the first; the marker read last with the
    specification found in it; the markers listed; the paths deleted. *)
Record usage := mkUsage {
  ug_capacity : option Z;
  ug_used : Z;
  ug_first : bool;
  ug_read : option (string * CacheSpec);
  ug_listed : list string;
  ug_removed : list string;
}.
Definition unmeasured : usage := mkUsage None 0 false None [] [].

Section eviction.
Context (C : codec) (m : cacheManager) (hot : string).

Definition limited : bool := 0 <? default 0 (limits m !! hot).
Definition measured (cap used : Z) (s : usage) : usage :=
  match ug_capacity s with
  | None => mkUsage (Some cap) used true (ug_read s) (ug_listed s) (ug_removed s)
  | Some c => mkUsage (Some c) used false (ug_read s) (ug_listed s) (ug_removed s)
  end.
Definition observe_usage {X} (e : fev X) : X -> usage -> usage :=
  match e in fev T return T -> usage -> usage with
  | FStatfs p => fun x s =>
      match x with
      | Ok st => if (p == hot) && negb limited
                 then measured (int64 (int64 (st_blocks st) * st_bsize st))
                        (int64 (int64 (st_blocks st - st_bavail st) * st_bsize st)) s
                 else s
      | Err _ => s
      end
  | FWalk p => fun x s =>
      match sum_regular x 0 with
      | Ok used => if (p == hot) && limited
                   then measured (default 0 (limits m !! hot)) used s else s
      | Err _ => s
      end
  | FReadFile p => fun x s =>
      mkUsage (ug_capacity s) (ug_used s) (ug_first s)
        (Some (p, match x with Ok b => decodeSpec C b | Err _ => zeroSpec end)) (ug_listed s) (ug_removed s)
  | FReadDir p => fun x s =>
      mkUsage (ug_capacity s) (ug_used s) (ug_first s) (ug_read s)
        (if p == hotMarkers hot then fst x else ug_listed s) (ug_removed s)
  | FRemoveAll p => fun x s =>
      mkUsage (ug_capacity s) (ug_used s) (ug_first s) (ug_read s) (ug_listed s) (p :: ug_removed s)
  | _ => fun _ s => s
  end.

(** Deletions must satisfy [may]; nothing is relied on. *)
Definition evicting (may : usage -> string -> Prop) : contract fev usage := mkContract
  (fun _ _ _ _ => True)
  (fun X e s => match e with FRemoveAll p => may s p | _ => True end)
  (fun X e x s => observe_usage e x s).

(** What is deleted when a marker is evicted: the marker, or the serving copy of the
    specification just read from it. *)
Definition evicts (s : usage) (name p : string) : Prop :=
  p = hotMarker hot name
  \/ exists spec, ug_read s = Some (path_join [hotMarker hot name; "cache.json"], spec)
     /\ p = materializedPath hot spec.

Lemma rg_cacheUsage may s :
  rg (evicting may) (cacheUsage m hot) s (fun s' x =>
    match x with Ok (cap, used) => s' = measured cap used s | Err _ => True end).
Proof.
  unfold cacheUsage. apply rg_rlet, rg_rlet. cbn [call rg]. split; [done|]. intros [st|e] _; [|done].
  cbn [rg ok record evicting observe_usage]. rewrite bool_decide_eq_true_2 by done.
  fold limited. destruct limited eqn:El; cbn [andb negb]; [|done].
  apply rg_rlet, rg_bind. cbn [call rg]. split; [done|]. intros visits _.
  cbn [rg ok record evicting observe_usage].
  destruct (sum_regular visits 0); [|done]. by rewrite bool_decide_eq_true_2, El.
Qed.

(** The part of the state that deciding an eviction leaves alone. *)
Definition same_usage (s s' : usage) : Prop :=
  ug_capacity s' = ug_capacity s /\ ug_used s' = ug_used s /\ ug_first s' = ug_first s
  /\ ug_listed s' = ug_listed s.

Lemma rg_evict may name s :
  (forall s' p, same_usage s s' -> evicts s' name p -> may s' p) ->
  rg (evicting may) (evict C hot (hotMarker hot name)) s (fun s' x =>
    match x with
    | Ok _ => same_usage s s' /\ hotMarker hot name ∈ ug_removed s' /\ ug_removed s ⊆ ug_removed s'
    | Err _ => True
    end).
Proof.
  intros Hmay. unfold evict. apply rg_bind. cbn [call rg]. split; [done|]. intros body _.
  cbn [record evicting observe_usage].
  set (spec := match body with Ok b => decodeSpec C b | Err _ => zeroSpec end).
  set (s1 := mkUsage _ _ _ _ _ _).
  assert (rg (evicting may) (let! _ := call (FRemoveAll (materializedPath hot spec)) in Ret tt) s1
    (fun s' _ => same_usage s s' /\ ug_removed s ⊆ ug_removed s')) as Hrm.
  { cbn [bind call rg]. split.
    - apply Hmay; [done|]. right. by exists spec.
    - intros x _. cbn. split; [done|]. set_solver. }
  apply rg_bind. eapply rg_mono with (Q := fun s' _ => same_usage s s' /\ ug_removed s ⊆ ug_removed s').
  { destruct (_ && _); [exact Hrm|]. case_bool_decide; [exact Hrm|]. by cbn. }
  intros s2 [] [Hsame Hsub]. apply rg_rlet. cbn [call rg]. split; [apply Hmay; [done|by left]|].
  intros [[]|e] _; [|done]. cbn [bind call rg ok]. split; [done|]. intros [] _. cbn.
  split_and!; [done|set_solver|set_solver].
Qed.

Lemma rg_oldest_first may s :
  rg (evicting may) (oldest_first hot) s (fun s' x =>
    match x with
    | Ok l => ug_capacity s' = ug_capacity s /\ ug_used s' = ug_used s /\ ug_first s' = ug_first s
              /\ l ≡ₚ ug_listed s'
    | Err _ => True
    end).
Proof.
  unfold oldest_first. cbn [bind call rg]. split; [done|]. intros [entries err] _.
  cbn [record evicting observe_usage fst]. rewrite bool_decide_eq_true_2 by done.
  set (s1 := mkUsage _ _ _ _ _ _).
  assert (rg (evicting may) (let! l := sort_entries (hotMarkers hot) entries [] in ok l) s1 (fun s' x =>
    match x with
    | Ok l => ug_capacity s' = ug_capacity s /\ ug_used s' = ug_used s /\ ug_first s' = ug_first s
              /\ l ≡ₚ ug_listed s'
    | Err _ => True
    end)) as H.
  { apply rg_bind. eapply rg_mono; [by apply rg_sort_entries|]. intros s' l [-> Hl]. cbn.
    rewrite app_nil_r in Hl. done. }
  destruct err as [e|]; [|exact H]. destruct (isNotExist e); [exact H|by cbn].
Qed.

(** ** The sweep *)

(** The usage a sweep tolerates: 80 % before it evicts anything, 65 % after. *)
Definition tolerated (s : usage) : Prop :=
  exists cap, ug_capacity s = Some cap
    /\ ug_used s <= percent cap (if ug_first s then 80 else 65).
Definition sweep_may (preserve : string) (s : usage) (p : string) : Prop :=
  ug_capacity s <> None /\ ~ tolerated s
  /\ exists name, name ∈ ug_listed s /\ name <> preserve /\ evicts s name p.

Lemma tolerated_same s s' : same_usage s s' -> tolerated s' <-> tolerated s.
Proof. intros (H1&H2&H3&_). unfold tolerated. by rewrite H1, H2, H3. Qed.

(** What a sweep that returns without an error has achieved. *)
Definition swept (preserve : string) (s : usage) : Prop :=
  ug_capacity s <> None
  /\ (tolerated s
      \/ forall name, name ∈ ug_listed s -> name <> preserve -> hotMarker hot name ∈ ug_removed s).

Lemma measured_again s cap used cap0 :
  ug_capacity s = Some cap0 ->
  measured cap used s = mkUsage (Some cap0) used false (ug_read s) (ug_listed s) (ug_removed s).
Proof. unfold measured. by intros ->. Qed.

Lemma rg_sweep_loop preserve cap entries s :
  ug_capacity s = Some cap -> ~ tolerated s ->
  (forall name, name ∈ entries -> name ∈ ug_listed s) ->
  (forall name, name ∈ ug_listed s -> name <> preserve ->
     name ∈ entries \/ hotMarker hot name ∈ ug_removed s) ->
  rg (evicting (sweep_may preserve)) (sweep_loop C m hot preserve cap entries) s
    (fun s' x => match x with Ok _ => swept preserve s' | Err _ => True end).
Proof.
  revert s. induction entries as [|name rest IH]; intros s Hcap Htol Hin Hout; cbn [sweep_loop].
  { cbn. split; [by rewrite Hcap|]. right. intros n Hn Hp.
    destruct (Hout n Hn Hp) as [[]%elem_of_nil|]; done. }
  case_bool_decide as Hp.
  { apply IH; [done..| |]; [intros; apply Hin; by right|].
    intros n Hn Hne. destruct (Hout n Hn Hne) as [[->|?]%elem_of_cons|?]; [done|by left|by right]. }
  apply rg_rlet. eapply rg_mono; [apply rg_evict|].
  { intros s' p Hs He. split_and!; [by destruct Hs as (-> & _); rewrite Hcap|by rewrite tolerated_same|].
    exists name. destruct Hs as (_&_&_&->). split_and!; [|done..]. apply Hin. by left. }
  intros s1 [[]|e]; [|done]. intros ((Hc1 & Hu1 & Hf1 & Hl1) & Hrm & Hsub).
  apply rg_rlet. eapply rg_mono; [apply rg_cacheUsage|].
  intros s2 [[cap' used]|e]; [|done]. rewrite (measured_again _ _ _ cap) by congruence. intros ->.
  destruct (used <=? percent cap 65) eqn:E.
  { cbn. split; [done|]. left. exists cap. split; [done|]. by apply Z.leb_le. }
  apply IH; cbn; [done| |rewrite Hl1; intros; apply Hin; by right|].
  - intros (c & [= <-] & Hle). cbn in Hle. apply Z.leb_gt in E. lia.
  - rewrite Hl1. intros n Hn Hne. destruct (Hout n Hn Hne) as [[->|?]%elem_of_cons|?];
      [by right|by left|right; by apply Hsub].
Qed.

Lemma rg_sweep preserve s :
  ug_capacity s = None ->
  rg (evicting (sweep_may preserve)) (sweep C m hot preserve) s
    (fun s' x => match x with Ok _ => swept preserve s' | Err _ => True end).
Proof.
  intros Hs. unfold sweep. cbn [bind call rg]. split; [done|]. intros [] _.
  cbn [record evicting observe_usage].
  apply rg_rlet. eapply rg_mono; [apply rg_cacheUsage|].
  intros s1 [[cap used]|e]; [|done]. unfold measured. rewrite Hs. intros ->.
  destruct (used <=? percent cap 80) eqn:E.
  { cbn. split; [done|]. left. exists cap. split; [done|]. by apply Z.leb_le. }
  apply rg_rlet. eapply rg_mono; [apply rg_oldest_first|].
  intros s2 [l|e]; [|done]. cbn. intros (Hc & Hu & Hf & Hl).
  apply rg_sweep_loop; [done| | |].
  - intros (c & Hc' & Hle). rewrite Hc in Hc'. injection Hc' as <-. rewrite Hu, Hf in Hle.
    apply Z.leb_gt in E. lia.
  - intros n. by rewrite Hl.
  - intros n Hn _. left. by rewrite Hl.
Qed.

(** ** Making room *)

Definition fits (incoming : Z) (s : usage) : Prop :=
  exists cap, ug_capacity s = Some cap /\ incoming <= percent cap 95
    /\ int64 (ug_used s + incoming) <= percent cap 95.
Definition space_may (incoming : Z) (s : usage) (p : string) : Prop :=
  (exists cap, ug_capacity s = Some cap /\ incoming <= percent cap 95)
  /\ ~ fits incoming s /\ exists name, name ∈ ug_listed s /\ evicts s name p.

Lemma fits_same incoming s s' : same_usage s s' -> fits incoming s' <-> fits incoming s.
Proof. intros (H1&H2&_). unfold fits. by rewrite H1, H2. Qed.

Lemma rg_space_loop incoming cap entries s :
  ug_capacity s = Some cap -> incoming <= percent cap 95 -> ~ fits incoming s ->
  (forall name, name ∈ entries -> name ∈ ug_listed s) ->
  rg (evicting (space_may incoming)) (space_loop C m hot incoming cap entries) s
    (fun s' x => match x with Ok _ => fits incoming s' | Err _ => True end).
Proof.
  revert s. induction entries as [|name rest IH]; intros s Hcap Hinc Hfit Hin; cbn [space_loop]; [done|].
  apply rg_rlet. eapply rg_mono; [apply rg_evict|].
  { intros s' p Hs He. pose proof (fits_same incoming _ _ Hs). destruct Hs as (Hc'&_&_&Hl').
    split_and!; [exists cap; by rewrite Hc'|tauto|]. exists name. rewrite Hl'. split; [|done].
    apply Hin. by left. }
  intros s1 [[]|e]; [|done]. intros ((Hc1 & Hu1 & Hf1 & Hl1) & _ & _).
  apply rg_rlet. eapply rg_mono; [apply rg_cacheUsage|].
  intros s2 [[cap' used]|e]; [|done]. rewrite (measured_again _ _ _ cap) by congruence. intros ->.
  destruct (_ <=? _) eqn:E.
  { cbn. exists cap. split_and!; [done..|]. by apply Z.leb_le. }
  apply IH; cbn; [done..| |rewrite Hl1; intros; apply Hin; by right].
  intros (c & [= <-] & _ & Hle). cbn in Hle. apply Z.leb_gt in E. lia.
Qed.

Lemma rg_makeSpace incoming s :
  ug_capacity s = None ->
  rg (evicting (space_may incoming)) (makeSpace C m hot incoming) s
    (fun s' x => match x with Ok _ => fits incoming s' | Err _ => True end).
Proof.
  intros Hs. unfold makeSpace.
  apply rg_rlet. eapply rg_mono; [apply rg_cacheUsage|].
  intros s1 [[cap used]|e]; [|done]. unfold measured. rewrite Hs. intros ->.
  destruct (percent cap 95 <? incoming) eqn:E1; [done|]. apply Z.ltb_ge in E1.
  destruct (_ <=? _) eqn:E.
  { cbn. exists cap. split_and!; [done..|]. by apply Z.leb_le. }
  apply rg_rlet. eapply rg_mono; [apply rg_oldest_first|].
  intros s2 [l|e]; [|done]. cbn. intros (Hc & Hu & Hf & Hl).
  apply (rg_space_loop _ cap); [done|done| |by intros n; rewrite Hl].
  intros (c & Hc' & _ & Hle). rewrite Hc in Hc'. injection Hc' as <-. rewrite Hu in Hle.
  apply Z.leb_gt in E. lia.
Qed.
End eviction.

(** The state of a run, read off its trace. *)
Definition usage_after (C : codec) (m : cacheManager) (tr : list (obs fev)) : usage :=
  fold_left (fun s o => observe_usage C m (hotRoot m) (obs_req o) (obs_reply o) s) tr unmeasured.

(** C34: whatever the file system replies, a sweep deletes only what belongs to a listed
    marker other than the preserved one, and only while the latest measured usage is
    above the tolerated one, 80 % of the capacity before the first eviction and 65 %
    after it; and when it returns without an error the usage is tolerated or every
    other listed marker is gone. *)
Theorem sweep_policy {W} (C : codec) (m : cacheManager) (preserve : string) (h : handler fev W) (w : W) :
  let tr := trace h (sweep C m (hotRoot m) preserve) w in
  (forall tr1 p x tr2, tr = tr1 ++ Obs (FRemoveAll p) x :: tr2 ->
     sweep_may (hotRoot m) preserve (usage_after C m tr1) p)
  /\ (value h (sweep C m (hotRoot m) preserve) w = Ok tt ->
      swept (hotRoot m) preserve (usage_after C m tr)).
Proof.
  destruct (rg_run_any (evicting C m (hotRoot m) (sweep_may (hotRoot m) preserve)) h _ unmeasured w _
    (fun _ _ _ _ => I) (rg_sweep C m (hotRoot m) preserve unmeasured eq_refl))
    as [Hm Hv].
  split; [intros tr1 p x tr2 Htr; exact (Hm _ _ _ Htr)|].
  intros E. by rewrite E in Hv.
Qed.

(** C35: room is made only for an artifact that can fit: entries are deleted only while the
    incoming bytes do not fit into 95 % of the capacity together with the measured
    usage, and a nil result means that they do. *)
Theorem makeSpace_policy {W} (C : codec) (m : cacheManager) (incoming : Z) (h : handler fev W) (w : W) :
  let tr := trace h (makeSpace C m (hotRoot m) incoming) w in
  (forall tr1 p x tr2, tr = tr1 ++ Obs (FRemoveAll p) x :: tr2 ->
     space_may (hotRoot m) incoming (usage_after C m tr1) p)
  /\ (value h (makeSpace C m (hotRoot m) incoming) w = Ok tt -> fits incoming (usage_after C m tr)).
Proof.
  destruct (rg_run_any (evicting C m (hotRoot m) (space_may (hotRoot m) incoming)) h _ unmeasured w _
    (fun _ _ _ _ => I) (rg_makeSpace C m (hotRoot m) incoming unmeasured eq_refl))
    as [Hm Hv].
  split; [intros tr1 p x tr2 Htr; exact (Hm _ _ _ Htr)|].
  intros E. by rewrite E in Hv.
Qed.

(** ** Eviction order *)

Section order.
Context (hot : string) (info : string -> result fileinfo).

(** The age that orders evictions; an entry that cannot be stat'ed counts as oldest. *)
Definition mtime_of (name : string) : Z :=
  match info name with Ok i => fi_mtime i | Err _ => zeroTime end.
(** Modification times do not change while they are compared. *)
Definition stat_stable (X : Type) (e : fev X) : X -> Prop :=
  match e in fev T return T -> Prop with
  | FInfo _ name => fun x => x = info name
  | _ => fun _ => True
  end.
Definition observe_listing {X} (e : fev X) : X -> list string -> list string :=
  match e in fev T return T -> list string -> list string with
  | FReadDir p => fun x s => if p == hotMarkers hot then fst x else s
  | _ => fun _ s => s
  end.
Definition ordering : contract fev (list string) := mkContract
  (fun X e x _ => stat_stable X e x) (fun _ _ _ => True) (fun X e x s => observe_listing e x s).

Definition youngest_first (l : list string) : Prop :=
  StronglySorted (fun a b => mtime_of b <= mtime_of a) l.

Lemma rg_insert_sorted dir x before s :
  youngest_first before ->
  rg ordering (insert_entry dir x before) s (fun s' l => s' = s /\ l ≡ₚ x :: before /\ youngest_first l).
Proof.
  induction before as [|y rest IH]; intros Hb; cbn [insert_entry].
  { cbn. split_and!; [done..|]. by repeat constructor. }
  inversion Hb as [|?? Hrest Hy]; subst.
  apply rg_bind, rg_entryModTime; [done..|]. intros ix Hix. cbn in Hix. subst ix.
  apply rg_bind, rg_entryModTime; [done..|]. intros iy Hiy. cbn in Hiy. subst iy.
  fold (mtime_of x) (mtime_of y). destruct (Z.ltb_spec (mtime_of x) (mtime_of y)).
  - apply rg_bind. eapply rg_mono; [by apply IH|]. intros s' l (-> & Hl & Hsort). cbn.
    split_and!; [done|rewrite Hl; constructor|]. constructor; [done|]. rewrite Hl. constructor; [lia|done].
  - cbn. split_and!; [done..|]. constructor; [done|]. constructor; [lia|].
    eapply Forall_impl; [exact Hy|]. intros z Hz. simpl in Hz. lia.
Qed.

Lemma rg_sort_sorted dir l before s :
  youngest_first before ->
  rg ordering (sort_entries dir l before) s (fun s' r => s' = s /\ r ≡ₚ l ++ before
    /\ StronglySorted (fun a b => mtime_of a <= mtime_of b) r).
Proof.
  revert before. induction l as [|x l IH]; intros before Hb; cbn [sort_entries].
  - cbn. split_and!; [done|symmetry; apply Permutation_rev|]. induction Hb as [|y b Hb IH Hy]; [constructor|].
    cbn. apply StronglySorted_app. split_and!; [|exact IH|by repeat constructor].
    intros a c Ha ->%list_elem_of_singleton.
    rewrite Forall_forall in Hy. apply Hy. by rewrite (Permutation_rev b).
  - apply rg_bind. eapply rg_mono; [by apply rg_insert_sorted|]. intros s' b (-> & Hperm & Hsort).
    eapply rg_mono; [by apply IH|]. intros s' r (-> & Hr & Hrs). split_and!; [done| |done].
    rewrite Hr, Hperm. simpl. by rewrite Permutation_middle.
Qed.

Lemma rg_oldest_sorted s :
  rg ordering (oldest_first hot) s (fun s' x =>
    match x with
    | Ok l => l ≡ₚ s' /\ StronglySorted (fun a b => mtime_of a <= mtime_of b) l
    | Err _ => True
    end).
Proof.
  unfold oldest_first. apply rg_bind, rg_call; [done|]. intros [entries err] _.
  cbn [record ordering observe_listing fst]. rewrite bool_decide_eq_true_2 by done.
  assert (rg ordering (let! l := sort_entries (hotMarkers hot) entries [] in ok l) entries (fun s' x =>
    match x with
    | Ok l => l ≡ₚ s' /\ StronglySorted (fun a b => mtime_of a <= mtime_of b) l
    | Err _ => True
    end)) as H.
  { apply rg_bind. eapply rg_mono; [apply rg_sort_sorted; constructor|]. intros s' l (-> & Hl & Hs). cbn.
    rewrite app_nil_r in Hl. done. }
  destruct err as [e|]; [|exact H]. destruct (isNotExist e); [exact H|by cbn].
Qed.
End order.

(** The markers a run has listed. *)
Definition listing_after (hot : string) (tr : list (obs fev)) : list string :=
  fold_left (fun s o => observe_listing hot (obs_req o) (obs_reply o) s) tr [].

(** Candidates for eviction are the listed markers, all of them, oldest first; one that
    can no longer be stat'ed counts as the oldest.  The hypothesis is that modification
    times stay put while they are compared. *)
Theorem evicts_oldest_first {W} (hot : string) (info : string -> result fileinfo)
    (h : handler fev W) (w : W) (l : list string) :
  obeys (stat_stable info) h -> value h (oldest_first hot) w = Ok l ->
  l ≡ₚ listing_after hot (trace h (oldest_first hot) w)
  /\ StronglySorted (fun a b => mtime_of info a <= mtime_of info b) l.
Proof.
  intros Hh E.
  destruct (rg_obeys (ordering hot info) (stat_stable info) h (oldest_first hot) [] w _
    (fun _ _ _ _ H => H) Hh (rg_oldest_sorted hot info [])) as [_ Hv].
  by rewrite E in Hv.
Qed.

Lemma evicts_oldest_first_witness :
  value sample_disk (oldest_first "/cache/hot") fresh_disk = Ok ["old"]
  /\ StronglySorted (fun a b => mtime_of (fun _ => Ok (mkInfo ModeDir 0 1)) a
       <= mtime_of (fun _ => Ok (mkInfo ModeDir 0 1)) b) ["old"].
Proof.
  assert (value sample_disk (oldest_first "/cache/hot") fresh_disk = Ok ["old"]) as E by (vm_compute; reflexivity).
  split; [exact E|].
  apply (evicts_oldest_first "/cache/hot" (fun _ => Ok (mkInfo ModeDir 0 1)) sample_disk fresh_disk); [|exact E].
  intros X e w. destruct e; cbn; try exact I. reflexivity.
Defined.

(** Two different artifacts share a key, and with it their markers. *)
Lemma cacheKey_collides :
  let a := mkCacheRequest "m" "vllm" (mkCacheSpec "huggingface-hub" "org/a-b" "c" 0 [] "") in
  let b := mkCacheRequest "m" "vllm" (mkCacheSpec "huggingface-hub" "org/a" "b-c" 0 [] "") in
  validCacheRequest a = Ok tt /\ validCacheRequest b = Ok tt
  /\ cr_cache a <> cr_cache b /\ cacheKey (cr_cache a) = cacheKey (cr_cache b).
Proof. vm_compute. repeat split; discriminate. Qed.

(** The shared blob store itself is an accepted target, which an ensure then clears. *)
Lemma blob_store_is_a_target hot :
  validMaterializationTarget "gguf/.blobs" = Ok tt
  /\ path_join [hot; "gguf/.blobs"] = path_join [hot; "gguf"; ".blobs"].
Proof. split; [vm_compute; reflexivity|]. unfold path_join. simpl. by case_bool_decide. Qed.

