(* ===== verification/CacheSafety.v ===== *)
(** * What the cache manager may delete

    A contract on whole histories of the cache manager: whatever requests it serves, in
    whatever order, its deletions stay in its own parts of the hot root. *)

From S2P Require Import Prelude GoStrings GoPath Types Effects Api Driver Samples DriverProps CacheFs CacheManager CacheSamples CacheManagerProps.

(** ** Deletions *)

Definition at_or_below (dir p : string) : Prop := exists rest, segments p = segments dir ++ rest.

(** A path inside one of the manager's directories, or a staging directory. *)
Definition deletable (hot p : string) : Prop :=
  exists sub rest, segments p = segments hot ++ sub :: rest
    /\ (((sub = "hub" \/ sub = "gguf" \/ sub = ".llm-cache") /\ rest <> [])
        \/ (has_prefix sub "staging.staging-" = true /\ rest = [])).

(** No invariant. *)
Definition any {S} (s : S) : Prop := True.

Ltac to_within J H := match goal with |- rg ?c ?p ?s _ => refine ((_ : within c J p) s H) end.

Section deletions.
Context (C : codec) (m : cacheManager).

(** The specification kept beside a marker. *)
Definition cache_json (name : string) : string := path_join [hotMarker (hotRoot m) name; "cache.json"].

(** Replies of a file system that remembers: [log] holds what was written so far, and the
    specification read beside a marker is one that was written there.  Directory entries are
    names, and [MkdirTemp] makes a name with the given prefix. *)
Definition tidy (X : Type) (e : fev X) : X -> list (string * string) -> Prop :=
  match e in fev T return T -> list (string * string) -> Prop with
  | FReadFile p => fun x log => forall name b, proper name -> p = cache_json name -> x = Ok b -> (p, b) ∈ log
  | FReadDir _ => fun x _ => Forall proper (fst x)
  | FMkdirTemp dir pre => fun x _ => forall t, x = Ok t ->
      exists rnd, has_char slash rnd = false /\ t = path_join [dir; pre +:+ rnd]
  | _ => fun _ _ => True
  end.
Definition logged {X} (e : fev X) (log : list (string * string)) : list (string * string) :=
  match e with FWriteFile p body => (p, body) :: log | _ => log end.

(** Deletions are confined, and only placed specifications are kept beside markers. *)
Definition acts_confined {X} (e : fev X) : Prop :=
  match e with
  | FRemoveAll p => deletable (hotRoot m) p
  | FWriteFile p body => forall name, proper name -> p = cache_json name ->
      exists spec, spec_placed spec /\ body = specJSON C spec
  | _ => True
  end.
Definition confined : contract fev (list (string * string)) := mkContract
  (fun X e x log => tidy X e x log) (fun X e _ => acts_confined e) (fun X e _ log => logged e log).

(** What the manager maintains: every specification kept beside a marker is placed. *)
Definition placed_log (log : list (string * string)) : Prop :=
  forall name b, proper name -> (cache_json name, b) ∈ log ->
    exists spec, spec_placed spec /\ b = specJSON C spec.

Lemma placed_log_write p body log :
  acts_confined (FWriteFile p body) -> placed_log log -> placed_log ((p, body) :: log).
Proof. intros Hw Hl name b Hn [[= <- <-]|Hin]%elem_of_cons; eauto. Qed.

Lemma within_copyTree depth source destination : within confined placed_log (copyTree_to depth source destination).
Proof.
  revert source destination. induction depth as [|depth IH]; intros; cbn [copyTree_to];
    unfold removeIfExists, copyFile; stay_within.
Qed.
Lemma within_replaceSymlink path target : within confined placed_log (replaceSymlink path target).
Proof. unfold replaceSymlink. stay_within. Qed.
#[local] Hint Resolve within_copyTree within_replaceSymlink : within.
Lemma within_copyHuggingFaceFile source destination blobs :
  within confined placed_log (copyHuggingFaceFile source destination blobs).
Proof. unfold copyHuggingFaceFile, copyTree, removeIfExists. stay_within. Qed.
Lemma within_copyAndVerify source destination want :
  within confined placed_log (copyAndVerify C source destination want).
Proof. unfold copyAndVerify, copyFile. stay_within. Qed.
#[local] Hint Resolve within_copyHuggingFaceFile within_copyAndVerify : within.
Lemma within_materialize r artifact hot manifest : within confined placed_log (materialize C r artifact hot manifest).
Proof. unfold materialize, materialize_file, materialize_link. stay_within. Qed.
Lemma within_files_resolve hot spec files : within confined placed_log (files_resolve hot spec files).
Proof. induction files as [|file rest IH]; cbn [files_resolve]; stay_within. Qed.
Lemma within_complete dir : within confined placed_log (complete dir).
Proof. unfold complete. stay_within. Qed.
#[local] Hint Resolve within_materialize within_files_resolve within_complete : within.
Lemma within_hotArtifactExists r hot : within confined placed_log (hotArtifactExists r hot).
Proof. unfold hotArtifactExists. stay_within. Qed.
#[local] Hint Resolve within_hotArtifactExists : within.
Lemma within_cacheResult r : within confined placed_log (cacheResult m r).
Proof. unfold cacheResult. stay_within. Qed.
Lemma within_repair r hot : within confined placed_log (repairHotMaterialization r hot).
Proof. unfold repairHotMaterialization, relink_file. stay_within. Qed.
Lemma within_manifestFor dir want : within confined placed_log (artifactManifestFor C dir want).
Proof. unfold artifactManifestFor. stay_within. Qed.
Lemma within_cacheUsage path : within confined placed_log (cacheUsage m path).
Proof. unfold cacheUsage, filesystemUsage, directoryUsage. stay_within. Qed.
#[local] Hint Resolve within_cacheResult within_repair within_manifestFor within_cacheUsage : within.

(** ** Where deletions happen *)

Context (Hroot : clean_root (hotRoot m)).

Lemma placed_deletable spec : spec_placed spec -> deletable (hotRoot m) (materializedPath (hotRoot m) spec).
Proof using All.
  intros Hs. destruct (materialized_placed _ _ Hroot Hs) as (sub & rest & Hsub & Hne & Hseg).
  exists sub, rest. split; [done|]. left. split; [|done]. tauto.
Qed.

Lemma marker_deletable name : proper name -> deletable (hotRoot m) (hotMarker (hotRoot m) name).
Proof using All.
  intros Hn. exists ".llm-cache", [name]. split; [|left; split; [tauto|done]].
  apply segments_path_join; [done| |].
  - cbn [map concat]. rewrite (split_on_no_char slash name); [done|]. by destruct Hn as (_&_&_&?).
  - repeat constructor; try done; apply Hn.
Qed.

Lemma staging_deletable t rnd :
  has_char slash rnd = false ->
  t = path_join [dir_name (path_join [hotRoot m; "staging"]); "staging.staging-" +:+ rnd] ->
  deletable (hotRoot m) t.
Proof using All.
  intros Hr ->. rewrite dir_name_join by (done || by repeat constructor).
  assert (has_char slash ("staging.staging-" +:+ rnd) = false) as Hs by (rewrite has_char_app; done).
  exists ("staging.staging-" +:+ rnd), []. split.
  - apply segments_path_join; [done| |].
    + cbn [map concat]. by rewrite split_on_no_char.
    + apply Forall_singleton. by repeat split.
  - right. split; [apply has_prefix_app|done].
Qed.

(** JSON decodes what it encoded. *)
Context (Hcodec : forall spec, decodeSpec C (specJSON C spec) = spec).

Lemma within_evict name : proper name -> within confined placed_log (evict C (hotRoot m) (hotMarker (hotRoot m) name)).
Proof using All.
  intros Hn s Hs. unfold evict. apply rg_bind, rg_call; [done|]. intros body Hb.
  set (spec := match body with Ok b => decodeSpec C b | Err _ => zeroSpec end).
  to_within placed_log Hs.
  apply within_bind.
  - destruct (_ && _) eqn:E1; [|clear E1; case_bool_decide as E2].
    + apply within_bind; [|by stay_within]. apply within_call; [|done]. intros ? _. apply placed_deletable.
      ok_inv. left. by eapply bool_decide_eq_true_1.
    + apply within_bind; [|by stay_within]. apply within_call; [|done]. intros ? _. apply placed_deletable.
      subst spec. destruct body as [b|e]; [|done]. specialize (Hb name b Hn eq_refl eq_refl).
      destruct (Hs name b Hn Hb) as (spec & Hspec & ->). by rewrite Hcodec.
    + by stay_within.
  - intros []. apply within_rlet; [apply within_call; [|done]; intros ? _; by apply marker_deletable|]. stay_within.
Qed.

Lemma rg_oldest_proper s :
  placed_log s ->
  rg confined (oldest_first (hotRoot m)) s (fun s' x => placed_log s'
    /\ match x with Ok l => Forall proper l | Err _ => True end).
Proof.
  intros Hs. unfold oldest_first. cbn [bind call rg]. split; [done|]. intros [entries err] He. cbn in He.
  assert (rg confined (let! l := sort_entries (hotMarkers (hotRoot m)) entries [] in ok l) s
    (fun s' x => placed_log s' /\ match x with Ok l => Forall proper l | Err _ => True end)) as H.
  { apply rg_bind. eapply rg_mono; [by apply rg_sort_entries|]. intros s' l [-> Hl]. cbn.
    rewrite app_nil_r in Hl. split; [done|]. by rewrite Hl. }
  destruct err as [e|]; [|exact H]. destruct (isNotExist e); [exact H|by cbn].
Qed.

Lemma within_sweep preserve : within confined placed_log (sweep C m (hotRoot m) preserve).
Proof using All.
  unfold sweep. apply within_bind; [by stay_within|]. intros []. apply within_rlet; [by stay_within|].
  intros [cap used]. destruct (_ <=? _); [by stay_within|].
  intros s Hs. apply rg_rlet. eapply rg_mono; [by apply rg_oldest_proper|]. intros s' [l|e] [Hs' Hl]; [|done].
  to_within placed_log Hs'.
  induction Hl as [|name rest Hn _ IH]; cbn [sweep_loop]; [by stay_within|].
  case_bool_decide; [apply IH|]. apply within_rlet; [by apply within_evict|]. intros _.
  apply within_rlet; [by stay_within|]. intros [cap' used']. destruct (_ <=? _); [by stay_within|]. exact IH.
Qed.

Lemma within_makeSpace incoming : within confined placed_log (makeSpace C m (hotRoot m) incoming).
Proof using All.
  unfold makeSpace. apply within_rlet; [by stay_within|].
  intros [cap used]. destruct (_ <? _); [by stay_within|]. destruct (_ <=? _); [by stay_within|].
  intros s Hs. apply rg_rlet. eapply rg_mono; [by apply rg_oldest_proper|]. intros s' [l|e] [Hs' Hl]; [|done].
  to_within placed_log Hs'.
  induction Hl as [|name rest Hn _ IH]; cbn [space_loop]; [by stay_within|].
  apply within_rlet; [by apply within_evict|]. intros _.
  apply within_rlet; [by stay_within|]. intros [cap' used']. destruct (_ <=? _); [by stay_within|]. exact IH.
Qed.

Lemma within_downloadToHot r : within confined placed_log (downloadToHot r (hotRoot m)).
Proof using All.
  intros s Hs. unfold downloadToHot. apply rg_rlet. unfold stagingDir. apply rg_rlet.
  cbn [call rg]. split; [done|]. intros [[]|e] _; [|done]. cbn [rg]. split; [done|].
  intros [t|e] Ht; [|done]. destruct (Ht t eq_refl) as (rnd & Hrnd & Et).
  assert (deletable (hotRoot m) t) as Hdel.
  { eapply staging_deletable; [exact Hrnd|]. rewrite Et.
    rewrite base_name_join by (done || by repeat constructor). done. }
  to_within placed_log Hs.
  apply within_deferring; [by apply within_call|].
  unfold run_download, copyTree. stay_within.
Qed.

(** ** Requests *)

Lemma rg_resolveCacheSpec spec s :
  spec_placed spec ->
  rg confined (resolveCacheSpec C spec) s (fun s' x => s' = s /\
    match x with Ok spec' => spec_placed spec' | Err _ => True end).
Proof.
  intros Hs. unfold resolveCacheSpec. destruct (_ || _); [done|]. cbn [bind call rg].
  split; [done|]. intros [output [e|]] _; [done|]. destruct (decodeInventory C output) as [[size files]|e]; [|done].
  by destruct (_ || _).
Qed.

Lemma within_serve_hot r key : within confined placed_log (serve_hot C m r key).
Proof using All.
  unfold serve_hot, validArtifactMetadata. pose proof within_sweep. stay_within; auto.
Qed.

Lemma within_fetch r key : spec_placed (cr_cache r) -> within confined placed_log (fetch C m r key).
Proof using All.
  intros Hr. unfold fetch, clearMaterialized. pose proof (within_downloadToHot r).
  assert (within confined placed_log (call (FRemoveAll (materializedPath (hotRoot m) (cr_cache r))))).
  { apply within_call; [|done]. intros ? _. by apply placed_deletable. }
  apply within_bind; [by stay_within|]. intros [manifest valid].
  destruct valid; (apply within_rlet; [done|]); stay_within.
Qed.

Lemma within_record_hot key spec : spec_placed spec -> within confined placed_log (record_hot C (hotRoot m) key spec).
Proof using All.
  intros Hs. unfold record_hot, writeComplete.
  assert (forall p body, acts_confined (FWriteFile p body) -> within confined placed_log (call (FWriteFile p body))) as Hw.
  { intros p body Hp. apply within_call; [done|]. intros log x. by apply placed_log_write. }
  apply within_rlet; [by stay_within|]. intros []. apply within_rlet.
  - apply within_bind; [by stay_within|]. intros now. apply Hw. intros name Hn E.
    apply (f_equal base_name) in E. unfold cache_json in E.
    rewrite !base_name_join in E; first [done | by apply clean_root_join | by repeat split].
  - intros []. apply Hw. intros name _ _. eauto.
Qed.

Lemma within_ensureArtifact r : spec_placed (cr_cache r) -> within confined placed_log (ensureArtifact C m r).
Proof using All.
  intros Hr. unfold ensureArtifact. apply within_bind; [by stay_within|]. intros [|]; [apply within_serve_hot|].
  intros s Hs0. apply rg_rlet. eapply rg_mono; [by apply rg_resolveCacheSpec|].
  intros s' [spec|e] [-> Hs]; [|done]. to_within placed_log Hs0.
  apply within_rlet; [apply within_sweep|]. intros []. apply within_rlet; [apply within_makeSpace|]. intros [].
  apply within_rlet; [by apply within_fetch|]. intros []. apply within_rlet; [by apply within_record_hot|].
  stay_within.
Qed.

Lemma decode_and_check_placed payload r :
  decode_and_check C payload = Ok r -> spec_placed (cr_cache r).
Proof.
  unfold decode_and_check. destruct (decodeRequest _ _) as [r'|]; [|done].
  intros ([] & Hv & [= <-])%rbind_ok. by apply valid_request_placed.
Qed.

Lemma within_ensure payload : within confined placed_log (ensure C m payload).
Proof using All.
  unfold ensure. destruct (decode_and_check C payload) as [r|] eqn:E; [|by stay_within].
  apply decode_and_check_placed in E. pose proof (within_ensureArtifact r E). unfold locked. stay_within.
Qed.
Lemma within_sweepRequest payload : within confined placed_log (sweepRequest C m payload).
Proof using All.
  unfold sweepRequest. destruct (decode_and_check C payload) as [r|] eqn:E; [|by stay_within].
  pose proof within_sweep. unfold locked. stay_within; auto.
Qed.

(** Any sequence of requests.  The two handlers hold [opMu] from beginning to end, so one
    run follows the other. *)
Inductive cache_call :=
| CallEnsure (payload : string)
| CallSweep (payload : string).
Fixpoint serve_calls (calls : list cache_call) : fprog unit :=
  match calls with
  | [] => Ret tt
  | CallEnsure payload :: rest => do! ensure C m payload; serve_calls rest
  | CallSweep payload :: rest => do! sweepRequest C m payload; serve_calls rest
  end.
Lemma within_serve_calls calls : within confined placed_log (serve_calls calls).
Proof using All.
  induction calls as [|[payload|payload] rest IH]; cbn [serve_calls]; [by stay_within|..];
    (apply within_bind; [|intros []; exact IH]); [by apply within_ensure|by apply within_sweepRequest].
Qed.

(** The two roots are separate trees. *)
Definition roots_apart : Prop :=
  ~ at_or_below (hotRoot m) (cold m) /\ ~ at_or_below (cold m) (hotRoot m).

Lemma deletable_spares_cold p q :
  roots_apart -> deletable (hotRoot m) p -> at_or_below (cold m) q -> ~ at_or_below p q.
Proof.
  intros [H1 H2] (sub & rest & Hp & _) [y Hy] [z Hz]. rewrite Hp, Hy, <- app_assoc in Hz.
  apply app_eq_app in Hz as [k [[Hk _]|[Hk _]]]; [apply H1; by exists k|apply H2; by exists k].
Qed.
Lemma deletable_spares_root p : deletable (hotRoot m) p -> ~ at_or_below p (hotRoot m).
Proof.
  intros (sub & rest & Hp & _) [z Hz]. rewrite Hp, <- app_assoc in Hz.
  apply (f_equal length) in Hz. rewrite !length_app in Hz. cbn in Hz. lia.
Qed.
End deletions.


(** ** A disk that remembers *)

#[export] Instance CacheSpec_eq_dec : EqDecision CacheSpec.
Proof. solve_decision. Defined.
#[export] Instance CacheSpec_countable : Countable CacheSpec.
Proof.
  refine (inj_countable'
    (fun s => (cs_kind s, cs_repoID s, cs_revision s, cs_size s, cs_files s, cs_target s))
    (fun '(k, r, v, n, f, t) => mkCacheSpec k r v n f t) _).
  by intros [].
Defined.

(** Specifications numbered, and the number written out. *)
Definition number_spec (s : CacheSpec) : string := show_int (Zpos (encode s)).
Definition numbered_spec (b : string) : CacheSpec :=
  match parse_signed b with Some (Zpos p) => default zeroSpec (decode p) | _ => zeroSpec end.
Lemma numbered_spec_number s : numbered_spec (number_spec s) = s.
Proof. unfold numbered_spec, number_spec. rewrite parse_signed_show by lia. by rewrite decode_encode. Qed.

Definition small_request : CacheRequest :=
  mkCacheRequest "poolside/laguna" BackendLlamaCpp
    (mkCacheSpec "huggingface-files" "poolside/laguna-gguf" "def456" 4 ["laguna.gguf"] "gguf/laguna").
Definition other_request : CacheRequest :=
  mkCacheRequest "google/gemma" BackendVLLM (mkCacheSpec "huggingface-hub" "google/gemma" "abc" 1 [] "").
Definition numbering_codec : codec := {|
  specJSON := number_spec; decodeSpec := numbered_spec;
  manifestJSON := manifestJSON sample_codec;
  decodeManifest := fun _ => (mkManifest 1 (cr_cache small_request) [mkArtifactFile "files/laguna.gguf" 4 "gguf" ""], true);
  decodeRequest := fun s => if s == "laguna" then Ok small_request else Ok other_request;
  decodeInventory := decodeInventory sample_codec; formatRFC3339 := formatRFC3339 sample_codec;
  digest := digest sample_codec;
|}.

(** The files written below the hot root, latest first, and a usage that stays at 90 %. *)
Definition remembering_disk : handler fev (disk * list (string * string)) := fun X e =>
  match e in fev T return disk * list (string * string) -> T * (disk * list (string * string)) with
  | FReadFile p => fun '(d, log) =>
      (if base_name p == "artifact.json" then Ok "{}"
       else match List.find (fun e => fst e == p) log with Some (_, b) => Ok b | None => missing end, (d, log))
  | FWriteFile p body => fun '(d, log) => (Ok tt, (d, (p, body) :: log))
  | FReadDir _ => fun w => (([cacheKey (cr_cache small_request)], None), w)
  | FStatfs _ => fun w => (Ok (mkStatfs 100000000000 10000000000 1), w)
  | e => fun '(d, log) => let '(x, d') := sample_disk _ e d in (x, (d', log))
  end.

Lemma remembering_disk_honours :
  honours (confined numbering_codec sample_manager) remembering_disk (fun log w => snd w = log).
Proof.
  intros X e log [d log'] E. cbn in E. subst log'. destruct e; try (split; [exact I|reflexivity]).
  - cbn. split; [|reflexivity]. intros name b Hn -> Hb.
    assert (base_name (cache_json sample_manager name) = "cache.json") as Hp.
    { apply base_name_join; [apply clean_root_join; split; vm_compute; reflexivity|by repeat split]. }
    rewrite Hp in Hb. rewrite (bool_decide_eq_false_2 ("cache.json" = "artifact.json")) in Hb by discriminate.
    destruct (List.find _ log) as [[q c]|] eqn:Hf; [|discriminate Hb].
    apply find_some in Hf as [Hin Hq]. cbn in Hq. apply bool_decide_eq_true in Hq as ->. injection Hb as <-.
    by apply list_elem_of_In.
  - cbn. split; [|reflexivity]. apply Forall_singleton. by repeat split.
  - cbn. split; [|reflexivity]. intros t [= <-]. exists (ticks (made d)). split; [apply ticks_no_slash|done].
Qed.

