(* ===== verification/CacheArtifacts.v ===== *)
(** * When an artifact counts as complete

    Publication of a cold artifact, and the completion marker of a hot one: what a run of
    the cache manager must have done before it publishes the one or marks the other. *)

From S2P Require Import Prelude GoStrings GoPath Types Effects Api Driver Samples DriverProps CacheFs CacheManager CacheSamples CacheManagerProps CacheSafety.

(** ** Publishing to the cold store *)

(** Temporary directories made, files written and renames done, latest first. *)
Record publication := mkPublication {
  temps : list string;
  written : list (string * string);
  moved : list (string * string);
}.
Definition nothing_published : publication := mkPublication [] [] [].

Definition observe_publication {X} (e : fev X) : X -> publication -> publication :=
  match e in fev T return T -> publication -> publication with
  | FMkdirTemp _ _ => fun x s =>
      match x with Ok t => mkPublication (t :: temps s) (written s) (moved s) | Err _ => s end
  | FWriteFile p b => fun x s =>
      match x with Ok _ => mkPublication (temps s) ((p, b) :: written s) (moved s) | Err _ => s end
  | FRename from to => fun x s =>
      match x with Ok _ => mkPublication (temps s) (written s) ((from, to) :: moved s) | Err _ => s end
  | _ => fun _ s => s
  end.
Definition publication_after (tr : list (obs fev)) : publication :=
  fold_left (fun s o => observe_publication (obs_req o) (obs_reply o) s) tr nothing_published.

Section publication.
Context (C : codec) (spec : CacheSpec) (destination : string).

(** The directory holds a manifest of [spec] and the completion marker. *)
Definition sealed (s : publication) (dir : string) : Prop :=
  exists files body stamp, manifestJSON C (mkManifest 1 spec files) = Ok body
    /\ (path_join [dir; "artifact.json"], body) ∈ written s
    /\ (path_join [dir; ".complete"], stamp) ∈ written s.
Definition staging_sealed (s : publication) : Prop :=
  exists dir, last (temps s) = Some dir /\ sealed s dir.

(** The first temporary directory is the staging directory: it may be moved, and the
    destination may be removed, only when it is sealed. *)
Definition publishing : contract fev publication := mkContract
  (fun _ _ _ _ => True)
  (fun X e s =>
     match e with
     | FRename from _ => NoDup (temps s) -> last (temps s) = Some from -> sealed s from
     | FRemoveAll p => p = destination -> destination ∉ temps s -> staging_sealed s
     | _ => True
     end)
  (fun X e x s => observe_publication e x s).

Definition staged (dir : string) (s : publication) : Prop := last (temps s) = Some dir.

Lemma last_cons_tail {A} (x d : A) l : last l = Some d -> last (x :: l) = Some d.
Proof. intros H. rewrite last_cons, H. done. Qed.
Lemma last_cons_fresh {A} (x : A) l d : last l = Some d -> NoDup (x :: l) -> last (x :: l) <> Some x.
Proof.
  intros Hl [Hx _]%NoDup_cons. rewrite (last_cons_tail x d l Hl). intros [= ->].
  apply Hx. by eapply last_Some_elem_of.
Qed.

Lemma within_relink dir path target : within publishing (staged dir) (replaceSymlink path target).
Proof.
  intros s Hs. unfold replaceSymlink. apply rg_rlet, rg_call; [done|]. intros [t|e] _; [|done].
  cbn [record publishing observe_publication].
  set (s1 := mkPublication (t :: temps s) _ _).
  assert (staged dir s1) as Hs1 by (by apply last_cons_tail).
  assert (forall q : fprog (result unit), q = call (FRename t path) ->
    within publishing (fun s' => s' = s1 \/ (staged dir s' /\ temps s' = temps s1)) q) as Hren.
  { intros q ->. intros s' Hs'. cbn [call rg]. split.
    - intros Hnd Hlast. exfalso.
      assert (temps s' = t :: temps s) as Ht by (destruct Hs' as [->|[_ ->]]; done).
      rewrite Ht in Hnd, Hlast. exact (last_cons_fresh t (temps s) dir Hs Hnd Hlast).
    - intros [[]|e] _; cbn; [right|]; destruct Hs' as [->|[? ?]]; auto. }
  eapply rg_mono.
  - refine ((_ : within publishing (fun s' => s' = s1 \/ (staged dir s' /\ temps s' = temps s1)) _) s1 (or_introl eq_refl)).
    pose proof (Hren _ eq_refl). stay_within.
  - intros s' x [->|[? _]]; done.
Qed.
#[local] Hint Resolve within_relink : within.

Lemma within_tree dir depth source dest : within publishing (staged dir) (copyTree_to depth source dest).
Proof.
  revert source dest. induction depth as [|depth IH]; intros; cbn [copyTree_to];
    unfold removeIfExists, copyFile; stay_within.
Qed.
#[local] Hint Resolve within_tree : within.
Lemma within_hf dir source dest blobs : within publishing (staged dir) (copyHuggingFaceFile source dest blobs).
Proof. unfold copyHuggingFaceFile, copyTree, removeIfExists. stay_within. Qed.
#[local] Hint Resolve within_hf : within.
Lemma within_visits dir root visits files : within publishing (staged dir) (inventory_walk C root visits files).
Proof.
  revert files. induction visits as [|[path [entry|e]] rest IH]; intros; cbn [inventory_walk];
    [by stay_within| |by stay_within].
  apply within_rlet; [|intros; apply IH]. unfold inventory_visit. stay_within.
Qed.
#[local] Hint Resolve within_visits : within.
Lemma within_inventory dir root : within publishing (staged dir) (artifactInventory C root).
Proof. unfold artifactInventory. stay_within. Qed.

(** What [publish] achieves from a staged directory. *)
Lemma rg_publish dir s :
  staged dir s ->
  rg publishing (publish C dir destination spec) s (fun s' x =>
    staged dir s' /\ match x with Ok _ => sealed s' dir /\ (dir, destination) ∈ moved s' | Err _ => True end).
Proof.
  intros Hs. unfold publish. apply rg_rlet. unfold writeArtifactManifest.
  apply rg_rlet. eapply rg_mono; [by apply within_inventory|]. intros s1 [files|e] Hs1; [|done].
  apply rg_rlet. cbn [rg]. destruct (manifestJSON C _) as [body|e] eqn:Hb; [|done].
  apply rg_call; [done|]. intros [[]|e] _; [|done]. cbn [record publishing observe_publication].
  apply rg_rlet. unfold writeComplete. apply rg_bind, rg_call; [done|]. intros now _.
  apply rg_call; [done|]. intros [[]|e] _; [|done]. cbn [record publishing observe_publication].
  set (s2 := mkPublication _ _ _). assert (sealed s2 dir) as Hseal.
  { exists files, body, (formatRFC3339 C now +:+ char1 newline). cbn. split_and!; [done|set_solver..]. }
  apply rg_rlet, rg_call; [intros _ _; by exists dir|]. intros [[]|e] _; [|done].
  apply rg_call; [intros _ _; exact Hseal|]. intros [[]|e] _; [|done]. cbn.
  split_and!; [done|exact Hseal|set_solver].
Qed.

Definition published (s : publication) : Prop :=
  exists dir, staged dir s /\ sealed s dir /\ (dir, destination) ∈ moved s.

Definition publishes (x : result unit) (s : publication) : Prop :=
  match x with Ok _ => published s | Err _ => True end.

(** Work in a staging directory that is removed in the end. *)
Lemma rg_staging (f : string -> fprog (result unit)) s :
  (forall dir s, staged dir s -> rg publishing (f dir) s (fun s' x => staged dir s' /\ publishes x s')) ->
  temps s = [] ->
  rg publishing (let* staging := stagingDir destination in
                 deferring (call (FRemoveAll staging)) (f staging)) s (fun s' x => publishes x s').
Proof.
  intros Hf Hs. apply rg_rlet. unfold stagingDir. apply rg_rlet, rg_call; [done|].
  intros [[]|e] _; [|done]. apply rg_call; [done|]. intros [dir|e] _; [|done].
  cbn [record publishing observe_publication].
  unfold deferring. apply rg_bind.
  eapply rg_mono; [apply (Hf dir); unfold staged; cbn; by rewrite Hs|].
  intros s2 x [Hs2 Hx]. cbn [bind call rg]. split; [|intros y _; exact Hx].
  intros -> Hn. destruct Hn. by eapply last_Some_elem_of.
Qed.

Lemma rg_archiveHot r hot s :
  cr_cache r = spec -> temps s = [] ->
  rg publishing (archiveHot C r hot destination) s (fun s' x => publishes x s').
Proof.
  intros Hr. apply rg_staging. intros dir s1 Hs1. rewrite Hr. apply rg_rlet. eapply rg_mono.
  { refine ((_ : within publishing (staged dir) _) s1 Hs1). unfold copyTree. stay_within. }
  intros s2 [[]|e] Hs2; [|done]. apply rg_rlet.
  eapply rg_mono; [by apply rg_publish|]. intros s3 [[]|e] [Hs3 Hp]; [|done].
  cbn. split_and!; [done..|]. intros [] _. split; [done|]. by exists dir.
Qed.

Lemma rg_downloadToCold r s :
  cr_cache r = spec -> temps s = [] ->
  rg publishing (downloadToCold C r destination) s (fun s' x => publishes x s').
Proof.
  intros Hr. apply rg_staging. intros dir s1 Hs1. rewrite Hr.
  apply rg_rlet, rg_call; [done|]. intros [[]|e] _; [|done].
  apply rg_rlet. eapply rg_mono.
  { refine ((_ : within publishing (staged dir) _) _ Hs1). unfold run_download. stay_within. }
  intros s2 [[]|e] Hs2; [|done]. apply rg_rlet. eapply rg_mono.
  { refine ((_ : within publishing (staged dir) _) _ Hs2). unfold copyTree. stay_within. }
  intros s3 [[]|e] Hs3; [|done].
  eapply rg_mono; [by apply rg_publish|]. intros s4 [[]|e] [Hs4 Hp]; [|done].
  split; [done|]. by exists dir.
Qed.
End publication.

Lemma temps_grow tr1 tr2 :
  exists l, temps (publication_after (tr1 ++ tr2)) = l ++ temps (publication_after tr1).
Proof.
  unfold publication_after. rewrite fold_left_app.
  generalize (fold_left (fun s o => observe_publication (obs_req o) (obs_reply o) s) tr1 nothing_published).
  induction tr2 as [|[X e x] tr2 IH]; intros s; cbn [fold_left]; [by exists []|].
  destruct (IH (observe_publication e x s)) as [l Hl].
  assert (exists l1, temps (observe_publication e x s) = l1 ++ temps s) as [l1 Hl1].
  { destruct e; cbn; try (by exists []); destruct x as [t|?]; cbn; try (by exists []). by exists [t]. }
  exists (l ++ l1). etransitivity; [exact Hl|]. by rewrite Hl1, app_assoc.
Qed.

(** What a contract-abiding run guarantees about the destination. *)
Definition publishes_whole (C : codec) (spec : CacheSpec) (destination : string)
    (tr : list (obs fev)) (result_ : result unit) : Prop :=
  (forall tr1 x tr2, tr = tr1 ++ Obs (FRemoveAll destination) x :: tr2 ->
     staging_sealed C spec (publication_after tr1))
  /\ (forall tr1 dir to x tr2, tr = tr1 ++ Obs (FRename dir to) x :: tr2 ->
       last (temps (publication_after tr1)) = Some dir -> sealed C spec (publication_after tr1) dir)
  /\ (result_ = Ok tt -> published C spec destination (publication_after tr)).

Lemma publishing_whole {W} C spec destination (p : fprog (result unit)) (h : handler fev W) w :
  rg (publishing C spec destination) p nothing_published (fun s' x => publishes C spec destination x s') ->
  let tr := trace h p w in
  NoDup (temps (publication_after tr)) -> destination ∉ temps (publication_after tr) ->
  publishes_whole C spec destination tr (value h p w).
Proof.
  intros Hp tr Hnd Hdest.
  destruct (rg_run_any (publishing C spec destination) h p nothing_published w _ (fun _ _ _ _ => I) Hp) as [Hm Hv].
  split_and!.
  - intros tr1 x tr2 Htr. apply (Hm _ _ _ Htr); [done|].
    destruct (temps_grow tr1 (Obs (FRemoveAll destination) x :: tr2)) as [l Hl].
    rewrite <- Htr in Hl. intros Hin. apply Hdest. rewrite Hl. set_solver.
  - intros tr1 dir to x tr2 Htr. apply (Hm _ _ _ Htr).
    destruct (temps_grow tr1 (Obs (FRename dir to) x :: tr2)) as [l Hl].
    rewrite <- Htr in Hl. fold tr in Hl. rewrite Hl in Hnd. by apply NoDup_app in Hnd as (_ & _ & ?).
  - intros E. by rewrite E in Hv.
Qed.

(** C33: a cold artifact is replaced as a whole.  Whatever happens on the way, archiving a
    hot artifact removes the previous cold artifact and moves the staging directory only
    once that directory holds its manifest and its completion marker, and a nil result
    means it was moved; the same holds for a download into the cold store.  The
    hypothesis is what [os.MkdirTemp] documents: it makes new directories. *)
Theorem archive_publishes_complete {W} (C : codec) (r : CacheRequest) (hot destination : string)
    (h : handler fev W) (w : W) :
  let new tr := NoDup (temps (publication_after tr)) /\ destination ∉ temps (publication_after tr) in
  let p := archiveHot C r hot destination in
  let q := downloadToCold C r destination in
  (new (trace h p w) -> publishes_whole C (cr_cache r) destination (trace h p w) (value h p w))
  /\ (new (trace h q w) -> publishes_whole C (cr_cache r) destination (trace h q w) (value h q w)).
Proof.
  split; intros [Hn Hd]; (apply publishing_whole; [|done..]);
    [by apply rg_archiveHot | by apply rg_downloadToCold].
Qed.

Lemma archive_publishes_complete_witness :
  let p := archiveHot sample_codec laguna_request "/cache/hot" "/cold/artifacts/laguna" in
  value sample_disk p fresh_disk = Ok tt
  /\ publishes_whole sample_codec (cr_cache laguna_request) "/cold/artifacts/laguna"
       (trace sample_disk p fresh_disk) (value sample_disk p fresh_disk).
Proof.
  split; [vm_compute; reflexivity|].
  apply (archive_publishes_complete sample_codec laguna_request "/cache/hot" "/cold/artifacts/laguna"
    sample_disk fresh_disk).
  replace (temps _) with ["/cold/artifacts/laguna.staging-"] by (vm_compute; reflexivity). split.
  - apply NoDup_singleton.
  - rewrite list_elem_of_singleton. discriminate.
Defined.

(** ** Bringing an artifact to the hot root

    What a stretch of a run does to bring files in, read off its requests and replies. *)

(** [source] was copied to [destination]: a link, a whole file, or a directory with
    everything listed in it. *)
Inductive tree_copied (t : list (obs fev)) : string -> string -> Prop :=
| link_copied source destination info target :
    Obs (FLstat source) (Ok info) ∈ t -> IsSymlink info = true ->
    Obs (FReadlink source) (Ok target) ∈ t -> Obs (FSymlink target destination) (Ok tt) ∈ t ->
    tree_copied t source destination
| file_copied source destination info content :
    Obs (FLstat source) (Ok info) ∈ t -> IsSymlink info = false -> IsDir info = false ->
    Obs (FCopy source destination) (Ok content) ∈ t -> Obs (FClose destination) (Ok tt) ∈ t ->
    tree_copied t source destination
| dir_copied source destination info entries :
    Obs (FLstat source) (Ok info) ∈ t -> IsSymlink info = false -> IsDir info = true ->
    Obs (FMkdirAll destination) (Ok tt) ∈ t -> Obs (FReadDir source) (entries, None) ∈ t ->
    (forall name, name ∈ entries -> tree_copied t (path_join [source; name]) (path_join [destination; name])) ->
    tree_copied t source destination.

(** A symlink to [target] was put at [path], in place of whatever was there. *)
Definition linked (t : list (obs fev)) (path target : string) : Prop :=
  exists tmp, Obs (FSymlink target tmp) (Ok tt) ∈ t /\ Obs (FRename tmp path) (Ok tt) ∈ t.

(** A file of a Hugging Face snapshot was put at [destination]: copied, or, when it is a link
    to a regular blob, its blob copied into [blobs] and linked to. *)
Definition file_placed (t : list (obs fev)) (source destination blobs : string) : Prop :=
  exists info, Obs (FLstat source) (Ok info) ∈ t /\
    if IsSymlink info then
      exists target blobInfo link,
        let blob := clean (path_join [dir_name source; target]) in
        let kept := path_join [blobs; base_name blob] in
        Obs (FReadlink source) (Ok target) ∈ t
        /\ Obs (FStat blob) (Ok blobInfo) ∈ t /\ IsRegular blobInfo = true
        /\ tree_copied t blob kept
        /\ relativeBlobLink destination kept = Ok link /\ linked t destination link
    else tree_copied t source destination.

(** A whole file was copied and its size checked, and its digest where one is recorded. *)
Definition verified_copy (C : codec) (t : list (obs fev)) (source destination : string) (size : Z) (sha : string) : Prop :=
  exists content, Obs (FCopy source destination) (Ok content) ∈ t /\ Obs (FClose destination) (Ok tt) ∈ t
    /\ Z.of_nat (String.length content) = size /\ (sha <> "" -> digest C content = sha).

(** A linked entry was restored: its link reads as recorded and leads to a regular file of
    the artifact, whose blob is in the hot blob store, found there (whatever its content) or
    copied there with the size it has, and linked to from [to]. *)
Definition link_restored (C : codec) (artifact hot : string) (t : list (obs fev))
    (file : artifactFile) (from to : string) : Prop :=
  let blob := clean (path_join [dir_name from; af_symlinkTo file]) in
  let kept := path_join [hot; "gguf"; ".blobs"; base_name blob] in
  Obs (FReadlink from) (Ok (af_symlinkTo file)) ∈ t
  /\ (exists inside, rel artifact blob = Ok inside /\ escapes inside = false)
  /\ (exists info, Obs (FStat blob) (Ok info) ∈ t /\ IsRegular info = true
        /\ ((exists there, Obs (FLstat kept) (Ok there) ∈ t) \/ verified_copy C t blob kept (fi_size info) ""))
  /\ (exists link, relativeBlobLink to kept = Ok link /\ linked t to link).

(** An entry of a cold manifest was restored to its place below the hot root: a regular file
    copied and verified against the manifest, or a link with its blob. *)
Definition restored (C : codec) (artifact hot : string) (spec : CacheSpec) (t : list (obs fev))
    (file : artifactFile) : Prop :=
  exists relative, hot_relative spec (af_path file) = Ok relative /\
    let from := path_join [artifact; "payload"; af_path file] in
    let to := path_join [hot; relative] in
    if af_symlinkTo file == "" then verified_copy C t from to (af_size file) (af_sha256 file)
    else link_restored C artifact hot t file from to.

Lemma tree_copied_mono t t' source destination :
  t ⊆ t' -> tree_copied t source destination -> tree_copied t' source destination.
Proof.
  intros Hs. induction 1; [eapply link_copied|eapply file_copied|eapply dir_copied]; eauto.
Qed.
Lemma linked_mono t t' path target : t ⊆ t' -> linked t path target -> linked t' path target.
Proof. intros Hs (tmp & ? & ?). exists tmp. auto. Qed.
Lemma file_placed_mono t t' source destination blobs :
  t ⊆ t' -> file_placed t source destination blobs -> file_placed t' source destination blobs.
Proof.
  intros Hs (info & Hi & H). exists info. split; [by apply Hs|]. destruct (IsSymlink info).
  - destruct H as (target & bi & link & ? & ? & ? & ? & ? & ?). exists target, bi, link.
    split_and!; eauto using tree_copied_mono, linked_mono.
  - by eapply tree_copied_mono.
Qed.
Lemma verified_copy_mono C t t' source destination size sha :
  t ⊆ t' -> verified_copy C t source destination size sha -> verified_copy C t' source destination size sha.
Proof. intros Hs (content & ? & ? & ? & ?). exists content. auto. Qed.
Lemma link_restored_mono C artifact hot t t' file from to :
  t ⊆ t' -> link_restored C artifact hot t file from to -> link_restored C artifact hot t' file from to.
Proof.
  intros Hs (Hl & Hin & (info & Hi & Hreg & Hb) & (link & Hlk & Hp)). split_and!; [by apply Hs|done| |].
  - exists info. split_and!; [by apply Hs|done|].
    destruct Hb as [[there Ht]|Hv]; [left; eauto|right; by eapply verified_copy_mono].
  - exists link. split; [done|]. by eapply linked_mono.
Qed.
Lemma restored_mono C artifact hot spec t t' file :
  t ⊆ t' -> restored C artifact hot spec t file -> restored C artifact hot spec t' file.
Proof.
  intros Hs (relative & Hr & H). exists relative. split; [done|]. cbn zeta in *. case_bool_decide.
  - by eapply verified_copy_mono.
  - by eapply link_restored_mono.
Qed.

Section arrivals.
Context (C : codec) (m : cacheManager) (r : CacheRequest).

(** The specification the request stands for: its own, or, for a hub artifact without a
    size, completed with the size and files the discovery script printed. *)
Definition resolved (spec : CacheSpec) (t : list (obs fev)) : Prop :=
  spec = cr_cache r
  \/ cs_kind (cr_cache r) = "huggingface-hub" /\ cs_size (cr_cache r) <= 0
     /\ exists output size files,
          Obs (FExec "python" ["-c"; inventoryScript (cr_cache r)]) (output, None) ∈ t
          /\ decodeInventory C output = Ok (size, files)
          /\ spec = mkCacheSpec (cs_kind (cr_cache r)) (cs_repoID (cr_cache r)) (cs_revision (cr_cache r)) size
                      (sort_slice String.ltb files) (cs_target (cr_cache r)).

(** The artifact was downloaded, this repository at this revision and these files, into a
    fresh staging directory, and then copied from there to its place below the hot root. *)
Definition by_download (spec : CacheSpec) (t : list (obs fev)) : Prop :=
  exists staging output t1 t2,
    t = t1 ++ Obs (FExec "hf" (["download"; cs_repoID spec; "--revision"; cs_revision spec;
                                "--cache-dir"; path_join [staging; "hub"]] ++ cs_files spec)) (output, None) :: t2
    /\ (exists dir pre, Obs (FMkdirTemp dir pre) (Ok staging) ∈ t1)
    /\ (if cs_kind spec == "huggingface-hub" then
          tree_copied t2 (path_join [staging; "hub"; repo_dir (cs_repoID spec)]) (materializedPath (hotRoot m) spec)
        else
          forall file, file ∈ cs_files spec ->
            file_placed t2 (path_join [staging; "hub"; repo_dir (cs_repoID spec); "snapshots"; cs_revision spec; file])
              (path_join [materializedPath (hotRoot m) spec; file]) (hotBlobStore (hotRoot m)))
    /\ Forall (fun o => match obs_req o with FRemoveAll p => p = staging | _ => True end) t.

(** The cold store's artifact was complete, its manifest valid for the specification, and
    every entry of the manifest was restored. *)
Definition by_promotion (spec : CacheSpec) (before t : list (obs fev)) : Prop :=
  exists info body manifest,
    let artifact := coldArtifactDir m (cacheKey (cr_cache r)) in
    Obs (FStat (path_join [artifact; ".complete"])) (Ok info) ∈ before
    /\ Obs (FReadFile (path_join [artifact; "artifact.json"])) (Ok body) ∈ before
    /\ decodeManifest C body = (manifest, true) /\ validArtifactManifest manifest spec = true
    /\ (forall file, file ∈ am_files manifest -> restored C artifact (hotRoot m) spec t file)
    /\ Forall (fun o => match obs_req o with FRemoveAll _ => False | _ => True end) t.

(** The bytes are there: the artifact's place was cleared, then filled by a download or from
    the cold store, and nothing but the staging directory was removed since. *)
Definition bytes_hot (tr : list (obs fev)) : Prop :=
  exists spec before t, resolved spec before
    /\ tr = before ++ Obs (FRemoveAll (materializedPath (hotRoot m) spec)) (Ok tt) :: t
    /\ (by_download spec t \/ by_promotion spec before t).

(** The marker of this artifact is written only when its bytes are there. *)
Definition marks (X : Type) (e : fev X) (tr : list (obs fev)) : Prop :=
  match e with
  | FWriteFile p _ => p = path_join [hotMarker (hotRoot m) (cacheKey (cr_cache r)); ".complete"] -> bytes_hot tr
  | _ => True
  end.
Definition anything_goes (X : Type) (e : fev X) (x : X) : Prop := True.
Definition marking : contract fev (list (obs fev)) := traced anything_goes marks.
Abbreviation succeeds := (succeeds anything_goes marks).

(** Step over a request whose reply is kept in the trace. *)
Ltac step := first [ apply succeeds_step; [done|] | apply succeeds_reply; [done|] ].
Ltac seen := repeat first [rewrite elem_of_cons | rewrite elem_of_app]; tauto.
Ltac incl := intros ? ?; seen.

Lemma succeeds_copyTree depth source destination :
  succeeds (copyTree_to depth source destination) (fun t _ => tree_copied t source destination).
Proof.
  revert source destination. induction depth as [|depth IH]; intros source destination; cbn [copyTree_to];
    step; intros info; (destruct (IsSymlink info) eqn:Hs; [|destruct (IsDir info) eqn:Hd; cbn [negb]]).
  1,4: step; intros target; step; intros []; (eapply succeeds_rlet;
         [apply succeeds_within; unfold removeIfExists; by stay_within|]; intros t1 [] _);
       apply succeeds_call; [done|]; intros []; eapply link_copied; [seen|done|seen|seen].
  2,4: step; intros []; step; intros []; unfold copyFile; eapply succeeds_rlet;
       [|intros t1 content H1; apply succeeds_ok; rewrite app_nil_r; exact H1];
       step; intros []; step; intros [content|e]; step; intros [[]|e'];
       first [apply succeeds_err | apply succeeds_ok; eapply file_copied; [seen|done|done|seen|seen]].
  all: step; intros []; step; intros [entries [e|]]; [apply succeeds_err|].
  - eapply succeeds_mono.
    + apply (succeeds_for_each _ _ _ _ (fun name t => False)); [done..|]. intros name _. apply succeeds_err.
    + intros t [] Ht. eapply dir_copied; [seen|done|done|seen|seen|]. intros name Hn. by destruct (Ht name Hn).
  - eapply succeeds_mono.
    + apply (succeeds_for_each _ _ _ _ (fun name t =>
        tree_copied t (path_join [source; name]) (path_join [destination; name]))); [..|intros name _; apply IH].
      * intros x t t'. apply tree_copied_mono. incl.
      * intros x t t'. apply tree_copied_mono. incl.
    + intros t [] Ht. eapply dir_copied; [seen|done|done|seen|seen|].
      intros name Hn. eapply tree_copied_mono; [|exact (Ht name Hn)]. incl.
Qed.

Lemma succeeds_replaceSymlink path target : succeeds (replaceSymlink path target) (fun t _ => linked t path target).
Proof.
  unfold replaceSymlink. step. intros tmp. step. intros []. unfold deferring.
  apply (succeeds_bind _ _ _ _ (fun t x => match x with Ok _ => linked t path target | Err _ => True end)).
  - change (succeeds (do* call (FSymlink target tmp); call (FRename tmp path)) (fun t _ => linked t path target)).
    step. intros []. apply succeeds_call; [done|]. intros []. exists tmp. split; seen.
  - intros t1 x H1. apply succeeds_reply; [done|]. intros y. destruct x as [[]|e]; [|apply succeeds_err].
    apply succeeds_ok. eapply linked_mono; [|exact H1]. incl.
Qed.

Lemma succeeds_copyHuggingFaceFile source destination blobs :
  succeeds (copyHuggingFaceFile source destination blobs) (fun t _ => file_placed t source destination blobs).
Proof.
  unfold copyHuggingFaceFile, copyTree. step. intros info. destruct (IsSymlink info) eqn:Hs; cbn [negb].
  - step. intros target. step. intros [bi|e]; [|apply succeeds_err].
    destruct (IsRegular bi) eqn:Hreg; cbn [negb]; [|apply succeeds_err].
    eapply succeeds_rlet; [apply succeeds_copyTree|]. intros t1 [] H1. step. intros [].
    eapply succeeds_rlet; [apply succeeds_within; unfold removeIfExists; by stay_within|]. intros t2 [] _.
    destruct (relativeBlobLink _ _) as [link|e] eqn:Hl; [|apply succeeds_err].
    change (succeeds (replaceSymlink destination link)
      (fun t _ => file_placed (Obs (FLstat source) (Ok info) :: Obs (FReadlink source) (Ok target)
         :: Obs (FStat (clean (path_join [dir_name source; target]))) (Ok bi) :: t1
         ++ Obs (FMkdirAll (dir_name destination)) (Ok tt) :: t2 ++ t) source destination blobs)).
    eapply succeeds_mono; [apply succeeds_replaceSymlink|]. intros t3 [] H3.
    exists info. split; [seen|]. rewrite Hs. exists target, bi, link.
    split_and!; [seen|seen|done| |done|].
    + eapply tree_copied_mono; [|exact H1]. incl.
    + eapply linked_mono; [|exact H3]. incl.
  - eapply succeeds_mono; [apply succeeds_copyTree|]. intros t [] Ht. exists info. split; [seen|]. rewrite Hs.
    eapply tree_copied_mono; [|exact Ht]. incl.
Qed.

Lemma succeeds_copyAndVerify source destination want :
  succeeds (copyAndVerify C source destination want)
    (fun t _ => verified_copy C t source destination (af_size want) (af_sha256 want)).
Proof.
  unfold copyAndVerify, copyFile. step. intros []. step. intros [].
  apply (succeeds_rlet _ _ _ _ (fun t content => Obs (FCopy source destination) (Ok content) ∈ t
    /\ Obs (FClose destination) (Ok tt) ∈ t)).
  - step. intros []. step. intros content. step. intros closed.
    destruct content as [content|e]; [|apply succeeds_err]. destruct closed as [[]|e]; [|apply succeeds_err].
    apply succeeds_ok. split; seen.
  - intros t1 content [H1 H2]. destruct (_ || _) eqn:E; [step; intros x; apply succeeds_err|].
    apply succeeds_ok. exists content. ok_inv. split_and!; [seen|seen|by eapply bool_decide_eq_true_1|].
    intros Hne. rewrite bool_decide_eq_false_2 in * by done. cbn in *. ok_inv. by eapply bool_decide_eq_true_1.
Qed.

(** *** From the cold store *)

Lemma succeeds_materialize_link artifact file from to :
  succeeds (materialize_link C artifact (hotRoot m) file from to)
    (fun t _ => link_restored C artifact (hotRoot m) t file from to).
Proof.
  unfold materialize_link. step. intros [target|e]; [|apply succeeds_err].
  case_bool_decide as Ht; cbn [negb]; [subst target|apply succeeds_err].
  set (blob := clean _). set (kept := path_join [_; _; _; _]).
  destruct (rel artifact blob) as [inside|e] eqn:Hr; [|apply succeeds_err].
  destruct (escapes inside) eqn:He; [apply succeeds_err|].
  step. intros [info|e]; [|apply succeeds_err].
  destruct (IsRegular info) eqn:Hreg; cbn [negb]; [|apply succeeds_err].
  step. intros st.
  apply (succeeds_rlet _ _ _ _ (fun t _ => (exists there, st = Ok there) \/ verified_copy C t blob kept (fi_size info) "")).
  { destruct st as [there|e]; [apply succeeds_ok; eauto|]. destruct (isNotExist e); [|apply succeeds_err].
    eapply succeeds_mono; [apply succeeds_copyAndVerify|]. intros t [] H. by right. }
  intros t1 [] H1. step. intros [].
  destruct (relativeBlobLink to kept) as [link|e] eqn:Hl; [|apply succeeds_err].
  apply (succeeds_rlet _ _ _ _ (fun t a => t = [] /\ a = link)); [by apply succeeds_ok|]. intros t2 a [-> ->].
  eapply succeeds_mono; [apply succeeds_replaceSymlink|]. intros t3 [] H3. unfold link_restored.
  fold blob kept. split_and!; [seen|by exists inside| |].
  - exists info. split_and!; [seen|done|]. destruct H1 as [[there ->]|Hv].
    + left. exists there. seen.
    + right. eapply verified_copy_mono; [|exact Hv]. incl.
  - exists link. split; [done|]. eapply linked_mono; [|exact H3]. incl.
Qed.

Lemma succeeds_materialize r' artifact manifest :
  succeeds (materialize C r' artifact (hotRoot m) manifest) (fun t _ =>
    forall file, file ∈ am_files manifest -> restored C artifact (hotRoot m) (cr_cache r') t file).
Proof.
  unfold materialize.
  apply (succeeds_rlet _ _ _ _ (fun t _ =>
    forall file, file ∈ am_files manifest -> restored C artifact (hotRoot m) (cr_cache r') t file)).
  - apply (succeeds_for_each _ _ _ _ (fun file t => restored C artifact (hotRoot m) (cr_cache r') t file)).
    + intros x t t'. apply restored_mono. incl.
    + intros x t t'. apply restored_mono. incl.
    + intros file _. unfold materialize_file.
      destruct (hot_relative (cr_cache r') (af_path file)) as [relative|e] eqn:Hrel; [|apply succeeds_err].
      apply (succeeds_rlet _ _ _ _ (fun t a => t = [] /\ a = relative)); [by apply succeeds_ok|].
      intros t a [-> ->]. case_bool_decide as E; cbn [negb].
      * eapply succeeds_mono; [apply succeeds_copyAndVerify|]. intros t [] H. exists relative.
        split; [done|]. cbn zeta. by rewrite bool_decide_eq_true_2.
      * eapply succeeds_mono; [apply succeeds_materialize_link|]. intros t [] H. exists relative.
        split; [done|]. cbn zeta. by rewrite bool_decide_eq_false_2.
  - intros t1 [] H1. step. intros []. apply succeeds_ok. intros file Hf.
    eapply restored_mono; [|exact (H1 file Hf)]. incl.
Qed.

(** Nothing is removed recursively. *)
Definition sparing : contract fev unit := mkContract (fun _ _ _ _ => True)
  (fun X e _ => match e with FRemoveAll _ => False | _ => True end) (fun _ _ _ s => s).
Abbreviation spared := (Forall (fun o : obs fev => match obs_req o with FRemoveAll _ => False | _ => True end)).

Lemma sparing_copyTree depth source destination : within sparing (fun _ => True) (copyTree_to depth source destination).
Proof.
  revert source destination. induction depth as [|depth IH]; intros; cbn [copyTree_to];
    unfold removeIfExists, copyFile; stay_within.
Qed.
#[local] Hint Resolve sparing_copyTree : within.
Lemma sparing_copyHuggingFaceFile source destination blobs :
  within sparing (fun _ => True) (copyHuggingFaceFile source destination blobs).
Proof. unfold copyHuggingFaceFile, copyTree, removeIfExists, replaceSymlink. stay_within. Qed.
#[local] Hint Resolve sparing_copyHuggingFaceFile : within.
Lemma sparing_materialize r' artifact manifest :
  within sparing (fun _ => True) (materialize C r' artifact (hotRoot m) manifest).
Proof.
  unfold materialize, materialize_file, materialize_link, copyAndVerify, copyFile, replaceSymlink. stay_within.
Qed.

Lemma succeeds_spared {A} (p : fprog (result A)) Φ :
  succeeds p Φ -> within sparing (fun _ => True) p -> succeeds p (fun t a => Φ t a /\ spared t).
Proof.
  intros Hp Hw. eapply does_mono; [apply (does_and_keeps _ _ sparing); [exact Hp|by split]|].
  intros t [a|e] [Ha Ht]; [by split|done].
Qed.

Lemma does_artifactManifestFor want :
  does anything_goes marks (artifactManifestFor C (coldArtifactDir m (cacheKey (cr_cache r))) want) (fun t x =>
    snd x = true -> exists info body,
      Obs (FStat (path_join [coldArtifactDir m (cacheKey (cr_cache r)); ".complete"])) (Ok info) ∈ t
      /\ Obs (FReadFile (path_join [coldArtifactDir m (cacheKey (cr_cache r)); "artifact.json"])) (Ok body) ∈ t
      /\ decodeManifest C body = (fst x, true) /\ validArtifactManifest (fst x) want = true).
Proof.
  unfold artifactManifestFor, complete.
  apply (does_bind _ _ _ _ (fun t a => exists st, a = is_ok st
    /\ t = [Obs (FStat (path_join [coldArtifactDir m (cacheKey (cr_cache r)); ".complete"])) st])).
  { apply does_reply; [done|]. intros st. apply does_ret. eauto. }
  intros t1 a (st & -> & ->). destruct st as [info|e]; cbn [is_ok negb]; [|by apply does_ret].
  apply does_reply; [done|]. intros [body|e]; [|by apply does_ret].
  destruct (decodeManifest C body) as [got decoded] eqn:Hd. apply does_ret. cbn [fst snd app]. intros Hv.
  exists info, body. apply andb_true_iff in Hv as [-> Hv]. split_and!; [seen|seen|done|done].
Qed.

(** *** From the Hub *)

Lemma succeeds_downloadToHot r' : succeeds (downloadToHot r' (hotRoot m)) (fun t _ => by_download (cr_cache r') t).
Proof.
  unfold downloadToHot, stagingDir.
  apply (succeeds_rlet _ _ _ _ (fun t staging => exists dir pre o,
    t = [o; Obs (FMkdirTemp dir pre) (Ok staging)] /\ match obs_req o with FRemoveAll _ => False | _ => True end)).
  { step. intros []. apply succeeds_call; [done|]. intros staging. eexists _, _, _. split; [reflexivity|exact I]. }
  intros t0 staging (dir & pre & o & -> & Ho). unfold deferring.
  set (copied := fun t2 => if cs_kind (cr_cache r') == "huggingface-hub"
    then tree_copied t2 (path_join [staging; "hub"; repo_dir (cs_repoID (cr_cache r'))]) (materializedPath (hotRoot m) (cr_cache r'))
    else forall file, file ∈ cs_files (cr_cache r') ->
      file_placed t2 (path_join [staging; "hub"; repo_dir (cs_repoID (cr_cache r')); "snapshots"; cs_revision (cr_cache r'); file])
        (path_join [materializedPath (hotRoot m) (cr_cache r'); file]) (hotBlobStore (hotRoot m))).
  apply (succeeds_bind _ _ _ _ (fun t x => match x with
    | Ok _ => (exists output t2, t = Obs (FExec "hf" (download_args r' staging)) (output, None) :: t2 /\ copied t2) /\ spared t
    | Err _ => True
    end)).
  - apply (succeeds_spared _ (fun t _ => exists output t2,
      t = Obs (FExec "hf" (download_args r' staging)) (output, None) :: t2 /\ copied t2));
      [|unfold run_download, copyTree; by stay_within].
    apply (succeeds_rlet _ _ _ _ (fun t _ => exists output, t = [Obs (FExec "hf" (download_args r' staging)) (output, None)])).
    { unfold run_download. step. intros [output [e|]]; [apply succeeds_err|apply succeeds_ok; eauto]. }
    intros t1 [] (output & ->).
    assert (succeeds (if cs_kind (cr_cache r') == "huggingface-hub"
      then copyTree (path_join [staging; "hub"; repo_dir (cs_repoID (cr_cache r'))]) (materializedPath (hotRoot m) (cr_cache r'))
      else for_each (cs_files (cr_cache r')) (fun file => copyHuggingFaceFile (snapshot_file r' staging file)
          (path_join [materializedPath (hotRoot m) (cr_cache r'); file]) (path_join [hotRoot m; "gguf"; ".blobs"])))
      (fun t _ => copied t)) as Hc.
    { subst copied. cbn beta. case_bool_decide; [apply succeeds_copyTree|].
      apply (succeeds_for_each _ _ _ _ (fun file t => file_placed t (snapshot_file r' staging file)
        (path_join [materializedPath (hotRoot m) (cr_cache r'); file]) (hotBlobStore (hotRoot m)))).
      - intros x t t'. apply file_placed_mono. incl.
      - intros x t t'. apply file_placed_mono. incl.
      - intros file _. apply succeeds_copyHuggingFaceFile. }
    eapply succeeds_mono; [exact Hc|]. intros t2 [] H2. by exists output, t2.
  - intros t1 x H1. step. intros y. destruct x as [[]|e]; [|apply succeeds_err]. apply succeeds_ok.
    destruct H1 as [(output & t2 & -> & H2) Hsp]. exists staging, output.
    exists [o; Obs (FMkdirTemp dir pre) (Ok staging)], (t2 ++ [Obs (FRemoveAll staging) y]).
    split_and!.
    + done.
    + exists dir, pre. seen.
    + subst copied. cbn beta in H2. case_bool_decide; [eapply tree_copied_mono; [|exact H2]; incl|].
      intros file Hf. eapply file_placed_mono; [|exact (H2 file Hf)]. incl.
    + apply Forall_app. split; [repeat apply Forall_cons_2; [by destruct o as [X e x], e|done|done]|].
      apply Forall_app. split; [|by apply Forall_singleton].
      eapply Forall_impl; [exact Hsp|]. intros [X e x] Hq. by destruct e.
Qed.

(** *** Either way *)

Lemma by_download_more spec t t' : spared t' -> by_download spec t -> by_download spec (t ++ t').
Proof.
  intros Ht (staging & output & t1 & t2 & -> & Hm & Hc & Hr). exists staging, output, t1, (t2 ++ t').
  split_and!; [by rewrite <- app_assoc|done| |].
  - case_bool_decide; [eapply tree_copied_mono; [|exact Hc]; incl|].
    intros file Hf. eapply file_placed_mono; [|exact (Hc file Hf)]. incl.
  - apply Forall_app. split; [done|]. eapply Forall_impl; [exact Ht|]. intros [X e x] Hq. by destruct e.
Qed.
Lemma by_promotion_more spec before before' t t' :
  before ⊆ before' -> spared t' -> by_promotion spec before t -> by_promotion spec before' (t ++ t').
Proof.
  intros Hb Ht (info & body & mf & H1 & H2 & H3 & H4 & H5 & H6). exists info, body, mf.
  split_and!; [by apply Hb|by apply Hb|done|done| |].
  - intros file Hf. eapply restored_mono; [|exact (H5 file Hf)]. incl.
  - apply Forall_app. by split.
Qed.
Lemma bytes_hot_more tr t : spared t -> bytes_hot tr -> bytes_hot (tr ++ t).
Proof.
  intros Ht (spec & before & t0 & Hr & -> & H). exists spec, before, (t0 ++ t). split_and!; [done|by rewrite <- app_assoc|].
  destruct H; [left; by apply by_download_more|right; by eapply by_promotion_more].
Qed.

Lemma succeeds_fetch r' :
  succeeds (fetch C m r' (cacheKey (cr_cache r))) (fun t _ => exists before t',
    t = before ++ Obs (FRemoveAll (materializedPath (hotRoot m) (cr_cache r'))) (Ok tt) :: t'
    /\ (by_download (cr_cache r') t' \/ by_promotion (cr_cache r') before t')).
Proof.
  unfold fetch, clearMaterialized. eapply succeeds_bind; [apply does_artifactManifestFor|].
  intros before [manifest valid] Hv. cbn [fst snd] in Hv. destruct valid; step; intros [];
    apply succeeds_wrapping.
  - destruct (Hv eq_refl) as (info & body & H1 & H2 & H3 & H4).
    eapply succeeds_mono; [apply succeeds_spared; [apply succeeds_materialize|apply sparing_materialize]|].
    intros t [] [Hall Hsp]. exists before, t. split; [done|]. right. exists info, body, manifest. by split_and!.
  - eapply succeeds_mono; [apply succeeds_downloadToHot|]. intros t [] H. exists before, t. split; [done|]. by left.
Qed.

(** *** The steps before *)

Lemma within_sorting dir l before : within marking any (sort_entries dir l before).
Proof.
  assert (forall x before, within marking any (insert_entry dir x before)) as Hi.
  { intros x b. induction b as [|y rest IH]; cbn [insert_entry]; unfold entryModTime; stay_within. }
  revert before; induction l as [|x l IH]; intros; cbn [sort_entries]; stay_within.
Qed.
#[local] Hint Resolve within_sorting : within.
Lemma within_usage path : within marking any (cacheUsage m path).
Proof. unfold cacheUsage, filesystemUsage, directoryUsage. stay_within. Qed.
Lemma within_evicting hot marker : within marking any (evict C hot marker).
Proof. unfold evict. stay_within. Qed.
#[local] Hint Resolve within_usage within_evicting : within.
Lemma within_sweeping hot preserve : within marking any (sweep C m hot preserve).
Proof.
  assert (forall cap l, within marking any (sweep_loop C m hot preserve cap l)) as Hl.
  { intros cap l. induction l as [|x l IH]; cbn [sweep_loop]; stay_within. }
  unfold sweep, oldest_first. stay_within.
Qed.
Lemma within_spacing hot incoming : within marking any (makeSpace C m hot incoming).
Proof.
  assert (forall cap l, within marking any (space_loop C m hot incoming cap l)) as Hl.
  { intros cap l. induction l as [|x l IH]; cbn [space_loop]; stay_within. }
  unfold makeSpace, oldest_first. stay_within.
Qed.
Lemma within_resolving hot spec files : within marking any (files_resolve hot spec files).
Proof. induction files as [|x l IH]; cbn [files_resolve]; stay_within. Qed.
#[local] Hint Resolve within_sweeping within_spacing within_resolving : within.
Lemma within_serving r' key : within marking any (serve_hot C m r' key).
Proof.
  unfold serve_hot, hotArtifactExists, repairHotMaterialization, relink_file, replaceSymlink,
    validArtifactMetadata, artifactManifestFor, complete. stay_within.
Qed.

Lemma succeeds_resolve : succeeds (resolveCacheSpec C (cr_cache r)) (fun t spec => resolved spec t).
Proof.
  unfold resolveCacheSpec. destruct (_ || _) eqn:E; [apply succeeds_ok; by left|].
  apply orb_false_iff in E as [Hk%negb_false_iff%bool_decide_eq_true Hs%Z.ltb_ge].
  step. intros [output [e|]]; [apply succeeds_err|].
  destruct (decodeInventory C output) as [[size files]|e] eqn:Hd; [|apply succeeds_err].
  destruct (_ || _); [apply succeeds_err|]. apply succeeds_ok. right. split_and!; [done..|].
  exists output, size, files. split_and!; [seen|done..].
Qed.

Lemma resolved_more spec t t' : t ⊆ t' -> resolved spec t -> resolved spec t'.
Proof.
  intros Hs [->|(? & ? & output & size & files & ? & ? & ?)]; [by left|].
  right. split_and!; [done..|]. exists output, size, files. split_and!; [by apply Hs|done..].
Qed.

(** The result of [ensureArtifact]: already complete, or marked with its bytes there. *)
Lemma rg_ensureArtifact tr :
  rg marking (ensureArtifact C m r) tr (fun _ _ => True).
Proof.
  unfold ensureArtifact, complete. apply rg_bind, rg_bind, rg_call; [done|]. intros st _. cbn [rg].
  destruct (is_ok st); [by apply within_serving|]. cbn [record marking traced]. set (tr0 := tr ++ _).
  apply rg_rlet. eapply rg_mono; [apply succeeds_resolve|]. intros tr1 [spec|e] (t1 & -> & Hspec); [|done].
  apply rg_rlet. eapply rg_mono; [apply (succeeds_within _ _ _ (within_sweeping _ _))|].
  intros tr2 [[]|e] (t2 & -> & _); [|done].
  apply rg_rlet. eapply rg_mono; [apply (succeeds_within _ _ _ (within_spacing _ _))|].
  intros tr3 [[]|e] (t3 & -> & _); [|done].
  apply rg_rlet. eapply rg_mono; [apply succeeds_fetch|]. intros tr4 [[]|e] (t4 & -> & Hb); [|done].
  cbn [cr_cache] in Hb.
  assert (bytes_hot ((((tr0 ++ t1) ++ t2) ++ t3) ++ t4)) as Hhot.
  { destruct Hb as (before & t' & -> & H). exists spec, ((((tr0 ++ t1) ++ t2) ++ t3) ++ before), t'.
    split_and!; [eapply resolved_more; [|exact Hspec]; incl|by rewrite <- !app_assoc|].
    destruct H as [H|H]; [by left|]. right. rewrite <- (app_nil_r t'). eapply by_promotion_more; [|done|exact H]. incl. }
  clear Hb. revert Hhot. generalize ((((tr0 ++ t1) ++ t2) ++ t3) ++ t4). clear tr0. intros tr0 Hhot.
  unfold record_hot, writeComplete. apply rg_rlet, rg_rlet, rg_call; [done|]. intros [[]|e] _; [|done].
  apply rg_rlet, rg_bind, rg_call; [done|]. intros now _. cbn [record marking traced]. rewrite <- !app_assoc. cbn [app].
  apply rg_call; [intros _; apply bytes_hot_more; [by repeat constructor|done]|].
  intros [[]|e] _; [|done]. cbn [record marking traced]. rewrite <- app_assoc. cbn [app].
  apply rg_call; [intros _; apply bytes_hot_more; [by repeat constructor|done]|].
  intros [[]|e] _; [|done]. cbn. by split.
Qed.

(** *** What success means *)

(** The marker was found or has been written. *)
Definition notes_marker {X} (e : fev X) : X -> bool :=
  let marker := path_join [hotMarker (hotRoot m) (cacheKey (cr_cache r)); ".complete"] in
  match e in fev T return T -> bool with
  | FStat p => fun x => (p == marker) && is_ok x
  | FWriteFile p _ => fun x => (p == marker) && is_ok x
  | _ => fun _ => false
  end.
Definition noting : contract fev bool := mkContract
  (fun _ _ _ _ => True) (fun _ _ _ => True) (fun X e x s => s || notes_marker e x).

Lemma rg_noting {A} (p : fprog A) (s : bool) : rg noting p s (fun s' _ => s = true -> s' = true).
Proof.
  apply (within_all noting (fun s' => s = true -> s' = true) p); [done| |done].
  intros X e x s' Hs H. cbn. by rewrite Hs.
Qed.

Lemma rg_ensure_notes s :
  rg noting (ensureArtifact C m r) s (fun s' x => match x with Ok _ => s' = true | Err _ => True end).
Proof.
  unfold ensureArtifact, complete. apply rg_bind, rg_bind, rg_call; [done|]. intros st _. cbn [rg].
  destruct (is_ok st) eqn:Est.
  { eapply rg_mono; [apply rg_noting|]. intros s' [[]|e] Hs'; [|done]. apply Hs'.
    cbn. rewrite Est, bool_decide_eq_true_2 by done. by rewrite orb_true_r. }
  apply rg_rlet. eapply rg_mono; [apply rg_noting|]. intros s1 [spec|e] _; [|done].
  apply rg_rlet. eapply rg_mono; [apply rg_noting|]. intros s2 [[]|e] _; [|done].
  apply rg_rlet. eapply rg_mono; [apply rg_noting|]. intros s3 [[]|e] _; [|done].
  apply rg_rlet. eapply rg_mono; [apply rg_noting|]. intros s4 [[]|e] _; [|done].
  unfold record_hot, writeComplete. apply rg_rlet, rg_rlet, rg_call; [done|]. intros [[]|e] _; [|done].
  apply rg_rlet, rg_bind, rg_call; [done|]. intros now _. apply rg_call; [done|].
  intros [[]|e] _; [|done].
  eapply rg_mono; [apply rg_noting|]. intros s5 [[]|e] Hs5; [|done]. cbn. split; [done|].
  intros [] _. rewrite Hs5; [done|]. cbn. rewrite bool_decide_eq_true_2 by done. by rewrite orb_true_r.
Qed.

Lemma noted_from_start tr :
  ghost noting false tr = true -> exists o, o ∈ tr /\ notes_marker (obs_req o) (obs_reply o) = true.
Proof.
  intros H. destruct (ghost_raised noting (fun s => s)
    (fun o => notes_marker (obs_req o) (obs_reply o) = true) false tr) as (tr1 & o & tr2 & -> & Ho);
    [|done..|].
  - intros s o -> Hs. exact Hs.
  - exists o. split; [set_solver|done].
Qed.
End arrivals.

(** C25: a hot artifact is marked complete only when its bytes are there.  Whenever the marker
    is written, the artifact's place below the hot root was cleared before and then filled in
    one of two ways, and nothing but the staging directory was removed recursively since.
    Either [hf download] of this repository, revision and file list succeeded into
    a new staging directory and the snapshot was then copied from there to its place (the
    whole repository directory of a hub artifact; every listed file of a file artifact, links
    with their blobs); or the cold artifact was complete, its manifest valid for this
    specification, and every entry of the manifest was restored: regular files copied
    with the recorded size and digest, links checked against the manifest with their blob
    found in or copied to the hot blob store (for a link no digest is recorded or checked).
    And [ensureArtifact] succeeds only with the marker found or written. *)
Theorem marker_implies_bytes {W} (C : codec) (m : cacheManager) (r : CacheRequest) (h : handler fev W) (w : W) :
  (forall tr1 stamp x tr2,
    trace h (ensureArtifact C m r) w =
      tr1 ++ Obs (FWriteFile (path_join [hotMarker (hotRoot m) (cacheKey (cr_cache r)); ".complete"]) stamp) x :: tr2 ->
    bytes_hot C m r tr1)
  /\ (value h (ensureArtifact C m r) w = Ok tt ->
      exists o, o ∈ trace h (ensureArtifact C m r) w /\ notes_marker m r (obs_req o) (obs_reply o) = true).
Proof.
  split.
  - intros tr1 stamp x tr2 Htr.
    destruct (rg_run_any (marking C m r) h _ [] w _ (fun _ _ _ _ => I) (rg_ensureArtifact C m r [])) as [Hm _].
    specialize (Hm _ _ _ Htr). unfold marking in Hm. rewrite ghost_traced in Hm. by apply Hm.
  - intros E. destruct (rg_run_any (noting m r) h _ false w _ (fun _ _ _ _ => I)
      (rg_ensure_notes C m r false)) as [_ Hv].
    rewrite E in Hv. by apply noted_from_start.
Qed.

(** The write of the completion marker. *)
Definition writes_marker (m : cacheManager) (r : CacheRequest) (o : obs fev) : bool :=
  match obs_req o with
  | FWriteFile p _ => p == path_join [hotMarker (hotRoot m) (cacheKey (cr_cache r)); ".complete"]
  | _ => false
  end.
Lemma split_at_marker m r tr :
  existsb (writes_marker m r) tr = true ->
  exists tr1 stamp x tr2,
    tr = tr1 ++ Obs (FWriteFile (path_join [hotMarker (hotRoot m) (cacheKey (cr_cache r)); ".complete"]) stamp) x :: tr2.
Proof.
  intros ([X e x] & Hin & Ho)%existsb_exists. apply list_elem_of_In, list_elem_of_split in Hin as (tr1 & tr2 & ->).
  destruct e; try discriminate Ho. apply bool_decide_eq_true in Ho as ->. eauto.
Qed.

(** A store without the artifact, so that it is downloaded. *)
Definition bare_disk : handler fev disk := fun X e =>
  match e in fev T return disk -> T * disk with
  | FStat _ => fun w => (missing, w)
  | e => sample_disk _ e
  end.

Lemma marker_implies_bytes_witness :
  let promoting := trace sample_disk (ensureArtifact sample_codec sample_manager laguna_request) fresh_disk in
  let downloading := trace bare_disk (ensureArtifact sample_codec sample_manager laguna_request) fresh_disk in
  (exists tr1 stamp x tr2, promoting = tr1 ++ Obs (FWriteFile (path_join [hotMarker "/cache/hot"
        (cacheKey (cr_cache laguna_request)); ".complete"]) stamp) x :: tr2
     /\ bytes_hot sample_codec sample_manager laguna_request tr1)
  /\ (exists tr1 stamp x tr2, downloading = tr1 ++ Obs (FWriteFile (path_join [hotMarker "/cache/hot"
        (cacheKey (cr_cache laguna_request)); ".complete"]) stamp) x :: tr2
     /\ bytes_hot sample_codec sample_manager laguna_request tr1)
  /\ exists o, o ∈ promoting /\ notes_marker sample_manager laguna_request (obs_req o) (obs_reply o) = true.
Proof.
  cbn zeta. split; [|split].
  - destruct (split_at_marker sample_manager laguna_request
      (trace sample_disk (ensureArtifact sample_codec sample_manager laguna_request) fresh_disk))
      as (tr1 & stamp & x & tr2 & Htr); [vm_compute; reflexivity|].
    exists tr1, stamp, x, tr2. split; [exact Htr|].
    apply (proj1 (marker_implies_bytes sample_codec sample_manager laguna_request sample_disk fresh_disk)
             tr1 stamp x tr2 Htr).
  - destruct (split_at_marker sample_manager laguna_request
      (trace bare_disk (ensureArtifact sample_codec sample_manager laguna_request) fresh_disk))
      as (tr1 & stamp & x & tr2 & Htr); [vm_compute; reflexivity|].
    exists tr1, stamp, x, tr2. split; [exact Htr|].
    apply (proj1 (marker_implies_bytes sample_codec sample_manager laguna_request bare_disk fresh_disk)
             tr1 stamp x tr2 Htr).
  - apply (marker_implies_bytes sample_codec sample_manager laguna_request sample_disk fresh_disk).
    vm_compute. reflexivity.
Defined.
