(* ===== verification/Json.v ===== *)
(** * Decoded JSON and YAML values

    What [encoding/json] and [yaml] leave in an [any]: objects are Go maps, so they
    are finite maps here; a number keeps its text, as [json.Number] does.  Also the
    recursive merge of overlay defaults ([cmd/llm-proxy/main.go], [mergeDefaults]). *)

From S2P Require Import Prelude GoStrings.

#[local] Unset Elimination Schemes.
Inductive json :=
| JNull
| JBool (b : bool)
| JNumber (text : string)
| JString (s : string)
| JArray (l : list json)
| JObject (m : gmap string json)
(** a value of another Go type: a YAML timestamp, a mapping with other keys *)
| JOpaque (text : string).
#[local] Set Elimination Schemes.
Abbreviation object := (gmap string json).

Fixpoint json_size (j : json) : nat :=
  match j with
  | JArray l => S (foldr (fun x n => json_size x + n)%nat O l)
  | JObject m => S (map_fold (fun _ x n => json_size x + n)%nat O m)
  | _ => 1%nat
  end.

Lemma array_member_size x l : x ∈ l -> (json_size x < json_size (JArray l))%nat.
Proof.
  cbn. induction l as [|y l IH]; [by intros ?%elem_of_nil|].
  intros [->|Hx]%elem_of_cons; cbn; [lia|]. specialize (IH Hx). lia.
Qed.
Lemma object_member_size k x (m : object) : m !! k = Some x -> (json_size x < json_size (JObject m))%nat.
Proof.
  intros Hk. cbn. rewrite (map_fold_delete_L (fun _ x n => json_size x + n)%nat O k x m); [lia| |done].
  intros. lia.
Qed.

(** Induction that reaches into arrays and objects. *)
Lemma json_ind (P : json -> Prop) :
  P JNull -> (forall b, P (JBool b)) -> (forall t, P (JNumber t)) -> (forall s, P (JString s)) ->
  (forall l, Forall P l -> P (JArray l)) ->
  (forall m : object, map_Forall (fun _ => P) m -> P (JObject m)) ->
  (forall t, P (JOpaque t)) ->
  forall j, P j.
Proof.
  intros H1 H2 H3 H4 H5 H6 H7 j. remember (json_size j) as n eqn:Hn. revert j Hn.
  induction n as [n IH] using lt_wf_ind. intros j ->. destruct j; auto.
  - apply H5, Forall_forall. intros x Hx. eapply IH; [|done]. by apply array_member_size.
  - apply H6. intros k x Hx. eapply IH; [|done]. by eapply object_member_size.
Qed.

(** [value.(map[string]any)], [value.(string)], [value.([]any)]. *)
Definition as_object (j : json) : option object := match j with JObject m => Some m | _ => None end.
Definition as_string (j : json) : option string := match j with JString s => Some s | _ => None end.
Definition as_array (j : json) : option (list json) := match j with JArray l => Some l | _ => None end.
(** Indexing a map of [any]: nil for a missing key; [== nil] does not tell the two apart. *)
Definition field (m : object) (k : string) : json := default JNull (m !! k).
(** [s, _ := m[k].(string)]: the empty string unless a string is there. *)
Definition string_field (m : object) (k : string) : string := default "" (as_string (field m k)).
(** [m[k] == s] for an [any] and a string. *)
Definition is_string (j : json) (s : string) : bool :=
  match j with JString t => t == s | _ => false end.

(** ** Merging defaults

    Omitted fields are filled in; a field that is an object on both sides is merged;
    every other field of the request wins. *)

Fixpoint merge_value (defaults request : json) {struct defaults} : json :=
  match defaults, request with
  | JObject d, JObject r =>
      JObject (merge (fun (dv rv : option json) =>
        match rv, dv with
        | None, _ => dv
        | _, None => rv
        | Some rv, Some dv => Some (merge_value dv rv)
        end) d r)
  | _, _ => request
  end.
Definition mergeDefaults (request defaults : object) : object :=
  merge (fun (dv rv : option json) =>
    match rv, dv with
    | None, _ => dv
    | _, None => rv
    | Some rv, Some dv => Some (merge_value dv rv)
    end) defaults request.

Lemma merge_value_objects d r : merge_value (JObject d) (JObject r) = JObject (mergeDefaults r d).
Proof. done. Qed.
Lemma merge_value_other d r : as_object d = None \/ as_object r = None -> merge_value d r = r.
Proof. destruct d, r; cbn; naive_solver. Qed.

Lemma lookup_mergeDefaults request defaults k :
  mergeDefaults request defaults !! k =
    match request !! k, defaults !! k with
    | None, dv => dv
    | rv, None => rv
    | Some rv, Some dv => Some (merge_value dv rv)
    end.
Proof.
  unfold mergeDefaults. rewrite lookup_merge. unfold diag_None.
  by destruct (request !! k), (defaults !! k).
Qed.

Lemma merge_value_self d : merge_value d d = d.
Proof.
  induction d as [| | | | |d IH|] using json_ind; try done.
  rewrite merge_value_objects. f_equal. apply map_eq. intros k. rewrite lookup_mergeDefaults.
  destruct (d !! k) as [dv|] eqn:Ed; [|done]. f_equal. by apply (IH k).
Qed.

(** Merging a second time changes nothing. *)
Lemma merge_value_idem d r : merge_value d (merge_value d r) = merge_value d r.
Proof.
  revert r. induction d as [| | | | |d IH|] using json_ind; intros r; try done.
  destruct r as [| | | | |r|]; try done. rewrite !merge_value_objects. f_equal.
  apply map_eq. intros k. rewrite !lookup_mergeDefaults.
  destruct (r !! k) as [rv|] eqn:Er, (d !! k) as [dv|] eqn:Ed; try done; f_equal.
  - by apply (IH k).
  - apply merge_value_self.
Qed.
Lemma mergeDefaults_idem request defaults :
  mergeDefaults (mergeDefaults request defaults) defaults = mergeDefaults request defaults.
Proof.
  pose proof (merge_value_idem (JObject defaults) (JObject request)) as H.
  rewrite !merge_value_objects in H. by injection H.
Qed.

(** ** Nested fields *)

(** The value at a path of keys. *)
Fixpoint at_path (j : json) (path : list string) : option json :=
  match path with
  | [] => Some j
  | k :: path' => match j with JObject m => m !! k ≫= fun x => at_path x path' | _ => None end
  end.
(** A value that is not an object stands in the way. *)
Fixpoint blocked (j : json) (path : list string) : bool :=
  match path with
  | [] => false
  | k :: path' =>
      match j with
      | JObject m => match m !! k with Some x => blocked x path' | None => false end
      | _ => true
      end
  end.

Lemma merge_at_path path d r :
  at_path (merge_value d r) path =
    match at_path r path with
    | Some rv => Some (match at_path d path with Some dv => merge_value dv rv | None => rv end)
    | None => if blocked r path then None else at_path d path
    end.
Proof.
  revert d r. induction path as [|k path IH]; intros d r; [done|].
  destruct r as [| | | | |r|]; cbn [at_path blocked]; try (by destruct d).
  destruct d as [| | | | |d|]; cbn [at_path merge_value].
  1-5,7: destruct (r !! k) as [rv|]; cbn; [|done]; destruct (at_path rv path); [done|];
       by destruct (blocked rv path).
  fold (mergeDefaults r d). rewrite lookup_mergeDefaults.
  destruct (r !! k) as [rv|], (d !! k) as [dv|]; cbn; [apply IH| |done|done].
  destruct (at_path rv path); [done|]. by destruct (blocked rv path).
Qed.
