(* ===== verification/ProxyApi.v ===== *)
(** * The proxy's data, shared state and services ([cmd/llm-proxy/main.go])

    The proxy serves many requests at once.  What its goroutines share is the
    [proxyState] behind [stateMu] and [capabilityMu] and the table of switches
    behind [switchMu]; each critical section is one request of [pev], so runs
    interleave between sections and not inside them.  The API server, the backend
    and Hugging Face are further requests of [pev].

    Dynamic Kubernetes objects are decoded JSON; apimachinery's accessors for them
    are a parameter ([nested]), as are the JSON and URL codecs ([proxylib]). *)

From S2P Require Import Prelude GoStrings Types Effects Api Json.

(** ** Data *)

Record modelConfig := mkModelConfig {
  mc_name : string;
  mc_backend : string;
  mc_backendRef : string;
  mc_modelSource : string;
  mc_displayName : string;
  mc_maxModelLen : Z;
  mc_created : Z;
  mc_args : list string;
  mc_source : string;
  (** raw JSON, empty when absent *)
  mc_fallback : string;
  mc_runtime : string;
  mc_cache : CacheSpec;
}.
Record backendConfig := mkBackendConfig {
  bc_name : string; bc_deployment : string; bc_container : string; bc_url : option string }.
Record overlayConfig := mkOverlayConfig {
  oc_name : string;
  oc_displayName : string;
  oc_baseModel : string;
  oc_created : Z;
  oc_requestDefaults : string;
  oc_source : string;
}.
Record runtimeMetadata := mkRuntimeMetadata {
  rt_schemaVersion : Z;
  rt_source : string;
  rt_observedAt : Z;
  rt_modelName : string;
  rt_servedModelIDs : list string;
  rt_contextLength : Z;
  rt_maxConcurrentRequests : Z;
  rt_launchArguments : strmap;
  rt_kvCache : nilmap;
}.
Record registry := mkRegistry {
  rg_models : gmap string modelConfig; rg_overlays : gmap string overlayConfig }.
Definition empty_registry : registry := mkRegistry ∅ ∅.
(** Indexing a Go map of structs yields the zero struct. *)
Definition zeroModel : modelConfig :=
  mkModelConfig "" "" "" "" "" 0 0 [] "" "" "" (mkCacheSpec "" "" "" 0 [] "").
Definition zeroOverlay : overlayConfig := mkOverlayConfig "" "" "" 0 "" "".

(** The fields of [proxy] that never change. *)
Record proxyConfig := mkProxyConfig {
  px_namespace : string;
  px_deployment : string;
  px_container : string;
  px_backends : gmap string backendConfig;
  px_publicBaseURL : string;
  px_transitionLimit : Z;
  px_maxBody : Z;
  px_cacheManager : option string;
  (** whether [dynamic] and [httpClient] are set *)
  px_dynamic : bool;
  px_httpClient : bool;
}.

(** The fields behind [stateMu], and the in-flight discoveries behind [capabilityMu]. *)
Record proxyState := mkProxyState {
  ps_registry : registry;
  ps_active : string;
  ps_ready : bool;
  ps_activeSince : option Z;
  ps_backend : option string;
  ps_backendName : string;
  ps_discovering : gset string;
}.

(** ** Services *)

(** [unstructured.Unstructured]: name, creation time and content. *)
Record unstructured := mkUnstructured { u_name : string; u_created : Z; u_object : object }.

(** A nested field: its value, whether it was found, and the error. *)
Abbreviation looked_up A := (A * bool * option error)%type.
Record nested := mkNested {
  NestedString : object -> list string -> looked_up string;
  NestedInt64 : object -> list string -> looked_up Z;
  NestedStringSlice : object -> list string -> looked_up (list string);
  NestedSlice : object -> list string -> looked_up (list json);
  NestedFieldCopy : object -> list string -> looked_up json;
}.

Record proxylib := mkProxylib {
  (** [url.Parse], rendered back *)
  parseURL : string -> result string;
  (** the URL with its path replaced *)
  withPath : string -> string -> string;
  (** [ResolveReference] of an absolute path *)
  resolvePath : string -> string -> string;
  pathEscape : string -> string;
  (** the error of [http.NewRequestWithContext], if any *)
  requestError : string -> option error;
  (** [json.Unmarshal] into a [map[string]any]: nil for null *)
  decodeObject : string -> result (option object);
  (** [json.Marshal] *)
  encodeJSON : json -> result string;
  encodeRuntime : runtimeMetadata -> result string;
  validJSON : string -> bool;
  (** the [model] of a request body, the [input_modalities] of metadata, the ids of
      a model list *)
  decodeModelField : string -> result string;
  decodeModalities : string -> result (list string);
  decodeIDs : string -> result (list string);
  (** a [json.Decoder] with [UseNumber] on a stream, which may fail to be read: the
      first object, nil for null; and the [safetensors.total] of a model card *)
  decodeStream : result string -> result (option object);
  decodeTotal : result string -> result Z;
  (** [resource.ParseQuantity], then [Value()] *)
  parseQuantity : string -> result Z;
}.

Inductive proxyCounter := switchesTotal | configErrors | lastSwitch | lastStart.

(** A request to the proxy: [rq_segments] are the segments of its path, each decoded;
    [rq_body] is what reading the whole body yields. *)
Record httpRequest := mkRequest {
  rq_method : string; rq_path : string; rq_segments : list string; rq_body : result string }.

Inductive payload :=
| BodyJSON (j : json)
| BodyText (s : string)
| BodyEmpty.
(** What a handler answers itself: status, [Retry-After], body. *)
Record answer := mkAnswer { an_code : Z; an_retryAfter : option string; an_payload : payload }.

(** A call on a response writer: its status, or some bytes at some time. *)
Inductive wop :=
| WHeader (code : Z)
| WBytes (n : nat) (at_ : Z).

(** What [coalescedOperatorTransition] finds under [switchMu]. *)
Inductive role := Leader (wait : nat) | Follower (wait : nat).

Inductive pev : Type -> Type :=
(** a critical section of [stateMu] or [capabilityMu] *)
| PState {A : Type} (f : proxyState -> A * proxyState) : pev A
(** the order in which [range] visits a map *)
| PRange {A : Type} (l : list A) : pev (list A)
(** joining the switch to a model: its leader creates the wait *)
| PJoin (model : string) : pev role
(** the leader removes the entry, then records its error and closes the channel *)
| PLeave (model : string) : pev unit
| PClose (wait : nat) (err : result unit) : pev unit
(** a follower's select: the leader's error, or its own context's *)
| PAwait (wait : nat) : pev (result unit + error)
| PInFlight : pev bool
(** a non-blocking look at the caller's context *)
| PCtxErr : pev (option error)
(** how many ticks a poll loop's select takes before it takes the end of its context,
    which comes after [limit] nanoseconds *)
| PRounds (limit : Z) : pev nat
(** waiting for a tick *)
| PTick : pev unit
| PGetActive (ns name : string) : pev (result object)
(** merge patch of [spec.modelName] *)
| PPatchActive (ns name model : string) : pev (result unit)
| PListModels (ns : string) : pev (result (list unstructured))
| PListOverlays (ns : string) : pev (result (list unstructured))
| PGetConfigMap (ns name : string) : pev (result ConfigMap)
| PCreateConfigMap (cm : ConfigMap) : pev (result unit)
(** merge patch of [data] *)
| PPatchConfigMap (ns name : string) (data : strmap) : pev (result unit)
| PGetDeployment (ns name : string) : pev (result Deployment)
| PGet (url : string) : pev (result http_response)
| PSweep (url : string) (r : CacheRequest) : pev (result http_response)
| PNow : pev Z
| PAdd (c : proxyCounter) (n : Z) : pev unit
| PStore (c : proxyCounter) (n : Z) : pev unit
| PLoad (c : proxyCounter) : pev Z
(** the reverse proxy: method, path and body (the client's own stream when [None]) sent
    to the backend; what it wrote to the client, and the error of the round trip *)
| PForward (backend : option string) (method path : string) (body : option string)
    : pev (list wop * option error)
(** the goroutine of [scheduleModelCapabilityDiscovery] *)
| PSpawnDiscovery (cfg : modelConfig) : pev unit
(** a Prometheus observation: model, backend, status, duration, time to first byte *)
| PObserve (model backend status : string) (duration : Z) (firstByte : option Z) : pev unit
(** the text of the Prometheus registry *)
| PGather : pev string.

Notation pprog := (prog pev).

(** A critical section that only reads. *)
Definition reading {A} (f : proxyState -> A) : pprog A := call (PState (fun s => (f s, s))).
(** A critical section that only writes. *)
Definition updating (f : proxyState -> proxyState) : pprog unit := call (PState (fun s => (tt, f s))).

Definition with_registry (s : proxyState) (r : registry) : proxyState :=
  mkProxyState r (ps_active s) (ps_ready s) (ps_activeSince s) (ps_backend s) (ps_backendName s)
    (ps_discovering s).
