(* ===== verification/ProxyCatalog.v ===== *)
(** * The proxy's catalogue ([cmd/llm-proxy/main.go])

    Reading [LLMModel] and [LLMModelOverlay] objects into the proxy's own
    configuration, and loading the registry from the API server. *)

From Stdlib Require Import Ascii.
From S2P Require Import Prelude GoStrings Types Effects Api Json ProxyApi.

(** ** Small helpers *)

Definition contains (values : list string) (target : string) : bool :=
  existsb (fun v => v == target) values.

Definition sha_char (c : ascii) : bool :=
  let n := nat_of_ascii c in
  ((48 <=? n)%nat && (n <=? 57)%nat) || ((97 <=? n)%nat && (n <=? 102)%nat).
Fixpoint all_chars (f : ascii -> bool) (s : string) : bool :=
  match s with EmptyString => true | String c s' => f c && all_chars f s' end.
Definition isCommitSHA (value : string) : bool :=
  (String.length value =? 40)%nat && all_chars sha_char value.

Definition hasArgument (args : list string) (flag : string) : bool :=
  existsb (fun arg => (arg == flag) || has_prefix arg (flag +:+ "=")) args.

Definition statusDataKey (source suffix : string) : string :=
  replace_char "/"%char "__" source +:+ suffix.

(** [value, found, err] with [err != nil || !found] ruled out. *)
Definition found_ok {A} (x : looked_up A) : option A :=
  let '(v, found, err) := x in if is_some err || negb found then None else Some v.
(** The value, whatever [found] and [err] say. *)
Definition value_of {A} (x : looked_up A) : A := x.1.1.

Section catalog.
Context (acc : nested) (lib : proxylib).

(** A required string field that is not blank. *)
Definition required_string (m : object) (path : list string) (missing : string) : result string :=
  match found_ok (NestedString acc m path) with
  | Some v => guard trim_space v != "" else errorf missing in Ok v
  | None => Err (errorf missing)
  end.

(** The [--] arguments the proxy injects itself. *)
Definition check_args (backend : string) (args : list string) : result unit :=
  if existsb (fun arg => trim_space arg == "") args then
    Err (errorf "spec.serving.args cannot contain empty arguments")
  else if (backend == "vllm")
          && (contains args "--model" || contains args "--revision" || contains args "--served-model-name") then
    Err (errorf "spec.serving.args must not contain --model, --revision, or --served-model-name")
  else if (backend == "llama-cpp")
          && (contains args "-m" || contains args "--model" || contains args "--alias") then
    Err (errorf "spec.serving.args must not contain -m, --model, or --alias")
  else Ok tt.

(** The artifact of a model with a pinned revision. *)
Definition parse_cache (m : object) (backend source revision : string) : result CacheSpec :=
  guard isCommitSHA revision
    else errorf ("spec.model.revision " +:+ quote revision +:+ " must be an immutable commit SHA") in
  let artifact := value_of (NestedString acc m ["spec"; "model"; "artifactRepository"]) in
  let artifact := if artifact == "" then source else artifact in
  let '(expectedSize, found, _) := NestedString acc m ["spec"; "artifact"; "expectedSize"] in
  try size := (if found && (expectedSize != "") then
      let bad := errorf ("spec.artifact.expectedSize " +:+ quote expectedSize +:+ " must be a positive quantity") in
      match parseQuantity lib expectedSize with
      | Ok n => guard negb (n <? 1) else bad in Ok n
      | Err _ => Err bad
      end
    else Ok 0) in
  if backend == "llama-cpp" then
    let files := value_of (NestedStringSlice acc m ["spec"; "artifact"; "files"]) in
    guard negb (length files =? 0)%nat else errorf "spec.artifact.files is required for llama-cpp" in
    Ok (mkCacheSpec "huggingface-files" artifact revision size files
          (value_of (NestedString acc m ["spec"; "artifact"; "materializationTarget"])))
  else Ok (mkCacheSpec "huggingface-hub" artifact revision size [] "").

Definition parseLLMModel (o : unstructured) : result modelConfig :=
  let m := u_object o in
  try name := required_string m ["spec"; "model"; "name"] "spec.model.name is required" in
  try source := required_string m ["spec"; "model"; "source"] "spec.model.source is required" in
  let '(backend, found, err) := NestedString acc m ["spec"; "serving"; "backend"] in
  if is_some err || negb found || ((backend != "vllm") && (backend != "llama-cpp")) then
    Err (errorf ("unsupported spec.serving.backend " +:+ quote backend))
  else
    let '(ref, found, err) := NestedString acc m ["spec"; "backendRef"; "name"] in
    match err with
    | Some e => Err (wrap "read spec.backendRef.name: " e)
    | None =>
        let backendRef := if negb found then "" else ref in
        try displayName := required_string m ["spec"; "serving"; "displayName"]
                             "spec.serving.displayName is required" in
        match found_ok (NestedInt64 acc m ["spec"; "serving"; "maxModelLen"]) with
        | None => Err (errorf "spec.serving.maxModelLen must be a positive integer")
        | Some maxModelLen =>
            (* an int has 64 bits, so no int64 is too large for it *)
            if maxModelLen <? 1 then Err (errorf "spec.serving.maxModelLen must be a positive integer")
            else
              match found_ok (NestedStringSlice acc m ["spec"; "serving"; "args"]) with
              | None => Err (errorf "spec.serving.args must be a non-empty string array")
              | Some args =>
                  guard negb (length args =? 0)%nat
                    else errorf "spec.serving.args must be a non-empty string array" in
                  try _ := check_args backend args in
                  let '(revision, found, _) := NestedString acc m ["spec"; "model"; "revision"] in
                  try cache := (if found && (revision != "") then parse_cache m backend source revision
                                else Ok (mc_cache zeroModel)) in
                  Ok (mkModelConfig name backend backendRef source displayName maxModelLen (u_created o)
                        args ("crd/" +:+ u_name o) "" "" cache)
              end
        end
    end.

Definition parseLLMModelOverlay (o : unstructured) : result overlayConfig :=
  let m := u_object o in
  try displayName := required_string m ["spec"; "displayName"] "spec.displayName is required" in
  try baseModel := required_string m ["spec"; "baseModel"] "spec.baseModel is required" in
  match found_ok (NestedFieldCopy acc m ["spec"; "requestDefaults"]) with
  | None => Err (errorf "spec.requestDefaults is required")
  | Some defaults =>
      match encodeJSON lib defaults with
      | Err e => Err (wrap "encode spec.requestDefaults: " e)
      | Ok raw =>
          match decodeObject lib raw with
          | Ok (Some values) =>
              guard negb (is_some (values !! "model"))
                else errorf "spec.requestDefaults must not set model" in
              Ok (mkOverlayConfig (u_name o) displayName baseModel (u_created o) raw
                    ("crd/" +:+ u_name o))
          | _ => Err (errorf "spec.requestDefaults must be a JSON object")
          end
      end
  end.

(** ** Loading the registry *)

Fixpoint add_models (objects : list unstructured) (next : registry) : result registry :=
  match objects with
  | [] => Ok next
  | o :: rest =>
      match parseLLMModel o with
      | Err e => Err (wrap ("LLMModel " +:+ u_name o +:+ ": ") e)
      | Ok cfg =>
          guard negb (is_some (rg_models next !! mc_name cfg))
            else errorf ("duplicate LLMModel model.name " +:+ quote (mc_name cfg)) in
          add_models rest (mkRegistry (<[mc_name cfg := cfg]> (rg_models next)) (rg_overlays next))
      end
  end.

Fixpoint add_overlays (objects : list unstructured) (next : registry) : result registry :=
  match objects with
  | [] => Ok next
  | o :: rest =>
      match parseLLMModelOverlay o with
      | Err e => Err (wrap ("LLMModelOverlay " +:+ u_name o +:+ ": ") e)
      | Ok cfg =>
          guard negb (is_some (rg_models next !! oc_name cfg))
            else errorf ("LLMModelOverlay " +:+ u_name o +:+ " conflicts with base model " +:+ quote (oc_name cfg)) in
          guard negb (is_some (rg_overlays next !! oc_name cfg))
            else errorf ("duplicate LLMModelOverlay name " +:+ quote (oc_name cfg)) in
          guard is_some (rg_models next !! oc_baseModel cfg)
            else errorf ("LLMModelOverlay " +:+ u_name o +:+ " references unknown base model "
                         +:+ quote (oc_baseModel cfg)) in
          add_overlays rest (mkRegistry (rg_models next) (<[oc_name cfg := cfg]> (rg_overlays next)))
      end
  end.

(** The registry read into [next]: what was added before a NotFound stays. *)
Definition loadCRDRegistry (p : proxyConfig) (next : registry) : pprog (result registry) :=
  if negb (px_dynamic p) then ok next
  else
    let! models := call (PListModels (px_namespace p)) in
    match models with
    | Err e => if err_is ErrNotFound e then ok next else Ret (Err (wrap "list LLMModels: " e))
    | Ok objects =>
        let* next := Ret (add_models objects next) in
        let! overlays := call (PListOverlays (px_namespace p)) in
        match overlays with
        | Err e => if err_is ErrNotFound e then ok next else Ret (Err (wrap "list LLMModelOverlays: " e))
        | Ok objects => Ret (add_overlays objects next)
        end
    end.

(** ** Backends *)

Definition backendFor (p : proxyConfig) (backend : option string) (cfg : modelConfig) : result backendConfig :=
  if mc_backendRef cfg != "" then
    match parseURL lib ("http://" +:+ mc_backendRef cfg +:+ ":8000") with
    | Err e => Err (wrap ("parse backendRef URL for " +:+ quote (mc_backendRef cfg) +:+ ": ") e)
    | Ok u => Ok (mkBackendConfig (mc_backendRef cfg) (mc_backendRef cfg) "runtime" (Some u))
    end
  else
    let name := if mc_backend cfg == "" then "vllm" else mc_backend cfg in
    match px_backends p !! name with
    | Some b => Ok b
    | None =>
        if name == "vllm" then Ok (mkBackendConfig "vllm" (px_deployment p) (px_container p) backend)
        else Err (errorf ("backend " +:+ quote name +:+ " is not configured"))
    end.

(** [registeredBackends] over the registered models. *)
Definition referenced_backends (p : proxyConfig) (backend : option string) (models : list modelConfig)
    : gmap string backendConfig :=
  fold_left (fun backends cfg =>
    if mc_backendRef cfg == "" then backends
    else match backendFor p backend cfg with
         | Ok b => <[bc_name b := b]> backends
         | Err _ => backends
         end) models ∅.
Definition registeredBackends (p : proxyConfig) : pprog (gmap string backendConfig) :=
  let! (models, backend) := reading (fun s => (map snd (map_to_list (rg_models (ps_registry s))), ps_backend s)) in
  Ret (if existsb (fun cfg => mc_backendRef cfg != "") models
       then referenced_backends p backend models
       else px_backends p).
End catalog.
