(* ===== verification/ProxyRuntime.v ===== *)
(** * What the proxy observes of models and backends ([cmd/llm-proxy/main.go])

    Launch arguments, the backend's health, metrics and model list, Hugging Face
    metadata, and the status ConfigMap these observations are kept in. *)

From Stdlib Require Import Ascii.
From S2P Require Import Prelude GoStrings Types Effects Api Driver Json ProxyApi ProxyCatalog.

Definition modelStatusName : string := "llm-model-status".

(** ** Launch arguments *)

Definition effectiveVLLMArgs (cfg : modelConfig) : list string :=
  ["--model"; mc_modelSource cfg]
  ++ (if cs_revision (mc_cache cfg) != "" then ["--revision"; cs_revision (mc_cache cfg)] else [])
  ++ ["--served-model-name"; mc_name cfg] ++ mc_args cfg.
Definition effectiveArgs (cfg : modelConfig) : list string :=
  if mc_backend cfg == "llama-cpp" then
    ["-m"; mc_modelSource cfg; "--alias"; mc_name cfg] ++ mc_args cfg
  else effectiveVLLMArgs cfg.

(** Unlike the driver's, this one takes only arguments that start with two dashes. *)
Fixpoint launch_from (args : list string) (values : strmap) : strmap :=
  match args with
  | [] => values
  | a :: rest =>
      if has_prefix a "--" then
        match rest with
        | v :: rest' => if has_prefix v "--" then launch_from rest (<[a:="true"]> values)
                        else launch_from rest' (<[a:=v]> values)
        | [] => <[a:="true"]> values
        end
      else launch_from rest values
  end.
Definition launchArguments (args : list string) : strmap := launch_from args ∅.

(** The value [strconv.Atoi] returns next to its error: zero for a syntax error, the
    nearest bound when out of range. *)
Definition atoi_value (s : string) : Z :=
  match parse_signed s with
  | None => 0
  | Some z => Z.max (- 2 ^ 63) (Z.min (2 ^ 63 - 1) z)
  end.

(** ** Model-card metadata *)

Definition positiveInt (value : json) : option Z :=
  match (match value with JNumber t => Some t | JString s => Some s | _ => None end) with
  | Some text =>
      match parse_int64 text with
      | Ok number => if 0 <? number then Some number else None
      | Err _ => None
      end
  | None => None
  end.
Definition nestedMap (values : object) (key : string) : object := default ∅ (as_object (field values key)).
Definition context_keys : list string :=
  ["max_position_embeddings"; "max_sequence_length"; "max_seq_len"; "seq_length"; "n_positions";
   "model_max_length"].
Definition modelContextLength (config : object) : option Z :=
  first_some (fun source : object =>
    first_some (fun key =>
      match positiveInt (field source key) with
      | Some value => if value <=? 10000000 then Some value else None
      | None => None
      end) context_keys) [config; nestedMap config "text_config"].

Definition image_keys : list string :=
  ["vision_config"; "vision_tower"; "mm_vision_tower"; "vision_encoder"; "vision_model"; "visual";
   "image_token_id"; "image_token_index"; "image_seq_length"; "image_size"; "image_grid_pinpoints";
   "mm_projector_type"].
Definition is_null (j : json) : bool := match j with JNull => true | _ => false end.
Definition modelConfigSupportsImageInput (config : object) : bool :=
  existsb (fun key => match config !! key with Some value => negb (is_null value) | None => false end)
    image_keys.
Definition modelConfigInputModalities (config : object) : list string :=
  if modelConfigSupportsImageInput config then ["text"; "image"] else ["text"].

Definition jnum (z : Z) : json := JNumber (show_int z).
Definition jstrings (l : list string) : json := JArray (map JString l).

Section runtime.
Context (lib : proxylib) (p : proxyConfig).

Definition metadataInputModalities (raw : string) : option (list string) :=
  match decodeModalities lib raw with
  | Err _ | Ok [] => None
  | Ok modalities => Some (if contains modalities "image" then ["text"; "image"] else ["text"])
  end.

Definition inputModalities (cfg : modelConfig) : list string :=
  if (mc_backend cfg == "llama-cpp")
     && (hasArgument (mc_args cfg) "--mmproj" || hasArgument (mc_args cfg) "--mmproj-url")
  then ["text"; "image"]
  else match metadataInputModalities (mc_fallback cfg) with
       | Some modalities => modalities
       | None => default ["text"] (metadataInputModalities (mc_runtime cfg))
       end.

(** ** The backend *)

(** A nil [backend] would be dereferenced here; the proxy never has one (see the
    invariant of the shared state). *)
Definition nil_dereference : error := errorf "invalid memory address or nil pointer dereference".

Definition get (url : string) : pprog (result http_response) :=
  match requestError lib url with
  | Some e => Ret (Err e)
  | None => call (PGet url)
  end.

Definition backendText (endpoint : string) : pprog (result string) :=
  let! backend := reading ps_backend in
  match backend with
  | None => Ret (Err nil_dereference)
  | Some u =>
      let* resp := get (withPath lib u endpoint) in
      Ret (guard hr_code resp =? 200
             else errorf ("backend " +:+ endpoint +:+ " returned " +:+ hr_status resp) in
           try body := hr_body resp in
           Ok (limit_read (Z.shiftl 8 20) body))
  end.

Definition backendModels : pprog (result (list string)) :=
  let* body := backendText "/v1/models" in
  Ret (try ids := decodeIDs lib body in
       Ok (List.filter (fun id => id != "") ids)).

Definition backendHealthyAt (backend : option string) : pprog bool :=
  match backend with
  | None => Ret false
  | Some u =>
      let! resp := get (withPath lib u "/health") in
      Ret (match resp with Ok r => hr_code r =? 200 | Err _ => false end)
  end.
Definition backendHealthy : pprog bool :=
  let! backend := reading ps_backend in
  backendHealthyAt backend.

(** [cacheConfigInfo] and [prometheusLabels] are the vLLM driver's text. *)
Definition cacheConfigInfo (metrics : string) : nilmap := parseVLLMCacheConfig metrics.
Definition prometheusLabels (encoded : string) : strmap := parsePrometheusLabels encoded.

Definition collectRuntimeMetadata (cfg : modelConfig) : pprog runtimeMetadata :=
  let! now := call PNow in
  let launch := launchArguments (effectiveArgs cfg) in
  let! metrics := backendText "/metrics" in
  let! models := backendModels in
  Ret (mkRuntimeMetadata 1 "vllm_runtime" now (mc_name cfg)
         (match models with Ok ids => ids | Err _ => [] end)
         (mc_maxModelLen cfg)
         (atoi_value (default "" (launch !! "--max-num-seqs")))
         launch
         (match metrics with Ok text => cacheConfigInfo text | Err _ => None end)).

(** ** Hugging Face *)

Definition limited (limit : Z) (body : result string) : result string :=
  match body with Ok b => Ok (limit_read limit b) | Err e => Err e end.

Definition fetchModelConfig (repo revision : string) : pprog (result (option object)) :=
  match split_on "/" repo with
  | [owner; model] =>
      if (trim_space owner == "") || (trim_space model == "") then fails "model repository must be OWNER/MODEL"
      else
        let url := "https://huggingface.co/" +:+ owner +:+ "/" +:+ model +:+ "/raw/"
                   +:+ pathEscape lib revision +:+ "/config.json" in
        match requestError lib url with
        | Some e => Ret (Err e)
        | None =>
            let* resp := wrapping "fetch model config: " (call (PGet url)) in
            if hr_code resp =? 200 then
              wrapping "decode model config: " (Ret (decodeStream lib (limited (Z.shiftl 1 20) (hr_body resp))))
            else fails ("fetch model config: Hugging Face returned " +:+ hr_status resp)
        end
  | _ => fails "model repository must be OWNER/MODEL"
  end.

(** The caller has checked that [repo] is OWNER/MODEL. *)
Definition fetchModelParameters (repo : string) : pprog (result Z) :=
  let parts := split_on "/" repo in
  let url := "https://huggingface.co/api/models/" +:+ nth 0 parts "" +:+ "/" +:+ nth 1 parts "" in
  let* resp := get url in
  if hr_code resp =? 200 then Ret (decodeTotal lib (limited (Z.shiftl 1 20) (hr_body resp)))
  else fails ("Hugging Face returned " +:+ hr_status resp).

Definition fetchModelContext (repo revision : string) : pprog (result Z) :=
  let* config := fetchModelConfig repo revision in
  match modelContextLength (default ∅ config) with
  | Some n => ok n
  | None => fails "model config does not expose a recognized context-length field; pass a manual profile instead"
  end.

Definition modelCardFallback (cfg : modelConfig) : pprog (result string) :=
  let repo := mc_modelSource cfg in
  if negb (length (split_on "/" repo) =? 2)%nat then fails "model repository is not OWNER/MODEL"
  else
    let metadata : object :=
      {[ "source" := JString "huggingface"; "model_max_context" := jnum (mc_maxModelLen cfg) ]} in
    let revision := cs_revision (mc_cache cfg) in
    let revision := if revision == "" then "main" else revision in
    let! config := fetchModelConfig repo revision in
    let metadata :=
      match config with
      | Err _ => metadata
      | Ok config =>
          let config := default ∅ config in
          let metadata := match modelContextLength config with
                          | Some declared => <[ "model_max_context" := jnum declared ]> metadata
                          | None => metadata
                          end in
          <[ "input_modalities" := jstrings (modelConfigInputModalities config) ]> metadata
      end in
    let! parameters := fetchModelParameters repo in
    let metadata := match parameters with
                    | Ok n => if 0 <? n then <[ "total_parameters" := jnum n ]> metadata else metadata
                    | Err _ => metadata
                    end in
    Ret (encodeJSON lib (JObject metadata)).

(** ** The status ConfigMap *)

Definition status_configmap (data : strmap) : ConfigMap :=
  mkConfigMap (with_labels (fresh_meta modelStatusName (px_namespace p))
                 (Some {[ "llm.cogito.dev/model-status" := "true" ]})) (Some data).

(** [Get] with NotFound told apart: [None]. *)
Definition get_status : pprog (result (option ConfigMap)) :=
  let! status := call (PGetConfigMap (px_namespace p) modelStatusName) in
  Ret (match status with
       | Ok cm => Ok (Some cm)
       | Err e => if err_is ErrNotFound e then Ok None else Err e
       end).

Definition persistRuntimeMetadata (cfg : modelConfig) : pprog (result unit) :=
  let! metadata := collectRuntimeMetadata cfg in
  let* body := Ret (encodeRuntime lib metadata) in
  let data : strmap := {[ statusDataKey (mc_source cfg) ".runtime_metadata.json" := body ]} in
  let cardKey := statusDataKey (mc_source cfg) ".model_card_metadata.json" in
  let* status := wrapping "read model status ConfigMap: " get_status in
  let present := match status with Some cm => mget (cm_data cm) cardKey | None => "" end in
  let! data :=
    (if present == "" then
       let! fallback := modelCardFallback cfg in
       Ret (match fallback with Ok f => <[ cardKey := f ]> data | Err _ => data end)
     else Ret data) in
  match status with
  | None => wrapping "create model status ConfigMap: " (call (PCreateConfigMap (status_configmap data)))
  | Some _ => wrapping "persist model status: " (call (PPatchConfigMap (px_namespace p) modelStatusName data))
  end.

Definition with_fallback (cfg : modelConfig) (raw : string) : modelConfig :=
  mkModelConfig (mc_name cfg) (mc_backend cfg) (mc_backendRef cfg) (mc_modelSource cfg)
    (mc_displayName cfg) (mc_maxModelLen cfg) (mc_created cfg) (mc_args cfg) (mc_source cfg)
    raw (mc_runtime cfg) (mc_cache cfg).
Definition with_runtime (cfg : modelConfig) (raw : string) : modelConfig :=
  mkModelConfig (mc_name cfg) (mc_backend cfg) (mc_backendRef cfg) (mc_modelSource cfg)
    (mc_displayName cfg) (mc_maxModelLen cfg) (mc_created cfg) (mc_args cfg) (mc_source cfg)
    (mc_fallback cfg) raw (mc_cache cfg).

(** The last section of [persistModelCardMetadata]. *)
Definition record_fallback (cfg : modelConfig) (metadata : string) (s : proxyState) : proxyState :=
  match rg_models (ps_registry s) !! mc_name cfg with
  | Some current =>
      if mc_source current == mc_source cfg then
        with_registry s (mkRegistry (<[ mc_name cfg := with_fallback current metadata ]> (rg_models (ps_registry s)))
                           (rg_overlays (ps_registry s)))
      else s
  | None => s
  end.
Definition persistModelCardMetadata (cfg : modelConfig) (metadata : string) : pprog (result unit) :=
  let key := statusDataKey (mc_source cfg) ".model_card_metadata.json" in
  let* status := wrapping "read model status ConfigMap: " get_status in
  do* match status with
      | None => wrapping "create model status ConfigMap: "
                  (call (PCreateConfigMap (status_configmap {[ key := metadata ]})))
      | Some _ => wrapping "persist model-card metadata: "
                    (call (PPatchConfigMap (px_namespace p) modelStatusName {[ key := metadata ]}))
      end;
  do! updating (record_fallback cfg metadata);
  ok tt.

(** ** Discovery in the background *)

Definition set_discovering (s : proxyState) (d : gset string) : proxyState :=
  mkProxyState (ps_registry s) (ps_active s) (ps_ready s) (ps_activeSince s) (ps_backend s)
    (ps_backendName s) d.
(** Claim a source, unless its discovery is in flight. *)
Definition claim_discovery (source : string) (s : proxyState) : bool * proxyState :=
  if bool_decide (source ∈ ps_discovering s) then (false, s)
  else (true, set_discovering s ({[ source ]} ∪ ps_discovering s)).

Definition scheduleModelCapabilityDiscovery (cfg : modelConfig) : pprog unit :=
  if negb (px_httpClient p) || (mc_backend cfg == "llama-cpp")
     || negb (length (split_on "/" (mc_modelSource cfg)) =? 2)%nat then Ret tt
  else if is_some (metadataInputModalities (mc_fallback cfg)) then Ret tt
  else
    let! claimed := call (PState (claim_discovery (mc_source cfg))) in
    if claimed : bool then call (PSpawnDiscovery cfg) else Ret tt.

(** The goroutine: its result is dropped and its claim released in every case. *)
Definition discovery (cfg : modelConfig) : pprog unit :=
  do! (let* metadata := modelCardFallback cfg in persistModelCardMetadata cfg metadata);
  updating (fun s => set_discovering s (ps_discovering s ∖ {[ mc_source cfg ]})).
End runtime.
