(* ===== verification/ProxySwitch.v ===== *)
(** * Registry refreshes and model switches of the proxy ([cmd/llm-proxy/main.go])

    [refresh] and [syncActiveDeployment] bring the shared state up to date with the
    cluster; [ensureActive] asks the operator for a model and waits until it is
    stable, sharing the wait between concurrent requests for the same model. *)

From S2P Require Import Prelude GoStrings Types Effects Api Driver CacheClient Json ProxyApi ProxyCatalog ProxyRuntime.

Definition activeModelAnno : string := "llm.cogito.dev/active-model".
Definition activeModelName : string := "default".
Definition backendProbeWait : Z := seconds 2.

Definition errBackendUnavailable : error := mkError "no active vLLM backend" ErrBackendUnavailable.
Definition errDeploymentMutationsDisabled : error :=
  mkError "the operator is not configured" ErrMutationsDisabled.
(** [context.DeadlineExceeded] *)
Definition deadlineExceeded : error := mkError "context deadline exceeded" ErrDeadline.

Section switch.
Context (acc : nested) (lib : proxylib) (p : proxyConfig).

(** ** Following the active Deployment *)

Definition annotation (d : Deployment) : string := mget (pt_annotations (dep_template (d_spec d))) activeModelAnno.
(** Scaled to one replica, or left to the default of one. *)
Definition is_running (d : Deployment) : bool :=
  match dep_replicas (d_spec d) with Some n => n =? 1 | None => true end.

(** The loop over the backends, from the one found active so far. *)
Fixpoint find_active (backends : list backendConfig) (active : option (backendConfig * string))
    : pprog (result (option (backendConfig * string))) :=
  match backends with
  | [] => ok active
  | backend :: rest =>
      let* deployment := wrapping ("get " +:+ bc_name backend +:+ " backend Deployment: ")
                           (call (PGetDeployment (px_namespace p) (bc_deployment backend))) in
      if negb (is_running deployment) then find_active rest active
      else match active with
      | Some _ => fails "multiple LLM backends are active"
      | None =>
          let candidate := annotation deployment in
          if candidate == "" then fails ("active " +:+ bc_name backend +:+ " backend has no model annotation")
          else find_active rest (Some (backend, candidate))
      end
  end.

(** The section that adopts the active model and its backend. *)
Definition adopt (now : Z) (activeBackend : backendConfig) (model : string) (s : proxyState)
    : result unit * proxyState :=
  match rg_models (ps_registry s) !! model with
  | None => (Err (errorf ("active model " +:+ quote model +:+ " is not configured")), s)
  | Some cfg =>
      match backendFor lib p (ps_backend s) cfg with
      | Err e => (Err (wrap ("resolve configured backend for " +:+ quote model +:+ ": ") e), s)
      | Ok configuredBackend =>
          if bc_name configuredBackend != bc_name activeBackend then
            (Err (errorf ("active backend " +:+ quote (bc_name activeBackend) +:+ " is annotated with "
                          +:+ quote model +:+ " configured for " +:+ quote (bc_name configuredBackend))), s)
          else
            let since := if ps_active s != model then Some now else ps_activeSince s in
            (Ok tt, mkProxyState (ps_registry s) model (ps_ready s) since (bc_url activeBackend)
                      (bc_name activeBackend) (ps_discovering s))
      end
  end.

Definition syncActiveDeployment : pprog (result unit) :=
  let! backends := registeredBackends lib p in
  let! backends :=
    (if (size backends =? 0)%nat then
       let! backend := reading ps_backend in
       Ret {[ "vllm" := mkBackendConfig "vllm" (px_deployment p) (px_container p) backend ]}
     else Ret backends) in
  let! order := call (PRange (map snd (map_to_list backends))) in
  let* active := find_active order None in
  match active with
  | None => ok tt
  | Some (activeBackend, model) =>
      (* the clock is read inside the section *)
      let! now := call PNow in
      call (PState (adopt now activeBackend model))
  end.

(** ** Refreshing the registry *)

Definition annotate (statusData : nilmap) (cfg : modelConfig) : result modelConfig :=
  let runtime := mget statusData (statusDataKey (mc_source cfg) ".runtime_metadata.json") in
  try cfg :=
    (if runtime != "" then
       guard validJSON lib runtime else errorf ("invalid runtime metadata for " +:+ mc_source cfg) in
       Ok (with_runtime cfg runtime)
     else Ok cfg) in
  let card := mget statusData (statusDataKey (mc_source cfg) ".model_card_metadata.json") in
  if card != "" then
    guard validJSON lib card else errorf ("invalid model-card metadata for " +:+ mc_source cfg) in
    Ok (with_fallback cfg card)
  else Ok cfg.
Fixpoint annotate_models (statusData : nilmap) (entries : list (string * modelConfig))
    (models : gmap string modelConfig) : result (gmap string modelConfig) :=
  match entries with
  | [] => Ok models
  | (name, cfg) :: rest =>
      try cfg := annotate statusData cfg in
      annotate_models statusData rest (<[ name := cfg ]> models)
  end.

Definition install (next : registry) (s : proxyState) : proxyState :=
  mkProxyState next (ps_active s) true (ps_activeSince s) (ps_backend s) (ps_backendName s)
    (ps_discovering s).

Fixpoint schedule_all (cfgs : list modelConfig) : pprog unit :=
  match cfgs with
  | [] => Ret tt
  | cfg :: rest => do! scheduleModelCapabilityDiscovery lib p cfg; schedule_all rest
  end.

(** [refresh] once the registry with these models is installed. *)
Definition follow_up (models : gmap string modelConfig) : pprog (result unit) :=
  do* syncActiveDeployment;
  let! activeConfig := reading (fun s => rg_models (ps_registry s) !! ps_active s) in
  do* match activeConfig with
      | Some cfg =>
          if mc_runtime cfg == "" then
            let! healthy := backendHealthy lib in
            if healthy : bool then
              wrapping "persist active runtime metadata: " (persistRuntimeMetadata lib p cfg)
            else ok tt
          else ok tt
      | None => ok tt
      end;
  (* the values of the map just installed *)
  let! cfgs := call (PRange (map snd (map_to_list models))) in
  do! schedule_all cfgs;
  ok tt.

Definition refresh : pprog (result unit) :=
  let* next := loadCRDRegistry acc lib p empty_registry in
  let* status := wrapping "get model status ConfigMap: " (get_status p) in
  let statusData := match status with Some cm => cm_data cm | None => Some ∅ end in
  let! entries := call (PRange (map_to_list (rg_models next))) in
  let* models := Ret (annotate_models statusData entries (rg_models next)) in
  do! updating (install (mkRegistry models (rg_overlays next)));
  follow_up models.

(** The body of the watch loops: one event of [watchLLMResource], of [watchDeployment]. *)
Definition watch_event (sync : pprog (result unit)) : pprog unit :=
  let! err := sync in
  match err with Ok _ => Ret tt | Err _ => call (PAdd configErrors 1) end.
Definition watchLLMResource_event : pprog unit := watch_event refresh.
Definition watchDeployment_event : pprog unit := watch_event syncActiveDeployment.
(** A watch that could not be opened. *)
Definition watchLLMResource_failed (e : error) : pprog unit :=
  if err_is ErrNotFound e then Ret tt else call (PAdd configErrors 1).
Definition watchDeployment_failed (e : error) : pprog unit := call (PAdd configErrors 1).

(** ** The operator's transition *)

Record transitionState := mkTransition {
  ts_specModel : string; ts_statusModel : string; ts_phase : string; ts_message : string }.

Fixpoint condition_message (conditions : list json) : string :=
  match conditions with
  | [] => ""
  | JObject condition :: rest =>
      if is_string (field condition "type") "ModelActive" then value_of (NestedString acc condition ["message"])
      else condition_message rest
  | _ :: rest => condition_message rest
  end.
Definition read_transition (active : object) : transitionState :=
  mkTransition (value_of (NestedString acc active ["spec"; "modelName"]))
    (value_of (NestedString acc active ["status"; "modelName"]))
    (value_of (NestedString acc active ["status"; "phase"]))
    (condition_message (value_of (NestedSlice acc active ["status"; "conditions"]))).
Definition operatorTransitionState : pprog (result transitionState) :=
  let* active := wrapping "read operator ActiveModel: " (call (PGetActive (px_namespace p) activeModelName)) in
  ok (read_transition active).

Definition is_stable (st : transitionState) (model : string) : bool :=
  (ts_statusModel st == model) && (ts_phase st == "Stable").
Definition is_failed (st : transitionState) (model : string) : bool :=
  (ts_specModel st == model) && (ts_phase st == "Failed").

Definition requestOperatorTransition (modelName : string) : pprog (result unit) :=
  if negb (px_dynamic p) then Ret (Err errDeploymentMutationsDisabled)
  else wrapping ("request operator transition to " +:+ quote modelName +:+ ": ")
         (call (PPatchActive (px_namespace p) activeModelName modelName)).

Definition wait_expired (modelName : string) : result unit :=
  Err (wrap ("wait for operator transition to " +:+ quote modelName +:+ ": ") deadlineExceeded).
Definition transition_failed (modelName message : string) : result unit :=
  if message != "" then
    Err (errorf ("operator transition to " +:+ quote modelName +:+ " failed: " +:+ message))
  else Err (errorf ("operator transition to " +:+ quote modelName +:+ " failed")).

(** The poll loop; [rounds] ticks are left before the select takes the end of the
    context, whose only error is the deadline's. *)
Fixpoint poll (modelName : string) (rounds : nat) : pprog (result unit) :=
  let next := match rounds with
              | O => Ret (wait_expired modelName)
              | S rounds' => do! call PTick; poll modelName rounds'
              end in
  let! state := operatorTransitionState in
  match state with
  | Err e => if err_is ErrNotFound e || err_is ErrForbidden e then Ret (Err e) else next
  | Ok st =>
      if is_stable st modelName then ok tt
      else if is_failed st modelName then Ret (transition_failed modelName (ts_message st))
      else next
  end.
Definition waitForOperatorTransition (modelName : string) : pprog (result unit) :=
  let! rounds := call (PRounds (px_transitionLimit p)) in
  poll modelName rounds.

(** What the leader does on behalf of everyone who waits. *)
Definition transition (modelName : string) : pprog (result unit) :=
  let! started := call PNow in
  let! err := (do* requestOperatorTransition modelName; waitForOperatorTransition modelName) in
  do! match err with
      | Ok _ =>
          do! call (PAdd switchesTotal 1);
          let! now := call PNow in
          do! call (PStore lastSwitch (now - started));
          call (PStore lastStart (now - started))
      | Err _ => Ret tt
      end;
  Ret err.

Definition coalescedOperatorTransition (modelName : string) : pprog (result unit) :=
  let! joined := call (PJoin modelName) in
  match joined with
  | Follower wait =>
      let! outcome := call (PAwait wait) in
      Ret (match outcome with inl err => err | inr ctxErr => Err ctxErr end)
  | Leader wait =>
      let! err := transition modelName in
      do! call (PLeave modelName);
      do! call (PClose wait err);
      let! ctxErr := call PCtxErr in
      Ret (match ctxErr with Some e => Err e | None => err end)
  end.

Definition ensureActive (requested : string) : pprog (result unit) :=
  let! known := reading (fun s => rg_models (ps_registry s) !! requested) in
  match known with
  | None => fails ("unknown model " +:+ quote requested)
  | Some cfg =>
      let* st := operatorTransitionState in
      do* (if is_stable st (mc_name cfg) then ok tt else coalescedOperatorTransition (mc_name cfg));
      syncActiveDeployment
  end.

Definition anySwitchInFlight : pprog bool := call PInFlight.
Definition isAvailable : pprog bool :=
  let! active := reading ps_active in
  if active != "" then let! inFlight := anySwitchInFlight in Ret (negb inFlight) else Ret false.

(** ** Sweeping the cache *)

Definition sweepCached (manager : string) (cfg : modelConfig) : pprog (result unit) :=
  let url := resolvePath lib manager "/v1/sweep" in
  match requestError lib url with
  | Some e => Ret (Err e)
  | None =>
      let* resp := call (PSweep url (mkCacheRequest (mc_name cfg) (mc_backend cfg) (mc_cache cfg))) in
      Ret (if Z.quot (hr_code resp) 100 =? 2 then Ok tt
           else Err (errorf (hr_status resp +:+ ": " +:+ read_message resp)))
  end.
(** One tick of [sweepCache]; a failed sweep is only logged. *)
Definition sweepCache_tick : pprog unit :=
  match px_cacheManager p with
  | None => Ret tt
  | Some manager =>
      let! active := reading (fun s => rg_models (ps_registry s) !! ps_active s) in
      match active with
      | None => Ret tt
      | Some cfg =>
          let! inFlight := anySwitchInFlight in
          if inFlight || (cs_kind (mc_cache cfg) == "") then Ret tt
          else do! sweepCached manager cfg; Ret tt
      end
  end.
End switch.
