(* ===== verification/ProxyServe.v ===== *)
(** * The proxy's HTTP surface ([cmd/llm-proxy/main.go])

    The catalogue, inference with overlays and model switches, the metrics, the
    mapping of errors to answers, and the start-up configuration. *)

From Stdlib Require Import Ascii.
From S2P Require Import Prelude GoStrings Types Effects Api Driver Json ProxyApi ProxyCatalog ProxyRuntime ProxySwitch.

(** ** Answers *)

Definition writeJSON (code : Z) (body : json) : answer := mkAnswer code None (BodyJSON body).
Definition error_body (typ message : string) : json :=
  JObject {[ "error" := JObject {[ "message" := JString message; "type" := JString typ ]} ]}.
Definition openAIError (code : Z) (typ message : string) : answer := writeJSON code (error_body typ message).
Definition retry_after (t : string) (a : answer) : answer := mkAnswer (an_code a) (Some t) (an_payload a).

Definition respondTransitionError (err : error) : answer :=
  if has_prefix (err_msg err) "unknown model" then openAIError 404 "model_not_found" (err_msg err)
  else if err_is ErrMutationsDisabled err then openAIError 409 "server_error" (err_msg err)
  else if err_is ErrBackendUnavailable err then retry_after "15" (openAIError 503 "server_error" (err_msg err))
  else if err_is ErrDeadline err then retry_after "30" (openAIError 503 "server_error" (err_msg err))
  else openAIError 502 "api_error" (err_msg err).

(** ** The writer that observes a response *)

Record metricsResponseWriter := mkWriter {
  mw_statusCode : Z; mw_wroteHeader : bool; mw_firstByte : Z; mw_firstByteSet : bool }.
Definition newWriter : metricsResponseWriter := mkWriter 0 false 0 false.

Definition WriteHeader (m : metricsResponseWriter) (code : Z) : metricsResponseWriter :=
  if mw_wroteHeader m then m else mkWriter code true (mw_firstByte m) (mw_firstByteSet m).
Definition Write (m : metricsResponseWriter) (len : nat) (now : Z) : metricsResponseWriter :=
  let m := if mw_wroteHeader m then m else mkWriter 200 true (mw_firstByte m) (mw_firstByteSet m) in
  if negb (mw_firstByteSet m) && (0 <? Z.of_nat len)
  then mkWriter (mw_statusCode m) (mw_wroteHeader m) now true else m.
Definition write_op (m : metricsResponseWriter) (op : wop) : metricsResponseWriter :=
  match op with WHeader code => WriteHeader m code | WBytes n now => Write m n now end.
Definition observed (ops : list wop) : metricsResponseWriter := fold_left write_op ops newWriter.

(** What a request got: an answer of the proxy's own, after what the reverse proxy
    may have written. *)
Record response := mkResponded { rs_relayed : list wop; rs_answer : option answer }.
Definition answered (a : answer) : response := mkResponded [] (Some a).

Section serve.
Context (acc : nested) (lib : proxylib) (p : proxyConfig).

(** ** The catalogue *)

(** Fields of [raw] overwrite those of the destination. *)
Definition mergeJSONMetadata (destination : object) (raw : string) : object :=
  if raw == "" then destination
  else match decodeObject lib raw with
       | Ok (Some values) => values ∪ destination
       | _ => destination
       end.

Definition card_of (id : string) (created : Z) (metadata : object) : object :=
  {[ "id" := JString id; "object" := JString "model"; "created" := jnum created;
     "owned_by" := JString "vllm-proxy"; "metadata" := JObject metadata ]}.
Definition with_source (metadata : object) (source : string) : object :=
  if source != "" then <[ "config_source" := JString source ]> metadata else metadata.

Definition model_metadata (cfg : modelConfig) : object :=
  let metadata : object :=
    {[ "context_length" := jnum (mc_maxModelLen cfg); "source" := JString "manual_config";
       "backend" := JString (mc_backend cfg) ]} in
  let metadata := with_source metadata (mc_source cfg) in
  let metadata := mergeJSONMetadata metadata (mc_fallback cfg) in
  let metadata := mergeJSONMetadata metadata (mc_runtime cfg) in
  <[ "input_modalities" := jstrings (inputModalities lib cfg) ]> metadata.
Definition modelCard (cfg : modelConfig) : object :=
  card_of (mc_name cfg) (mc_created cfg) (model_metadata cfg).

Definition overlayModelCard (overlay : overlayConfig) (base : modelConfig) : object :=
  let metadata : object :=
    {[ "context_length" := jnum (mc_maxModelLen base); "source" := JString "model_overlay";
       "overlay" := JBool true; "base_model" := JString (oc_baseModel overlay) ]} in
  let metadata := with_source metadata (oc_source overlay) in
  let metadata := mergeJSONMetadata metadata (mc_fallback base) in
  let metadata := mergeJSONMetadata metadata (mc_runtime base) in
  let metadata := <[ "overlay" := JBool true ]> metadata in
  let metadata := <[ "base_model" := JString (oc_baseModel overlay) ]> metadata in
  let metadata := <[ "input_modalities" := jstrings (inputModalities lib base) ]> metadata in
  card_of (oc_name overlay) (oc_created overlay) metadata.

Definition base_of (r : registry) (overlay : overlayConfig) : modelConfig :=
  default zeroModel (rg_models r !! oc_baseModel overlay).
Definition id_of (card : object) : string := string_field card "id".
(** The cards of a registry, its maps visited in the given orders, sorted by id. *)
Definition catalogue (r : registry) (models : list modelConfig) (overlays : list overlayConfig) : list object :=
  sort_slice (fun a b => String.ltb (id_of a) (id_of b))
    (map modelCard models ++ map (fun o => overlayModelCard o (base_of r o)) overlays).
Definition models : pprog answer :=
  let! r := reading ps_registry in
  let! models := call (PRange (map snd (map_to_list (rg_models r)))) in
  let! overlays := call (PRange (map snd (map_to_list (rg_overlays r)))) in
  Ret (writeJSON 200 (JObject {[ "object" := JString "list";
                                 "data" := JArray (map JObject (catalogue r models overlays)) ]})).

Definition model (id : string) : pprog answer :=
  let! r := reading ps_registry in
  Ret (match rg_overlays r !! id, rg_models r !! id with
       | None, None => openAIError 404 "model_not_found" "The requested model is not configured."
       | Some overlay, _ => writeJSON 200 (JObject (overlayModelCard overlay (base_of r overlay)))
       | None, Some cfg => writeJSON 200 (JObject (modelCard cfg))
       end).

(** ** The Hermes configuration *)

Definition provider_models (models : list modelConfig) : object :=
  fold_left (fun acc cfg =>
    <[ mc_name cfg := JObject {[ "context_length" := jnum (mc_maxModelLen cfg) ]} ]> acc)
    (sort_slice (fun a b => String.ltb (mc_name a) (mc_name b)) models) ∅.
Definition hermesConfig (target : string) : pprog answer :=
  let! (active, r) := reading (fun s => (rg_models (ps_registry s) !! ps_active s, ps_registry s)) in
  let! models := call (PRange (map snd (map_to_list (rg_models r)))) in
  Ret (match active with
       | None => openAIError 503 "server_error" "No active model is available."
       | Some cfg =>
           writeJSON 200 (JObject {[
             "object" := JString "vllm_proxy.hermes_config";
             "target" := JString target;
             "config" := JObject {[
               "model" := JObject {[ "default" := JString (mc_name cfg);
                                     "provider" := JString "custom:llm-proxy"; "base_url" := JString "" ]};
               "custom_providers" := JArray [ JObject {[
                 "name" := JString "llm-proxy"; "base_url" := JString (px_publicBaseURL p);
                 "api_mode" := JString "chat_completions";
                 "models" := JObject (provider_models models) ]} ] ]};
             "metadata" := JObject (model_metadata cfg) ]})
       end).

(** ** Inference *)

Definition overlay (name : string) : pprog (option overlayConfig) :=
  reading (fun s => rg_overlays (ps_registry s) !! name).

Definition applyOverlay (body : string) (o : overlayConfig) : result string :=
  match decodeObject lib body with
  | Ok (Some request) =>
      match decodeObject lib (oc_requestDefaults o) with
      | Err e => Err (wrap "decode overlay request defaults: " e)
      | Ok defaults =>
          let request := mergeDefaults request (default ∅ defaults) in
          encodeJSON lib (JObject (<[ "model" := JString (oc_baseModel o) ]> request))
      end
  | _ => Err (errorf "overlay requests must contain a JSON object")
  end.

(** [io.ReadAll(http.MaxBytesReader(...))] *)
Definition read_body (r : httpRequest) : option string :=
  match rq_body r with
  | Ok b => if Z.of_nat (String.length b) <=? px_maxBody p then Some b else None
  | Err _ => None
  end.

(** [reverseProxy], serving one request. *)
Definition forward (r : httpRequest) (body : option string) : pprog response :=
  let! backend := reading ps_backend in
  let! (ops, err) := call (PForward backend (rq_method r) (rq_path r) body) in
  Ret (mkResponded ops
    match err with
    | Some e => Some (openAIError 502 "api_error" ("LLM backend communication failed: " +:+ err_msg e))
    | None => None
    end).

(** The model a request asks for and the body to send, or the answer that ends it. *)
Definition resolve_request (r : httpRequest) : pprog (answer + string * option string) :=
  if (rq_method r != "GET") && (rq_method r != "DELETE") then
    match read_body r with
    | None => Ret (inl (openAIError 413 "invalid_request_error" "Request body is too large."))
    | Some body =>
        let requested := match decodeModelField lib body with Ok m => m | Err _ => "" end in
        let! found := overlay requested in
        match found with
        | None => Ret (inr (requested, Some body))
        | Some o =>
            if (rq_method r != "POST") || (rq_path r != "/v1/chat/completions") then
              Ret (inl (openAIError 400 "invalid_request_error"
                          "model overlays are supported only by POST /v1/chat/completions"))
            else Ret (match applyOverlay body o with
                      | Err e => inl (openAIError 400 "invalid_request_error" (err_msg e))
                      | Ok body => inr (oc_baseModel o, Some body)
                      end)
        end
    end
  else Ret (inr ("", None)).

Definition inference (r : httpRequest) : pprog response :=
  let! resolved := resolve_request r in
  match resolved with
  | inl a => Ret (answered a)
  | inr (requested, body) =>
      if requested != "" then
        let! err := ensureActive acc lib p requested in
        match err with
        | Err e => Ret (answered (respondTransitionError e))
        | Ok _ => forward r body
        end
      else
        let! available := isAvailable in
        if available : bool then forward r body
        else Ret (answered (respondTransitionError errBackendUnavailable))
  end.

(** ** Observing inference *)

(** The writer after a response: an answer of the proxy's own is a status and a body. *)
Definition written (rs : response) : pprog metricsResponseWriter :=
  match rs_answer rs with
  | None => Ret (observed (rs_relayed rs))
  | Some a =>
      let! now := call PNow in
      Ret (observed (rs_relayed rs ++ [WHeader (an_code a); WBytes 1 now]))
  end.

Definition status_label (m : metricsResponseWriter) : string :=
  if (mw_statusCode m =? 0) || (400 <=? mw_statusCode m) then "error" else "success".
Definition recordInferenceMetrics (m : metricsResponseWriter) (start : Z) : pprog unit :=
  let! (model, backendType) := reading (fun s =>
    (ps_active s, mc_backend (default zeroModel (rg_models (ps_registry s) !! ps_active s)))) in
  if (model == "") || (backendType == "") then Ret tt
  else
    let! now := call PNow in
    call (PObserve model backendType (status_label m) (now - start)
            (if mw_firstByteSet m then Some (mw_firstByte m - start) else None)).
Definition instrumentInference (r : httpRequest) : pprog response :=
  let! start := call PNow in
  let! rs := inference r in
  let! m := written rs in
  do! recordInferenceMetrics m start;
  Ret rs.

(** ** Health *)

Definition healthz : answer := mkAnswer 200 None BodyEmpty.
Definition readyz : pprog answer :=
  let! ready := reading ps_ready in
  Ret (if ready : bool then mkAnswer 200 None BodyEmpty
       else mkAnswer 503 None (BodyText ("model registry is not ready" +:+ char1 newline))).
End serve.
