(* ===== verification/ProxyMetrics.v ===== *)
(** * The proxy's metrics page, routes and start-up ([cmd/llm-proxy/main.go])

    Floating-point arithmetic and its renderings are a parameter ([floatlib]). *)

From Stdlib Require Import Ascii.
From S2P Require Import Prelude GoStrings Types Effects Api Driver Json ProxyApi ProxyCatalog ProxyRuntime ProxySwitch ProxyServe.

(** What the code uses of [float64]. *)
Record floatlib := mkFloatlib {
  float : Type;
  float_zero : float;
  float_add : float -> float -> float;
  (** [a > b] *)
  float_gt : float -> float -> bool;
  (** [strconv.ParseFloat] without an error *)
  parseFloat : string -> option float;
  (** [%v] *)
  showFloat : float -> string;
  (** nanoseconds as seconds: [%.6f] of [float64(n)/float64(time.Second)], of [Seconds()] *)
  showQuotient : Z -> string;
  showSeconds : Z -> string;
}.

(** [strings.Fields]: the runs of non-space bytes; [cur] is the run so far. *)
Fixpoint fields_from (fuel : nat) (cur s : string) : list string :=
  let flush := if cur == "" then [] else [cur] in
  match fuel, s with
  | S n, String c s' =>
      match first_some (cut_prefix s) space_seqs with
      | Some rest => flush ++ fields_from n "" rest
      | None => fields_from n (cur +:+ char1 c) s'
      end
  | _, _ => flush
  end.
Definition fields (s : string) : list string := fields_from (String.length s) "" s.

Section metrics.
Context (lib : proxylib) (fl : floatlib).

(** The line is a sample of exactly this metric. *)
Definition names_metric (name line : string) : bool :=
  (line != "") && negb (has_prefix line "#")
  && match cut_prefix line name with
     | Some EmptyString => true
     | Some (String c _) => (c == "{"%char) || (c == " "%char)
     | None => false
     end.
Definition sample_value (line : string) : option (float fl) :=
  match fields line with
  | [] => None
  | l => parseFloat fl (List.last l "")
  end.
Definition metricSamples (text name : string) : list (float fl) :=
  omap (fun line => if names_metric name line then sample_value line else None) (scan_lines text).

Definition sumMetric (text name : string) : option (float fl) :=
  match metricSamples text name with
  | [] => None
  | values => Some (fold_left (float_add fl) values (float_zero fl))
  end.
Definition maxMetric (text name : string) : option (float fl) :=
  match metricSamples text name with
  | [] => None
  | first :: values => Some (fold_left (fun max value => if float_gt fl value max then value else max) values first)
  end.

Definition line (s : string) : string := s +:+ char1 newline.
Definition bridged (name help kind labels : string) (value : option (float fl)) : string :=
  match value with
  | None => ""
  | Some v => line ("# HELP " +:+ name +:+ " " +:+ help) +:+ line ("# TYPE " +:+ name +:+ " " +:+ kind)
              +:+ line (name +:+ "{" +:+ labels +:+ "} " +:+ showFloat fl v)
  end.

(** The native metrics of a backend: prompt tokens, generated tokens, cache occupancy. *)
Definition native_metrics (backendType : string) : option (string * string * string) :=
  if backendType == "vllm" then
    Some ("vllm:prompt_tokens_total", "vllm:generation_tokens_total", "vllm:kv_cache_usage_perc")
  else if backendType == "llama-cpp" then
    Some ("llamacpp:prompt_tokens_total", "llamacpp:tokens_predicted_total", "")
  else None.
Definition writeBridgedBackendMetrics (model backendType : string) : pprog string :=
  if (model == "") || (backendType == "") then Ret ""
  else match native_metrics backendType with
  | None => Ret ""
  | Some (promptMetric, generationMetric, kvMetric) =>
      let! text := backendText lib "/metrics" in
      Ret (match text with
           | Err _ => ""
           | Ok text =>
               let labels := "model=" +:+ quote model +:+ ",backend=" +:+ quote backendType in
               bridged "llm_prompt_tokens_total"
                 "Prompt tokens processed, bridged from the active backend's native metrics." "counter"
                 labels (sumMetric text promptMetric)
               +:+ bridged "llm_generation_tokens_total"
                 "Generation tokens produced, bridged from the active backend's native metrics." "counter"
                 labels (sumMetric text generationMetric)
               +:+ (if kvMetric == "" then "" else
                 bridged "llm_kv_cache_usage_ratio"
                   "KV cache occupancy ratio (0-1), bridged from the active backend's native metrics." "gauge"
                   labels (maxMetric text kvMetric))
           end)
  end.

Definition boolNumber (value : bool) : Z := if value then 1 else 0.
Definition metrics : pprog answer :=
  let! (active, since, backendType) := reading (fun s =>
    (ps_active s, ps_activeSince s,
     mc_backend (default zeroModel (rg_models (ps_registry s) !! ps_active s)))) in
  let! inFlight := anySwitchInFlight in
  let! switches := call (PLoad switchesTotal) in
  let! errors := call (PLoad configErrors) in
  let! switchNs := call (PLoad lastSwitch) in
  let! startNs := call (PLoad lastStart) in
  let! uptime :=
    match since with
    | None => Ret ""
    | Some t => let! now := call PNow in
                Ret (line ("vllm_proxy_active_model_uptime_seconds " +:+ showSeconds fl (now - t)))
    end in
  let! native := writeBridgedBackendMetrics active backendType in
  let! gathered := call PGather in
  Ret (mkAnswer 200 None (BodyText (
    (if active != "" then line ("vllm_proxy_active_model_info{model_name=" +:+ quote active +:+ "} 1") else "")
    +:+ line ("vllm_proxy_transitioning " +:+ show_int (boolNumber inFlight))
    +:+ line ("vllm_proxy_switches_total " +:+ show_int switches)
    +:+ line ("vllm_proxy_config_errors_total " +:+ show_int errors)
    +:+ line ("vllm_proxy_last_switch_duration_seconds " +:+ showQuotient fl switchNs)
    +:+ line ("vllm_proxy_last_startup_duration_seconds " +:+ showQuotient fl startNs)
    +:+ uptime +:+ native +:+ gathered))).
End metrics.

(** ** Routes

    The patterns [main] registers; [GET] patterns also take [HEAD], and the one for
    a literal path is more specific than those with a wildcard or a subtree. *)

Inductive route :=
| Healthz | Readyz | Metrics | Models | Model (id : string) | HermesConfig (target : string)
| Inference | NoRoute.
Definition is_get (method : string) : bool := (method == "GET") || (method == "HEAD").
Definition route_of (r : httpRequest) : route :=
  let get := is_get (rq_method r) in
  let fallback := match rq_segments r with "v1" :: _ :: _ => Inference | _ => NoRoute end in
  if negb get then fallback
  else match rq_segments r with
       | ["healthz"] => Healthz
       | ["readyz"] => Readyz
       | ["metrics"] => Metrics
       | ["v1"; "models"] => Models
       | ["v1"; "models"; id] => if id == "" then fallback else Model id
       | ["vllm-proxy"; "config"; target] => if target == "" then fallback else HermesConfig target
       | _ => fallback
       end.

Section main.
Context (acc : nested) (lib : proxylib) (fl : floatlib).
(** the multiplexer's own answers: 404, 405 and redirects *)
Context (unrouted : httpRequest -> answer).

Definition own (a : pprog answer) : pprog response := let! a := a in Ret (answered a).
Definition serve (p : proxyConfig) (r : httpRequest) : pprog response :=
  match route_of r with
  | Healthz => Ret (answered healthz)
  | Readyz => own readyz
  | Metrics => own (metrics lib fl)
  | Models => own (models lib)
  | Model id => own (model lib id)
  | HermesConfig target => own (hermesConfig lib p target)
  | Inference => instrumentInference acc lib p r
  | NoRoute => Ret (answered (unrouted r))
  end.

(** ** Start-up *)

Context (getenv : string -> string) (parseDuration : string -> result Z).

Definition env (key fallback : string) : string :=
  let value := getenv key in if value != "" then value else fallback.
Definition durationEnv (key : string) (fallback : Z) : Z :=
  match parseDuration (getenv key) with
  | Ok value => if 0 <? value then value else fallback
  | Err _ => fallback
  end.
Definition int64Env (key : string) (fallback : Z) : Z :=
  match parse_int64 (getenv key) with
  | Ok value => if 0 <? value then value else fallback
  | Err _ => fallback
  end.
(** [file]: the contents of the service account's namespace file. *)
Definition mustNamespace (file : result string) : string :=
  match file with Ok body => trim_space body | Err _ => "home-infra" end.

Definition defaultMaxBody : Z := Z.shiftl 32 20.
Definition defaultTimeout : Z := 30 * 60 * seconds 1.
Definition defaultSweep : Z := 10 * 60 * seconds 1.

(** The proxy [main] builds once its clients exist: its configuration and first state. *)
Definition start (file : result string) : result (proxyConfig * proxyState) :=
  try backend := parseURL lib (env "BACKEND_URL" "http://llm-vllm:8000") in
  try llamaBackend := parseURL lib (env "LLAMA_BACKEND_URL" "http://llm-laguna:8000") in
  let raw := trim_space (getenv "CACHE_MANAGER_URL") in
  try cacheManager := (if raw != "" then try u := parseURL lib raw in Ok (Some u) else Ok None) in
  let vllmDeployment := env "VLLM_DEPLOYMENT" "llm-vllm" in
  let vllmContainer := env "VLLM_CONTAINER" "vllm" in
  Ok (mkProxyConfig
        (env "POD_NAMESPACE" (mustNamespace file)) vllmDeployment vllmContainer
        {[ "vllm" := mkBackendConfig "vllm" vllmDeployment vllmContainer (Some backend);
           "llama-cpp" := mkBackendConfig "llama-cpp" (env "LLAMA_DEPLOYMENT" "llm-laguna")
                            (env "LLAMA_CONTAINER" "laguna") (Some llamaBackend) ]}
        (trim_suffix (env "PUBLIC_BASE_URL" "http://llm-proxy:8080/v1") "/")
        (durationEnv "TRANSITION_TIMEOUT" defaultTimeout)
        (int64Env "MAX_REQUEST_BODY_BYTES" defaultMaxBody)
        cacheManager true true,
      mkProxyState empty_registry (env "DEFAULT_MODEL" "") false None (Some backend) "vllm" ∅).
End main.
