(* ===== verification/ProxyInvariant.v ===== *)
(** * The proxy's shared state is well formed

    The invariant of the state behind [stateMu], and that every critical section
    and every registry [loadCRDRegistry] returns keep it. *)

From S2P Require Import Prelude GoStrings Types Effects Api Driver Json ProxyApi ProxyCatalog ProxyRuntime ProxySwitch ProxyServe ProxyMetrics.

(** What [parseLLMModel] guarantees of a model it accepts. *)
Record model_ok (cfg : modelConfig) : Prop := {
  model_named : trim_space (mc_name cfg) <> "";
  model_sourced : trim_space (mc_modelSource cfg) <> "";
  model_backend : mc_backend cfg = "vllm" \/ mc_backend cfg = "llama-cpp";
  model_context : 1 <= mc_maxModelLen cfg;
  model_args : mc_args cfg <> [] /\ check_args (mc_backend cfg) (mc_args cfg) = Ok tt;
  model_revision : cs_kind (mc_cache cfg) <> "" -> isCommitSHA (cs_revision (mc_cache cfg)) = true;
}.

(** A registry: every entry is filed under its own name, overlays have a base model
    and share no name with a model. *)
Record registry_ok (r : registry) : Prop := {
  models_filed : map_Forall (fun name cfg => mc_name cfg = name /\ model_ok cfg) (rg_models r);
  overlays_filed : map_Forall (fun name o =>
    oc_name o = name /\ is_Some (rg_models r !! oc_baseModel o)) (rg_overlays r);
  names_disjoint : forall name, is_Some (rg_overlays r !! name) -> rg_models r !! name = None;
}.

(** The whole state: also, a backend URL is always set, and the registry is empty until
    the proxy is ready. *)
Record state_ok (s : proxyState) : Prop := {
  state_registry : registry_ok (ps_registry s);
  state_backend : is_Some (ps_backend s);
  state_ready : ps_ready s = false -> ps_registry s = empty_registry;
}.
(** Every configured backend has a URL. *)
Definition config_ok (p : proxyConfig) : Prop :=
  map_Forall (fun _ b => is_Some (bc_url b)) (px_backends p).

Lemma empty_registry_ok : registry_ok empty_registry.
Proof. split; cbn; [apply map_Forall_empty..|]. intros name [? []%lookup_empty_Some]. Qed.

Section parsing.
Context (acc : nested) (lib : proxylib).

Lemma required_string_ok m path missing v :
  required_string acc m path missing = Ok v -> trim_space v <> "".
Proof.
  unfold required_string. destruct (found_ok _) as [v'|]; [|done]. intros H. ok_inv.
  by apply bool_decide_eq_false in Heqb.
Qed.

Lemma parse_cache_revision m backend source revision cache :
  parse_cache acc lib m backend source revision = Ok cache -> isCommitSHA (cs_revision cache) = true.
Proof.
  unfold parse_cache. intros H. destruct (isCommitSHA revision) eqn:Er; [|done].
  destruct (NestedString _ _ _) as [[sz f] e]. ok_inv.
  destruct (backend == "llama-cpp"); ok_inv; done.
Qed.

Lemma parseLLMModel_ok o cfg : parseLLMModel acc lib o = Ok cfg -> model_ok cfg.
Proof.
  unfold parseLLMModel. intros H. ok_inv.
  destruct (NestedString acc (u_object o) ["spec"; "serving"; "backend"]) as [[backend f1] e1].
  ok_inv. destruct (NestedString acc (u_object o) ["spec"; "backendRef"; "name"]) as [[ref f2] [e2|]]; [done|].
  ok_inv. destruct (found_ok (NestedInt64 _ _ _)) as [len|]; [|done]. ok_inv.
  destruct (found_ok (NestedStringSlice _ _ _)) as [args|]; [|done]. ok_inv.
  destruct (NestedString acc (u_object o) ["spec"; "model"; "revision"]) as [[rev f3] e3].
  ok_inv. split; cbn; eauto using required_string_ok.
  - destruct (backend == "vllm") eqn:E1; [left; by apply bool_decide_eq_true in E1|].
    destruct (backend == "llama-cpp") eqn:E2; [right; by apply bool_decide_eq_true in E2|]. done.
  - lia.
  - split; [by intros ->|]. by destruct x2 as [].
  - destruct (f3 && (rev != "")); ok_inv; [|done]. intros _. by eapply parse_cache_revision.
Qed.

Lemma add_models_ok objects next r :
  rg_overlays next = ∅ -> registry_ok next -> add_models acc lib objects next = Ok r ->
  registry_ok r /\ rg_overlays r = ∅.
Proof.
  revert next. induction objects as [|o objects IH]; intros next Hov Hok H; cbn in H; [ok_inv; eauto|].
  destruct (parseLLMModel acc lib o) as [cfg|] eqn:Ep; [|done]. ok_inv.
  eapply IH in H; [done|done|]. destruct Hok as [Hm _ _]. split; cbn.
  - apply map_Forall_insert_2; [|done]. eauto using parseLLMModel_ok.
  - rewrite Hov. apply map_Forall_empty.
  - rewrite Hov. intros name [? []%lookup_empty_Some].
Qed.

Lemma add_overlays_ok objects next r :
  registry_ok next -> add_overlays acc lib objects next = Ok r -> registry_ok r.
Proof.
  revert next. induction objects as [|o objects IH]; intros next Hok H; cbn in H; [by ok_inv|].
  destruct (parseLLMModelOverlay acc lib o) as [cfg|] eqn:Ep; [|done]. ok_inv.
  eapply IH; [|done]. destruct Hok as [Hm Ho Hd]. split; cbn; [done| |].
  - apply map_Forall_insert_2; [|done]. split; [done|].
    destruct (rg_models next !! oc_baseModel cfg); [by eexists|done].
  - intros name. destruct (decide (name = oc_name cfg)) as [->|Hne].
    + intros _. by destruct (rg_models next !! oc_name cfg).
    + rewrite lookup_insert_ne by done. apply Hd.
Qed.
End parsing.

(** ** Sections *)

(** A section that keeps the state well formed. *)
Definition keeps_ok {A} (f : proxyState -> A * proxyState) : Prop :=
  forall s, state_ok s -> state_ok (f s).2.

Lemma reading_ok {A} (f : proxyState -> A) : keeps_ok (fun s => (f s, s)).
Proof. by intros s Hs. Qed.

(** Replacing entries by ones of the same name and the same guarantees. *)
Lemma registry_ok_update r name cfg cfg' :
  registry_ok r -> rg_models r !! name = Some cfg ->
  mc_name cfg' = mc_name cfg -> (model_ok cfg -> model_ok cfg') ->
  registry_ok (mkRegistry (<[ name := cfg' ]> (rg_models r)) (rg_overlays r)).
Proof.
  intros [Hm Ho Hd] Hl Hname Hok. destruct (Hm _ _ Hl) as [Hn Hc]. split; cbn.
  - apply map_Forall_insert_2; [|done]. split; [congruence|auto].
  - intros k o Hk. destruct (Ho _ _ Hk) as [? Hb]. split; [done|].
    apply lookup_insert_is_Some. destruct (decide (name = oc_baseModel o)); auto.
  - intros k Hk. specialize (Hd k Hk). rewrite lookup_insert_ne; [done|]. intros ->. congruence.
Qed.
Lemma with_fallback_ok cfg raw : model_ok cfg -> model_ok (with_fallback cfg raw).
Proof. by intros []. Qed.
Lemma with_runtime_ok cfg raw : model_ok cfg -> model_ok (with_runtime cfg raw).
Proof. by intros []. Qed.

Lemma with_registry_ok s r :
  state_ok s -> registry_ok r -> (r = ps_registry s \/ ps_ready s = true) -> state_ok (with_registry s r).
Proof. intros [? ? Hr] ? [->|Hr']; split; cbn; try done. by rewrite Hr'. Qed.

Lemma record_fallback_ok cfg raw : keeps_ok (fun s => (tt, record_fallback cfg raw s)).
Proof.
  intros s Hs. cbn. unfold record_fallback. destruct (rg_models _ !! _) as [current|] eqn:El; [|done].
  destruct (mc_source current == mc_source cfg); [|done].
  apply with_registry_ok; [done| |].
  - eapply registry_ok_update; [apply Hs|exact El|done|apply with_fallback_ok].
  - right. destruct (ps_ready s) eqn:Er; [done|]. exfalso.
    rewrite (state_ready s Hs Er) in El. cbn in El. by rewrite lookup_empty in El.
Qed.

Lemma set_discovering_ok s d : state_ok s -> state_ok (set_discovering s d).
Proof. by intros []. Qed.
Lemma claim_discovery_ok source : keeps_ok (claim_discovery source).
Proof.
  intros s Hs. unfold claim_discovery. destruct (bool_decide _); [done|]. by apply set_discovering_ok.
Qed.

Section sections.
Context (lib : proxylib) (p : proxyConfig).

Lemma backendFor_url backend cfg b :
  config_ok p -> is_Some backend -> backendFor lib p backend cfg = Ok b -> is_Some (bc_url b).
Proof.
  intros Hp Hb. unfold backendFor. destruct (mc_backendRef cfg != "").
  - destruct (parseURL _ _); [|done]. intros [= <-]. by eexists.
  - destruct (px_backends p !! _) as [b'|] eqn:El; [intros [= <-]; by eapply Hp|].
    repeat case_match; intros ?; simplify_eq; done.
Qed.

Lemma adopt_ok now b model : is_Some (bc_url b) -> keeps_ok (adopt lib p now b model).
Proof.
  intros Hb s Hs. unfold adopt. destruct (rg_models _ !! model); [|done].
  destruct (backendFor _ _ _ _); [|done]. destruct (negb _); [done|]. by destruct Hs.
Qed.

Lemma install_ok next : registry_ok next -> keeps_ok (fun s => (tt, install next s)).
Proof. by intros Hn s []. Qed.

Lemma annotate_ok data cfg cfg' :
  annotate lib data cfg = Ok cfg' ->
  mc_name cfg' = mc_name cfg /\ mc_source cfg' = mc_source cfg /\ (model_ok cfg -> model_ok cfg').
Proof.
  unfold annotate. intros H. ok_inv. repeat split_match; ok_inv;
    cbn; split_and!; auto using with_fallback_ok, with_runtime_ok.
Qed.

(** Whatever order the entries are visited in. *)
Lemma annotate_models_ok data entries r models :
  registry_ok r -> (forall name cfg, (name, cfg) ∈ entries -> rg_models r !! name = Some cfg) ->
  NoDup entries.*1 ->
  annotate_models lib data entries (rg_models r) = Ok models ->
  registry_ok (mkRegistry models (rg_overlays r)).
Proof.
  revert r. induction entries as [|[name cfg] entries IH]; intros r Hok Hin Hnd H; cbn in H.
  { ok_inv. by destruct r. }
  ok_inv. apply annotate_ok in H0 as (Hname & _ & Hm). apply NoDup_cons in Hnd as [Hn Hnd].
  pose proof (Hin name cfg ltac:(set_solver)) as Hl.
  apply (IH (mkRegistry (<[ name := x ]> (rg_models r)) (rg_overlays r))); [| |done|done].
  - by eapply registry_ok_update.
  - intros k c Hk. cbn. rewrite lookup_insert_ne; [apply Hin; set_solver|].
    intros <-. apply Hn, list_elem_of_fmap. by exists (name, c).
Qed.
End sections.

(** The state [main] starts from. *)
Lemma start_ok lib getenv parseDuration file p s :
  start lib getenv parseDuration file = Ok (p, s) -> config_ok p /\ state_ok s /\ px_dynamic p = true.
Proof.
  unfold start. intros H. ok_inv. split_and!; [|split; cbn|done].
  - apply map_Forall_insert_2; [by eexists|]. apply map_Forall_singleton. by eexists.
  - apply empty_registry_ok.
  - by eexists.
  - done.
Qed.
