(* ===== verification/ProxyContract.v ===== *)
(** * What each goroutine of the proxy does with the shared switches

    The contract of one goroutine: which switch it leads or follows, and which models
    it has been told are stable.  Every handler and background task of the proxy keeps
    it; what that means for all of them together is the subject of [ProxyPool]. *)

From S2P Require Import Prelude GoStrings Types Effects Api Driver CacheClient Json ProxyApi ProxyCatalog ProxyRuntime ProxySwitch ProxyServe ProxyMetrics ProxyInvariant.

(** A goroutine's part in a switch. *)
Inductive holding :=
| Idle
| Leading (model : string) (wait : nat)
| Leaving (model : string) (wait : nat)
| Following (model : string) (wait : nat).
Record ghosts := mkGhosts {
  g_hold : holding;
  (** models it read as stable itself *)
  g_read : gset string;
  (** models the leader of a shared wait reported stable *)
  g_told : gset string;
}.
Definition g_seen (g : ghosts) : gset string := g_read g ∪ g_told g.
Lemma read_seen m g : m ∈ g_read g -> m ∈ g_seen g.
Proof. unfold g_seen. set_solver. Qed.
Definition fresh : ghosts := mkGhosts Idle ∅ ∅.
Definition holds (g : ghosts) (h : holding) : ghosts := mkGhosts h (g_read g) (g_told g).
Definition reads (g : ghosts) (more : gset string) : ghosts := mkGhosts (g_hold g) (more ∪ g_read g) (g_told g).
Definition learns (g : ghosts) (m : string) : ghosts := mkGhosts (g_hold g) (g_read g) ({[ m ]} ∪ g_told g).

Section contract.
Context (acc : nested) (lib : proxylib).

(** The models an [LLMActiveModel] reports stable. *)
Definition stable_in (active : object) : gset string :=
  let st := read_transition acc active in
  if ts_phase st == "Stable" then {[ ts_statusModel st ]} else ∅.

Definition proxy_rely {X} (e : pev X) : X -> ghosts -> Prop :=
  match e in pev X return X -> ghosts -> Prop with
  | PState f => fun x _ => exists s, state_ok s /\ x = (f s).1
  | PRange l => fun x _ => x ≡ₚ l
  | _ => fun _ _ => True
  end.

Definition proxy_permit {X} (e : pev X) (g : ghosts) : Prop :=
  match e with
  | PState f => keeps_ok f
  | PJoin _ => g_hold g = Idle
  | PPatchActive _ _ m => exists w, g_hold g = Leading m w
  | PLeave m => exists w, g_hold g = Leading m w
  | PClose w err => exists m, g_hold g = Leaving m w /\ (err = Ok tt -> m ∈ g_read g)
  | PAwait w => exists m, g_hold g = Following m w
  | PForward _ _ _ (Some body) =>
      forall m, decodeModelField lib body = Ok m -> m <> "" -> m ∈ g_seen g
  | _ => True
  end.

Definition proxy_record {X} (e : pev X) : X -> ghosts -> ghosts :=
  match e in pev X return X -> ghosts -> ghosts with
  | PJoin m => fun x g =>
      match x with Leader w => holds g (Leading m w) | Follower w => holds g (Following m w) end
  | PLeave _ => fun _ g => match g_hold g with Leading m w => holds g (Leaving m w) | _ => g end
  | PClose _ _ => fun _ g => holds g Idle
  | PAwait _ => fun x g =>
      match x, g_hold g with
      | inl (Ok _), Following m _ => learns (holds g Idle) m
      | _, _ => holds g Idle
      end
  | PGetActive _ _ => fun x g => match x with Ok active => reads g (stable_in active) | Err _ => g end
  | _ => fun _ g => g
  end.

Definition goroutine_contract : contract pev ghosts :=
  mkContract (@proxy_rely) (@proxy_permit) (@proxy_record).

Lemma is_stable_seen active m : is_stable (read_transition acc active) m = true <-> m ∈ stable_in active.
Proof.
  unfold is_stable, stable_in. rewrite andb_true_iff, !bool_decide_eq_true.
  case_bool_decide as Hp; set_solver.
Qed.

(** ** Programs that leave the switches alone *)

(** The part in a switch is [h], and the models of [seen] have been seen. *)
Definition steady (h : holding) (seen : gset string) (g : ghosts) : Prop :=
  g_hold g = h /\ seen ⊆ g_seen g.
Abbreviation rgp := (rg goroutine_contract).
Abbreviation withinp h seen := (within goroutine_contract (steady h seen)).

Lemma steady_reads h seen g more : steady h seen g -> steady h seen (reads g more).
Proof. unfold steady, g_seen. cbn. set_solver. Qed.

Lemma rg_reading {A} (f : proxyState -> A) g Q :
  (forall s, state_ok s -> Q g (f s)) -> rgp (reading f) g Q.
Proof. intros HQ. split; [apply reading_ok|]. intros x (s & Hs & ->). by apply HQ. Qed.
Lemma rg_section {A} (f : proxyState -> A * proxyState) g (Q : ghosts -> A -> Prop) :
  keeps_ok f -> (forall s, state_ok s -> Q g (f s).1) -> rgp (call (PState f)) g Q.
Proof. intros Hf HQ. split; [done|]. intros x (s & Hs & ->). by apply HQ. Qed.
Lemma rg_range {A} (l : list A) g (Q : ghosts -> list A -> Prop) :
  (forall l', l' ≡ₚ l -> Q g l') -> rgp (call (PRange l)) g Q.
Proof. intros HQ. split; [done|]. intros x Hx. by apply HQ. Qed.

Section steady.
Context (h : holding) (seen : gset string).

Lemma within_section {A} (f : proxyState -> A * proxyState) :
  keeps_ok f -> withinp h seen (call (PState f)).
Proof. intros Hf g Hg. by apply rg_section. Qed.
Lemma within_reading {A} (f : proxyState -> A) : withinp h seen (reading f).
Proof. apply within_section, reading_ok. Qed.
Lemma within_get_active ns name : withinp h seen (call (PGetActive ns name)).
Proof.
  apply within_call; [by intros g _|]. intros g [active|e] Hg; [by apply steady_reads|done].
Qed.
End steady.
End contract.

#[export] Hint Resolve within_section within_reading within_get_active : within.
#[export] Hint Resolve record_fallback_ok claim_discovery_ok : within.

(** Walk a program whose requests are all permitted outright. *)
Ltac steadily := unfold updating; stay_within; eauto with within.

Section tasks.
Context (acc : nested) (lib : proxylib) (p : proxyConfig).
Abbreviation rgp := (rg (goroutine_contract acc lib)).
Abbreviation withinp h seen := (within (goroutine_contract acc lib) (steady h seen)).
Section observing.
Context (h : holding) (seen : gset string).

Lemma get_steady url : withinp h seen (get lib url).
Proof. unfold get. steadily. Qed.
Hint Resolve get_steady : within.
Lemma backendText_steady endpoint : withinp h seen (backendText lib endpoint).
Proof. unfold backendText. steadily. Qed.
Hint Resolve backendText_steady : within.
Lemma backendHealthy_steady : withinp h seen (backendHealthy lib).
Proof. unfold backendHealthy, backendHealthyAt. steadily. Qed.
Lemma fetchModelConfig_steady repo revision : withinp h seen (fetchModelConfig lib repo revision).
Proof. unfold fetchModelConfig. steadily. Qed.
Lemma fetchModelParameters_steady repo : withinp h seen (fetchModelParameters lib repo).
Proof. unfold fetchModelParameters. steadily. Qed.
Hint Resolve fetchModelConfig_steady fetchModelParameters_steady : within.
Lemma modelCardFallback_steady cfg : withinp h seen (modelCardFallback lib cfg).
Proof. unfold modelCardFallback. steadily. Qed.
Hint Resolve modelCardFallback_steady : within.
Lemma get_status_steady : withinp h seen (get_status p).
Proof. unfold get_status. steadily. Qed.
Hint Resolve get_status_steady : within.
Lemma persistRuntimeMetadata_steady cfg : withinp h seen (persistRuntimeMetadata lib p cfg).
Proof. unfold persistRuntimeMetadata, collectRuntimeMetadata, backendModels. steadily. Qed.
Lemma persistModelCardMetadata_steady cfg raw : withinp h seen (persistModelCardMetadata p cfg raw).
Proof. unfold persistModelCardMetadata. steadily. Qed.
Hint Resolve persistModelCardMetadata_steady : within.
Lemma discovery_steady cfg : withinp h seen (discovery lib p cfg).
Proof.
  unfold discovery. steadily. apply within_section. intros s. apply set_discovering_ok.
Qed.
Lemma schedule_steady cfgs : withinp h seen (schedule_all lib p cfgs).
Proof.
  induction cfgs as [|cfg cfgs IH]; [apply within_ret|]. cbn [schedule_all].
  apply within_bind; [|done]. unfold scheduleModelCapabilityDiscovery. steadily.
Qed.
Lemma sweepCache_tick_steady : withinp h seen (sweepCache_tick lib p).
Proof. unfold sweepCache_tick, anySwitchInFlight, sweepCached. steadily. Qed.
End observing.

Hint Resolve get_status_steady persistRuntimeMetadata_steady backendHealthy_steady schedule_steady : within.

(** ** Following the active Deployment *)

Lemma find_active_rg h seen backends active g :
  steady h seen g ->
  rgp (find_active p backends active) g (fun g' r => steady h seen g' /\
    forall b m, r = Ok (Some (b, m)) -> active = Some (b, m) \/ b ∈ backends).
Proof.
  revert active g. induction backends as [|b backends IH]; intros active g Hg; cbn [find_active].
  { split; [done|]. intros b m [= ->]. by left. }
  apply rg_rlet, rg_wrapping, rg_call; [done|]. intros [d|e] _; [|done]. cbn beta iota.
  destruct (negb _).
  { eapply rg_mono; [by apply IH|]. intros g' r [? H]. split; [done|].
    intros b' m Hr. destruct (H _ _ Hr); set_solver. }
  destruct active; [done|]. destruct (_ == ""); [done|].
  eapply rg_mono; [by apply IH|]. intros g' r [? H]. split; [done|].
  intros b' m Hr. destruct (H _ _ Hr); [simplify_eq|]; set_solver.
Qed.

Lemma loadCRDRegistry_rg h seen g :
  steady h seen g ->
  rgp (loadCRDRegistry acc lib p empty_registry) g (fun g' r => steady h seen g' /\
    forall next, r = Ok next -> registry_ok next).
Proof.
  intros Hg. unfold loadCRDRegistry. pose proof empty_registry_ok as H0.
  destruct (negb _). { split; [done|]. by intros next [= <-]. }
  apply rg_bind, rg_call; [done|]. intros [objects|e] _; cbn beta iota.
  2:{ destruct (err_is _ _); split; try done; by intros ? [= <-]. }
  apply rg_rlet. cbn [rg]. destruct (add_models acc lib objects empty_registry) as [next|e] eqn:Em; [|done].
  apply add_models_ok in Em as [Hok _]; [|done..].
  apply rg_bind, rg_call; [done|]. intros [overlays|e] _; cbn beta iota.
  2:{ destruct (err_is _ _); split; try done; by intros ? [= <-]. }
  split; [done|]. intros r Hr. by eapply add_overlays_ok.
Qed.

Context (Hp : config_ok p).

Lemma referenced_backends_url backend models :
  is_Some backend ->
  map_Forall (fun _ b => is_Some (bc_url b)) (referenced_backends lib p backend models).
Proof using Hp.
  intros Hb. unfold referenced_backends.
  assert (forall m : gmap string backendConfig, map_Forall (fun _ b => is_Some (bc_url b)) m ->
    map_Forall (fun _ b => is_Some (bc_url b)) (fold_left (fun backends cfg =>
      if mc_backendRef cfg == "" then backends
      else match backendFor lib p backend cfg with
           | Ok b => <[bc_name b := b]> backends
           | Err _ => backends
           end) models m)) as H; [|by apply H, map_Forall_empty].
  induction models as [|cfg models IH]; intros m Hm; [done|]. cbn. apply IH.
  destruct (_ == _); [done|]. destruct (backendFor _ _ _ _) as [b|] eqn:Eb; [|done].
  apply map_Forall_insert_2; [|done]. by eapply backendFor_url.
Qed.

Lemma registeredBackends_rg g :
  rgp (registeredBackends lib p) g (fun g' backends =>
    g' = g /\ map_Forall (fun _ b => is_Some (bc_url b)) backends).
Proof using Hp.
  apply rg_bind, rg_reading. intros s Hs. cbn.
  destruct (existsb _ _); [|done]. split; [done|]. apply referenced_backends_url, Hs.
Qed.

Lemma syncActiveDeployment_steady h seen : withinp h seen (syncActiveDeployment lib p).
Proof using Hp.
  intros g Hg. apply rg_bind. eapply rg_mono; [apply registeredBackends_rg|].
  intros g1 backends [-> Hb]. apply rg_bind.
  eapply (rg_mono _ _ _ (fun g' bs => g' = g /\ map_Forall (fun _ b => is_Some (bc_url b)) bs)).
  { destruct (_ =? _)%nat; [|done]. apply rg_bind, rg_reading. intros s Hs. split; [done|].
    apply map_Forall_singleton, Hs. }
  clear backends Hb. intros g1 backends [-> Hb].
  apply rg_bind, rg_range. intros order Horder. apply rg_rlet.
  eapply rg_mono; [by apply find_active_rg|]. intros g1 r [Hg1 Hr].
  destruct r as [[[b m]|]|e]; [|done|done]. apply rg_bind. split; [done|]. intros now _.
  apply rg_section; [|done]. apply adopt_ok. destruct (Hr b m) as [|Hin]; [done..|].
  rewrite Horder in Hin. apply list_elem_of_fmap in Hin as ([k b'] & -> & Hin).
  apply elem_of_map_to_list in Hin. by apply (Hb k).
Qed.
Hint Resolve syncActiveDeployment_steady : within.

(** ** Refreshing *)

Lemma follow_up_steady h seen models : withinp h seen (follow_up lib p models).
Proof using Hp. unfold follow_up. steadily. Qed.

Lemma refresh_steady h seen : withinp h seen (refresh acc lib p).
Proof using Hp.
  intros g Hg. apply rg_rlet. eapply rg_mono; [by apply loadCRDRegistry_rg|].
  intros g1 [next|e] [Hg1 Hn]; [|done]. specialize (Hn next eq_refl).
  apply rg_rlet. eapply rg_mono; [apply (within_wrapping _ _ _ _ (get_status_steady h seen)), Hg1|].
  intros g2 [status|e] Hg2; [|done]. apply rg_bind, rg_range. intros entries Hperm.
  apply rg_rlet. cbn [rg]. destruct (annotate_models _ _ _ _) as [models|e] eqn:Ea; [|done].
  apply annotate_models_ok in Ea; [|done| |].
  2:{ intros name cfg Hin. rewrite Hperm in Hin. by apply elem_of_map_to_list. }
  2:{ rewrite Hperm. apply NoDup_fst_map_to_list. }
  apply rg_bind, rg_section; [by apply install_ok|]. intros s Hs. by apply follow_up_steady.
Qed.

(** ** Switching *)

(** Success tells that [m] has been seen stable. *)
Definition vouches (h : holding) (seen : gset string) (m : string) (g : ghosts) (r : result unit) : Prop :=
  steady h seen g /\ (r = Ok tt -> m ∈ g_seen g).
(** Success tells that this goroutine has read [m] as stable. *)
Definition attests (h : holding) (seen : gset string) (m : string) (g : ghosts) (r : result unit) : Prop :=
  steady h seen g /\ (r = Ok tt -> m ∈ g_read g).

Lemma operatorTransitionState_rg h seen g :
  steady h seen g ->
  rgp (operatorTransitionState acc p) g (fun g' r => steady h seen g' /\
    forall st m, r = Ok st -> is_stable st m = true -> m ∈ g_read g').
Proof using Type.
  clear Hp.
  intros Hg. apply rg_rlet, rg_wrapping, rg_call; [done|]. intros [active|e] _; [|done].
  split; [by apply steady_reads|]. intros st m [= <-] Hm%is_stable_seen. cbn. set_solver.
Qed.

Lemma poll_rg h seen m rounds g :
  steady h seen g -> rgp (poll acc p m rounds) g (attests h seen m).
Proof using Type.
  clear Hp.
  revert g. induction rounds as [|rounds IH]; intros g Hg; cbn [poll];
    apply rg_bind; (eapply rg_mono; [by apply operatorTransitionState_rg|]);
    intros g' [st|e] [Hg' Hst]; cbn beta iota.
  - destruct (is_stable st m) eqn:Es; [split; eauto|].
    destruct (is_failed st m); split; try done. unfold transition_failed. by destruct (_ != _).
  - by destruct (_ || _).
  - destruct (is_stable st m) eqn:Es; [split; eauto|].
    destruct (is_failed st m); [split; [done|]; unfold transition_failed; by destruct (_ != _)|].
    apply rg_bind, rg_call; [done|]. intros [] _. by apply IH.
  - destruct (_ || _); [done|]. apply rg_bind, rg_call; [done|]. intros [] _. by apply IH.
Qed.

Lemma transition_rg seen m w g :
  steady (Leading m w) seen g -> rgp (transition acc p m) g (attests (Leading m w) seen m).
Proof using Type.
  clear Hp.
  intros Hg. apply rg_bind, rg_call; [done|]. intros started _. apply rg_bind.
  eapply (rg_mono _ _ _ (attests (Leading m w) seen m)).
  - apply rg_rlet. unfold requestOperatorTransition. destruct (negb _); [done|].
    apply rg_wrapping, rg_call; [exists w; apply Hg|]. intros [[]|e] _; [|done].
    apply rg_bind, rg_call; [done|]. intros rounds _. by apply poll_rg.
  - intros g' err [Hg' Hm]. apply rg_bind. destruct err as [[]|e]; [|done].
    do 4 (try apply rg_bind; apply rg_call; [done|]; intros ? _). done.
Qed.

Lemma coalescedOperatorTransition_rg seen m g :
  steady Idle seen g -> rgp (coalescedOperatorTransition acc p m) g (vouches Idle seen m).
Proof using Type.
  clear Hp.
  intros Hg. apply rg_bind, rg_call; [apply Hg|]. intros [w|w] _; cbn beta iota.
  - apply rg_bind. eapply rg_mono; [apply (transition_rg seen m w); split; [done|apply Hg]|].
    intros g1 err [[Hh Hs] Hm]. apply rg_bind, rg_call; [by exists w|]. intros [] _.
    cbn [record goroutine_contract proxy_record]. rewrite Hh.
    apply rg_bind, rg_call; [by exists m|]. intros [] _. apply rg_bind, rg_call; [done|].
    intros [e|] _; cbn; split; try done. intros ->. by apply read_seen, Hm.
  - apply rg_bind, rg_call; [by exists m|]. intros [[[]|e]|e] _; cbn; (split; [|done || set_solver]);
      destruct Hg; split; unfold g_seen in *; cbn; set_solver.
Qed.

Lemma ensureActive_rg seen m g :
  steady Idle seen g -> rgp (ensureActive acc lib p m) g (vouches Idle seen m).
Proof using Hp.
  intros Hg. apply rg_bind, rg_reading. intros s Hs.
  destruct (rg_models (ps_registry s) !! m) as [cfg|] eqn:Em; [|done].
  assert (mc_name cfg = m) as -> by (apply (models_filed _ (state_registry _ Hs) _ _ Em)).
  apply rg_rlet. eapply rg_mono; [by apply operatorTransitionState_rg|].
  intros g1 [st|e] [Hg1 Hst]; [|done]. apply rg_rlet.
  eapply (rg_mono _ _ _ (vouches Idle seen m)).
  { destruct (is_stable st m) eqn:Es; [split; eauto using read_seen|]. by apply coalescedOperatorTransition_rg. }
  intros g2 [[]|e] [Hg2 Hm]; [|done].
  eapply rg_mono; [apply (syncActiveDeployment_steady Idle (seen ∪ {[ m ]}))|].
  - destruct Hg2. split; [done|]. specialize (Hm eq_refl). set_solver.
  - intros g3 r [Hh Hs3]. split; [split; [done|]|intros _]; set_solver.
Qed.

(** ** Serving *)

(** Where [json.Unmarshal] accepts what [json.Marshal] wrote, it finds the model there:
    keys are written in order, and among those that match the field without regard to
    case the lower-case one comes last.  (It rejects a body in which another of them,
    [Model] say, is not a string.)  The strings of decoded objects are valid UTF-8, which
    marshalling keeps. *)
Definition model_codec : Prop :=
  forall (m : object) body name found, encodeJSON lib (JObject m) = Ok body ->
    m !! "model" = Some (JString name) -> decodeModelField lib body = Ok found -> found = name.
Context (Hcodec : model_codec).

Lemma applyOverlay_model body o body' :
  applyOverlay lib body o = Ok body' ->
  forall m, decodeModelField lib body' = Ok m -> m = oc_baseModel o.
Proof using Hcodec.
  clear Hp. unfold applyOverlay. destruct (decodeObject lib body) as [[request|]|]; [|done..].
  destruct (decodeObject lib _) as [defaults|]; [|done]. intros H m.
  eapply Hcodec; [done|]. by rewrite lookup_insert_eq.
Qed.

Lemma resolve_request_rg r g :
  rgp (resolve_request lib p r) g (fun g' x => g' = g /\
    forall requested body, x = inr (requested, Some body) ->
      forall m, decodeModelField lib body = Ok m -> m <> "" -> m = requested).
Proof using Hcodec.
  clear Hp. unfold resolve_request. destruct (_ && _); [|done].
  destruct (read_body p r) as [body|]; [|done].
  apply rg_bind, rg_reading. intros s Hs.
  destruct (rg_overlays _ !! _) as [o|].
  - destruct (_ || _); [done|]. cbn. split; [done|]. intros requested body'.
    destruct (applyOverlay lib body o) as [body1|] eqn:Ea; [|done]. intros [= <- ->].
    intros m Hm _. by eapply applyOverlay_model.
  - split; [done|]. intros requested body' [= <- <-] m Hm Hne. by rewrite Hm.
Qed.

Lemma forward_rg r body g :
  (forall b m, body = Some b -> decodeModelField lib b = Ok m -> m <> "" -> m ∈ g_seen g) ->
  rgp (forward r body) g (fun g' _ => g' = g).
Proof using Type.
  intros Hb. apply rg_bind, rg_reading. intros s _. apply rg_bind, rg_call.
  - destruct body as [b|]; [|done]. intros m. by apply Hb.
  - by intros [ops err] _.
Qed.

Lemma inference_rg r seen g :
  steady Idle seen g -> rgp (inference acc lib p r) g (fun g' _ => steady Idle seen g').
Proof using Hp Hcodec.
  intros Hg. apply rg_bind. eapply rg_mono; [apply resolve_request_rg|].
  intros g1 [a|[requested body]] [-> Hbody]; [done|].
  destruct (requested != "") eqn:Er.
  - apply rg_bind. eapply rg_mono; [by apply ensureActive_rg|].
    intros g2 [[]|e] [Hg2 Hm]; [|done].
    eapply rg_mono; [apply forward_rg|by intros g3 _ ->].
    intros b m -> Hd Hne. rewrite (Hbody _ b eq_refl m Hd Hne). by apply Hm.
  - apply negb_false_iff, bool_decide_eq_true in Er as ->.
    assert (withinp Idle seen isAvailable) as Ha by (unfold isAvailable, anySwitchInFlight; steadily).
    apply rg_bind. eapply rg_mono; [by apply Ha|]. intros g2 [] Hg2; [|done].
    eapply rg_mono; [apply forward_rg|by intros g3 _ ->].
    intros b m -> Hd Hne. by destruct (Hbody _ b eq_refl m Hd Hne).
Qed.

Lemma instrumentInference_steady r seen : withinp Idle seen (instrumentInference acc lib p r).
Proof using Hp Hcodec.
  unfold instrumentInference, written, recordInferenceMetrics. steadily.
  intros g Hg. by apply inference_rg.
Qed.

Lemma serve_steady fl unrouted r seen : withinp Idle seen (serve acc lib fl unrouted p r).
Proof using Hp Hcodec.
  unfold serve. destruct (route_of r); try apply instrumentInference_steady; try apply within_ret;
    unfold own, readyz, metrics, anySwitchInFlight, writeBridgedBackendMetrics, models, model, hermesConfig;
    steadily; eauto using backendText_steady.
Qed.
End tasks.
