(* ===== verification/ProxyPool.v ===== *)
(** * All goroutines of the proxy together

    The proxy as an open system: requests, watch events and ticks arrive at any time,
    and the goroutines they start interleave between critical sections, over one shared
    state and one table of switches.  [reach] is the step relation's closure; its
    invariant follows from each goroutine keeping its contract. *)

From S2P Require Import Prelude GoStrings Types Effects Api Driver Json ProxyApi ProxyCatalog ProxyRuntime ProxySwitch ProxyServe ProxyMetrics ProxyInvariant ProxyContract.

(** ** Shared memory *)

(** [switchWaiters], and every [switchWait]: open, or closed with its error. *)
Record switches := mkSwitches {
  sw_table : gmap string nat; sw_waits : gmap nat (option (result unit)) }.
Record shared := mkShared { sh_state : proxyState; sh_switches : switches }.
Definition with_state (sh : shared) (s : proxyState) : shared := mkShared s (sh_switches sh).
Definition with_switches (sh : shared) (w : switches) : shared := mkShared (sh_state sh) w.

(** Which reply a request may get, and what it does to the shared memory.  Services
    answer anything.  Closing a closed channel would panic and has no reply. *)
Definition serves {X} (e : pev X) : X -> shared -> shared -> Prop :=
  match e in pev X return X -> shared -> shared -> Prop with
  | PState f => fun x sh sh' => x = (f (sh_state sh)).1 /\ sh' = with_state sh (f (sh_state sh)).2
  | PRange l => fun x sh sh' => x ≡ₚ l /\ sh' = sh
  | PJoin m => fun x sh sh' =>
      let sw := sh_switches sh in
      match x with
      | Follower w => sw_table sw !! m = Some w /\ sh' = sh
      | Leader w => sw_table sw !! m = None /\ sw_waits sw !! w = None
          /\ sh' = with_switches sh (mkSwitches (<[ m := w ]> (sw_table sw)) (<[ w := None ]> (sw_waits sw)))
      end
  | PLeave m => fun _ sh sh' =>
      let sw := sh_switches sh in
      sh' = with_switches sh (mkSwitches (delete m (sw_table sw)) (sw_waits sw))
  | PClose w err => fun _ sh sh' =>
      let sw := sh_switches sh in
      sw_waits sw !! w = Some None
      /\ sh' = with_switches sh (mkSwitches (sw_table sw) (<[ w := Some err ]> (sw_waits sw)))
  | PAwait w => fun x sh sh' =>
      match x with inl err => sw_waits (sh_switches sh) !! w = Some (Some err) | inr _ => True end
      /\ sh' = sh
  | PInFlight => fun x sh sh' => x = negb (size (sw_table (sh_switches sh)) =? 0)%nat /\ sh' = sh
  | _ => fun _ sh sh' => sh' = sh
  end.

Section pool.
Context (acc : nested) (lib : proxylib) (fl : floatlib) (unrouted : httpRequest -> answer).
Context (p : proxyConfig).

(** ** Goroutines *)

Inductive task :=
| Request (r : httpRequest)
| InitialRefresh
| ResourceEvent
| DeploymentEvent
| ResourceWatchFailed (e : error)
| DeploymentWatchFailed (e : error)
| SweepTick.
Definition task_prog (t : task) : pprog unit :=
  match t with
  | Request r => do! serve acc lib fl unrouted p r; Ret tt
  | InitialRefresh => do! refresh acc lib p; Ret tt
  | ResourceEvent => watchLLMResource_event acc lib p
  | DeploymentEvent => watchDeployment_event lib p
  | ResourceWatchFailed e => watchLLMResource_failed e
  | DeploymentWatchFailed e => watchDeployment_failed e
  | SweepTick => sweepCache_tick lib p
  end.
(** The goroutine a request starts. *)
Definition spawned {X} (e : pev X) : list (pprog unit) :=
  match e with PSpawnDiscovery cfg => [discovery lib p cfg] | _ => [] end.

(** [reach s0 tr sh pool]: from the state [s0], the labelled steps [tr] lead to the shared
    memory [sh] and the goroutines [pool], each with the program it still has to run. *)
Inductive reach (s0 : proxyState) : list (nat * obs pev) -> shared -> list (pprog unit) -> Prop :=
| reach_start : reach s0 [] (mkShared s0 (mkSwitches ∅ ∅)) []
| reach_arrive tr sh pool t : reach s0 tr sh pool -> reach s0 tr sh (pool ++ [task_prog t])
| reach_step tr sh pool i X (e : pev X) k x sh' :
    reach s0 tr sh pool -> pool !! i = Some (Vis e k) -> serves e x sh sh' ->
    reach s0 (tr ++ [(i, Obs e x)]) sh' (<[ i := k x ]> pool ++ spawned e).

(** Prefixes of a trace are reachable. *)
Lemma reach_prefix s0 tr1 tr2 sh pool :
  reach s0 (tr1 ++ tr2) sh pool -> exists sh1 pool1, reach s0 tr1 sh1 pool1.
Proof.
  remember (tr1 ++ tr2) as tr eqn:Htr. intros H. revert tr2 Htr.
  induction H as [|tr sh pool t H IH|tr sh pool i X e k x sh' H IH Hi Hs]; intros tr2 Htr.
  - destruct tr1; [|done]. do 2 eexists. constructor.
  - eauto.
  - destruct (decide (tr2 = [])) as [->|Hne].
    + rewrite app_nil_r in Htr. subst. do 2 eexists. by econstructor.
    + destruct (exists_last Hne) as (tr2' & o & ->). rewrite app_assoc in Htr.
      apply app_inj_tail in Htr as [-> _]. eauto.
Qed.

(** The last step of a trace and where it started. *)
Lemma reach_last s0 tr i o sh pool :
  reach s0 (tr ++ [(i, o)]) sh pool ->
  exists sh1 pool1 sh2 k, reach s0 tr sh1 pool1 /\ pool1 !! i = Some (Vis (obs_req o) k)
    /\ serves (obs_req o) (obs_reply o) sh1 sh2.
Proof.
  remember (tr ++ [(i, o)]) as tr' eqn:Htr. intros H.
  induction H as [|tr1 sh pool t H IH|tr1 sh pool i1 X e k x sh' H IH Hi Hs].
  - by destruct tr.
  - eauto.
  - apply app_inj_tail in Htr as [-> [= -> <-]]. by exists sh, pool, sh', k.
Qed.

(** A step somewhere in a trace. *)
Lemma reach_middle s0 tr1 i o tr2 sh pool :
  reach s0 (tr1 ++ (i, o) :: tr2) sh pool ->
  exists sh1 pool1 sh2 k, reach s0 tr1 sh1 pool1 /\ pool1 !! i = Some (Vis (obs_req o) k)
    /\ serves (obs_req o) (obs_reply o) sh1 sh2.
Proof.
  intros H. rewrite cons_middle, app_assoc in H. apply reach_prefix in H as (sh' & pool' & H).
  by eapply reach_last.
Qed.
End pool.

(** ** Switches and who holds them *)

Definition owns (h : holding) (w : nat) : Prop :=
  match h with Leading _ w' | Leaving _ w' => w' = w | _ => False end.
Definition is_owner (h : holding) : bool :=
  match h with Leading _ _ | Leaving _ _ => true | _ => false end.

(** The table lists exactly the leaders, and the open waits are theirs, one each. *)
Record consistent (hold : nat -> holding) (sw : switches) : Prop := {
  table_leaders : forall m w, sw_table sw !! m = Some w <-> exists i, hold i = Leading m w;
  owner_unique : forall i j w, owns (hold i) w -> owns (hold j) w -> i = j;
  open_owned : forall w, sw_waits sw !! w = Some None <-> exists i, owns (hold i) w;
}.

Definition upd {A} (f : nat -> A) (i : nat) (a : A) (j : nat) : A := if decide (j = i) then a else f j.

Lemma consistent_start hold : (forall i, hold i = Idle) -> consistent hold (mkSwitches ∅ ∅).
Proof.
  intros H. split; cbn.
  - intros m w. split; [by intros ?%lookup_empty_Some|]. intros [i Hi]. by rewrite H in Hi.
  - intros i j w. by rewrite !H.
  - intros w. split; [by intros ?%lookup_empty_Some|]. intros [i Hi]. by rewrite H in Hi.
Qed.

Section consistency.
Context (hold hold' : nat -> holding) (sw : switches) (i : nat) (h : holding).
Context (Hupd : forall j, hold' j = upd hold i h j) (H : consistent hold sw).

Local Lemma hold_other j : j <> i -> hold' j = hold j.
Proof using Hupd. intros Hj. rewrite Hupd. unfold upd. by rewrite decide_False. Qed.
Local Lemma hold_self : hold' i = h.
Proof using Hupd. rewrite Hupd. unfold upd. by rewrite decide_True. Qed.

(** Case analysis on whether [j] is the goroutine that moved. *)
Local Lemma holder_cases (P : holding -> Prop) :
  (exists j, P (hold' j)) <-> P h \/ exists j, j <> i /\ P (hold j).
Proof using Hupd.
  split.
  - intros [j Hj]. destruct (decide (j = i)) as [->|Hne]; [left; by rewrite hold_self in Hj|].
    right. exists j. by rewrite hold_other in Hj.
  - intros [HP|(j & Hne & HP)]; [exists i; by rewrite hold_self|exists j; by rewrite hold_other].
Qed.
Local Lemma holder_was (P : holding -> Prop) :
  ~ P (hold i) -> (exists j, j <> i /\ P (hold j)) <-> exists j, P (hold j).
Proof using Type. intros Hi. split; [naive_solver|]. intros [j Hj]. exists j. split; [by intros ->|done]. Qed.

(** Neither the old nor the new part owns a wait. *)
Lemma consistent_quiet : is_owner (hold i) = false -> is_owner h = false -> consistent hold' sw.
Proof using Hupd H.
  intros H0 H1. destruct H as [Ht Hu Ho]. split.
  - intros m w. rewrite Ht, (holder_cases (fun x => x = Leading m w)), (holder_was (fun x => x = Leading m w)).
    + split; [eauto|]. intros [->|]; [done|eauto].
    + intros Hi. by rewrite Hi in H0.
  - intros j1 j2 w. rewrite !Hupd. unfold upd.
    destruct (decide (j1 = i)), (decide (j2 = i)); try (by destruct h). apply Hu.
  - intros w. rewrite Ho, (holder_cases (fun x => owns x w)), (holder_was (fun x => owns x w)).
    + split; [eauto|]. intros [Hw|]; [by destruct h|eauto].
    + revert H0. destruct (hold i); cbn; naive_solver.
Qed.

Lemma consistent_same : hold i = h -> consistent hold' sw.
Proof using Hupd H.
  intros H0. assert (forall j, hold' j = hold j) as Heq.
  { intros j. rewrite Hupd. unfold upd. by destruct (decide (j = i)) as [->|]. }
  destruct H as [Ht Hu Ho]. split.
  - intros m w. rewrite Ht. by setoid_rewrite Heq.
  - intros j1 j2 w. rewrite !Heq. apply Hu.
  - intros w. rewrite Ho. by setoid_rewrite Heq.
Qed.

Lemma consistent_lead m w :
  hold i = Idle -> h = Leading m w -> sw_table sw !! m = None -> sw_waits sw !! w = None ->
  consistent hold' (mkSwitches (<[ m := w ]> (sw_table sw)) (<[ w := None ]> (sw_waits sw))).
Proof using Hupd H.
  intros H0 Hh Hm Hw. destruct H as [Ht Hu Ho].
  assert (forall j, ~ owns (hold j) w) as Hnew.
  { intros j Hj. assert (sw_waits sw !! w = Some None) by (apply Ho; eauto). congruence. }
  split; cbn.
  - intros m' w'. rewrite lookup_insert_Some, Ht, (holder_cases (fun x => x = Leading m' w')), (holder_was (fun x => x = Leading m' w'))
      by (by rewrite H0). split; [|intros [He|He]].
    + intros [[-> ->]|[_ ?]]; eauto.
    + left. rewrite Hh in He. by simplify_eq.
    + destruct (decide (m = m')) as [->|]; [|eauto]. apply Ht in He. congruence.
  - intros j1 j2 w'. rewrite !Hupd. unfold upd.
    destruct (decide (j1 = i)), (decide (j2 = i)); subst; cbn; try done; [intros <- ?|intros ? <-|apply Hu];
      exfalso; by eapply Hnew.
  - intros w'. rewrite lookup_insert_Some, Ho, (holder_cases (fun x => owns x w')), (holder_was (fun x => owns x w')), Hh
      by (rewrite H0; cbn; tauto). cbn. split.
    + intros [[-> _]|[_ ?]]; eauto.
    + intros [->|He]; [eauto|]. destruct (decide (w = w')) as [->|]; [eauto|eauto].
Qed.

Lemma consistent_leave m w :
  hold i = Leading m w -> h = Leaving m w ->
  consistent hold' (mkSwitches (delete m (sw_table sw)) (sw_waits sw)).
Proof using Hupd H.
  intros H0 Hh. destruct H as [Ht Hu Ho]. split; cbn.
  - intros m' w'. rewrite lookup_delete_Some, Ht, (holder_cases (fun x => x = Leading m' w')), Hh. split.
    + intros [Hne (j & Hj)]. right. exists j. split; [|done]. intros ->. congruence.
    + intros [?|(j & Hne & Hj)]; [done|]. split; [|eauto]. intros <-. apply Hne.
      assert (sw_table sw !! m = Some w) by (apply Ht; eauto).
      assert (sw_table sw !! m = Some w') by (apply Ht; eauto).
      apply (Hu j i w); rewrite ?Hj, ?H0; cbn; congruence.
  - intros j1 j2 w'. rewrite !Hupd, Hh. unfold upd.
    destruct (decide (j1 = i)), (decide (j2 = i)); subst; cbn; try done; [intros <- ?|intros ? <-|apply Hu].
    + apply (Hu i j2 w); [by rewrite H0|done].
    + apply (Hu j1 i w); [done|by rewrite H0].
  - intros w'. rewrite Ho, (holder_cases (fun x => owns x w')), Hh. cbn. split.
    + intros [j Hj]. destruct (decide (j = i)) as [->|]; [left; by rewrite H0 in Hj|eauto].
    + intros [->|(j & _ & Hj)]; [exists i; by rewrite H0|eauto].
Qed.

Lemma consistent_close m w err :
  hold i = Leaving m w -> h = Idle ->
  consistent hold' (mkSwitches (sw_table sw) (<[ w := Some err ]> (sw_waits sw))).
Proof using Hupd H.
  intros H0 Hh. destruct H as [Ht Hu Ho]. split; cbn.
  - intros m' w'. rewrite Ht, (holder_cases (fun x => x = Leading m' w')), (holder_was (fun x => x = Leading m' w')), Hh by (by rewrite H0).
    naive_solver.
  - intros j1 j2 w'. rewrite !Hupd, Hh. unfold upd.
    destruct (decide (j1 = i)), (decide (j2 = i)); cbn; try done. apply Hu.
  - intros w'. rewrite lookup_insert_Some, Ho, (holder_cases (fun x => owns x w')), Hh. cbn. split.
    + intros [[_ ?]|[Hne (j & Hj)]]; [done|]. right. exists j. split; [|done].
      intros ->. rewrite H0 in Hj. by apply Hne.
    + intros [[]|(j & Hne & Hj)]. right. split; [|eauto]. intros <-. apply Hne, (Hu j i w); [done|by rewrite H0].
Qed.
End consistency.
