(* ===== verification/ProxyPoolProps.v ===== *)
(** * The proxy's goroutines keep their invariant

    What holds in every reachable state of the pool: switches and their holders agree,
    everything a goroutine takes for stable was read as stable, the shared state is
    well formed. *)

From S2P Require Import Prelude GoStrings Types Effects Api Driver Json ProxyApi ProxyCatalog ProxyRuntime ProxySwitch ProxyServe ProxyMetrics ProxyInvariant ProxyContract ProxyPool.

(** ** What a step says *)

(** It made its goroutine the leader of a switch. *)
Definition led_of (o : obs pev) : option (string * nat) :=
  match obs_req o in pev X return X -> option (string * nat) with
  | PJoin m => fun x => match x with Leader w => Some (m, w) | Follower _ => None end
  | _ => fun _ => None
  end (obs_reply o).
(** It made its goroutine a follower. *)
Definition followed_of (o : obs pev) : option (string * nat) :=
  match obs_req o in pev X return X -> option (string * nat) with
  | PJoin m => fun x => match x with Leader _ => None | Follower w => Some (m, w) end
  | _ => fun _ => None
  end (obs_reply o).
(** It closed a wait. *)
Definition closed_of (o : obs pev) : option (nat * result unit) :=
  match obs_req o with PClose w err => Some (w, err) | _ => None end.
(** It gave up leading a switch. *)
Definition left_of (o : obs pev) : option string :=
  match obs_req o with PLeave m => Some m | _ => None end.
(** It read [m] as stable. *)
Definition reads_stable (acc : nested) (m : string) (o : obs pev) : Prop :=
  match obs_req o in pev X return X -> Prop with
  | PGetActive _ _ => fun x => match x with Ok active => m ∈ stable_in acc active | Err _ => False end
  | _ => fun _ => False
  end (obs_reply o).

(** The steps of one goroutine. *)
Definition thread (i : nat) (tr : list (nat * obs pev)) : list (obs pev) :=
  omap (fun '(j, o) => if decide (j = i) then Some o else None) tr.
Lemma thread_app i tr1 tr2 : thread i (tr1 ++ tr2) = thread i tr1 ++ thread i tr2.
Proof. apply omap_app. Qed.
Lemma elem_of_thread i o tr : o ∈ thread i tr <-> (i, o) ∈ tr.
Proof.
  unfold thread. rewrite list_elem_of_omap. split.
  - intros ([j o'] & Hin & Ho). by case_decide; simplify_eq.
  - intros Hin. exists (i, o). by rewrite decide_True.
Qed.

Section invariant.
Context (acc : nested) (lib : proxylib) (fl : floatlib) (unrouted : httpRequest -> answer).
Context (p : proxyConfig).
Abbreviation c := (goroutine_contract acc lib).
Abbreviation reach := (reach acc lib fl unrouted p).

Definition ghost_of (tr : list (nat * obs pev)) (i : nat) : ghosts := ghost c fresh (thread i tr).
Definition hold_of (tr : list (nat * obs pev)) (i : nat) : holding := g_hold (ghost_of tr i).

Lemma ghost_of_snoc tr i o j :
  ghost_of (tr ++ [(i, o)]) j =
    upd (ghost_of tr) i (record c (obs_req o) (obs_reply o) (ghost_of tr i)) j.
Proof.
  unfold ghost_of, upd. rewrite thread_app, ghost_app. cbn.
  destruct (decide (j = i)) as [->|Hne].
  - by rewrite decide_True.
  - by rewrite decide_False.
Qed.
Lemma ghost_of_new tr i : (forall o, (i, o) ∉ tr) -> ghost_of tr i = fresh.
Proof.
  intros H. unfold ghost_of. destruct (thread i tr) as [|o l] eqn:E; [done|].
  exfalso. apply (H o), elem_of_thread. rewrite E. set_solver.
Qed.

Definition read_by (tr : list (nat * obs pev)) (j : nat) (m : string) : Prop :=
  exists o, (j, o) ∈ tr /\ reads_stable acc m o.
Definition followed (tr : list (nat * obs pev)) (i : nat) (m : string) (w : nat) : Prop :=
  exists o, (i, o) ∈ tr /\ followed_of o = Some (m, w).
Definition led (tr : list (nat * obs pev)) (j : nat) (m : string) (w : nat) : Prop :=
  exists o, (j, o) ∈ tr /\ led_of o = Some (m, w).

(** What the history of a wait and of a goroutine's knowledge says. *)
Record recorded (tr : list (nat * obs pev)) (sw : switches) : Prop := {
  (** a wait belongs to one switch, and stays allocated *)
  led_once : forall j j' m m' w, led tr j m w -> led tr j' m' w -> j = j' /\ m = m';
  led_allocated : forall j m w, led tr j m w -> is_Some (sw_waits sw !! w);
  (** who takes part in a switch knows its wait *)
  part_led : forall i m w, hold_of tr i = Leading m w \/ hold_of tr i = Leaving m w -> led tr i m w;
  part_follows : forall i m w, hold_of tr i = Following m w ->
    followed tr i m w /\ exists j, led tr j m w;
  (** a closed wait was closed by its leader, with success if that read its model stable *)
  closed_by : forall w err, sw_waits sw !! w = Some (Some err) ->
    exists j m o, led tr j m w /\ (j, o) ∈ tr /\ closed_of o = Some (w, err)
      /\ (err = Ok tt -> read_by tr j m);
  (** what a goroutine knows, it read, or the leader of a switch it followed did *)
  read_read : forall i m, m ∈ g_read (ghost_of tr i) -> read_by tr i m;
  told_led : forall i m, m ∈ g_told (ghost_of tr i) ->
    exists j w, followed tr i m w /\ led tr j m w /\ read_by tr j m;
}.

Record pool_ok (tr : list (nat * obs pev)) (sh : shared) (pool : list (pprog unit)) : Prop := {
  pool_contract : forall i q, pool !! i = Some q -> rg c q (ghost_of tr i) (fun g _ => g_hold g = Idle);
  pool_indices : forall i o, (i, o) ∈ tr -> (i < length pool)%nat;
  pool_state : state_ok (sh_state sh);
  pool_consistent : consistent (hold_of tr) (sh_switches sh);
  pool_recorded : recorded tr (sh_switches sh);
}.

(** ** One step *)

Section step.
Context {X : Type} (e : pev X) (x : X) (sh sh' : shared) (g : ghosts).
Context (Hserves : serves e x sh sh') (Hpermit : permit c e g).

Lemma serves_rely : state_ok (sh_state sh) -> rely c e x g.
Proof using Hserves.
  clear Hpermit. intros Hs. destruct e; cbn in *; try done; destruct Hserves as [-> _]; [by eexists|done].
Qed.
Lemma serves_state : state_ok (sh_state sh) -> state_ok (sh_state sh').
Proof using Hserves Hpermit.
  intros Hs. destruct e; cbn in *; try (by subst); try (by destruct Hserves as [_ ->]).
  - destruct Hserves as [_ ->]. by apply Hpermit.
  - destruct x; [by destruct Hserves as (_ & _ & ->)|by destruct Hserves as [_ ->]].
Qed.

(** How the waits change. *)
Lemma serves_waits :
  match led_of (Obs e x), closed_of (Obs e x) with
  | Some (_, w), _ => sw_waits (sh_switches sh) !! w = None
      /\ sw_waits (sh_switches sh') = <[ w := None ]> (sw_waits (sh_switches sh))
  | None, Some (w, err) => sw_waits (sh_switches sh') = <[ w := Some err ]> (sw_waits (sh_switches sh))
  | None, None => sw_waits (sh_switches sh') = sw_waits (sh_switches sh)
  end.
Proof using Hserves.
  clear Hpermit. destruct e; cbn in *; try (by subst); try (by destruct Hserves as [_ ->]).
  destruct x; [by destruct Hserves as (_ & ? & ->)|by destruct Hserves as [_ ->]].
Qed.

(** Where a part in a switch comes from. *)
Lemma leads_from m w :
  g_hold (record c e x g) = Leading m w -> g_hold g = Leading m w \/ led_of (Obs e x) = Some (m, w).
Proof using Type.
  clear Hserves Hpermit. destruct e; cbn; auto; repeat case_match; cbn; intros; simplify_eq; auto; naive_solver congruence.
Qed.
Lemma leaves_from m w :
  g_hold (record c e x g) = Leaving m w -> g_hold g = Leading m w \/ g_hold g = Leaving m w.
Proof using Type. clear Hserves Hpermit. destruct e; cbn; auto; repeat case_match; cbn; intros; simplify_eq; auto; naive_solver congruence. Qed.
Lemma follows_from m w :
  g_hold (record c e x g) = Following m w ->
  g_hold g = Following m w
  \/ (sw_table (sh_switches sh) !! m = Some w /\ followed_of (Obs e x) = Some (m, w)).
Proof using Hserves.
  clear Hpermit. destruct e; cbn in *; auto; repeat case_match; cbn; intros; simplify_eq; auto; naive_solver congruence.
Qed.
Lemma reads_from m :
  m ∈ g_read (record c e x g) -> m ∈ g_read g \/ reads_stable acc m (Obs e x).
Proof using Type. clear Hserves Hpermit. destruct e; cbn; auto; repeat case_match; cbn; auto; set_solver. Qed.
Lemma learns_from m :
  m ∈ g_told (record c e x g) ->
  m ∈ g_told g
  \/ exists w, g_hold g = Following m w /\ sw_waits (sh_switches sh) !! w = Some (Some (Ok tt)).
Proof using Hserves Hpermit.
  destruct e; cbn in *; auto; repeat case_match; cbn; auto; try set_solver.
  intros [->%elem_of_singleton|]%elem_of_union; [|auto]. right.
  destruct Hpermit as (m' & Hm'). simplify_eq. exists wait. split; [done|].
  destruct Hserves as [Hw _]. by destruct a.
Qed.
Lemma closes_from w err :
  closed_of (Obs e x) = Some (w, err) -> exists m, g_hold g = Leaving m w /\ (err = Ok tt -> m ∈ g_read g).
Proof using Hpermit. clear Hserves. destruct e; cbn in *; try done. by intros [= <- <-]. Qed.
End step.

Lemma read_by_mono tr o j m : read_by tr j m -> read_by (tr ++ [o]) j m.
Proof. intros (o' & Hin & Ho). exists o'. split; [set_solver|done]. Qed.
Lemma followed_mono tr o i m w : followed tr i m w -> followed (tr ++ [o]) i m w.
Proof. intros (o' & Hin & Ho). exists o'. split; [set_solver|done]. Qed.
Lemma led_snoc tr i o j m w :
  led (tr ++ [(i, o)]) j m w <-> led tr j m w \/ (j = i /\ led_of o = Some (m, w)).
Proof.
  unfold led. split.
  - intros (o' & Hin & Ho). apply elem_of_app in Hin as [Hin|Hin]; [eauto|].
    apply list_elem_of_singleton in Hin as [= -> ->]. eauto.
  - intros [(o' & Hin & Ho)|[-> Ho]]; eexists; (split; [|done]); set_solver.
Qed.

Section pool_step.
Context (tr : list (nat * obs pev)) (sh sh' : shared) (i : nat).
Context {X : Type} (e : pev X) (x : X).
Context (Hserves : serves e x sh sh') (Hpermit : permit c e (ghost_of tr i)).
Abbreviation tr' := (tr ++ [(i, Obs e x)]).

Lemma hold_of_snoc j :
  hold_of tr' j = upd (hold_of tr) i (g_hold (record c e x (ghost_of tr i))) j.
Proof using Type. unfold hold_of. rewrite ghost_of_snoc. unfold upd. by destruct (decide (j = i)). Qed.

Lemma step_consistent :
  consistent (hold_of tr) (sh_switches sh) -> consistent (hold_of tr') (sh_switches sh').
Proof using Hserves Hpermit.
  intros H. pose proof hold_of_snoc as Hu. unfold hold_of in Hu at 2.
  destruct e; cbn in Hserves, Hpermit, Hu;
    try (subst sh'; by eapply consistent_same);
    try (match type of Hserves with _ /\ _ => idtac end; destruct Hserves as [? ->]; by eapply consistent_same).
  - destruct x as [w|w].
    + destruct Hserves as (? & ? & ->). by eapply consistent_lead.
    + destruct Hserves as [_ ->]. eapply consistent_quiet; [exact Hu|done| |done].
      unfold hold_of. by rewrite Hpermit.
  - subst sh'. destruct Hpermit as [w Hw]. rewrite Hw in Hu. by eapply consistent_leave.
  - destruct Hserves as (_ & ->). destruct Hpermit as (m & Hm & _). by eapply consistent_close.
  - destruct Hserves as [_ ->]. destruct Hpermit as (m & Hm).
    eapply consistent_quiet; [exact Hu|done| |]; unfold hold_of; rewrite Hm; [done|].
    by repeat case_match.
  - subst sh'. eapply consistent_same; [exact Hu|done|]. by destruct x.
Qed.

(** *** The history *)

Context (Hc : consistent (hold_of tr) (sh_switches sh)) (Hr : recorded tr (sh_switches sh)).
Abbreviation waits' := (sw_waits (sh_switches sh')).

Lemma step_led_fresh m w : led_of (Obs e x) = Some (m, w) -> sw_waits (sh_switches sh) !! w = None.
Proof using Hserves. intros Hl. pose proof (serves_waits e x sh sh' Hserves) as Hw. rewrite Hl in Hw. apply Hw. Qed.

Lemma step_led_once j j' m m' w : led tr' j m w -> led tr' j' m' w -> j = j' /\ m = m'.
Proof using Hserves Hr.
  rewrite !led_snoc. intros [H1|[-> H1]] [H2|[-> H2]].
  - by eapply led_once.
  - destruct (led_allocated _ _ Hr _ _ _ H1). apply step_led_fresh in H2. congruence.
  - destruct (led_allocated _ _ Hr _ _ _ H2). apply step_led_fresh in H1. congruence.
  - split; [done|congruence].
Qed.

Lemma step_waits_kept w : is_Some (sw_waits (sh_switches sh) !! w) -> is_Some (waits' !! w).
Proof using Hserves.
  intros Hs. pose proof (serves_waits e x sh sh' Hserves) as Hw.
  destruct (led_of _) as [[? w0]|]; [destruct Hw as [_ ->]|destruct (closed_of _) as [[w0 ?]|]; rewrite Hw];
    [apply lookup_insert_is_Some'..|]; auto.
Qed.
Lemma step_led_allocated j m w : led tr' j m w -> is_Some (waits' !! w).
Proof using Hserves Hr.
  rewrite led_snoc. intros [H1|[-> H1]]; [by eapply step_waits_kept, led_allocated|].
  pose proof (serves_waits e x sh sh' Hserves) as Hw. rewrite H1 in Hw. destruct Hw as [_ ->].
  rewrite lookup_insert_eq. eauto.
Qed.

Lemma step_part_led j m w : hold_of tr' j = Leading m w \/ hold_of tr' j = Leaving m w -> led tr' j m w.
Proof using Hr.
  rewrite hold_of_snoc, led_snoc. unfold upd. destruct (decide (j = i)) as [->|]; [|left; by apply (part_led _ _ Hr)].
  intros [Hl|Hl].
  - destruct (leads_from _ _ _ _ _ Hl); [left; apply (part_led _ _ Hr); auto|eauto].
  - left. apply (part_led _ _ Hr). by eapply leaves_from in Hl.
Qed.
Lemma step_part_follows j m w :
  hold_of tr' j = Following m w ->
  followed tr' j m w /\ exists k, led tr' k m w.
Proof using All.
  rewrite hold_of_snoc. setoid_rewrite led_snoc. unfold upd. destruct (decide (j = i)) as [->|]; intros Hf.
  1: destruct (follows_from e x sh sh' _ Hserves _ _ Hf) as [Hf'|[Hf' Hx]].
  2:{ split; [exists (Obs e x); set_solver|].
      apply (table_leaders _ _ Hc) in Hf' as [k Hk]. exists k. left. apply (part_led _ _ Hr). auto. }
  1: rename Hf' into Hf0. 2: rename Hf into Hf0.
  all: destruct (part_follows _ _ Hr _ _ _ Hf0) as [Ho [k Hk]]; split; [by apply followed_mono|eauto].
Qed.

Lemma old_closed_by w err :
  sw_waits (sh_switches sh) !! w = Some (Some err) ->
  exists j m o, led tr' j m w /\ (j, o) ∈ tr' /\ closed_of o = Some (w, err)
    /\ (err = Ok tt -> read_by tr' j m).
Proof using All.
  intros (j & m & o & Hl & Hin & Ho & Hs)%(closed_by _ _ Hr). exists j, m, o.
  split_and!; [by apply led_snoc; left|set_solver|done|]. intros ?. by apply read_by_mono, Hs.
Qed.
Lemma step_closed_by w err :
  waits' !! w = Some (Some err) ->
  exists j m o, led tr' j m w /\ (j, o) ∈ tr' /\ closed_of o = Some (w, err)
    /\ (err = Ok tt -> read_by tr' j m).
Proof using All.
  pose proof (serves_waits e x sh sh' Hserves) as Hw.
  destruct (led_of _) as [[m0 w0]|] eqn:El.
  { destruct Hw as [_ ->]. rewrite lookup_insert_Some. intros [[_ ?]|[_ ?]]; [done|by apply old_closed_by]. }
  destruct (closed_of _) as [[w0 err0]|] eqn:Ec; rewrite Hw; [|apply old_closed_by].
  rewrite lookup_insert_Some. intros [[-> [= ->]]|[_ ?]]; [|by apply old_closed_by].
  destruct (closes_from e x _ Hpermit _ _ Ec) as (m & Hm & Hs). exists i, m, (Obs e x).
  split_and!; [apply led_snoc; left; apply (part_led _ _ Hr); auto|set_solver|done|].
  intros He. eapply read_by_mono, (read_read _ _ Hr), Hs, He.
Qed.

Lemma step_read_read j m : m ∈ g_read (ghost_of tr' j) -> read_by tr' j m.
Proof using All.
  rewrite ghost_of_snoc. unfold upd. destruct (decide (j = i)) as [->|].
  2:{ intros Hm. by eapply read_by_mono, (read_read _ _ Hr). }
  intros [Hm|Hm]%reads_from; [by eapply read_by_mono, (read_read _ _ Hr)|].
  exists (Obs e x). split; [set_solver|done].
Qed.

Lemma old_told_led j m :
  m ∈ g_told (ghost_of tr j) -> exists k w, followed tr' j m w /\ led tr' k m w /\ read_by tr' k m.
Proof using All.
  intros (k & w & Hf & Hl & Hk)%(told_led _ _ Hr). exists k, w.
  split_and!; [by apply followed_mono|by apply led_snoc; left|by apply read_by_mono].
Qed.
Lemma step_told_led j m :
  m ∈ g_told (ghost_of tr' j) -> exists k w, followed tr' j m w /\ led tr' k m w /\ read_by tr' k m.
Proof using All.
  rewrite ghost_of_snoc. unfold upd. destruct (decide (j = i)) as [->|]; [|apply old_told_led].
  intros [Hm|(w & Hf & Hw)]%(learns_from _ _ _ _ _ Hserves Hpermit); [by apply old_told_led|].
  destruct (part_follows _ _ Hr _ _ _ Hf) as [Hfol [k Hk]].
  destruct (closed_by _ _ Hr _ _ Hw) as (j & m' & o & Hl & _ & _ & Hs).
  destruct (led_once _ _ Hr _ _ _ _ _ Hk Hl) as [_ <-]. exists j, w.
  split_and!; [by apply followed_mono|by apply led_snoc; left|by apply read_by_mono, Hs].
Qed.

Lemma step_recorded : recorded tr' (sh_switches sh').
Proof using All.
  split; eauto using step_led_once, step_led_allocated, step_part_led, step_part_follows, step_closed_by,
    step_read_read, step_told_led.
Qed.
End pool_step.

(** ** The invariant *)

Context (Hp : config_ok p) (Hcodec : model_codec lib).

Lemma goroutine_ok (q : pprog unit) tr i :
  within c (steady Idle ∅) q -> (forall o, (i, o) ∉ tr) ->
  rg c q (ghost_of tr i) (fun g _ => g_hold g = Idle).
Proof using Type.
  intros Hq Hi. rewrite ghost_of_new by done. eapply rg_mono; [by apply Hq|]. by intros g [] [].
Qed.

Lemma task_within t : within c (steady Idle ∅) (task_prog acc lib fl unrouted p t).
Proof using Hp Hcodec.
  pose proof (refresh_steady acc lib p Hp Idle ∅) as Hrefresh.
  pose proof (syncActiveDeployment_steady acc lib p Hp Idle ∅) as Hsync.
  destruct t; cbn [task_prog]; unfold watchLLMResource_event, watchDeployment_event, watch_event,
    watchLLMResource_failed, watchDeployment_failed; steadily.
  - by apply serve_steady.
  - apply sweepCache_tick_steady.
Qed.

Lemma spawned_within {X} (e : pev X) q : q ∈ spawned lib p e -> within c (steady Idle ∅) q.
Proof using Type.
  destruct e; cbn; try (by intros ?%elem_of_nil). intros ->%list_elem_of_singleton. apply discovery_steady.
Qed.

Lemma pool_ok_arrive tr sh pool t :
  pool_ok tr sh pool -> pool_ok tr sh (pool ++ [task_prog acc lib fl unrouted p t]).
Proof using Hp Hcodec.
  intros [Hq Hi Hs Hc Hr]. split; try done.
  - intros i q. rewrite lookup_app_Some. intros [|[Hlen Hl]]; [eauto|].
    apply list_lookup_singleton_Some in Hl as [_ <-]. apply goroutine_ok; [apply task_within|].
    intros o Ho%Hi. lia.
  - intros i o Ho%Hi. rewrite length_app. lia.
Qed.

Lemma pool_ok_step tr sh pool i X (e : pev X) k x sh' :
  pool_ok tr sh pool -> pool !! i = Some (Vis e k) -> serves e x sh sh' ->
  pool_ok (tr ++ [(i, Obs e x)]) sh' (<[ i := k x ]> pool ++ spawned lib p e).
Proof using All.
  intros [Hq Hi Hs Hc Hr] Hl Hsv. destruct (Hq _ _ Hl) as [Hpm Hk].
  assert (i < length pool)%nat as Hlt by (by eapply lookup_lt_Some).
  split.
  - intros j q. rewrite lookup_app_Some, length_insert. intros [Hj|[Hlen Hj]].
    + rewrite ghost_of_snoc. unfold upd. destruct (decide (j = i)) as [->|Hne].
      * rewrite list_lookup_insert_eq in Hj by done. simplify_eq. eapply Hk, serves_rely; done.
      * rewrite list_lookup_insert_ne in Hj by done. by apply Hq.
    + apply goroutine_ok; [by eapply spawned_within, list_elem_of_lookup_2|].
      intros o [Ho%Hi|Ho%list_elem_of_singleton]%elem_of_app; [lia|]. simplify_eq. lia.
  - intros j o [Ho%Hi|Ho%list_elem_of_singleton]%elem_of_app; rewrite length_app, length_insert; [lia|].
    simplify_eq. lia.
  - by eapply serves_state.
  - by eapply step_consistent.
  - by eapply step_recorded.
Qed.

Lemma reach_ok s0 tr sh pool : state_ok s0 -> reach s0 tr sh pool -> pool_ok tr sh pool.
Proof using Hp Hcodec.
  intros H0. induction 1; [|by apply pool_ok_arrive|by eapply pool_ok_step]. split; try done.
  - by intros i o ?%elem_of_nil.
  - by apply consistent_start.
  - split; try done.
    + by intros * (? & ?%elem_of_nil & _).
    + by intros * (? & ?%elem_of_nil & _).
    + by intros i m w [|].
Qed.
End invariant.
