(* ===== verification/ProxySamples.v ===== *)
(** * A concrete proxy

    A scheduler that runs a pool step by step, accessors and codecs simple enough to
    evaluate, and a run in which two requests share one switch. *)

From S2P Require Import Prelude GoStrings Types Effects Api Driver Samples Json ProxyApi ProxyCatalog ProxyRuntime ProxySwitch ProxyServe ProxyMetrics ProxyInvariant ProxyContract ProxyPool.

(** ** A scheduler *)

(** One reply [serves] allows, the services' own ones supplied by [answer]; none when
    the request has to wait. *)
Definition respond {X} (e : pev X) (sh : shared) : X -> option (X * shared) :=
  let sw := sh_switches sh in
  match e in pev X return X -> option (X * shared) with
  | PState f => fun _ => Some ((f (sh_state sh)).1, with_state sh (f (sh_state sh)).2)
  | PRange l => fun _ => Some (l, sh)
  | PJoin m => fun _ =>
      match sw_table sw !! m with
      | Some w => Some (Follower w, sh)
      | None =>
          let w := size (sw_waits sw) in
          match sw_waits sw !! w with
          | None => Some (Leader w, with_switches sh
              (mkSwitches (<[ m := w ]> (sw_table sw)) (<[ w := None ]> (sw_waits sw))))
          | Some _ => None
          end
      end
  | PLeave m => fun _ => Some (tt, with_switches sh (mkSwitches (delete m (sw_table sw)) (sw_waits sw)))
  | PClose w err => fun _ =>
      match sw_waits sw !! w with
      | Some None => Some (tt, with_switches sh (mkSwitches (sw_table sw) (<[ w := Some err ]> (sw_waits sw))))
      | _ => None
      end
  | PAwait w => fun _ =>
      match sw_waits sw !! w with Some (Some err) => Some (inl err, sh) | _ => None end
  | PInFlight => fun _ => Some (negb (size (sw_table sw) =? 0)%nat, sh)
  | _ => fun answer => Some (answer, sh)
  end.

Lemma respond_serves {X} (e : pev X) sh d x sh' : respond e sh d = Some (x, sh') -> serves e x sh sh'.
Proof.
  destruct e; cbn; intros H; repeat case_match; simplify_eq; try done; by constructor.
Qed.

Section sched.
Context (acc : nested) (lib : proxylib) (fl : floatlib) (unrouted : httpRequest -> answer).
Context (p : proxyConfig).
(** the services' answers, by the number of the step *)
Context (services : nat -> forall X, pev X -> X).

Abbreviation config := (list (nat * obs pev) * shared * list (pprog unit))%type.
(** A task arrives, or a goroutine takes a step. *)
Definition sched_one (cfg : config) (move : task + nat) : config :=
  let '(tr, sh, pool) := cfg in
  match move with
  | inl t => (tr, sh, pool ++ [task_prog acc lib fl unrouted p t])
  | inr i =>
      match pool !! i with
      | Some (Vis e k) =>
          match respond e sh (services (length tr) _ e) with
          | Some (x, sh') => (tr ++ [(i, Obs e x)], sh', <[ i := k x ]> pool ++ spawned lib p e)
          | None => cfg
          end
      | _ => cfg
      end
  end.
Definition sched (s0 : proxyState) (script : list (task + nat)) : config :=
  fold_left sched_one script ([], mkShared s0 (mkSwitches ∅ ∅), []).

Lemma sched_reach s0 script :
  let '(tr, sh, pool) := sched s0 script in reach acc lib fl unrouted p s0 tr sh pool.
Proof.
  unfold sched. induction script as [|move script IH] using rev_ind; [constructor|].
  rewrite fold_left_app. cbn. destruct (fold_left _ _ _) as [[tr sh] pool]. unfold sched_one.
  destruct move as [t|i]; [by constructor|].
  destruct (pool !! i) as [[|X e k]|] eqn:Ei; [done| |done].
  destruct (respond e sh _) as [[x sh']|] eqn:Er; [|done].
  by econstructor; [| |eapply respond_serves].
Qed.
End sched.

(** ** Accessors and codecs that evaluate *)

(** Fields by path, as apimachinery finds them. *)
Definition nested_at {A} (view : json -> option A) (zero : A) (m : object) (path : list string) : looked_up A :=
  match at_path (JObject m) path with
  | None => (zero, false, None)
  | Some j => match view j with
              | Some a => (a, true, None)
              | None => (zero, false, Some (errorf "unexpected type"))
              end
  end.
Definition as_int (j : json) : option Z := match j with JNumber t => atoi t | _ => None end.
Definition as_strings (j : json) : option (list string) := l ← as_array j; mapM as_string l.
Definition plain_nested : nested :=
  mkNested (nested_at as_string "") (nested_at as_int 0) (nested_at as_strings []) (nested_at as_array [])
    (nested_at Some JNull).

(** The text of a request is the model it names. *)
Definition plain_lib : proxylib := {|
  parseURL := Ok;
  withPath u path := u +:+ path;
  resolvePath u path := u +:+ path;
  pathEscape s := s;
  requestError _ := None;
  decodeObject body := Ok (Some (if body == "" then ∅ else {[ "model" := JString body ]}));
  encodeJSON j := match j with JObject m => Ok (string_field m "model") | _ => Ok "" end;
  encodeRuntime _ := Ok "{}";
  validJSON _ := true;
  decodeModelField body := Ok body;
  decodeModalities raw := Ok [];
  decodeIDs _ := Ok [];
  decodeStream _ := Ok (Some ∅);
  decodeTotal _ := Ok 0;
  parseQuantity s := parse_int64 s;
|}.
Lemma plain_codec : model_codec plain_lib.
Proof. intros m body name found [= <-] Hm [= <-]. unfold string_field, field. by rewrite Hm. Qed.

Definition plain_floats : floatlib :=
  mkFloatlib Z 0 Z.add Z.gtb atoi show_int (fun n => show_int (n / 1000000000)) (fun n => show_int (n / 1000000000)).
Definition plain_unrouted (r : httpRequest) : answer := mkAnswer 404 None (BodyText "404 page not found").

(** ** A cluster with one model and one overlay *)

Definition model_object (name : string) : unstructured := mkUnstructured name 0 {[
  "spec" := JObject {[
    "model" := JObject {[ "name" := JString name; "source" := JString ("org/" +:+ name) ]};
    "serving" := JObject {[ "backend" := JString "vllm"; "displayName" := JString name;
                            "maxModelLen" := JNumber "8192"; "args" := jstrings ["--dtype"; "auto"] ]} ]} ]}.
Definition overlay_object : unstructured := mkUnstructured "gemma-fast" 0 {[
  "spec" := JObject {[ "displayName" := JString "fast"; "baseModel" := JString "gemma";
                       "requestDefaults" := JObject ∅ ]} ]}.
Definition active_object (model phase : string) : object := {[
  "spec" := JObject {[ "modelName" := JString "gemma" ]};
  "status" := JObject {[ "modelName" := JString model; "phase" := JString phase ]} ]}.
Definition annotated (name model : string) (replicas : Z) : Deployment :=
  mkDeployment (sample_meta name 1)
    (mkDeploymentSpec (Some replicas) None
       (mkPodTemplate None (Some {[ activeModelAnno := model ]}) (mkPodSpec [] None "")) "" "")
    (mkDeploymentStatus replicas replicas replicas 1).
Definition not_found : error := mkError "not found" ErrNotFound.

(** The operator reports gemma stable from the given step on. *)
Definition plain_services (s0 : proxyState) (stable_from : nat) (n : nat) X (e : pev X) : X :=
  match e in pev X return X with
  | PState f => (f s0).1
  | PRange l => l
  | PJoin _ => Leader 0
  | PLeave _ | PClose _ _ => tt
  | PAwait _ => inr deadlineExceeded
  | PInFlight => false
  | PCtxErr => None
  | PRounds _ => 5%nat
  | PTick => tt
  | PGetActive _ _ =>
      Ok (if (n <? stable_from)%nat then active_object "laguna" "Progressing" else active_object "gemma" "Stable")
  | PPatchActive _ _ _ => Ok tt
  | PListModels _ => Ok [model_object "gemma"; model_object "qwen"]
  | PListOverlays _ => Ok [overlay_object]
  | PGetConfigMap _ _ => Err not_found
  | PCreateConfigMap _ | PPatchConfigMap _ _ _ => Ok tt
  | PGetDeployment _ name => Ok (annotated name "gemma" (if name == "llm-vllm" then 1 else 0))
  | PGet _ => Ok (mkResponse 200 "200 OK" "" (Ok "{}"))
  | PSweep _ _ => Ok (mkResponse 204 "204 No Content" "" (Ok ""))
  | PNow => Z.of_nat n
  | PAdd _ _ | PStore _ _ => tt
  | PLoad _ => 0
  | PForward _ _ _ _ => ([WHeader 200; WBytes 5 (Z.of_nat n)], None)
  | PSpawnDiscovery _ | PObserve _ _ _ _ _ => tt
  | PGather => ""
  end.

Definition no_env (key : string) : string := "".
Definition no_duration (s : string) : result Z := Err (errorf "time: invalid duration").
Definition plain_start : result (proxyConfig * proxyState) := start plain_lib no_env no_duration (Ok "llm").
Definition plain_proxy : proxyConfig :=
  match plain_start with Ok (p, _) => p | Err _ => mkProxyConfig "" "" "" ∅ "" 0 0 None false false end.
Definition plain_state : proxyState :=
  match plain_start with Ok (_, s) => s | Err _ => mkProxyState empty_registry "" false None None "" ∅ end.
Lemma plain_started : start plain_lib no_env no_duration (Ok "llm") = Ok (plain_proxy, plain_state).
Proof. done. Qed.

Definition chat (model : string) : httpRequest :=
  mkRequest "POST" "/v1/chat/completions" ["v1"; "chat"; "completions"] (Ok model).
(** The registry is loaded; then two requests for gemma run, the second joining the
    switch the first one leads. *)
Definition plain_script : list (task + nat) :=
  inl InitialRefresh :: replicate 30 (inr 0%nat)
  ++ [inl (Request (chat "gemma")); inl (Request (chat "gemma-fast"))]
  ++ concat (replicate 40 [inr 3%nat; inr 4%nat]).
Definition plain_run : list (nat * obs pev) * shared * list (pprog unit) :=
  sched plain_nested plain_lib plain_floats plain_unrouted plain_proxy (plain_services plain_state 48) plain_state plain_script.
Definition plain_trace : list (nat * obs pev) := plain_run.1.1.
Definition plain_shared : shared := plain_run.1.2.
Definition plain_pool : list (pprog unit) := plain_run.2.
Lemma plain_reach :
  reach plain_nested plain_lib plain_floats plain_unrouted plain_proxy plain_state plain_trace plain_shared plain_pool.
Proof.
  pose proof (sched_reach plain_nested plain_lib plain_floats plain_unrouted plain_proxy
    (plain_services plain_state 48) plain_state plain_script) as H.
  unfold plain_trace, plain_shared, plain_pool, plain_run. by destruct (sched _ _ _ _ _ _ _ _) as [[tr sh] pool].
Qed.
