(* ===== verification/ProxyTheorems.v ===== *)
(** * What the proxy guarantees across all its goroutines

    In every interleaving of any number of requests, watch events and sweeps. *)

From S2P Require Import Prelude GoStrings Types Effects Api Driver Json ProxyApi ProxyCatalog ProxyRuntime ProxySwitch ProxyServe ProxyMetrics ProxyInvariant ProxyContract ProxyPool ProxyPoolProps ProxySamples.

Section system.
Context (acc : nested) (lib : proxylib) (fl : floatlib) (unrouted : httpRequest -> answer).
(** The proxy as [main] starts it. *)
Context (getenv : string -> string) (parseDuration : string -> result Z) (file : result string).
Context (p : proxyConfig) (s0 : proxyState).
Context (Hstart : start lib getenv parseDuration file = Ok (p, s0)).
Context (Hcodec : model_codec lib).
Abbreviation reach := (ProxyPool.reach acc lib fl unrouted p s0).
Abbreviation c := (goroutine_contract acc lib).

Lemma system_ok tr sh pool : reach tr sh pool -> pool_ok acc lib tr sh pool.
Proof using Hstart Hcodec.
  apply start_ok in Hstart as (Hp & Hs & _). by apply reach_ok.
Qed.

(** The state before the [n]-th step, and that the step kept its goroutine's contract. *)
Lemma step_at tr sh pool n i o :
  reach tr sh pool -> tr !! n = Some (i, o) ->
  exists sh1 pool1 sh2, pool_ok acc lib (take n tr) sh1 pool1
    /\ permit c (obs_req o) (ghost_of acc lib (take n tr) i)
    /\ serves (obs_req o) (obs_reply o) sh1 sh2.
Proof using Hstart Hcodec.
  intros Hr Hn. rewrite <- (take_drop_middle _ _ _ Hn) in Hr.
  apply reach_middle in Hr as (sh1 & pool1 & sh2 & k & Hr & Hi & Hs).
  exists sh1, pool1, sh2. pose proof (system_ok _ _ _ Hr) as Hok. split_and!; [done| |done].
  apply (pool_contract _ _ _ _ _ Hok _ _ Hi).
Qed.

Lemma leading_kept (o : obs pev) g m w :
  permit c (obs_req o) g -> g_hold g = Leading m w -> o <> Obs (PLeave m) tt ->
  g_hold (record c (obs_req o) (obs_reply o) g) = Leading m w.
Proof using Type.
  intros Hp Hg Ho. destruct o as [X e x]. cbn in *. destruct e; cbn in *; try done.
  - congruence.
  - destruct Hp as [w' Hw']. destruct x. by assert (model = m) as -> by congruence.
  - destruct Hp as (? & ? & _). congruence.
  - destruct Hp as (? & ?). congruence.
  - by destruct x.
Qed.

(** A leader stays one until it leaves. *)
Lemma leading_since tr sh pool a b i m w :
  reach tr sh pool -> tr !! a = Some (i, Obs (PJoin m) (Leader w)) -> (a < b <= length tr)%nat ->
  (forall k, (a < k < b)%nat -> tr !! k <> Some (i, Obs (PLeave m) tt)) ->
  hold_of acc lib (take b tr) i = Leading m w.
Proof using Hstart Hcodec.
  intros Hr Ha [Hab Hb]. induction Hab as [|b Hab IH]; intros Hleft.
  - unfold hold_of. rewrite (take_S_r _ _ _ Ha), ghost_of_snoc. unfold upd. by rewrite decide_True.
  - assert (hold_of acc lib (take b tr) i = Leading m w) as Hh.
    { apply IH; [lia|]. intros k Hk. apply Hleft. lia. }
    destruct (lookup_lt_is_Some_2 tr b) as [[j o] Hbo]; [lia|].
    unfold hold_of. rewrite (take_S_r _ _ _ Hbo), ghost_of_snoc. unfold upd. destruct (decide (i = j)) as [->|]; [|done].
    destruct (step_at _ _ _ _ _ _ Hr Hbo) as (? & ? & ? & _ & Hp & _).
    apply leading_kept; [done..|]. intros ->. apply (Hleft b); [lia|done].
Qed.

(** C8: While a goroutine leads the switch to a model, from the step that made it the leader
    until it leaves, no other goroutine patches the LLMActiveModel to that model, and
    every goroutine that asks for it follows the same wait. *)
Theorem switch_single_flight tr sh pool a b i j m w :
  reach tr sh pool -> tr !! a = Some (i, Obs (PJoin m) (Leader w)) -> (a < b)%nat ->
  (forall k, (a < k < b)%nat -> tr !! k <> Some (i, Obs (PLeave m) tt)) ->
  (forall ns name y, tr !! b = Some (j, Obs (PPatchActive ns name m) y) -> j = i)
  /\ (forall joined, tr !! b = Some (j, Obs (PJoin m) joined) -> joined = Follower w).
Proof using Hstart Hcodec.
  intros Hr Ha Hab Hleft.
  assert (forall o, tr !! b = Some (j, o) -> hold_of acc lib (take b tr) i = Leading m w) as Hlead.
  { intros o Hb%lookup_lt_Some. eapply leading_since; eauto with lia. }
  split.
  - intros ns name y Hb. specialize (Hlead _ Hb).
    destruct (step_at _ _ _ _ _ _ Hr Hb) as (sh1 & ? & ? & Hok & [w' Hw'] & _). cbn in Hw'.
    destruct (pool_consistent _ _ _ _ _ Hok) as [Ht Hu _].
    assert (sw_table (sh_switches sh1) !! m = Some w) as H1 by (apply Ht; eauto).
    assert (sw_table (sh_switches sh1) !! m = Some w') as H2 by (apply Ht; eauto).
    apply (Hu j i w); unfold hold_of in *; rewrite ?Hlead, ?Hw'; cbn; congruence.
  - intros joined Hb. specialize (Hlead _ Hb).
    destruct (step_at _ _ _ _ _ _ Hr Hb) as (sh1 & ? & ? & Hok & _ & Hs). cbn in Hs.
    assert (sw_table (sh_switches sh1) !! m = Some w) as H1
      by (apply (table_leaders _ _ (pool_consistent _ _ _ _ _ Hok)); eauto).
    destruct joined; [destruct Hs as [? _]|destruct Hs as [? _]]; congruence.
Qed.

(** *** Reading the history off the steps *)

Lemma led_of_inv o m w : led_of o = Some (m, w) -> o = Obs (PJoin m) (Leader w).
Proof using Type. destruct o as [X e x]. destruct e; cbn; try done. destruct x; [|done]. by intros [= -> ->]. Qed.
Lemma followed_of_inv o m w : followed_of o = Some (m, w) -> o = Obs (PJoin m) (Follower w).
Proof using Type. destruct o as [X e x]. destruct e; cbn; try done. destruct x; [done|]. by intros [= -> ->]. Qed.
Lemma closed_of_inv o w err : closed_of o = Some (w, err) -> o = Obs (PClose w err) tt.
Proof using Type. destruct o as [X e x]. destruct e; cbn; try done. destruct x. by intros [= -> ->]. Qed.
Lemma reads_stable_inv o m :
  reads_stable acc m o -> exists ns name active, o = Obs (PGetActive ns name) (Ok active)
    /\ is_stable (read_transition acc active) m = true.
Proof using Type.
  destruct o as [X e x]. destruct e; cbn; try done. destruct x as [active|]; [|done].
  intros Hm. do 3 eexists. split; [done|]. by apply is_stable_seen.
Qed.
Lemma read_by_inv tr j m :
  read_by acc tr j m -> exists ns name active, (j, Obs (PGetActive ns name) (Ok active)) ∈ tr
    /\ is_stable (read_transition acc active) m = true.
Proof using Type. intros (o & Hin & (ns & name & active & -> & Ha)%reads_stable_inv). eauto 6. Qed.
Lemma followed_inv tr i m w : followed tr i m w -> (i, Obs (PJoin m) (Follower w)) ∈ tr.
Proof using Type. intros (o & Hin & ->%followed_of_inv). done. Qed.
Lemma led_inv tr j m w : led tr j m w -> (j, Obs (PJoin m) (Leader w)) ∈ tr.
Proof using Type. intros (o & Hin & ->%led_of_inv). done. Qed.

(** C10: A follower gets exactly what its leader got: when a goroutine's wait ends with an error
    or success, it had joined a switch, the one goroutine that led that switch to the same
    model closed the wait with just that result, and success means that the leader had read
    the operator as stable on the model. *)
Theorem followers_get_leaders_result tr sh pool n i w err :
  reach tr sh pool -> tr !! n = Some (i, Obs (PAwait w) (inl err)) ->
  exists j m, (i, Obs (PJoin m) (Follower w)) ∈ take n tr
    /\ (j, Obs (PJoin m) (Leader w)) ∈ take n tr
    /\ (j, Obs (PClose w err) tt) ∈ take n tr
    /\ (forall j' m', (j', Obs (PJoin m') (Leader w)) ∈ take n tr -> j' = j /\ m' = m)
    /\ (err = Ok tt -> exists ns name active,
         (j, Obs (PGetActive ns name) (Ok active)) ∈ take n tr
         /\ is_stable (read_transition acc active) m = true).
Proof using Hstart Hcodec.
  intros Hr Hn. destruct (step_at _ _ _ _ _ _ Hr Hn) as (sh1 & ? & ? & Hok & [m Hm] & [Hw _]). cbn in Hm, Hw.
  pose proof (pool_recorded _ _ _ _ _ Hok) as Hrec.
  destruct (part_follows _ _ _ _ Hrec i m w Hm) as [Hin%followed_inv [j Hj]].
  destruct (closed_by _ _ _ _ Hrec _ _ Hw) as (j' & m' & o & Hl & Hin' & ->%closed_of_inv & Hs).
  destruct (led_once _ _ _ _ Hrec _ _ _ _ _ Hj Hl) as [<- <-].
  exists j, m. split_and!; [done|by apply led_inv|done| |].
  - intros j' m' Hj'. apply (led_once _ _ _ _ Hrec _ _ _ _ w); [|done]. by exists (Obs (PJoin m') (Leader w)).
  - intros He. by apply read_by_inv, Hs.
Qed.

(** Who read the model of a forwarded body as stable. *)
Lemma forward_told tr sh pool n i backend method path body y m :
  reach tr sh pool -> tr !! n = Some (i, Obs (PForward backend method path (Some body)) y) ->
  decodeModelField lib body = Ok m -> m <> "" ->
  exists k, (k = i \/ exists w, (i, Obs (PJoin m) (Follower w)) ∈ take n tr
                          /\ (k, Obs (PJoin m) (Leader w)) ∈ take n tr)
    /\ exists ns name active, (k, Obs (PGetActive ns name) (Ok active)) ∈ take n tr
         /\ is_stable (read_transition acc active) m = true.
Proof using Hstart Hcodec.
  intros Hr Hn Hd Hm. destruct (step_at _ _ _ _ _ _ Hr Hn) as (sh1 & ? & ? & Hok & Hp & _).
  pose proof (pool_recorded _ _ _ _ _ Hok) as Hrec.
  destruct (proj1 (elem_of_union _ _ _) (Hp m Hd Hm)) as [Hread|Htold].
  - exists i. split; [by left|]. by eapply read_by_inv, read_read.
  - destruct (told_led _ _ _ _ Hrec i m Htold) as (k & w & Hf & Hl & Hk). exists k.
    split; [|by apply read_by_inv]. right. exists w. split; [by apply followed_inv|by apply led_inv].
Qed.

(** C7: A request body that names a model is forwarded to a backend only after the operator's
    LLMActiveModel has been read with that model stable, by this request or by the
    leader of the switch it waited for; that includes bodies rewritten by an overlay. *)
Theorem forwards_only_when_stable tr sh pool n i backend method path body y m :
  reach tr sh pool -> tr !! n = Some (i, Obs (PForward backend method path (Some body)) y) ->
  decodeModelField lib body = Ok m -> m <> "" ->
  exists k, (k = i \/ exists w, (i, Obs (PJoin m) (Follower w)) ∈ take n tr
                          /\ (k, Obs (PJoin m) (Leader w)) ∈ take n tr)
    /\ exists ns name active, (k, Obs (PGetActive ns name) (Ok active)) ∈ take n tr
         /\ is_stable (read_transition acc active) m = true.
Proof using Hstart Hcodec. apply forward_told. Qed.

(** The reply of a follower whose own client gave up. *)
Definition gives_up {X} (e : pev X) : X -> bool :=
  match e in pev X return X -> bool with
  | PAwait _ => fun x => match x with inl _ => false | inr _ => true end
  | _ => fun _ => false
  end.
(** The goroutine can go on without its client giving up. *)
Definition can_step (sh : shared) (q : pprog unit) : Prop :=
  match q with
  | Ret _ => False
  | Vis e _ => exists x sh', serves e x sh sh' /\ gives_up e x = false
  end.

Lemma steps_or_waits tr sh pool i X (e : pev X) k :
  pool_ok acc lib tr sh pool -> pool !! i = Some (Vis e k) ->
  can_step sh (Vis e k)
  \/ exists m w, hold_of acc lib tr i = Following m w /\ sw_waits (sh_switches sh) !! w = Some None.
Proof using Type.
  intros Hok Hi. destruct (pool_contract _ _ _ _ _ Hok _ _ Hi) as [Hp _]. unfold hold_of.
  pose proof (pool_consistent _ _ _ _ _ Hok) as Hc. pose proof (pool_recorded _ _ _ _ _ Hok) as Hr.
  destruct e; cbn in Hp;
    try (match goal with
         | |- can_step _ (Vis ?e _) \/ _ =>
             left; exists (plain_services (sh_state sh) 0 0 _ e); eexists; split; [|done]; cbn; by split_and?
         end).
  - left. destruct (sw_table (sh_switches sh) !! model) as [w|] eqn:Et; [by exists (Follower w); eexists|].
    eexists (Leader (infinite_fresh (elements (dom (sw_waits (sh_switches sh)))))), _. cbn. split_and!; [done| |done|done].
    apply not_elem_of_dom. rewrite <- elem_of_elements. apply infinite_is_fresh.
  - left. destruct Hp as (m & Hm & _). eexists tt, _. cbn. split_and!; [|done..].
    apply (open_owned _ _ Hc). exists i. unfold hold_of. by rewrite Hm.
  - destruct Hp as (m & Hm). destruct (part_follows _ _ _ _ Hr i m wait Hm) as [_ [j Hj]].
    destruct (led_allocated _ _ _ _ Hr _ _ _ Hj) as [[err|] Hw]; [left|right; eauto].
    by exists (inl err); eexists.
  - left. by eexists _, sh.
Qed.

(** The goroutine that owes an open wait its result is there, and can go on. *)
Lemma owner_steps tr sh pool w :
  pool_ok acc lib tr sh pool -> sw_waits (sh_switches sh) !! w = Some None ->
  exists j q, pool !! j = Some q /\ can_step sh q /\ owns (hold_of acc lib tr j) w.
Proof using Type.
  intros Hok Hw. apply (open_owned _ _ (pool_consistent _ _ _ _ _ Hok)) in Hw as [j Hj].
  destruct (pool !! j) as [q|] eqn:Hq.
  - exists j, q. split_and!; [done| |done]. destruct q as [[]|X e k].
    + pose proof (pool_contract _ _ _ _ _ Hok _ _ Hq) as Hidle. cbn in Hidle. unfold hold_of in Hj.
      by rewrite Hidle in Hj.
    + destruct (steps_or_waits _ _ _ _ _ _ _ Hok Hq) as [|(m & w' & Hm & _)]; [done|].
      by rewrite Hm in Hj.
  - unfold hold_of in Hj. rewrite ghost_of_new in Hj; [done|]. intros o Ho.
    apply (pool_indices _ _ _ _ _ Hok) in Ho. apply lookup_ge_None in Hq. lia.
Qed.

(** C9: No goroutine is ever stuck: it has finished, it can go on, or it follows a switch whose
    leader can go on, in each case without any client giving up; and once all have
    finished, no switch is in flight and every wait has been closed. *)
Theorem proxy_never_stuck tr sh pool :
  reach tr sh pool ->
  (forall i q, pool !! i = Some q ->
     q = Ret tt \/ can_step sh q
     \/ exists m w j q', hold_of acc lib tr i = Following m w /\ owns (hold_of acc lib tr j) w
          /\ pool !! j = Some q' /\ can_step sh q')
  /\ (Forall (fun q => q = Ret tt) pool ->
      sw_table (sh_switches sh) = ∅ /\ forall w, sw_waits (sh_switches sh) !! w <> Some None).
Proof using Hstart Hcodec.
  intros Hr%system_ok. split.
  - intros i q Hq. destruct q as [[]|X e k]; [by left|right].
    destruct (steps_or_waits _ _ _ _ _ _ _ Hr Hq) as [|(m & w & Hm & Hw)]; [by left|right].
    destruct (owner_steps _ _ _ _ Hr Hw) as (j & q' & ? & ? & ?). eauto 8.
  - intros Hdone. assert (forall w, sw_waits (sh_switches sh) !! w <> Some None) as Hw.
    { intros w Hw. destruct (owner_steps _ _ _ _ Hr Hw) as (j & q & Hq & Hs & _).
      rewrite Forall_lookup in Hdone. by rewrite (Hdone _ _ Hq) in Hs. }
    split; [|done]. apply map_empty. intros m. destruct (sw_table _ !! m) as [w|] eqn:Ht; [|done].
    destruct (pool_consistent _ _ _ _ _ Hr) as [Htab _ Hopen].
    apply Htab in Ht as [i Hi]. exfalso. apply (Hw w), Hopen. exists i. by rewrite Hi.
Qed.

(** C26: Whatever interleaves, the shared state is well formed: every model and overlay is filed
    under its own name, every model satisfies what admission to the catalogue requires,
    every overlay has a base model and no model's name, a backend URL is set, and nothing
    is listed before the first successful load. *)
Theorem proxy_state_well_formed tr sh pool : reach tr sh pool -> state_ok (sh_state sh).
Proof using Hstart Hcodec. intros Hr%system_ok. by eapply pool_state. Qed.
End system.

(** ** Witnesses: the run of [ProxySamples] *)

Lemma switch_single_flight_witness :
  plain_trace !! 39%nat
    = Some (3%nat, Obs (PPatchActive "llm" "default" "gemma") (Ok tt))
  /\ (forall joined, plain_trace !! 37%nat = Some (4%nat, Obs (PJoin "gemma") joined) -> joined = Follower 0)
  /\ (forall ns name y, plain_trace !! 39%nat = Some (4%nat, Obs (PPatchActive ns name "gemma") y) -> 4%nat = 3%nat).
Proof.
  split; [by vm_compute|].
  assert (plain_trace !! 36%nat = Some (3%nat, Obs (PJoin "gemma") (Leader 0))) as Ha by (by vm_compute).
  split.
  - apply (switch_single_flight plain_nested plain_lib plain_floats plain_unrouted no_env no_duration (Ok "llm")
             plain_proxy plain_state plain_started plain_codec plain_trace plain_shared plain_pool 36 37 3 4 "gemma" 0 plain_reach Ha); lia.
  - apply (switch_single_flight plain_nested plain_lib plain_floats plain_unrouted no_env no_duration (Ok "llm")
             plain_proxy plain_state plain_started plain_codec plain_trace plain_shared plain_pool 36 39 3 4 "gemma" 0 plain_reach Ha); [lia|].
    intros k Hk Hl. apply (f_equal (fmap (fun x => (x.1, left_of x.2)))) in Hl.
    assert (k = 37 \/ k = 38)%nat as [->| ->] by lia; vm_compute in Hl; discriminate.
Defined.

Lemma followers_get_leaders_result_witness :
  exists j m, (4%nat, Obs (PJoin m) (Follower 0)) ∈ take 56 plain_trace
    /\ (j, Obs (PClose 0 (Ok tt)) tt) ∈ take 56 plain_trace.
Proof.
  destruct (followers_get_leaders_result plain_nested plain_lib plain_floats plain_unrouted no_env no_duration (Ok "llm")
    plain_proxy plain_state plain_started plain_codec plain_trace plain_shared plain_pool 56 4 0 (Ok tt) plain_reach) as (j & m & H1 & _ & H2 & _);
    [by vm_compute|]. by exists j, m.
Defined.

Lemma forwards_only_when_stable_witness :
  exists k, (k = 4%nat \/ exists w, (4%nat, Obs (PJoin "gemma") (Follower w)) ∈ take 72 plain_trace
                          /\ (k, Obs (PJoin "gemma") (Leader w)) ∈ take 72 plain_trace)
    /\ exists ns name active, (k, Obs (PGetActive ns name) (Ok active)) ∈ take 72 plain_trace
         /\ is_stable (read_transition plain_nested active) "gemma" = true.
Proof.
  apply (forwards_only_when_stable plain_nested plain_lib plain_floats plain_unrouted no_env no_duration (Ok "llm")
    plain_proxy plain_state plain_started plain_codec plain_trace plain_shared plain_pool 72 4 (Some "http://llm-vllm:8000") "POST"
    "/v1/chat/completions" "gemma" ([WHeader 200; WBytes 5 72], None) "gemma" plain_reach); [by vm_compute|done|done].
Defined.

Lemma proxy_never_stuck_witness :
  Forall (fun q => q = Ret tt) (map (fun i => default (Ret tt) (plain_pool !! i)) [0; 3; 4]%nat)
  /\ (forall q, plain_pool !! 1%nat = Some q -> q = Ret tt \/ can_step plain_shared q
      \/ exists m w j q', hold_of plain_nested plain_lib plain_trace 1 = Following m w
           /\ owns (hold_of plain_nested plain_lib plain_trace j) w
           /\ plain_pool !! j = Some q' /\ can_step plain_shared q').
Proof.
  split; [by vm_compute; repeat constructor|].
  intros q. apply (proxy_never_stuck plain_nested plain_lib plain_floats plain_unrouted no_env no_duration (Ok "llm")
    plain_proxy plain_state plain_started plain_codec plain_trace plain_shared plain_pool plain_reach).
Defined.

Lemma proxy_state_well_formed_witness :
  size (rg_models (ps_registry (sh_state plain_shared))) = 2%nat /\ state_ok (sh_state plain_shared).
Proof.
  split; [by vm_compute|].
  apply (proxy_state_well_formed plain_nested plain_lib plain_floats plain_unrouted no_env no_duration (Ok "llm")
    plain_proxy plain_state plain_started plain_codec plain_trace plain_shared plain_pool plain_reach).
Defined.
