(* ===== verification/ProxyProps.v ===== *)
(** * The proxy's operations one by one

    Waiting for the operator, the answers to failed switches, overlays, the catalogue
    and the observation of the active Deployment. *)

From stdpp Require Import sorting.
From S2P Require Import Prelude GoStrings Types Effects Api Driver Samples Json ProxyApi ProxyCatalog ProxyRuntime ProxySwitch ProxyServe ProxyMetrics ProxyInvariant ProxyContract ProxySamples.

(** ** Waiting for the operator *)

Section waiting.
Context (acc : nested) (p : proxyConfig).

(** What one look at the LLMActiveModel decides, if anything. *)
Definition verdict (m : string) (reply : result object) : option (result unit) :=
  match reply with
  | Err e => if err_is ErrNotFound e || err_is ErrForbidden e
             then Some (Err (wrap "read operator ActiveModel: " e)) else None
  | Ok active =>
      let st := read_transition acc active in
      if is_stable st m then Some (Ok tt)
      else if is_failed st m then Some (transition_failed m (ts_message st))
      else None
  end.
(** The looks of a run. *)
Definition look_of (o : obs pev) : option (result object) :=
  match obs_req o in pev X return X -> option (result object) with
  | PGetActive _ _ => Some
  | _ => fun _ => None
  end (obs_reply o).
Definition looks (tr : list (obs pev)) : list (result object) := omap look_of tr.
(** A request that changes nothing outside the proxy. *)
Definition only_looks (o : obs pev) : bool :=
  match obs_req o with PGetActive _ _ | PTick | PRounds _ => true | _ => false end.

(** Nothing after a look that decides. *)
Definition ends_at_verdict (m : string) (l : list (result object)) : Prop :=
  forall l1 x l2, l = l1 ++ x :: l2 -> is_some (verdict m x) = true -> l2 = [].

Lemma ends_at_verdict_cons m x l :
  verdict m x = None -> ends_at_verdict m l -> ends_at_verdict m (x :: l).
Proof.
  intros Hx Hl [|y l1] z l2 [= <- Hl2] Hz; [by rewrite Hx in Hz|]. by eapply Hl.
Qed.

Section run.
Abbreviation look := (PGetActive (px_namespace p) activeModelName).
Context {W : Type} (h : handler pev W).

Lemma run_look {A} (k : result transitionState -> pprog A) w :
  run h (bind (operatorTransitionState acc p) k) w =
    let '(x, w1) := h _ (PGetActive (px_namespace p) activeModelName) w in
    let '(tr, a, w2) := run h (k (match x with
        | Ok active => Ok (read_transition acc active)
        | Err e => Err (wrap "read operator ActiveModel: " e) end)) w1 in
    (Obs (PGetActive (px_namespace p) activeModelName) x :: tr, a, w2).
Proof.
  unfold operatorTransitionState, rlet, wrapping, call. cbn [bind run].
  destruct (h _ _ w) as [[active|e] w1]; cbn [bind run]; by destruct (run h _ w1) as [[??]?].
Qed.

(** What the poll loop makes of a run: trace, result and state after it. *)
Definition polls_well (m : string) (rounds : nat) (tr : list (obs pev)) (r : result unit) : Prop :=
  r = default (wait_expired m) (first_some (verdict m) (looks tr))
  /\ (length (looks tr) <= S rounds)%nat
  /\ (first_some (verdict m) (looks tr) = None -> length (looks tr) = S rounds)
  /\ ends_at_verdict m (looks tr)
  /\ forallb only_looks tr = true.

(** A look that decides ends the loop. *)
Lemma polls_well_decided m rounds x r :
  verdict m x = Some r -> polls_well m rounds [Obs (PGetActive (px_namespace p) activeModelName) x] r.
Proof.
  intros Hv. unfold polls_well. cbn. rewrite Hv. split_and!; [done|lia|done| |done].
  intros [|y [|z l1]] z' l2; cbn; by intros [= -> <-].
Qed.

(** One round: the look, and what follows an inconclusive one. *)
Definition next_round (m : string) (rounds : nat) : pprog (result unit) :=
  match rounds with
  | O => Ret (wait_expired m)
  | S rounds' => do! call PTick; poll acc p m rounds'
  end.
Lemma poll_round m rounds w :
  run h (poll acc p m rounds) w =
    let '(x, w1) := h _ look w in
    match verdict m x with
    | Some r => ([Obs look x], r, w1)
    | None => let '(tr, a, w2) := run h (next_round m rounds) w1 in (Obs look x :: tr, a, w2)
    end.
Proof.
  unfold verdict, next_round. destruct rounds; cbn [poll]; rewrite run_look;
    (destruct (h _ _ w) as [[active|e] w1]; cbn beta iota zeta; rewrite ?err_is_wrap;
     [by destruct (is_stable (read_transition acc active) m), (is_failed (read_transition acc active) m)
     |by destruct (err_is ErrNotFound e || err_is ErrForbidden e)]).
Qed.

Lemma poll_run m rounds w :
  polls_well m rounds (trace h (poll acc p m rounds) w) (value h (poll acc p m rounds) w).
Proof.
  unfold trace, value. revert w. induction rounds as [|rounds IH]; intros w; rewrite poll_round;
    destruct (h _ _ w) as [x w1]; (destruct (verdict m x) eqn:Hv; [by apply polls_well_decided|]).
  - unfold polls_well. cbn. rewrite Hv. split_and!; try done.
    apply ends_at_verdict_cons; [done|]. by intros [].
  - cbn. destruct (h _ PTick w1) as [[] w2]. specialize (IH w2).
    destruct (run h (poll acc p m rounds) w2) as [[tr r] w3]. cbn in *.
    destruct IH as (Hr & Hlen & Hnone & Hend & Honly).
    unfold polls_well. change (looks _) with (x :: looks tr). cbn [first_some length]. rewrite Hv.
    split_and!; [done|lia| |by apply ends_at_verdict_cons|done]. intros Hf. by rewrite Hnone.
Qed.
End run.
End waiting.

(** C27: Waiting for the operator returns what the first conclusive look at the LLMActiveModel
    says: success when the model is stable, the operator's failure when the requested
    model failed, the error itself when the resource is missing or forbidden.  Other
    errors and other phases only lead to another look; after the ticks the transition
    limit leaves it fails with the deadline.  It looks at most once more than there are
    ticks, never after a conclusive look, and does nothing but look. *)
Theorem wait_returns_first_verdict acc p W (h : handler pev W) w m :
  let rounds := (h _ (PRounds (px_transitionLimit p)) w).1 in
  let tr := trace h (waitForOperatorTransition acc p m) w in
  value h (waitForOperatorTransition acc p m) w
    = default (wait_expired m) (first_some (verdict acc m) (looks tr))
  /\ (length (looks tr) <= S rounds)%nat
  /\ (first_some (verdict acc m) (looks tr) = None -> length (looks tr) = S rounds)
  /\ ends_at_verdict acc m (looks tr)
  /\ forallb only_looks tr = true.
Proof.
  unfold waitForOperatorTransition, trace, value. cbn.
  destruct (h _ (PRounds _) w) as [rounds w1]. cbn.
  pose proof (poll_run acc p h m rounds w1) as H. unfold trace, value in H.
  by destruct (run h (poll acc p m rounds) w1) as [[tr r] w2].
Qed.

(** ** Overlays *)

Section overlays.
Context (lib : proxylib).

(** C30: An overlay's request: the model is the base model, and at every other path the client's
    value stands where it gave one (merged with the defaults below it when both are
    objects), the default is filled in where it gave none, and nothing is put below a
    value of the client's that is not an object.  Applying the overlay again changes
    nothing. *)
Theorem overlay_request_exact body o request defaults body' :
  decodeObject lib body = Ok (Some request) ->
  decodeObject lib (oc_requestDefaults o) = Ok (Some defaults) ->
  applyOverlay lib body o = Ok body' ->
  exists merged : object, encodeJSON lib (JObject merged) = Ok body'
    /\ merged !! "model" = Some (JString (oc_baseModel o))
    /\ (forall k path, k <> "model" ->
          at_path (JObject merged) (k :: path) =
            match at_path (JObject request) (k :: path) with
            | Some rv => Some (match at_path (JObject defaults) (k :: path) with
                               | Some dv => merge_value dv rv | None => rv end)
            | None => if blocked (JObject request) (k :: path) then None
                      else at_path (JObject defaults) (k :: path)
            end)
    /\ (decodeObject lib body' = Ok (Some merged) -> applyOverlay lib body' o = Ok body').
Proof.
  intros Hb Hd. unfold applyOverlay. rewrite Hb, Hd. cbn [default option_union].
  set (merged := <[ "model" := JString (oc_baseModel o) ]> (mergeDefaults request defaults)).
  intros He. exists merged. split_and!; [done|by apply lookup_insert_eq| |].
  - intros k path Hk. rewrite <- merge_at_path, merge_value_objects. cbn.
    subst merged. by rewrite lookup_insert_ne.
  - intros ->. rewrite <- He. f_equal. f_equal. subst merged. apply map_eq. intros k.
    destruct (decide (k = "model")) as [->|Hk]; [by rewrite !lookup_insert_eq|].
    rewrite !lookup_insert_ne, lookup_mergeDefaults, lookup_insert_ne by done.
    pose proof (mergeDefaults_idem request defaults) as Hi. apply (f_equal (lookup k)) in Hi.
    by rewrite lookup_mergeDefaults in Hi.
Qed.
End overlays.

(** ** The active Deployment *)

Section active.
Context (p : proxyConfig) {W : Type} (h : handler pev W) (cluster : string -> result Deployment).
(** The cluster does not change while it is looked at. *)
Context (Hcluster : forall w name, (h _ (PGetDeployment (px_namespace p) name) w).1 = cluster name).

Definition running_at (b : backendConfig) : bool :=
  match cluster (bc_deployment b) with Ok d => is_running d | Err _ => false end.
Definition model_at (b : backendConfig) : string :=
  match cluster (bc_deployment b) with Ok d => annotation d | Err _ => "" end.

Lemma run_find_active b backends active w :
  exists w1, value h (find_active p (b :: backends) active) w =
    match cluster (bc_deployment b) with
    | Err e => Err (wrap ("get " +:+ bc_name b +:+ " backend Deployment: ") e)
    | Ok d =>
        if negb (is_running d) then value h (find_active p backends active) w1
        else match active with
        | Some _ => Err (errorf "multiple LLM backends are active")
        | None => if annotation d == "" then Err (errorf ("active " +:+ bc_name b +:+ " backend has no model annotation"))
                  else value h (find_active p backends (Some (b, annotation d))) w1
        end
    end.
Proof using Hcluster.
  exists (h _ (PGetDeployment (px_namespace p) (bc_deployment b)) w).2. unfold value. cbn [find_active].
  rewrite run_rlet. unfold wrapping. rewrite run_bind. cbn [run call].
  pose proof (Hcluster w (bc_deployment b)) as Hc. destruct (h _ _ w) as [x w1]. cbn in Hc. subst x.
  destruct (cluster (bc_deployment b)) as [d|e]; cbn; [|done].
  destruct (negb (is_running d)); [by destruct (run _ _ _) as [[??]?]|].
  destruct active; [done|]. destruct (annotation d == ""); [done|]. by destruct (run _ _ _) as [[??]?].
Qed.

(** Every backend's Deployment can be read. *)
Definition readable (backends : list backendConfig) : Prop :=
  Forall (fun b => is_ok (cluster (bc_deployment b)) = true) backends.
(** What the loop finds, from what it has already found. *)
Definition finds (backends : list backendConfig) (active r : option (backendConfig * string)) : Prop :=
  readable backends
  /\ match active, List.filter running_at backends with
     | _, [] => r = active
     | None, [b] => model_at b <> "" /\ r = Some (b, model_at b)
     | _, _ => False
     end.

Lemma find_active_finds backends active w r :
  value h (find_active p backends active) w = Ok r <-> finds backends active r.
Proof using Hcluster.
  revert active w. induction backends as [|b backends IH]; intros active w.
  { unfold finds, readable. cbn. split.
    - intros [= ->]. split; [constructor|by destruct r].
    - intros [_ H]. by destruct active; subst. }
  destruct (run_find_active b backends active w) as [w1 ->].
  unfold finds, readable. rewrite Forall_cons. cbn [List.filter].
  assert (running_at b = match cluster (bc_deployment b) with Ok d => is_running d | Err _ => false end) as -> by done.
  pose proof (eq_refl : model_at b = match cluster (bc_deployment b) with Ok d => annotation d | Err _ => "" end) as Hm.
  destruct (cluster (bc_deployment b)) as [d|e]; cbn [is_ok]; [|naive_solver].
  destruct (is_running d); cbn [negb]; [|rewrite IH; unfold finds, readable; tauto].
  destruct active as [a|]; [split; [done|intros [_ []]]|].
  destruct (annotation d == "") eqn:Ea.
  - apply bool_decide_eq_true in Ea. split; [done|]. intros [_ H].
    destruct (List.filter running_at backends); naive_solver congruence.
  - apply bool_decide_eq_false in Ea. rewrite IH. unfold finds, readable. rewrite Hm.
    destruct (List.filter running_at backends); naive_solver.
Qed.
End active.

(** C28: Following the cluster: whatever order the backends are visited in, the proxy finds an active
    backend exactly when every Deployment can be read, one of them alone is scaled to one
    replica, and that one names its model; it finds none exactly when all can be read and
    none is running.  In every other case it reports an error. *)
Theorem active_backend_exact p W (h : handler pev W) cluster backends order w :
  (forall w name, (h _ (PGetDeployment (px_namespace p) name) w).1 = cluster name) ->
  order ≡ₚ backends ->
  (forall b m, value h (find_active p order None) w = Ok (Some (b, m)) <->
     readable cluster backends /\ List.filter (running_at cluster) backends = [b]
     /\ model_at cluster b = m /\ m <> "")
  /\ (value h (find_active p order None) w = Ok None <->
     readable cluster backends /\ List.filter (running_at cluster) backends = []).
Proof.
  intros Hc Hperm.
  assert (readable cluster order <-> readable cluster backends) as Hread by (unfold readable; by rewrite Hperm).
  assert (List.filter (running_at cluster) order ≡ₚ List.filter (running_at cluster) backends) as Hfilter.
  { clear Hread. induction Hperm; cbn; repeat case_match; by econstructor. }
  assert (forall r, value h (find_active p order None) w = Ok r <-> finds cluster backends None r) as Hfinds.
  { intros r. rewrite (find_active_finds p h cluster Hc). unfold finds. rewrite Hread.
    destruct (List.filter _ order) as [|b1 [|b2 l]] eqn:E.
    - apply Permutation_nil_l in Hfilter. by rewrite <- Hfilter.
    - apply Permutation_singleton_l in Hfilter. by rewrite <- Hfilter.
    - destruct (List.filter _ backends) as [|b3 [|b4 l']]; [|apply Permutation_length in Hfilter; done|done].
      by apply Permutation_nil_r in Hfilter. }
  split; [intros b m|]; rewrite Hfinds; unfold finds;
    destruct (List.filter _ backends) as [|b1 [|b2 l]]; naive_solver.
Qed.

(** ** The registry *)

Section registry.
Context (acc : nested) (lib : proxylib).
Abbreviation parse := (parseLLMModel acc lib).
Abbreviation parse_overlay := (parseLLMModelOverlay acc lib).

(** The models the objects describe, when all of them can be read. *)
Definition parsed {A} (f : unstructured -> result A) (objects : list unstructured) : option (list A) :=
  mapM (fun o => match f o with Ok a => Some a | Err _ => None end) objects.

Lemma parsed_cons {A} (f : unstructured -> result A) o objects :
  parsed f (o :: objects) =
    match f o, parsed f objects with Ok a, Some l => Some (a :: l) | _, _ => None end.
Proof. unfold parsed. cbn. destruct (f o); cbn; [|done]. by destruct (mapM _ _). Qed.

(** Entries filed under their names on top of a map, none of them twice. *)
Definition filed {A} (name : A -> string) (l : list A) (m : gmap string A) : gmap string A :=
  list_to_map ((fun x => (name x, x)) <$> l) ∪ m.
Definition unfiled {A} (name : A -> string) (l : list A) (m : gmap string A) : Prop :=
  NoDup (name <$> l) /\ forall x, x ∈ l -> m !! name x = None.

Lemma filed_nil {A} (name : A -> string) m : filed name [] m = m.
Proof. unfold filed. cbn. apply (left_id_L ∅ (∪)). Qed.
Lemma unfiled_cons {A} (name : A -> string) x l m :
  m !! name x = None -> unfiled name (x :: l) m <-> unfiled name l (<[ name x := x ]> m).
Proof.
  intros Hx. unfold unfiled. cbn. rewrite NoDup_cons. split.
  - intros [[Hn Hnd] H]. split; [done|]. intros y Hy. rewrite lookup_insert_ne; [apply H; set_solver|].
    intros He. apply Hn. rewrite He. by apply list_elem_of_fmap_2.
  - intros [Hnd H]. split_and!; [|done|].
    + intros (y & Hy & Hin)%list_elem_of_fmap. specialize (H y Hin). by rewrite <- Hy, lookup_insert_eq in H.
    + intros y [->|Hy]%elem_of_cons; [done|]. specialize (H y Hy). by apply lookup_insert_None in H as [? _].
Qed.
Lemma filed_cons {A} (name : A -> string) x l m :
  unfiled name (x :: l) m -> filed name (x :: l) m = filed name l (<[ name x := x ]> m).
Proof.
  intros [Hnd _]. cbn in Hnd. apply NoDup_cons in Hnd as [Hn _]. unfold filed. cbn.
  rewrite <- insert_union_l, insert_union_r; [done|].
  apply not_elem_of_list_to_map_1. by rewrite <- list_fmap_compose.
Qed.

Lemma add_models_exact objects next r :
  add_models acc lib objects next = Ok r <->
  exists cfgs, parsed parse objects = Some cfgs /\ unfiled mc_name cfgs (rg_models next)
    /\ r = mkRegistry (filed mc_name cfgs (rg_models next)) (rg_overlays next).
Proof.
  revert next. induction objects as [|o objects IH]; intros next; cbn [add_models].
  { split; [intros [= <-]; exists []|intros (cfgs & [= <-] & _ & ->)]; rewrite filed_nil; destruct next;
      [|done]. split_and!; [done|split; [constructor|set_solver]|done]. }
  rewrite parsed_cons. destruct (parse o) as [cfg|e]; [|naive_solver].
  destruct (rg_models next !! mc_name cfg) as [old|] eqn:El; cbn [is_some negb].
  { split; [done|]. intros (cfgs & Hc & [_ Hn] & _). destruct (parsed parse objects); simplify_eq.
    rewrite Hn in El by set_solver. done. }
  rewrite IH. cbn [rg_models rg_overlays]. split.
  - intros (cfgs & -> & Hu & ->). exists (cfg :: cfgs). rewrite <- unfiled_cons in Hu by done.
    by rewrite filed_cons.
  - intros (cfgs & Hc & Hu & ->). destruct (parsed parse objects) as [cfgs'|]; [|done]. simplify_eq.
    exists cfgs'. rewrite filed_cons by done. by rewrite <- unfiled_cons.
Qed.

(** An overlay the models admit. *)
Definition overlay_fits (models : gmap string modelConfig) (o : overlayConfig) : Prop :=
  models !! oc_name o = None /\ is_Some (models !! oc_baseModel o).

Lemma add_overlays_exact objects next r :
  add_overlays acc lib objects next = Ok r <->
  exists cfgs, parsed parse_overlay objects = Some cfgs /\ unfiled oc_name cfgs (rg_overlays next)
    /\ Forall (overlay_fits (rg_models next)) cfgs
    /\ r = mkRegistry (rg_models next) (filed oc_name cfgs (rg_overlays next)).
Proof.
  revert next. induction objects as [|o objects IH]; intros next; cbn [add_overlays].
  { split; [intros [= <-]; exists []|intros (cfgs & [= <-] & _ & _ & ->)]; rewrite filed_nil; destruct next;
      [|done]. split_and!; [done|split; [constructor|set_solver]|constructor|done]. }
  rewrite parsed_cons. destruct (parse_overlay o) as [cfg|e]; [|naive_solver].
  assert (forall cfgs, Forall (overlay_fits (rg_models next)) (cfg :: cfgs) <->
    rg_models next !! oc_name cfg = None /\ is_Some (rg_models next !! oc_baseModel cfg)
    /\ Forall (overlay_fits (rg_models next)) cfgs) as Hf by (intros; rewrite Forall_cons; unfold overlay_fits; tauto).
  destruct (rg_models next !! oc_name cfg) eqn:Em; cbn [is_some negb].
  { split; [done|]. intros (cfgs & Hc & _ & Hall & _). destruct (parsed parse_overlay objects); simplify_eq.
    by apply Hf in Hall as [? _]. }
  destruct (rg_overlays next !! oc_name cfg) eqn:El; cbn [is_some negb].
  { split; [done|]. intros (cfgs & Hc & [_ Hn] & _). destruct (parsed parse_overlay objects); simplify_eq.
    rewrite Hn in El by set_solver. done. }
  destruct (rg_models next !! oc_baseModel cfg) eqn:Eb; cbn [is_some].
  2:{ split; [done|]. intros (cfgs & Hc & _ & Hall & _). destruct (parsed parse_overlay objects); simplify_eq.
      apply Hf in Hall as (_ & [? ?] & _). done. }
  rewrite IH. cbn [rg_models rg_overlays]. split.
  - intros (cfgs & -> & Hu & Hall & ->). exists (cfg :: cfgs). rewrite <- unfiled_cons in Hu by done.
    rewrite filed_cons by done. split_and!; [done..| |done]. apply Hf. eauto.
  - intros (cfgs & Hc & Hu & Hall & ->). destruct (parsed parse_overlay objects) as [cfgs'|]; [|done]. simplify_eq.
    exists cfgs'. rewrite filed_cons by done. rewrite <- unfiled_cons by done.
    split_and!; [done..| |done]. by apply Hf in Hall as (_ & _ & ?).
Qed.
End registry.

Lemma lookup_filed {A} (name : A -> string) l k x :
  NoDup (name <$> l) -> filed name l ∅ !! k = Some x <-> x ∈ l /\ name x = k.
Proof.
  intros Hnd. unfold filed. rewrite (right_id_L ∅ (∪)).
  rewrite <- elem_of_list_to_map by (by rewrite <- list_fmap_compose).
  rewrite list_elem_of_fmap. naive_solver.
Qed.

(** C29: Loading the catalogue: it succeeds exactly when every LLMModel and every LLMModelOverlay can
    be read, no two models and no two overlays share a name, no overlay has a model's name
    and every overlay's base model exists; the registry then lists exactly those models and
    overlays, each under its name.  One unusable object therefore keeps the whole catalogue
    from being refreshed. *)
Theorem catalogue_loaded_exactly acc lib objects overlays r :
  (try next := add_models acc lib objects empty_registry in add_overlays acc lib overlays next) = Ok r <->
  exists cfgs ovs, parsed (parseLLMModel acc lib) objects = Some cfgs
    /\ parsed (parseLLMModelOverlay acc lib) overlays = Some ovs
    /\ NoDup (mc_name <$> cfgs) /\ NoDup (oc_name <$> ovs)
    /\ (forall o, o ∈ ovs -> ~ (exists cfg, cfg ∈ cfgs /\ mc_name cfg = oc_name o)
                          /\ exists cfg, cfg ∈ cfgs /\ mc_name cfg = oc_baseModel o)
    /\ r = mkRegistry (filed mc_name cfgs ∅) (filed oc_name ovs ∅).
Proof.
  rewrite rbind_ok. setoid_rewrite add_models_exact. setoid_rewrite add_overlays_exact. cbn. split.
  - intros (next & (cfgs & Hc & [Hnd _] & ->) & (ovs & Ho & [Hnd' _] & Hall & ->)). cbn in *.
    exists cfgs, ovs. split_and!; try done. intros o Hin. rewrite Forall_forall in Hall.
    destruct (Hall o Hin) as [Hnone [cfg Hcfg]]. split.
    + intros Hex. destruct Hex as (cfg' & Hex). apply lookup_filed in Hex; [|done]. congruence.
    + exists cfg. by apply lookup_filed in Hcfg.
  - intros (cfgs & ovs & Hc & Ho & Hnd & Hnd' & Hall & ->). eexists. split.
    + exists cfgs. split_and!; [done| |done]. split; [done|]. intros. apply lookup_empty.
    + exists ovs. cbn. split_and!; [done|split; [done|intros; apply lookup_empty]| |done].
      apply Forall_forall. intros o Hin. destruct (Hall o Hin) as [Hnone (cfg & Hcfg)]. split.
      * apply eq_None_not_Some. intros [cfg' Hcfg']. apply Hnone. exists cfg'. by apply lookup_filed in Hcfg'.
      * exists cfg. by apply lookup_filed.
Qed.

(** ** The list of models *)

Lemma id_of_card id created metadata : id_of (card_of id created metadata) = id.
Proof. unfold id_of, string_field, field, card_of. by rewrite lookup_insert_eq. Qed.

Section listing.
Context (lib : proxylib) (r : registry) (Hr : registry_ok r).
Abbreviation cards ms os := (map (modelCard lib) ms ++ map (fun o => overlayModelCard lib o (base_of r o)) os).

Lemma cards_ids ms os : map id_of (cards ms os) = map mc_name ms ++ map oc_name os.
Proof using Type.
  rewrite map_app, !map_map. f_equal; apply map_ext; intros; apply id_of_card.
Qed.
Lemma registered_models : map mc_name (map snd (map_to_list (rg_models r))) = (map_to_list (rg_models r)).*1.
Proof using Hr.
  rewrite map_map. apply map_ext_in. intros [k cfg] Hin%list_elem_of_In%elem_of_map_to_list.
  apply (models_filed _ Hr) in Hin as [? _]. done.
Qed.
Lemma registered_overlays : map oc_name (map snd (map_to_list (rg_overlays r))) = (map_to_list (rg_overlays r)).*1.
Proof using Hr.
  rewrite map_map. apply map_ext_in. intros [k o] Hin%list_elem_of_In%elem_of_map_to_list.
  apply (overlays_filed _ Hr) in Hin as [? _]. done.
Qed.

Lemma registered_ids_NoDup :
  NoDup ((map_to_list (rg_models r)).*1 ++ (map_to_list (rg_overlays r)).*1).
Proof using Hr.
  apply NoDup_app. split_and!; [apply NoDup_fst_map_to_list| |apply NoDup_fst_map_to_list].
  intros k ([k1 cfg] & -> & Hm)%list_elem_of_fmap ([k2 o] & Hk & Ho)%list_elem_of_fmap. cbn in *. subst.
  apply elem_of_map_to_list in Hm, Ho. pose proof (names_disjoint _ Hr k2 ltac:(eauto)). congruence.
Qed.
End listing.

Definition card_less (a b : object) : bool := String.ltb (id_of a) (id_of b).
(** Sorting cards with different ids leaves one possible order. *)
Lemma sorted_cards_unique l l' :
  NoDup (map id_of l) -> l ≡ₚ l' -> sort_slice card_less l = sort_slice card_less l'.
Proof.
  intros Hnd Hp.
  assert (forall l, sorted_by card_less (sort_slice card_less l)) as Hs.
  { intros. apply sort_slice_sorted; unfold card_less; eauto using string_ltb_asym, string_ltb_neg_trans. }
  apply (StronglySorted_unique_strong (fun x y => card_less y x = false)); [|apply Hs..|by rewrite !sort_slice_perm].
  intros x y Hx Hy Hxy Hyx. rewrite sort_slice_perm in Hx, Hy. rewrite <- Hp in Hy.
  assert (id_of x = id_of y) as He by (by apply string_ltb_total).
  apply list_elem_of_lookup in Hx as [i Hi], Hy as [j Hj].
  assert (i = j) as ->; [|congruence]. eapply (NoDup_lookup (map id_of l)); [done| |].
  - by rewrite list_lookup_fmap, Hi.
  - rewrite list_lookup_fmap, Hj. cbn. by rewrite He.
Qed.
Lemma sort_slice_strict l :
  NoDup (map id_of l) -> StronglySorted (fun a b => String.ltb a b = true) (map id_of (sort_slice card_less l)).
Proof.
  intros Hnd. assert (NoDup (map id_of (sort_slice card_less l))) as Hnd'.
  { by rewrite sort_slice_perm. }
  assert (sorted_by card_less (sort_slice card_less l)) as Hs
    by (apply sort_slice_sorted; unfold card_less; eauto using string_ltb_asym, string_ltb_neg_trans).
  induction Hs as [|x l' Hs IH Hx]; cbn in *; [constructor|]. apply NoDup_cons in Hnd' as [Hn Hnd'].
  constructor; [by apply IH|]. apply Forall_fmap. apply Forall_forall. intros y Hy. cbn.
  destruct (String.ltb (id_of x) (id_of y)) eqn:E; [done|]. exfalso. apply Hn.
  rewrite Forall_forall in Hx. rewrite (string_ltb_total (id_of x) (id_of y) E); [|by apply Hx].
  by apply list_elem_of_fmap_2.
Qed.

(** The list of models: for a well-formed registry it has one card for every model and every
    overlay and no other, strictly ordered by id, and it does not depend on the order in
    which Go visits the maps. *)
Theorem model_list_exact lib r ms os :
  registry_ok r ->
  ms ≡ₚ map snd (map_to_list (rg_models r)) -> os ≡ₚ map snd (map_to_list (rg_overlays r)) ->
  let l := catalogue lib r ms os in
  StronglySorted (fun a b => String.ltb a b = true) (map id_of l)
  /\ (forall card, card ∈ l <->
       (exists name cfg, rg_models r !! name = Some cfg /\ card = modelCard lib cfg)
       \/ (exists name o, rg_overlays r !! name = Some o /\ card = overlayModelCard lib o (base_of r o)))
  /\ l = catalogue lib r (map snd (map_to_list (rg_models r))) (map snd (map_to_list (rg_overlays r))).
Proof.
  intros Hr Hms Hos. cbn. unfold catalogue. fold card_less.
  set (f := modelCard lib). set (g := fun o => overlayModelCard lib o (base_of r o)).
  assert (map f ms ++ map g os ≡ₚ map f (map snd (map_to_list (rg_models r)))
            ++ map g (map snd (map_to_list (rg_overlays r)))) as Hp by (by rewrite Hms, Hos).
  assert (NoDup (map id_of (map f ms ++ map g os))) as Hnd.
  { rewrite Hp. unfold f, g. rewrite cards_ids, registered_models, registered_overlays by done.
    by apply registered_ids_NoDup. }
  split_and!; [by apply sort_slice_strict| |by apply sorted_cards_unique].
  intros card. rewrite sort_slice_perm, Hp, elem_of_app. f_equiv.
  - rewrite list_elem_of_fmap. setoid_rewrite list_elem_of_fmap. split.
    + intros (cfg & -> & [k cfg'] & -> & Hin%elem_of_map_to_list). by exists k, cfg'.
    + intros (k & cfg & Hk & ->). exists cfg. split; [done|]. exists (k, cfg). by rewrite elem_of_map_to_list.
  - rewrite list_elem_of_fmap. setoid_rewrite list_elem_of_fmap. split.
    + intros (o & -> & [k o'] & -> & Hin%elem_of_map_to_list). by exists k, o'.
    + intros (k & o & Hk & ->). exists o. split; [done|]. exists (k, o). by rewrite elem_of_map_to_list.
Qed.

(** ** Witnesses *)

(** A client that sets one of two nested defaults. *)
Definition chat_request : object := {[
  "model" := JString "gemma-fast"; "temperature" := JNumber "1";
  "chat_template_kwargs" := JObject {[ "thinking" := JBool true ]} ]}.
Definition chat_defaults : object := {[
  "temperature" := JNumber "0"; "top_p" := JNumber "0.9";
  "chat_template_kwargs" := JObject {[ "thinking" := JBool false; "effort" := JString "low" ]} ]}.
Definition overlay_lib : proxylib := {|
  parseURL := parseURL plain_lib; withPath := withPath plain_lib; resolvePath := resolvePath plain_lib;
  pathEscape := pathEscape plain_lib; requestError := requestError plain_lib;
  decodeObject body := Ok (Some (if body == "defaults" then chat_defaults else chat_request));
  encodeJSON j := match j with JObject m => Ok (string_field m "model") | _ => Ok "" end;
  encodeRuntime := encodeRuntime plain_lib; validJSON := validJSON plain_lib;
  decodeModelField := decodeModelField plain_lib; decodeModalities := decodeModalities plain_lib;
  decodeIDs := decodeIDs plain_lib; decodeStream := decodeStream plain_lib;
  decodeTotal := decodeTotal plain_lib; parseQuantity := parseQuantity plain_lib;
|}.
Definition fast_overlay : overlayConfig := mkOverlayConfig "gemma-fast" "fast" "gemma" 0 "defaults" "".

Lemma overlay_request_exact_witness :
  exists merged : object,
    merged !! "model" = Some (JString "gemma")
    /\ at_path (JObject merged) ["temperature"] = Some (JNumber "1")
    /\ at_path (JObject merged) ["top_p"] = Some (JNumber "0.9")
    /\ at_path (JObject merged) ["chat_template_kwargs"; "thinking"] = Some (JBool true)
    /\ at_path (JObject merged) ["chat_template_kwargs"; "effort"] = Some (JString "low").
Proof.
  destruct (overlay_request_exact overlay_lib "request" fast_overlay chat_request chat_defaults "gemma" eq_refl eq_refl)
    as (merged & _ & Hm & Hpath & _); [by vm_compute|].
  exists merged. rewrite !Hpath by done. split_and!; [done|by vm_compute..].
Defined.

Definition cluster_of (name : string) : result Deployment :=
  Ok (annotated name "gemma" (if name == "llm-vllm" then 1 else 0)).
Definition two_backends : list backendConfig :=
  [mkBackendConfig "vllm" "llm-vllm" "vllm" None; mkBackendConfig "llama-cpp" "llm-laguna" "laguna" None].
Lemma active_backend_exact_witness :
  value (fun X (e : pev X) (n : nat) => (plain_services plain_state 0 n X e, S n))
    (find_active plain_proxy (reverse two_backends) None) 0%nat
  = Ok (Some (mkBackendConfig "vllm" "llm-vllm" "vllm" None, "gemma")).
Proof.
  apply (active_backend_exact plain_proxy nat (fun X (e : pev X) (n : nat) => (plain_services plain_state 0 n X e, S n))
    cluster_of two_backends (reverse two_backends) 0%nat); [done|apply reverse_Permutation|].
  split; [by repeat constructor|]. by vm_compute.
Defined.

Definition loaded : result registry :=
  try next := add_models plain_nested plain_lib [model_object "qwen"; model_object "gemma"] empty_registry in
  add_overlays plain_nested plain_lib [overlay_object] next.
Definition loaded_registry : registry := match loaded with Ok r => r | Err _ => empty_registry end.
Lemma loaded_registry_ok : registry_ok loaded_registry.
Proof.
  unfold loaded_registry. destruct loaded as [r|] eqn:E; [|apply empty_registry_ok].
  apply rbind_ok in E as (next & Hn & Ho).
  destruct (add_models_ok _ _ _ empty_registry _ eq_refl empty_registry_ok Hn) as [Hok _]. exact (add_overlays_ok _ _ _ _ _ Hok Ho).
Qed.
Lemma model_list_exact_witness :
  let l := catalogue plain_lib loaded_registry
    (map snd (map_to_list (rg_models loaded_registry))) (map snd (map_to_list (rg_overlays loaded_registry))) in
  map id_of l = ["gemma"; "gemma-fast"; "qwen"] /\ StronglySorted (fun a b => String.ltb a b = true) (map id_of l).
Proof.
  split; [by vm_compute|]. apply (model_list_exact plain_lib loaded_registry); [apply loaded_registry_ok|done|done].
Defined.
