(* ===== verification/ProxyMain.v ===== *)
(** * The proxy's [main] ([cmd/llm-proxy/main.go])

    Which of its commands the arguments choose and how a failed one exits, and which watch
    loops a serving proxy starts once the registry has been loaded for the first time. *)

From S2P Require Import Prelude GoStrings Types Effects Api Driver Json ProxyApi ProxyCatalog ProxyRuntime ProxySwitch ProxyServe ProxyMetrics ProxySamples.

(** ** Subcommands *)

Inductive subcommand :=
| CacheManagerCommand
| GenerateConfigCommand (args : list string)
| SyncHermesCommand (args : list string)
| BootstrapHermesCommand (args : list string)
| ServeCommand.
(** [os.Args]; anything that is not a subcommand serves. *)
Definition subcommand_of (argv : list string) : subcommand :=
  match argv with
  | _ :: name :: args =>
      if name == "cache-manager" then CacheManagerCommand
      else if name == "generate-config" then GenerateConfigCommand args
      else if name == "sync-hermes" then SyncHermesCommand args
      else if name == "bootstrap-hermes" then BootstrapHermesCommand args
      else ServeCommand
  | _ => ServeCommand
  end.
(** What a command that returned leaves on standard error, and its exit status. *)
Definition exit_of {A} (name : string) (r : result A) : string * Z :=
  match r with
  | Ok _ => ("", 0)
  | Err e => (name +:+ ": " +:+ err_msg e +:+ char1 newline, 1)
  end.

(** ** Watch loops *)

Inductive watcher :=
(** on a resource of the API group *)
| WatchResource (resource kind : string)
(** on the Deployment of a backend, by its name *)
| WatchDeployment (backend : backendConfig).

Section boot.
Context (acc : nested) (lib : proxylib) (p : proxyConfig).

Definition watchLLMResources : list watcher :=
  if negb (px_dynamic p) then []
  else [WatchResource "llmmodels" "LLMModel"; WatchResource "llmmodeloverlays" "LLMModelOverlay"].
Definition watchDeployments : pprog (list watcher) :=
  let! backends := registeredBackends lib p in
  Ret (map WatchDeployment (map snd (map_to_list backends))).

(** From the first load on: a failed one is only logged. *)
Definition boot : pprog (list watcher) :=
  let! _ := refresh acc lib p in
  let! deployments := watchDeployments in
  Ret (watchLLMResources ++ deployments).
End boot.

(** The Deployments watched are those of the backends registered when the first load
    ended, one loop each: the static ones unless a model loaded by then names its own. *)
Theorem watches_registered acc lib p W (h : handler pev W) w :
  px_dynamic p = true ->
  exists ps : list modelConfig * option string,
    forall b, WatchDeployment b ∈ value h (boot acc lib p) w
      <-> exists name, (if existsb (fun cfg => mc_backendRef cfg != "") ps.1
                        then referenced_backends lib p ps.2 ps.1 else px_backends p) !! name = Some b.
Proof.
  intros Hd. unfold boot, watchDeployments, registeredBackends, reading, value. rewrite run_bind.
  destruct (run h (refresh acc lib p) w) as [[tr x] w1]. cbn. destruct (h _ _ w1) as [[models backend] w2]. cbn.
  exists (models, backend). intros b. unfold watchLLMResources. rewrite Hd. cbn.
  rewrite !elem_of_cons, list_elem_of_fmap. split.
  - intros [?|[?|(b' & [= <-] & Hb)]]; [done..|]. apply list_elem_of_fmap in Hb as ([name b''] & -> & Hb).
    apply elem_of_map_to_list in Hb. by exists name.
  - intros (name & Hb). right. right. exists b. split; [done|]. apply list_elem_of_fmap. exists (name, b).
    by split; [|apply elem_of_map_to_list].
Qed.

(** ** A backend that is not watched *)

(** One goroutine against its own memory; the catalogue can be read or not. *)
Definition muse_object : unstructured := mkUnstructured "muse" 0 {[
  "spec" := JObject {[
    "model" := JObject {[ "name" := JString "muse"; "source" := JString "org/muse" ]};
    "backendRef" := JObject {[ "name" := JString "llm-muse" ]};
    "serving" := JObject {[ "backend" := JString "vllm"; "displayName" := JString "Muse";
                            "maxModelLen" := JNumber "8192"; "args" := jstrings ["--dtype"; "auto"] ]} ]} ]}.
Definition alone (listed : bool) : handler pev ProxyPool.shared := fun X e sh =>
  let d := match e in pev X return X with
           | PListModels _ => if listed then Ok [muse_object] else Err (errorf "connection refused")
           | PListOverlays _ => Ok []
           | e => plain_services plain_state 0 0 _ e
           end in
  default (d, sh) (respond e sh d).
Definition memory0 : ProxyPool.shared := ProxyPool.mkShared plain_state (ProxyPool.mkSwitches ∅ ∅).
Definition watched (ws : list watcher) : list string :=
  omap (fun w => match w with WatchDeployment b => Some (bc_deployment b) | _ => None end) ws.

(** When the first load fails, the backend of a model that a later one brings in is served
    from, but its Deployment is not watched as long as the process lives. *)
Example late_backend_unwatched :
  let first := boot plain_nested plain_lib plain_proxy in
  let later := let! _ := refresh plain_nested plain_lib plain_proxy in registeredBackends plain_lib plain_proxy in
  watched (value (alone false) first memory0) = ["llm-vllm"; "llm-laguna"]
  /\ map (fun kv => bc_deployment kv.2) (map_to_list (value (alone true) later (final (alone false) first memory0)))
     = ["llm-muse"].
Proof. split; vm_compute; reflexivity. Qed.
