(* ===== verification/Hermes.v ===== *)
(** * Configuring Hermes from the proxy ([cmd/llm-proxy/main.go])

    The commands [sync-hermes] and [bootstrap-hermes]: fetching the proxy's catalogue,
    upgrading the answer of an older proxy, and merging it into the user's
    [config.yaml].  The YAML document is decoded JSON ([Json]). *)

From S2P Require Import Prelude GoStrings Types Effects Api Driver GoPath Json ProxyApi ProxyCatalog ProxyRuntime.

(** ** Data *)

Record hermesModelConfig := mkHermesModel { hm_default : string; hm_provider : string; hm_baseURL : string }.
Record hermesCustomProvider := mkHermesProvider {
  hp_name : string; hp_baseURL : string; hp_apiMode : string;
  (** context lengths by model *)
  hp_models : gmap string Z;
}.
Record hermesConfigPayload := mkHermesPayload {
  hc_model : hermesModelConfig; hc_customProviders : list hermesCustomProvider }.

(** ** Services *)

Inductive hev : Type -> Type :=
| HGet (url : string) : hev (result http_response)
| HReadFile (path : string) : hev (result string)
| HMkdirAll (path : string) : hev (result unit)
| HWriteFile (path body : string) : hev (result unit)
| HPrint (text : string) : hev (result unit).
Notation hprog := (prog hev).

Record hermeslib := mkHermeslib {
  (** [yaml.Unmarshal] into an empty map: nil for a null document *)
  decodeYAML : string -> result (option object);
  encodeYAML : object -> result string;
  (** a [json.Decoder] on a stream, which may fail to be read: the configuration of a
      proxy's answer; the ids and context lengths of a model list *)
  decodeHermes : result string -> result hermesConfigPayload;
  decodeCatalog : result string -> result (list (string * Z));
}.

(** ** Validation *)

Definition provider_name (m : hermesModelConfig) : string := trim_prefix (hm_provider m) "custom:".
Definition provider_valid (default_ : string) (provider : hermesCustomProvider) : result unit :=
  guard negb ((hp_baseURL provider == "") || (hp_apiMode provider != "chat_completions"))
    else errorf "custom provider requires base_url and chat_completions api_mode" in
  guard (match hp_models provider !! default_ with Some n => negb (n <? 1) | None => false end)
    else errorf "active model must be present with a positive context_length" in
  guard forallb (fun '(id, n) => negb ((trim_space id == "") || (n <? 1))) (map_to_list (hp_models provider))
    else errorf "custom provider models require IDs and positive context_length values" in
  Ok tt.
Definition validateHermesConfig (remote : hermesConfigPayload) : result unit :=
  let m := hc_model remote in
  guard negb ((hm_default m == "") || (hm_provider m == "")) else errorf "model.default and model.provider are required" in
  guard has_prefix (hm_provider m) "custom:" else errorf "model.provider must name a custom provider" in
  match List.find (fun provider => hp_name provider == provider_name m) (hc_customProviders remote) with
  | Some provider => provider_valid (hm_default m) provider
  | None => Err (errorf ("custom provider " +:+ quote (provider_name m) +:+ " is missing"))
  end.

(** ** Merging into the user's configuration *)

Definition shouldSyncHermesModel (current : json) (proxyProvider : string) : bool :=
  match current with
  | JNull => true
  | JString sentinel => trim_space sentinel == ""
  | JObject model => let provider := string_field model "provider" in (provider == "") || (provider == proxyProvider)
  | _ => false
  end.

Definition synced_model (current : json) (remote : hermesModelConfig) : object :=
  let model := default ∅ (as_object current) in
  let model := <[ "default" := JString (hm_default remote) ]> model in
  let model := <[ "provider" := JString (hm_provider remote) ]> model in
  delete "api_mode" (delete "api_key" (delete "base_url" model)).
Definition provider_entry (provider : hermesCustomProvider) : object := {[
  "name" := JString (hp_name provider); "base_url" := JString (hp_baseURL provider);
  "api_mode" := JString (hp_apiMode provider);
  "models" := JObject ((fun n => JObject {[ "context_length" := jnum n ]}) <$> hp_models provider) ]}.
(** The entries that are kept, or the first that is no mapping. *)
Fixpoint other_providers (name : string) (providers : list json) : result (list json) :=
  match providers with
  | [] => Ok []
  | JObject entry :: rest =>
      try updated := other_providers name rest in
      Ok (if is_string (field entry "name") name then updated else JObject entry :: updated)
  | _ :: _ => Err (errorf "custom_providers entries must be YAML mappings")
  end.

(** The body of [writeHermesConfig] between reading and writing the file. *)
Definition sync_config (config : object) (remote : hermesConfigPayload) : result object :=
  let m := hc_model remote in
  let config :=
    if shouldSyncHermesModel (field config "model") (hm_provider m)
    then <[ "model" := JObject (synced_model (field config "model") m) ]> config else config in
  let name := provider_name m in
  try providers := match config !! "custom_providers" with
                   | None => Ok []
                   | Some (JArray l) => Ok l
                   | Some _ => Err (errorf "custom_providers must be a YAML list")
                   end in
  try updated := other_providers name providers in
  let added := map (fun provider => JObject (provider_entry provider))
                 (List.filter (fun provider => hp_name provider == name) (hc_customProviders remote)) in
  Ok (<[ "custom_providers" := JArray (updated ++ added) ]> config).

Definition is_mapping (j : json) : bool := is_some (as_object j).
Definition hermesProviderEntries (raw : json) : result (list json) :=
  match raw with
  | JNull => Ok []
  | JArray providers =>
      guard forallb is_mapping providers else errorf "custom_providers entries must be YAML mappings" in Ok providers
  | _ => Err (errorf "custom_providers must be a YAML list")
  end.
Definition hasHermesProvider (providers : list json) (name : string) : bool :=
  existsb (fun provider => match provider with JObject entry => is_string (field entry "name") name | _ => false end)
    providers.

(** The model to store, when it changed. *)
Definition bootstrapHermesModel (raw : json) (remote : hermesModelConfig) : result (option object) :=
  let fresh : object := {[ "provider" := JString (hm_provider remote); "default" := JString (hm_default remote) ]} in
  match raw with
  | JNull => Ok (Some fresh)
  | JString legacy => Ok (if trim_space legacy == "" then Some fresh else None)
  | JObject model =>
      let provider := trim_space (string_field model "provider") in
      let defaultModel := trim_space (string_field model "default") in
      Ok (if (provider != "") && (provider != hm_provider remote) then None
          else if (provider == hm_provider remote) && (defaultModel == "") then
            Some (<[ "default" := JString (hm_default remote) ]> model)
          else if (provider == "") && (defaultModel == "") then
            Some (<[ "default" := JString (hm_default remote) ]>
                    (<[ "provider" := JString (hm_provider remote) ]> model))
          else None)
  | _ => Err (errorf "model must be a YAML mapping")
  end.
Definition bootstrap_entry (source : hermesCustomProvider) : object := {[
  "name" := JString (hp_name source); "base_url" := JString (hp_baseURL source);
  "api_mode" := JString (hp_apiMode source); "discover_models" := JBool true ]}.

(** The body of [bootstrapHermesConfig] between reading and writing the file: the new
    configuration, when it changed. *)
Definition bootstrap_config (config : object) (remote : hermesConfigPayload) : result (option object) :=
  let m := hc_model remote in
  let name := provider_name m in
  try providers := hermesProviderEntries (field config "custom_providers") in
  try (config, changed) :=
    (if hasHermesProvider providers name then Ok (config, false)
     else match List.find (fun provider => hp_name provider == name) (hc_customProviders remote) with
          | None => Err (errorf ("custom provider " +:+ quote name +:+ " is missing"))
          | Some source =>
              Ok (<[ "custom_providers" := JArray (providers ++ [JObject (bootstrap_entry source)]) ]> config, true)
          end) in
  try model := bootstrapHermesModel (field config "model") m in
  Ok (match model with
      | Some model => Some (<[ "model" := JObject model ]> config)
      | None => if changed then Some config else None
      end).

(** ** The commands *)

(** What a command did: it returned, or wrote to a nil map. *)
Inductive ran (A : Type) := Ran (r : result A) | Panicked.
Arguments Ran {A} r.
Arguments Panicked {A}.
Definition ran_bind {A B} (x : hprog (ran A)) (f : A -> hprog (ran B)) : hprog (ran B) :=
  let! x := x in
  match x with Ran (Ok a) => f a | Ran (Err e) => Ret (Ran (Err e)) | Panicked => Ret Panicked end.
Definition run_ok {A} (x : hprog (result A)) : hprog (ran A) := let! r := x in Ret (Ran r).

Section commands.
Context (lib : proxylib) (hlib : hermeslib).

(** The user's configuration: empty when there is no file, nil when the document is null. *)
Definition read_config (path : string) : hprog (result (option object)) :=
  let! body := call (HReadFile path) in
  Ret (match body with
       | Ok body => match decodeYAML hlib body with
                    | Ok config => Ok config
                    | Err e => Err (wrap "parse Hermes config: " e)
                    end
       | Err e => if err_is ErrNotFound e then Ok (Some ∅) else Err e
       end).
Definition write_config (path : string) (config : object) : hprog (result unit) :=
  let* body := Ret (encodeYAML hlib config) in
  do* call (HMkdirAll (dir_name path));
  call (HWriteFile path body).

Definition writeHermesConfig (path : string) (remote : hermesConfigPayload) : hprog (ran unit) :=
  ran_bind (run_ok (read_config path)) (fun config =>
    match config with
    | None => Ret Panicked
    | Some config => run_ok (let* config := Ret (sync_config config remote) in write_config path config)
    end).

(** Whether the file was changed. *)
Definition bootstrapHermesConfig (path : string) (remote : hermesConfigPayload) : hprog (ran bool) :=
  ran_bind (run_ok (Ret (validateHermesConfig remote))) (fun _ =>
  ran_bind (run_ok (read_config path)) (fun config =>
    match config with
    | None => Ret Panicked
    | Some config =>
        run_ok (let* changed := Ret (bootstrap_config config remote) in
                match changed with
                | None => ok false
                | Some config => do* write_config path config; ok true
                end)
    end)).

Fixpoint catalog_models (data : list (string * Z)) (models : gmap string Z) : result (gmap string Z) :=
  match data with
  | [] => Ok models
  | (id, n) :: rest =>
      guard negb ((id == "") || (n <? 1)) else errorf "proxy model catalog contains an invalid model" in
      catalog_models rest (<[ id := n ]> models)
  end.
Definition fetch_from (what url : string) : hprog (result http_response) :=
  match requestError lib url with
  | Some e => Ret (Err e)
  | None =>
      let* resp := wrapping ("fetch proxy " +:+ what +:+ ": ") (call (HGet url)) in
      if hr_code resp =? 200 then ok resp
      else fails ("fetch proxy " +:+ what +:+ ": proxy returned " +:+ hr_status resp)
  end.
Definition upgradeLegacyHermesConfig (proxyURL : string) (legacy : hermesConfigPayload)
    : hprog (result hermesConfigPayload) :=
  let m := hc_model legacy in
  if (hm_provider m != "custom") || (hm_default m == "") || (hm_baseURL m == "") then
    fails "not a legacy custom proxy configuration"
  else
    let* endpoint := Ret (parseURL lib (trim_suffix proxyURL "/" +:+ "/v1/models")) in
    let* resp := fetch_from "model catalog" endpoint in
    let* data := wrapping "decode proxy model catalog: "
                   (Ret (decodeCatalog hlib (limited (Z.shiftl 1 20) (hr_body resp)))) in
    let* models := Ret (catalog_models data ∅) in
    ok (mkHermesPayload (mkHermesModel (hm_default m) "custom:llm-proxy" "")
          [mkHermesProvider "llm-proxy" (hm_baseURL m) "chat_completions" models]).

Definition fetchHermesConfig (proxyURL target : string) : hprog (result (hermesConfigPayload * string)) :=
  let* u := Ret (parseURL lib (trim_suffix proxyURL "/" +:+ "/vllm-proxy/config/" +:+ pathEscape lib target)) in
  let* resp := fetch_from "config" u in
  let* remote := wrapping "decode proxy config: "
                   (Ret (decodeHermes hlib (limited (Z.shiftl 1 20) (hr_body resp)))) in
  match validateHermesConfig remote with
  | Ok _ => ok (remote, u)
  | Err e =>
      let! upgraded := upgradeLegacyHermesConfig proxyURL remote in
      match upgraded with
      | Ok remote => ok (remote, u)
      | Err _ => Ret (Err (wrap "invalid proxy Hermes configuration: " e))
      end
  end.

(** The flags of both commands and the number of arguments left. *)
Record hermesFlags := mkHermesFlags { hf_proxyURL : string; hf_target : string; hf_config : string; hf_args : nat }.
Definition defaultHermesConfigPath (home : result string) : string :=
  match home with Ok home => home +:+ "/.hermes/config.yaml" | Err _ => "~/.hermes/config.yaml" end.
Definition defaultFlags (proxyURL : string) (home : result string) : hermesFlags :=
  mkHermesFlags proxyURL "hermes-agent" (defaultHermesConfigPath home) 0.
Definition check_flags (usage : string) (flags : result hermesFlags) : result hermesFlags :=
  try f := flags in
  guard (hf_args f =? 0)%nat else errorf usage in
  guard hf_proxyURL f != "" else errorf "--proxy-url or VLLM_PROXY_URL is required" in
  Ok f.

(** [flags]: what parsing the arguments over the defaults gave. *)
Definition runSyncHermesWithClient (flags : result hermesFlags) : hprog (ran unit) :=
  ran_bind (run_ok (Ret (check_flags "usage: vllm-proxy sync-hermes --proxy-url URL [--config PATH] [--target NAME]" flags)))
    (fun f =>
  ran_bind (run_ok (fetchHermesConfig (hf_proxyURL f) (hf_target f))) (fun '(remote, endpoint) =>
  ran_bind (writeHermesConfig (hf_config f) remote) (fun _ =>
  run_ok (call (HPrint ("Updated " +:+ hf_config f +:+ " with active model " +:+ hm_default (hc_model remote)
                        +:+ " from " +:+ endpoint +:+ "." +:+ char1 newline)))))).

Definition runBootstrapHermesWithClient (flags : result hermesFlags) : hprog (ran unit) :=
  ran_bind (run_ok (Ret (check_flags "usage: vllm-proxy bootstrap-hermes --proxy-url URL [--config PATH] [--target NAME]" flags)))
    (fun f =>
  ran_bind (run_ok (fetchHermesConfig (hf_proxyURL f) (hf_target f))) (fun '(remote, endpoint) =>
  ran_bind (bootstrapHermesConfig (hf_config f) remote) (fun changed : bool =>
  run_ok (call (HPrint
    (if changed then "Bootstrapped " +:+ hf_config f +:+ " with llm-proxy (initial model "
                     +:+ hm_default (hc_model remote) +:+ ") from " +:+ endpoint +:+ "." +:+ char1 newline
     else hf_config f +:+ " already has Hermes model and llm-proxy settings; left unchanged."
          +:+ char1 newline)))))).
End commands.
