(* ===== verification/HermesProps.v ===== *)
(** * The user's Hermes configuration is respected

    [sync-hermes] changes only what it owns and [bootstrap-hermes] only what the user
    has not chosen; both are idempotent. *)

From Stdlib Require Import Ascii.
From S2P Require Import Prelude GoStrings Types Effects Api Driver GoPath Json ProxyApi ProxyRuntime Hermes.

(** The configured providers. *)
Definition providers_of (config : object) : list json := default [] (as_array (field config "custom_providers")).
Definition has_name (name : string) (j : json) : bool :=
  match j with JObject entry => is_string (field entry "name") name | _ => false end.

Lemma field_insert_eq (m : object) k v : field (<[ k := v ]> m) k = v.
Proof. unfold field. by rewrite lookup_insert_eq. Qed.
Lemma field_insert_ne (m : object) k k' v : k <> k' -> field (<[ k := v ]> m) k' = field m k'.
Proof. intros. unfold field. by rewrite lookup_insert_ne. Qed.

Lemma providers_of_lookup config :
  providers_of config = match config !! "custom_providers" with Some (JArray l) => l | _ => [] end.
Proof.
  unfold providers_of. destruct (config !! "custom_providers") as [j|] eqn:E.
  - assert (field config "custom_providers" = j) as -> by (unfold field; by rewrite E). by destruct j.
  - assert (field config "custom_providers" = JNull) as -> by (unfold field; by rewrite E). done.
Qed.

Lemma filter_nil_forall {A} (f : A -> bool) l : List.filter f l = [] <-> Forall (fun x => f x = false) l.
Proof.
  induction l as [|x l IH]; cbn; [by split|]. rewrite Forall_cons, <- IH. destruct (f x); naive_solver.
Qed.
Lemma Forall_filter_bool {A} (P : A -> Prop) (f : A -> bool) l : Forall P l -> Forall P (List.filter f l).
Proof. induction 1; cbn; [done|]. destruct (f _); auto. Qed.

(** ** Synchronizing *)

Lemma other_providers_exact name l updated :
  other_providers name l = Ok updated <->
  Forall (fun j => is_mapping j = true) l /\ updated = List.filter (fun j => negb (has_name name j)) l.
Proof.
  revert updated. induction l as [|j l IH]; intros updated; cbn.
  { split; [intros [= <-]; auto|intros [_ ->]; done]. }
  rewrite Forall_cons. destruct j; cbn; try naive_solver.
  rewrite rbind_ok. setoid_rewrite IH. destruct (is_string _ _); cbn; naive_solver.
Qed.

Lemma provider_entry_named provider name : hp_name provider = name -> has_name name (JObject (provider_entry provider)) = true.
Proof.
  intros <-. unfold has_name, provider_entry. rewrite field_insert_eq. cbn. by rewrite bool_decide_eq_true.
Qed.

Definition synced_providers (remote : hermesConfigPayload) : list json :=
  map (fun provider => JObject (provider_entry provider))
    (List.filter (fun provider => hp_name provider == provider_name (hc_model remote)) (hc_customProviders remote)).
Lemma synced_providers_named remote :
  Forall (fun j => has_name (provider_name (hc_model remote)) j = true /\ is_mapping j = true) (synced_providers remote).
Proof.
  unfold synced_providers. apply Forall_fmap, Forall_forall. intros provider Hin. cbn.
  apply list_elem_of_In, filter_In in Hin as [_ Hn]. apply bool_decide_eq_true in Hn.
  split; [by apply provider_entry_named|done].
Qed.

Lemma synced_model_again current remote :
  synced_model (JObject (synced_model current remote)) remote = synced_model current remote.
Proof.
  unfold synced_model. cbn [as_object default option_union]. apply map_eq. intros k.
  destruct (decide (k = "api_mode")) as [->|]; [by rewrite !lookup_delete_eq|].
  rewrite !(lookup_delete_ne _ "api_mode") by done.
  destruct (decide (k = "api_key")) as [->|]; [by rewrite !lookup_delete_eq|].
  rewrite !(lookup_delete_ne _ "api_key") by done.
  destruct (decide (k = "base_url")) as [->|]; [by rewrite !lookup_delete_eq|].
  rewrite !(lookup_delete_ne _ "base_url") by done.
  destruct (decide (k = "provider")) as [->|]; [by rewrite !lookup_insert_eq|].
  rewrite !(lookup_insert_ne _ "provider") by done.
  destruct (decide (k = "default")) as [->|]; [by rewrite !lookup_insert_eq|].
  rewrite !(lookup_insert_ne _ "default") by done.
  unfold id. by rewrite !lookup_delete_ne, !lookup_insert_ne.
Qed.
Lemma synced_model_provider current remote :
  string_field (synced_model current remote) "provider" = hm_provider remote.
Proof.
  unfold string_field, field, synced_model. rewrite !lookup_delete_ne by done. by rewrite lookup_insert_eq.
Qed.

(** The model's settings after a synchronization: the proxy's selection, no credentials of
    an earlier provider, and whatever else the user had set. *)
Definition model_selected (current : json) (remote : hermesModelConfig) (model : object) : Prop :=
  model !! "default" = Some (JString (hm_default remote))
  /\ model !! "provider" = Some (JString (hm_provider remote))
  /\ (forall k, k ∈ ["base_url"; "api_key"; "api_mode"] -> model !! k = None)
  /\ (forall k, k ∉ ["default"; "provider"; "base_url"; "api_key"; "api_mode"] ->
        model !! k = default ∅ (as_object current) !! k).
Lemma synced_model_selected current remote : model_selected current remote (synced_model current remote).
Proof.
  unfold synced_model. split_and!.
  - by rewrite !lookup_delete_ne, lookup_insert_ne, lookup_insert_eq.
  - by rewrite !lookup_delete_ne, lookup_insert_eq.
  - intros k. rewrite !elem_of_cons, elem_of_nil, !lookup_delete_None. naive_solver.
  - intros k. rewrite !not_elem_of_cons. intros (? & ? & ? & ? & ? & _).
    by rewrite !lookup_delete_ne, !lookup_insert_ne.
Qed.

(** The configuration with its model synchronized. *)
Definition synced_top (config : object) (m : hermesModelConfig) : object :=
  if shouldSyncHermesModel (field config "model") (hm_provider m)
  then <[ "model" := JObject (synced_model (field config "model") m) ]> config else config.
Definition kept_providers (config : object) (m : hermesModelConfig) : list json :=
  List.filter (fun j => negb (has_name (provider_name m) j)) (providers_of config).
(** The providers are absent, or a list of mappings. *)
Definition providers_listed (config : object) : Prop :=
  (config !! "custom_providers" = None \/ exists l, config !! "custom_providers" = Some (JArray l))
  /\ Forall (fun j => is_mapping j = true) (providers_of config).

Lemma synced_top_other config m k : k <> "model" -> synced_top config m !! k = config !! k.
Proof. intros Hk. unfold synced_top. destruct (shouldSyncHermesModel _ _); [|done]. by rewrite lookup_insert_ne. Qed.

Lemma sync_config_exact config remote config' :
  sync_config config remote = Ok config' <->
  providers_listed config
  /\ config' = <[ "custom_providers" := JArray (kept_providers config (hc_model remote) ++ synced_providers remote) ]>
                 (synced_top config (hc_model remote)).
Proof.
  unfold sync_config. fold (synced_top config (hc_model remote)). rewrite synced_top_other by done.
  fold (synced_providers remote). unfold providers_listed, kept_providers.
  generalize (provider_name (hc_model remote)) as name. intros name.
  rewrite rbind_ok. setoid_rewrite rbind_ok. setoid_rewrite other_providers_exact.
  rewrite providers_of_lookup.
  destruct (config !! "custom_providers") as [[]|]; (split;
    [first [by intros (? & ? & _) | intros (? & [= <-] & ? & [? ->] & [= <-]); eauto 6]
    |first [by intros ([[?|[??]] _] & _) | intros ([_ ?] & ->); eexists; split; [done|]; eexists; eauto]]).
Qed.

Lemma synced_top_again config m config' :
  config' !! "model" = synced_top config m !! "model" -> synced_top config' m = config'.
Proof.
  intros Hf. assert (field config' "model" = field (synced_top config m) "model") as Hf' by (unfold field; by rewrite Hf).
  unfold synced_top at 1. rewrite Hf'. unfold synced_top in Hf |- *.
  destruct (shouldSyncHermesModel (field config "model") (hm_provider m)) eqn:Es.
  - rewrite field_insert_eq. cbn [shouldSyncHermesModel]. rewrite synced_model_provider.
    rewrite (bool_decide_eq_true_2 (hm_provider m = hm_provider m)), orb_true_r by done.
    rewrite synced_model_again. apply insert_id. by rewrite Hf, lookup_insert_eq.
  - by rewrite Es.
Qed.

(** The user's configuration selects something else than the proxy: a non-blank model
    name, a model whose provider is named and is another one, or a [model] setting that is
    neither a string nor a mapping. *)
Definition chose_otherwise (config : object) (proxyProvider : string) : Prop :=
  (exists sentinel, config !! "model" = Some (JString sentinel) /\ trim_space sentinel <> "")
  \/ (exists model provider, config !! "model" = Some (JObject model)
        /\ model !! "provider" = Some (JString provider) /\ provider <> "" /\ provider <> proxyProvider)
  \/ (exists setting, config !! "model" = Some setting /\ setting <> JNull
        /\ (forall s, setting <> JString s) /\ (forall o, setting <> JObject o)).

Lemma shouldSync_exact config proxyProvider :
  shouldSyncHermesModel (field config "model") proxyProvider = false <-> chose_otherwise config proxyProvider.
Proof.
  unfold chose_otherwise, field. destruct (config !! "model") as [j|]; cbn; [|naive_solver].
  destruct j as [| | |s| |o|]; cbn; try naive_solver.
  - rewrite bool_decide_eq_false. naive_solver.
  - rewrite orb_false_iff, !bool_decide_eq_false. unfold string_field, field. split.
    + destruct (o !! "provider") as [[]|] eqn:Ep; cbn; intros []; try done. right; left; eauto 7.
    + intros [(? & ? & _)|[(? & p & [= <-] & -> & ? & ?)|(? & [= <-] & _ & _ & Ho)]];
        [done|done|by destruct (Ho o)].
Qed.

(** C31: Synchronizing Hermes: when it succeeds, the [model] setting is left as it was
    exactly when the user selected something else (a non-blank model name, a mapping whose
    provider is neither empty nor the proxy's, or a value that is no string and no
    mapping); otherwise (absent, blank, without a provider or already of the proxy's
    provider) it becomes the proxy's selection, credentials of an earlier provider removed and
    its other settings kept.  The provider's entries are replaced by the proxy's and all
    other entries stay in their order, every other setting of the file is
    untouched, and synchronizing again changes nothing. *)
Theorem hermes_sync_exact config remote config' :
  sync_config config remote = Ok config' ->
  let name := provider_name (hc_model remote) in
  (chose_otherwise config (hm_provider (hc_model remote)) -> config' !! "model" = config !! "model")
  /\ (~ chose_otherwise config (hm_provider (hc_model remote)) ->
        exists model, config' !! "model" = Some (JObject model)
          /\ model_selected (field config "model") (hc_model remote) model)
  /\ providers_of config' = List.filter (fun j => negb (has_name name j)) (providers_of config) ++ synced_providers remote
  /\ (forall k, k <> "model" -> k <> "custom_providers" -> config' !! k = config !! k)
  /\ sync_config config' remote = Ok config'.
Proof.
  intros [Hl ->]%sync_config_exact. split_and!.
  - rewrite <- shouldSync_exact. intros Hs. unfold synced_top. by rewrite Hs, lookup_insert_ne.
  - rewrite <- shouldSync_exact, not_false_iff_true. intros Hs. unfold synced_top.
    rewrite Hs, lookup_insert_ne, lookup_insert_eq by done. eexists. split; [done|apply synced_model_selected].
  - unfold providers_of at 1. by rewrite field_insert_eq.
  - intros k Hk1 Hk2. rewrite lookup_insert_ne by done. by apply synced_top_other.
  - apply sync_config_exact. pose proof (synced_providers_named remote) as Hsp.
    set (config' := <[ "custom_providers" := _ ]> _).
    assert (providers_of config' = kept_providers config (hc_model remote) ++ synced_providers remote) as Hp
      by (unfold providers_of, config'; by rewrite field_insert_eq).
    assert (kept_providers config' (hc_model remote) = kept_providers config (hc_model remote)) as Hk.
    { unfold kept_providers at 1. rewrite Hp, List.filter_app. unfold kept_providers. rewrite filter_idem.
      rewrite (proj2 (filter_nil_forall _ (synced_providers remote))); [apply app_nil_r|].
      eapply Forall_impl; [exact Hsp|]. by intros j [-> _]. }
    rewrite Hk. split.
    + split; [right; eexists; apply lookup_insert_eq|]. rewrite Hp. apply Forall_app. split.
      * apply Forall_filter_bool, Hl.
      * eapply Forall_impl; [exact Hsp|]. by intros j [].
    + rewrite (synced_top_again config (hc_model remote)).
      * unfold config'. by rewrite insert_insert_eq.
      * unfold config'. by rewrite lookup_insert_ne.
Qed.

(** ** Bootstrapping *)

(** A string that starts with a letter is not blank. *)
Lemma first_some_inv {A B} (f : A -> option B) l b : first_some f l = Some b -> exists a, a ∈ l /\ f a = Some b.
Proof.
  induction l as [|a l IH]; cbn; [done|]. destruct (f a) eqn:E; [intros [= <-]; exists a; set_solver|].
  intros (a' & ? & ?)%IH. exists a'. set_solver.
Qed.
Lemma trim_suffix_head n s : exists t, trim_with cut_suffix n (String "c"%char s) = String "c"%char t.
Proof.
  revert s. induction n as [|n IH]; intros s; [by eexists|]. cbn [trim_with].
  destruct (first_some _ space_seqs) as [r|] eqn:E; [|by eexists].
  apply first_some_inv in E as (suf & Hin & Hr). apply cut_suffix_spec in Hr. destruct r as [|c r].
  - exfalso. assert (Forall (fun q => has_prefix q "c" = false) space_seqs) as Hf by (by repeat constructor).
    rewrite Forall_forall in Hf. specialize (Hf suf Hin). change (EmptyString +:+ suf) with suf in Hr. by rewrite <- Hr in Hf.
  - rewrite sapp_cons in Hr. injection Hr as <- ->. apply IH.
Qed.
Lemma custom_not_blank s : has_prefix s "custom:" = true -> trim_space s <> "".
Proof.
  intros [r ->]%has_prefix_spec. unfold trim_space.
  assert (forall n, trim_with cut_prefix n ("custom:" +:+ r) = "custom:" +:+ r) as -> by (by intros []).
  generalize (String.length ("custom:" +:+ r)) as n. intros n.
  destruct (trim_suffix_head n ("ustom:" +:+ r)) as [t Ht].
  change ("custom:" +:+ r) with (String "c"%char ("ustom:" +:+ r)). by rewrite Ht.
Qed.

(** What validation says of the remote model. *)
Lemma validated_remote remote :
  validateHermesConfig remote = Ok tt ->
  trim_space (hm_provider (hc_model remote)) <> "" /\ trim_space (hm_default (hc_model remote)) <> ""
  /\ exists source, List.find (fun provider => hp_name provider == provider_name (hc_model remote))
                      (hc_customProviders remote) = Some source.
Proof.
  unfold validateHermesConfig. intros H. ok_inv.
  destruct (List.find _ _) as [source|] eqn:Ef; [|done]. unfold provider_valid in H. ok_inv.
  split_and!; [by apply custom_not_blank| |by eexists].
  destruct (hp_models source !! hm_default (hc_model remote)) as [n|] eqn:El; [|done].
  apply elem_of_map_to_list, list_elem_of_In in El.
  rewrite forallb_forall in Heqb2. specialize (Heqb2 _ El). cbn in Heqb2. ok_inv.
  by eapply bool_decide_eq_false_1.
Qed.

Lemma string_field_insert_eq (m : object) k v : string_field (<[ k := JString v ]> m) k = v.
Proof. unfold string_field. by rewrite field_insert_eq. Qed.
Lemma string_field_insert_ne (m : object) k k' v : k <> k' -> string_field (<[ k := v ]> m) k' = string_field m k'.
Proof. intros. unfold string_field. by rewrite field_insert_ne. Qed.

(** A model that names a default and, if any, the proxy's provider is left alone. *)
Lemma settled_model model m :
  trim_space (string_field model "default") <> "" -> bootstrapHermesModel (JObject model) m = Ok None.
Proof.
  intros Hd. cbn. rewrite (bool_decide_eq_false_2 (trim_space (string_field model "default") = "")) by done.
  rewrite !andb_false_r. by destruct (_ && _).
Qed.

Section bootstrap.
Context (m : hermesModelConfig).
Context (HD : trim_space (hm_default m) <> "").

(** What becomes of the user's model. *)
Definition model_respected (raw after : json) : Prop :=
  (forall s, raw = JString s -> trim_space s <> "" -> after = raw)
  /\ (forall model, raw = JObject model -> exists model', after = JObject model'
       /\ (forall k, k <> "provider" -> k <> "default" -> model' !! k = model !! k)
       /\ (trim_space (string_field model "provider") <> "" -> model' !! "provider" = model !! "provider")
       /\ (trim_space (string_field model "default") <> "" -> model' = model)).

Lemma bootstrap_model_respects raw r :
  bootstrapHermesModel raw m = Ok r ->
  let after := match r with Some model => JObject model | None => raw end in
  model_respected raw after /\ bootstrapHermesModel after m = Ok None.
Proof using HD.
  assert (forall model, bootstrapHermesModel (JObject (<[ "default" := JString (hm_default m) ]> model)) m = Ok None) as Hset.
  { intros model. apply settled_model. by rewrite string_field_insert_eq. }
  assert (bootstrapHermesModel (JObject {[ "provider" := JString (hm_provider m); "default" := JString (hm_default m) ]}) m
          = Ok None) as Hfresh.
  { apply settled_model. rewrite string_field_insert_ne, <- (insert_empty "default") by done.
    by rewrite string_field_insert_eq. }
  intros H. destruct raw as [| | |s| |model|]; try discriminate H; unfold model_respected.
  - injection H as <-. by cbn zeta iota.
  - cbn in H. destruct (trim_space s == "") eqn:Es; injection H as <-; cbn zeta iota.
    + apply bool_decide_eq_true in Es. split; [split; [by intros s' [= <-]|done]|done].
    + split; [done|]. cbn. by rewrite Es.
  - cbn in H. injection H as <-. cbn zeta.
    destruct (_ && _) eqn:E1; [split; [split; [done|by intros model' [= <-]; eauto]|]; cbn; by rewrite E1|].
    destruct (_ && _) eqn:E2 in |- *.
    { cbn iota. ok_inv. apply bool_decide_eq_true in H, H0. split; [split; [done|]|apply Hset].
      intros model' [= <-]. eexists. split; [done|]. split_and!; [|by rewrite lookup_insert_ne|done].
      intros k _ Hk. by rewrite lookup_insert_ne. }
    destruct (_ && _) eqn:E3 in |- *.
    { cbn iota. ok_inv. apply bool_decide_eq_true in H, H0. split; [split; [done|]|apply Hset].
      intros model' [= <-]. eexists. split; [done|]. split_and!; [|done|done].
      intros k Hk Hk'. by rewrite !lookup_insert_ne. }
    split; [split; [done|by intros model' [= <-]; eauto]|]. cbn. by rewrite E1, E2, E3.
Qed.
End bootstrap.

Lemma hermesProviderEntries_ok config providers :
  hermesProviderEntries (field config "custom_providers") = Ok providers ->
  providers = providers_of config /\ forallb is_mapping providers = true.
Proof.
  unfold providers_of. destruct (field config "custom_providers"); cbn; intros H; try done; ok_inv; done.
Qed.
Lemma bootstrap_entry_named source name :
  hp_name source = name -> has_name name (JObject (bootstrap_entry source)) = true.
Proof.
  intros <-. unfold has_name, bootstrap_entry. rewrite field_insert_eq. cbn. by rewrite bool_decide_eq_true.
Qed.
Lemma hasHermesProvider_eq providers name : hasHermesProvider providers name = existsb (has_name name) providers.
Proof. done. Qed.

(** The configuration [config1] is [config] with an entry of that name, added if need be. *)
Record provided (remote : hermesConfigPayload) (config config1 : object) : Prop := {
  provided_entries : exists added, providers_of config1 = providers_of config ++ added
    /\ (existsb (has_name (provider_name (hc_model remote))) (providers_of config) = true -> added = [])
    /\ (existsb (has_name (provider_name (hc_model remote))) (providers_of config) = false ->
        exists source, source ∈ hc_customProviders remote /\ added = [JObject (bootstrap_entry source)]);
  provided_listed : hermesProviderEntries (field config1 "custom_providers") = Ok (providers_of config1);
  provided_named : hasHermesProvider (providers_of config1) (provider_name (hc_model remote)) = true;
  provided_other : forall k, k <> "model" -> k <> "custom_providers" -> config1 !! k = config !! k;
}.

Lemma add_entry_provided remote config source :
  hermesProviderEntries (field config "custom_providers") = Ok (providers_of config) ->
  forallb is_mapping (providers_of config) = true ->
  existsb (has_name (provider_name (hc_model remote))) (providers_of config) = false ->
  List.find (fun provider => hp_name provider == provider_name (hc_model remote)) (hc_customProviders remote) = Some source ->
  provided remote config
    (<[ "custom_providers" := JArray (providers_of config ++ [JObject (bootstrap_entry source)]) ]> config).
Proof.
  intros Hl Hmap Hnone Hf. apply find_some in Hf as [Hin Hname%bool_decide_eq_true].
  set (config1 := <[ "custom_providers" := _ ]> config).
  assert (providers_of config1 = providers_of config ++ [JObject (bootstrap_entry source)]) as Hp
    by (unfold providers_of at 1, config1; by rewrite field_insert_eq).
  split.
  - eexists. split; [exact Hp|]. rewrite Hnone. split; [done|]. intros _. exists source. by rewrite list_elem_of_In.
  - rewrite Hp. unfold config1. rewrite field_insert_eq. cbn [hermesProviderEntries].
    by rewrite forallb_app, Hmap.
  - rewrite Hp, hasHermesProvider_eq, existsb_app. cbn [existsb].
    by rewrite bootstrap_entry_named, orb_true_r.
  - intros k _ Hk. unfold config1. by rewrite lookup_insert_ne.
Qed.

(** Writing the model keeps the entries. *)
Lemma provided_model remote config config1 v :
  provided remote config config1 -> provided remote config (<[ "model" := v ]> config1).
Proof.
  intros [He Hl Hn Ho].
  assert (field (<[ "model" := v ]> config1) "custom_providers" = field config1 "custom_providers") as Hf
    by (by rewrite field_insert_ne).
  assert (providers_of (<[ "model" := v ]> config1) = providers_of config1) as Hp by (unfold providers_of; by rewrite Hf).
  split; rewrite ?Hp, ?Hf; try done. intros k Hk1 Hk2. rewrite lookup_insert_ne by done. by apply Ho.
Qed.

(** The two parts of a bootstrap: the provider, then the model. *)
Lemma bootstrap_config_parts config remote config' :
  (exists source, List.find (fun provider => hp_name provider == provider_name (hc_model remote))
                    (hc_customProviders remote) = Some source) ->
  bootstrap_config config remote = Ok (Some config') ->
  exists config1 model, provided remote config config1 /\ field config1 "model" = field config "model"
    /\ bootstrapHermesModel (field config "model") (hc_model remote) = Ok model
    /\ config' = match model with Some model => <[ "model" := JObject model ]> config1 | None => config1 end.
Proof.
  intros [source Hsource]. unfold bootstrap_config. rewrite Hsource. intros (providers & Hp & Hb)%rbind_ok.
  pose proof Hp as Hp'. apply hermesProviderEntries_ok in Hp' as [-> Hmap].
  destruct (hasHermesProvider _ _) eqn:Hh; cbn [rbind] in Hb; apply rbind_ok in Hb as (model & Hm & Hb).
  - exists config, model. split_and!; [|done..|by destruct model; simplify_eq]. split; try done.
    exists []. rewrite hasHermesProvider_eq in Hh. rewrite app_nil_r, Hh. done.
  - rewrite field_insert_ne in Hm by done. eexists _, model. split_and!; [by apply add_entry_provided| |done|].
    + by rewrite field_insert_ne.
    + by destruct model; simplify_eq.
Qed.

Lemma provided_again remote config config1 :
  provided remote config config1 -> forall raw, field config1 "model" = raw ->
  bootstrapHermesModel raw (hc_model remote) = Ok None -> bootstrap_config config1 remote = Ok None.
Proof.
  intros [_ Hl Hn _] raw <- Hm. unfold bootstrap_config. rewrite Hl. cbn [rbind]. rewrite Hn. cbn [rbind]. by rewrite Hm.
Qed.

(** C32: Bootstrapping Hermes from a validated answer: existing provider entries stay as they are, and
    one is added only when none has the proxy's name; a model, provider or default the user
    chose is kept, as are all other fields of the model and all other settings; a second
    bootstrap leaves the file alone. *)
Theorem hermes_bootstrap_respects_user config remote config' :
  validateHermesConfig remote = Ok tt ->
  bootstrap_config config remote = Ok (Some config') ->
  let name := provider_name (hc_model remote) in
  (exists added, providers_of config' = providers_of config ++ added
     /\ (existsb (has_name name) (providers_of config) = true -> added = [])
     /\ (existsb (has_name name) (providers_of config) = false ->
         exists source, source ∈ hc_customProviders remote /\ added = [JObject (bootstrap_entry source)]))
  /\ model_respected (field config "model") (field config' "model")
  /\ (forall k, k <> "model" -> k <> "custom_providers" -> config' !! k = config !! k)
  /\ bootstrap_config config' remote = Ok None.
Proof.
  intros Hv Hb. destruct (validated_remote _ Hv) as (_ & HD & source & Hsource).
  destruct (bootstrap_config_parts _ _ _ ltac:(eauto) Hb) as (config1 & model & Hprov & Hf & Hm & ->).
  destruct (bootstrap_model_respects _ HD _ _ Hm) as [Hresp Hagain].
  set (config' := match model with Some _ => _ | None => _ end).
  assert (provided remote config config') as Hprov'
    by (unfold config'; destruct model; [by apply provided_model|done]).
  assert (field config' "model" = match model with Some model => JObject model | None => field config "model" end) as Hf'
    by (unfold config'; destruct model; [by rewrite field_insert_eq|done]).
  rewrite Hf'. split_and!; [apply Hprov'|done|apply Hprov'|]. by eapply provided_again.
Qed.

(** ** Witnesses *)

Definition proxy_payload : hermesConfigPayload :=
  mkHermesPayload (mkHermesModel "gemma" "custom:llm-proxy" "")
    [mkHermesProvider "llm-proxy" "http://llm-proxy:8080/v1" "chat_completions" {[ "gemma" := 8192 ]}].
(** A user of another provider, with an outdated entry for the proxy. *)
Definition user_config : object := {[
  "theme" := JString "dark";
  "model" := JObject {[ "provider" := JString "openai"; "default" := JString "gpt" ]};
  "custom_providers" := JArray [JObject {[ "name" := JString "llm-proxy" ]}; JObject {[ "name" := JString "other" ]}] ]}.
Definition plain_user : object := {[
  "model" := JObject {[ "provider" := JString "custom:llm-proxy"; "temperature" := JNumber "1" ]};
  "custom_providers" := JArray [JObject {[ "name" := JString "other" ]}] ]}.
Definition result_of {A} (zero : A) (r : result A) : A := match r with Ok a => a | Err _ => zero end.

Lemma hermes_sync_exact_witness :
  let config' := result_of ∅ (sync_config user_config proxy_payload) in
  let fresh' := result_of ∅ (sync_config ∅ proxy_payload) in
  chose_otherwise user_config (hm_provider (hc_model proxy_payload))
  /\ config' !! "model" = user_config !! "model"
  /\ length (providers_of config') = 2%nat
  /\ sync_config config' proxy_payload = Ok config'
  /\ ~ chose_otherwise ∅ (hm_provider (hc_model proxy_payload))
  /\ exists model, fresh' !! "model" = Some (JObject model)
       /\ model_selected JNull (hc_model proxy_payload) model.
Proof.
  cbn zeta.
  assert (chose_otherwise user_config (hm_provider (hc_model proxy_payload))) as Hu
    by (apply shouldSync_exact; vm_compute; reflexivity).
  assert (~ chose_otherwise ∅ (hm_provider (hc_model proxy_payload))) as He
    by (rewrite <- shouldSync_exact; by vm_compute).
  destruct (hermes_sync_exact user_config proxy_payload
    (result_of ∅ (sync_config user_config proxy_payload))) as (H1 & _ & _ & _ & H4); [vm_compute; reflexivity|].
  destruct (hermes_sync_exact ∅ proxy_payload
    (result_of ∅ (sync_config ∅ proxy_payload))) as (_ & H2 & _); [vm_compute; reflexivity|].
  split_and!; [exact Hu|exact (H1 Hu)|vm_compute; reflexivity|exact H4|exact He|exact (H2 He)].
Defined.

Lemma hermes_bootstrap_respects_user_witness :
  let config' := default ∅ (result_of None (bootstrap_config plain_user proxy_payload)) in
  length (providers_of config') = 2%nat
  /\ (exists model', field config' "model" = JObject model' /\ model' !! "temperature" = Some (JNumber "1"))
  /\ bootstrap_config config' proxy_payload = Ok None.
Proof.
  cbn zeta. destruct (hermes_bootstrap_respects_user plain_user proxy_payload
    (default ∅ (result_of None (bootstrap_config plain_user proxy_payload)))) as (_ & [_ H2] & _ & H4);
    [vm_compute; reflexivity|vm_compute; reflexivity|].
  destruct (H2 {[ "provider" := JString "custom:llm-proxy"; "temperature" := JNumber "1" ]} eq_refl) as (model' & Hm & Hk & _).
  split_and!; [vm_compute; reflexivity| |exact H4]. exists model'. split; [exact Hm|].
  rewrite Hk; [vm_compute; reflexivity|discriminate..].
Defined.
