(* ===== verification/GenConfig.v ===== *)
(** * The [generate-config] command ([cmd/llm-proxy/main.go])

    A model manifest written from a repository's own [config.json]: the slug that names
    it and the quoting of its values. *)

From Stdlib Require Import Ascii.
From S2P Require Import Prelude GoStrings Types Effects Api Driver Json ProxyApi ProxyCatalog ProxyRuntime.

(** ** Slugs *)

Definition lower (c : ascii) : ascii :=
  let n := nat_of_ascii c in
  if (65 <=? n)%nat && (n <=? 90)%nat then byte (n + 32) else c.
Definition slug_char (c : ascii) : bool :=
  let n := nat_of_ascii c in
  ((97 <=? n)%nat && (n <=? 122)%nat) || ((48 <=? n)%nat && (n <=? 57)%nat).
(** The next rune of the lower-cased value: a letter or digit, or another one.  Besides
    the ASCII letters, two runes have an ASCII lower case: the Kelvin sign and the
    dotted capital I. *)
Definition next_rune (s : string) : option (option ascii * string) :=
  match s with
  | EmptyString => None
  | String c rest =>
      match cut_prefix s (bytes [226; 132; 170]%nat), cut_prefix s (bytes [196; 176]%nat) with
      | Some r, _ => Some (Some "k"%char, r)
      | None, Some r => Some (Some "i"%char, r)
      | None, None => Some (if slug_char (lower c) then Some (lower c) else None, rest)
      end
  end.
Definition dash : ascii := "-"%char.
Fixpoint slug_from (fuel : nat) (s : string) (lastDash : bool) : string :=
  match fuel with
  | O => ""
  | S n =>
      match next_rune s with
      | None => ""
      | Some (Some c, rest) => String c (slug_from n rest false)
      | Some (None, rest) => if lastDash then slug_from n rest true else String dash (slug_from n rest true)
      end
  end.
(** [strings.Trim(s, "-")] *)
Fixpoint trim_left_dashes (s : string) : string :=
  match s with
  | String c s' => if c == dash then trim_left_dashes s' else s
  | EmptyString => ""
  end.
Fixpoint trim_right_dashes (s : string) : string :=
  match s with
  | EmptyString => ""
  | String c s' => match trim_right_dashes s' with
                   | EmptyString => if c == dash then "" else String c ""
                   | t => String c t
                   end
  end.
Definition modelSlug (value : string) : string :=
  trim_right_dashes (trim_left_dashes (slug_from (String.length value) value false)).

(** ** Quoting *)

Definition squote : ascii := "'"%char.
Definition yamlQuote (value : string) : string :=
  char1 squote +:+ replace_char squote (String squote (char1 squote)) value +:+ char1 squote.

(** ** The manifest *)

Definition nl (s : string) : string := s +:+ char1 newline.
Definition writeGeneratedConfig (repo : string) (declared effective : Z) : string :=
  let q := char1 dquote in
  nl "---"
  +:+ nl ("# Generated from " +:+ repo +:+ "/config.json without loading model weights. Review and tune vLLM flags before committing.")
  +:+ nl "apiVersion: llm.cogito.dev/v1alpha1"
  +:+ nl "kind: LLMModel"
  +:+ nl "metadata:"
  +:+ nl ("  name: " +:+ modelSlug repo)
  +:+ nl "spec:"
  +:+ nl "  model:"
  +:+ nl ("    name: " +:+ yamlQuote repo)
  +:+ nl ("    source: " +:+ yamlQuote repo)
  +:+ nl "  serving:"
  +:+ nl "    backend: vllm"
  +:+ nl ("    displayName: " +:+ yamlQuote repo)
  +:+ nl ("    maxModelLen: " +:+ show_int effective)
  +:+ nl "    args:"
  +:+ nl "      - --max-model-len"
  +:+ nl ("      - " +:+ q +:+ show_int effective +:+ q)
  +:+ nl "      - --host"
  +:+ nl "      - 0.0.0.0"
  +:+ nl "      - --port"
  +:+ nl ("      - " +:+ q +:+ "8000" +:+ q)
  (* the closing backquote is indented with a tab *)
  +:+ char1 (byte 9).

Record generateFlags := mkGenerateFlags { gf_revision : string; gf_maxModelLen : Z; gf_args : list string }.

Section command.
Context (lib : proxylib).

(** [flags]: what parsing the arguments gave.  The result is the text to print. *)
Definition runGenerateConfig (flags : result generateFlags) : pprog (result string) :=
  let* f := Ret flags in
  match gf_args f with
  | [arg] =>
      let repo := trim_space arg in
      if negb (length (split_on "/" repo) =? 2)%nat || has_char " " repo then fails "model repository must be OWNER/MODEL"
      else
        let* declared := fetchModelContext lib repo (gf_revision f) in
        if gf_maxModelLen f <? 0 then fails "max-model-len must be positive"
        else
          let effective := if 0 <? gf_maxModelLen f then gf_maxModelLen f else declared in
          (* the answer is not written *)
          do! fetchModelParameters lib repo;
          ok (writeGeneratedConfig repo declared effective)
  | _ => fails "usage: vllm-proxy generate-config [--revision REVISION] [--max-model-len TOKENS] OWNER/MODEL"
  end.
End command.

(** ** What the names look like *)

(** Letters and digits with single dashes; after a dash (or at the start) no dash. *)
Fixpoint slug_chars (afterDash : bool) (s : string) : bool :=
  match s with
  | EmptyString => true
  | String c s' =>
      if c == dash then negb afterDash && slug_chars true s' else slug_char c && slug_chars false s'
  end.
Fixpoint ends_in_dash (s : string) : bool :=
  match s with
  | EmptyString => false
  | String c EmptyString => c == dash
  | String _ s' => ends_in_dash s'
  end.
Definition is_slug (s : string) : bool := slug_chars true s && negb (ends_in_dash s).

Lemma slug_char_dash c : slug_char c = true -> (c == dash) = false.
Proof. intros Hc. apply bool_decide_eq_false. by intros ->. Qed.
Lemma next_rune_char s c rest : next_rune s = Some (Some c, rest) -> slug_char c = true.
Proof. destruct s; cbn -[slug_char lower cut_prefix]; repeat case_match; intros; simplify_eq; done. Qed.

Lemma slug_from_chars n s b : slug_chars b (slug_from n s b) = true.
Proof.
  revert s b. induction n as [|n IH]; intros s b; [done|]. cbn [slug_from].
  destruct (next_rune s) as [[[c|] rest]|] eqn:E; [| |done].
  - apply next_rune_char in E. cbn [slug_chars]. by rewrite (slug_char_dash _ E), E, IH.
  - destruct b; [apply IH|]. cbn [slug_chars]. by rewrite (bool_decide_eq_true_2 (dash = dash)), IH.
Qed.
Lemma trim_left_chars b s : slug_chars b s = true -> slug_chars true (trim_left_dashes s) = true.
Proof.
  revert b. induction s as [|c s IH]; intros b; [done|]. cbn [slug_chars trim_left_dashes].
  destruct (c == dash) eqn:Ec; [intros [_ ?]%andb_true_iff; eauto|]. intros H. cbn [slug_chars]. by rewrite Ec.
Qed.
Lemma trim_right_chars b s : slug_chars b s = true -> slug_chars b (trim_right_dashes s) = true.
Proof.
  revert b. induction s as [|c s IH]; intros b; [done|]. cbn [slug_chars trim_right_dashes].
  destruct (c == dash) eqn:Ec; intros [H1 H2%IH]%andb_true_iff; destruct (trim_right_dashes s) eqn:Et; cbn [slug_chars];
    rewrite ?Ec, ?H1; done.
Qed.
Lemma trim_right_ends s : ends_in_dash (trim_right_dashes s) = false.
Proof.
  induction s as [|c s IH]; [done|]. cbn [trim_right_dashes].
  destruct (trim_right_dashes s); [by destruct (c == dash) eqn:E|exact IH].
Qed.
Lemma modelSlug_is_slug value : is_slug (modelSlug value) = true.
Proof.
  unfold is_slug, modelSlug. rewrite trim_right_ends, andb_true_r.
  eapply trim_right_chars, trim_left_chars, slug_from_chars.
Qed.

(** *** A slug is its own slug *)

Lemma trim_left_slug s : slug_chars true s = true -> trim_left_dashes s = s.
Proof. destruct s as [|c s]; [done|]. cbn. by destruct (c == dash). Qed.
Lemma trim_right_slug s : ends_in_dash s = false -> trim_right_dashes s = s.
Proof.
  induction s as [|c s IH]; [done|]. intros He. cbn [trim_right_dashes].
  destruct s as [|c' s]; [cbn in *; by rewrite He|]. by rewrite IH.
Qed.
(** Bytes of slugs are ASCII and in lower case. *)
Lemma slug_byte c rest :
  slug_char c = true -> next_rune (String c rest) = Some (Some c, rest).
Proof.
  intros Hc. cbn [next_rune].
  assert (forall c0 p, (c0 == c) = false -> cut_prefix (String c rest) (String c0 p) = None) as Hcut.
  { intros c0 p Hne. apply bool_decide_eq_false in Hne. cbn. by destruct (decide (c0 = c)). }
  assert (lower c = c /\ (byte 226 == c) = false /\ (byte 196 == c) = false) as (Hl & H1 & H2).
  { revert Hc. destruct c as [[] [] [] [] [] [] [] []]; vm_compute; intros; try done; split_and!; congruence. }
  change (bytes [226; 132; 170]%nat) with (String (byte 226) (bytes [132; 170]%nat)).
  change (bytes [196; 176]%nat) with (String (byte 196) (bytes [176]%nat)).
  rewrite !Hcut by done. by rewrite Hl, Hc.
Qed.
Lemma dash_byte rest : next_rune (String dash rest) = Some (None, rest).
Proof. done. Qed.
Lemma slug_from_slug b s : slug_chars b s = true -> slug_from (String.length s) s b = s.
Proof.
  revert b. induction s as [|c s IH]; intros b; [done|]. cbn [slug_chars String.length slug_from].
  destruct (c == dash) eqn:Ec.
  - apply bool_decide_eq_true in Ec as ->. rewrite dash_byte. intros [Hb Hs]%andb_true_iff.
    destruct b; [done|]. by rewrite IH.
  - intros [Hc Hs]%andb_true_iff. rewrite slug_byte by done. by rewrite IH.
Qed.
Lemma slug_chars_weaken s : slug_chars true s = true -> slug_chars false s = true.
Proof. destruct s as [|c s]; [done|]. cbn. by destruct (c == dash). Qed.
Lemma modelSlug_slug s : is_slug s = true -> modelSlug s = s.
Proof.
  intros [Hc He%negb_true_iff]%andb_true_iff. unfold modelSlug.
  rewrite slug_from_slug by (by apply slug_chars_weaken). by rewrite trim_left_slug, trim_right_slug.
Qed.

(** *** Quoted values are read back *)

(** A single-quoted YAML scalar on one line: a doubled quote is a quote. *)
Fixpoint unquote_from (s : string) : option string :=
  match s with
  | EmptyString => None
  | String c s' =>
      if c == squote then
        match s' with
        | EmptyString => Some ""
        | String c' s'' => if c' == squote then String squote <$> unquote_from s'' else None
        end
      else String c <$> unquote_from s'
  end.
Definition yaml_unquote (s : string) : option string :=
  match s with String c s' => if c == squote then unquote_from s' else None | EmptyString => None end.

Lemma unquote_quoted value :
  unquote_from (replace_char squote (String squote (char1 squote)) value +:+ char1 squote) = Some value.
Proof.
  induction value as [|c value IH]; [done|]. cbn [replace_char].
  destruct (decide (c = squote)) as [->|Hne].
  - change ((String squote (char1 squote) +:+ ?r) +:+ ?t) with (String squote (String squote (r +:+ t))).
    cbn [unquote_from]. rewrite (bool_decide_eq_true_2 (squote = squote)) by done. by rewrite IH.
  - change ((char1 c +:+ ?r) +:+ ?t) with (String c (r +:+ t)). cbn [unquote_from].
    rewrite (bool_decide_eq_false_2 (c = squote)) by done. by rewrite IH.
Qed.

(** The names of a generated manifest: the resource name has only lower-case letters, digits
    and single inner dashes, and a name of that form is kept as it is; a quoted value is
    read back by YAML's rule as the repository it came from. *)
Theorem generated_names_well_formed repo :
  is_slug (modelSlug repo) = true
  /\ (is_slug repo = true -> modelSlug repo = repo)
  /\ yaml_unquote (yamlQuote repo) = Some repo.
Proof.
  split_and!; [apply modelSlug_is_slug|apply modelSlug_slug|]. apply unquote_quoted.
Qed.
