(* ===== verification/Manager.v ===== *)
(** * The manager binary and the migration command

    [cmd/manager/main.go]: which controllers and webhooks the flags start, in which
    order, and how the active-model reconciler is configured
    ([LLMActiveModelReconciler.SetupWithManager]).  [hack/migration/configmap-to-crds.go]:
    the file-based conversion around [ConvertConfigMaps]. *)

From S2P Require Import Prelude GoStrings Types Effects Api Driver Json ActiveModel Protocol ActiveModelProps Admission Migration.

(** ** The manager *)

Record managerFlags := mkManagerFlags {
  mf_metricsAddr : string;
  mf_probeAddr : string;
  mf_leaderElection : bool;
  mf_transitions : bool;
  mf_canaryModels : string;
  mf_webhooks : bool;
}.
(** No flags given. *)
Definition default_flags : managerFlags := mkManagerFlags ":8081" ":8082" false false "" false.

Record managerOptions := mkManagerOptions {
  mo_metricsAddr : string; mo_probeAddr : string; mo_leaderElection : bool; mo_leaderElectionID : string }.

(** Calls into controller-runtime. *)
Inductive mev : Type -> Type :=
| MNewManager (o : managerOptions) : mev (result unit)
| MModelController : mev (result unit)
| MOverlayController : mev (result unit)
(** at most one reconcile at a time *)
| MActiveController (r : ActiveReconciler) : mev (result unit)
| MBackendController : mev (result unit)
| MWebhook (kind version : string) : mev (result unit)
| MHealthCheck (name : string) : mev (result unit)
| MStart : mev (result unit).
Notation mprog := (prog mev).

(** The reconciler [main] builds, after [SetupWithManager] filled in the cache manager. *)
Definition active_reconciler (getenv : string -> string) (f : managerFlags) : ActiveReconciler :=
  mkActiveReconciler (getenv "CACHE_MANAGER_URL") 0 0 (mf_transitions f)
    (parseTransitionCanaryModels (mf_canaryModels f)) true.

(** [main]: the first error exits. *)
Definition manager_main (getenv : string -> string) (f : managerFlags) : mprog (result unit) :=
  do* call (MNewManager (mkManagerOptions (mf_metricsAddr f) (mf_probeAddr f) (mf_leaderElection f)
              "llm-operator.cogito.dev"));
  do* call MModelController;
  do* call MOverlayController;
  do* call (MActiveController (active_reconciler getenv f));
  do* call MBackendController;
  do* (if mf_webhooks f then
         do* call (MWebhook "LLMModel" "v1alpha1");
         do* call (MWebhook "LLMBackend" "v1alpha1");
         call (MWebhook "LLMBackend" "v1beta1")
       else ok tt);
  do* call (MHealthCheck "healthz");
  do* call (MHealthCheck "readyz");
  call MStart.

(** Without flags, the operator never touches a workload: whatever the services reply, a
    reconcile of the manager's active-model controller changes no Deployment, asks for no
    cache and writes no model status. *)
Theorem default_manager_is_passive getenv lib ns name W (h : handler kev W) w :
  Forall (fun o => passive o = true)
    (trace h (Reconcile lib (active_reconciler getenv default_flags) ns name) w).
Proof.
  destruct (rg_obeys (hands_off (fun _ _ _ => True)) (fun _ _ _ => True) h
    (Reconcile lib (active_reconciler getenv default_flags) ns name) tt w (fun _ _ => True)) as [Hm _];
    [done|by intros X e w'|apply rg_blocked; by left|].
  apply Forall_forall. intros o (tr1 & tr2 & Htr)%list_elem_of_split.
  specialize (Hm _ _ _ Htr). destruct o as [X e x]. apply Hm.
Qed.

(** ** The migration command *)

Inductive xev : Type -> Type :=
| XRead (path : string) : xev (result string)
| XWrite (path body : string) : xev (result unit)
| XStdout (body : string) : xev (result unit).
Notation xprog := (prog xev).

Section command.
Context (decodeLegacy : string -> result legacyModel).
Context {V : Type} (yamlUnmarshal : string -> result V) (jsonMarshal : V -> result string).
(** the documents of a YAML stream; an object as decoded JSON; [yaml.Marshal] *)
Context (documents : string -> list (result document)).
Context (asJSON : Migration.object -> result Json.object) (yamlMarshal : Json.object -> result string).

(** Migration output is desired state: the status is left out. *)
Definition marshalSpec (o : Migration.object) : result string :=
  try document := asJSON o in
  yamlMarshal (delete "status" document).
(** The documents joined with separators. *)
Fixpoint marshal_all (objects : list Migration.object) : result (list string) :=
  match objects with
  | [] => Ok []
  | o :: rest =>
      try encoded := match marshalSpec o with Ok s => Ok s | Err e => Err (wrap "encode output: " e) end in
      try others := marshal_all rest in
      Ok (encoded :: others)
  end.

(** [main], with the flags; the error is printed and the process exits. *)
Definition configmap_to_crds (input output : string) : xprog (result unit) :=
  if input == "" then fails "--input is required; render ConfigMaps from GitOps before converting"
  else
    let* data := call (XRead input) in
    let* configMaps := Ret (DecodeConfigMaps (documents data)) in
    let* objects := Ret (ConvertConfigMaps decodeLegacy yamlUnmarshal jsonMarshal configMaps) in
    let* encoded := Ret (marshal_all objects) in
    let result := join ("---" +:+ char1 newline) encoded in
    if output == "" then call (XStdout result) else call (XWrite output result).

Lemma marshal_all_length objects encoded :
  marshal_all objects = Ok encoded -> length encoded = length objects.
Proof.
  revert encoded. induction objects as [|o objects IH]; intros encoded H; cbn in H; ok_inv; [done|].
  destruct (marshalSpec o); ok_inv. cbn. f_equal. eauto.
Qed.
End command.
