(* ===== verification/GoHeap.v ===== *)
(** * Go memory

    Pointers, slices and maps refer to cells of a heap; structs are values.  Enough of
    the language to say what a deep copy is: [represents h t v x] tells that [v], of type
    [t], denotes the tree [x] using the cells of [h] only, so a copy is independent of
    its original when it is represented in cells that are all new. *)

From S2P Require Import Prelude.

(** ** Values, cells, types *)

Abbreviation loc := positive.
#[local] Unset Elimination Schemes.
Inductive gval :=
(** a value without references: numbers, strings, booleans *)
| VData (s : string)
(** nil, as a pointer, slice or map *)
| VNil
(** a pointer or a map *)
| VRef (l : loc)
(** a slice: its array, where it starts, its length *)
| VSlice (l : loc) (off len : nat)
| VStruct (fields : gmap string gval).
Inductive cell :=
| CValue (v : gval)
| CArray (vs : list gval)
| CMap (m : gmap string string).
Abbreviation heap := (gmap loc cell).

Inductive gty :=
| TData
| TPtr (t : gty)
| TSlice (t : gty)
(** [map[string]string] *)
| TMap
| TStruct (fields : list (string * gty)).

(** What a value denotes, references followed. *)
Inductive gtree :=
| XData (s : string)
| XNil
| XPtr (x : gtree)
| XSlice (xs : list gtree)
| XMap (m : gmap string string)
| XStruct (fields : gmap string gtree).

#[local] Set Elimination Schemes.

Definition slice_of (off len : nat) (vs : list gval) : list gval := take len (drop off vs).
Definition names (fs : list (string * gty)) : gset string := list_to_set (map fst fs).

Inductive represents (h : heap) : gty -> gval -> gtree -> Prop :=
| represents_data s : represents h TData (VData s) (XData s)
| represents_nil_ptr t : represents h (TPtr t) VNil XNil
| represents_ptr t l v x :
    h !! l = Some (CValue v) -> represents h t v x -> represents h (TPtr t) (VRef l) (XPtr x)
| represents_nil_slice t : represents h (TSlice t) VNil XNil
| represents_slice t l off len vs xs :
    h !! l = Some (CArray vs) -> (off + len <= length vs)%nat -> length xs = len ->
    (forall i v x, slice_of off len vs !! i = Some v -> xs !! i = Some x -> represents h t v x) ->
    represents h (TSlice t) (VSlice l off len) (XSlice xs)
| represents_nil_map : represents h TMap VNil XNil
| represents_map l m : h !! l = Some (CMap m) -> represents h TMap (VRef l) (XMap m)
| represents_struct fs vs xs :
    dom vs = names fs -> dom xs = names fs ->
    (forall f t v x, (f, t) ∈ fs -> vs !! f = Some v -> xs !! f = Some x -> represents h t v x) ->
    represents h (TStruct fs) (VStruct vs) (XStruct xs).

Lemma represents_mono h h' t v x : h ⊆ h' -> represents h t v x -> represents h' t v x.
Proof.
  intros Hh. induction 1; try (by constructor); econstructor; eauto using lookup_weaken.
Qed.

(** ** Programs on the heap

    None is a panic: a nil dereference, an index out of range. *)

Definition M (A : Type) : Type := heap -> option (A * heap).
Definition hret {A} (a : A) : M A := fun h => Some (a, h).
Definition hbind {A B} (m : M A) (f : A -> M B) : M B :=
  fun h => match m h with Some (a, h') => f a h' | None => None end.
Definition panics {A} : M A := fun _ => None.
Declare Scope heap_scope.
Delimit Scope heap_scope with heap.
#[global] Open Scope heap_scope.
Notation "'let^' x ':=' m 'in' k" := (hbind m (fun x => k))
  (at level 10, x pattern, m at level 100, k at level 200) : heap_scope.
Notation "'do^' m ';' k" := (hbind m (fun _ => k))
  (at level 10, m at level 100, k at level 200) : heap_scope.

(** Any location outside the heap would do. *)
Definition fresh_loc (h : heap) : loc := infinite_fresh (elements (dom h)).
Lemma fresh_loc_spec h : h !! fresh_loc h = None.
Proof. apply not_elem_of_dom. rewrite <- elem_of_elements. apply infinite_is_fresh. Qed.

Definition alloc (c : cell) : M loc := fun h => Some (fresh_loc h, <[ fresh_loc h := c ]> h).
Definition read (l : loc) : M cell := fun h => c ← h !! l; Some (c, h).
(** Cells that are written have been allocated before. *)
Definition write (l : loc) (c : cell) : M unit := fun h => Some (tt, <[ l := c ]> h).

Definition load (l : loc) : M gval := let^ c := read l in match c with CValue v => hret v | _ => panics end.
Definition load_array (l : loc) : M (list gval) :=
  let^ c := read l in match c with CArray vs => hret vs | _ => panics end.
Definition load_map (l : loc) : M (gmap string string) :=
  let^ c := read l in match c with CMap m => hret m | _ => panics end.

(** [in.F], and [out.F = v] *)
Definition get_field (f : string) (v : gval) : M gval :=
  match v with VStruct vs => fun h => w ← vs !! f; Some (w, h) | _ => panics end.
Definition set_field (f : string) (w : gval) (v : gval) : M gval :=
  match v with VStruct vs => hret (VStruct (<[ f := w ]> vs)) | _ => panics end.

(** The zero value [new] and [make] start from. *)
Fixpoint zero (t : gty) : gval :=
  match t with
  | TData => VData ""
  | TPtr _ | TSlice _ | TMap => VNil
  | TStruct fs => VStruct (list_to_map (map (fun '(f, t) => (f, zero t)) fs))
  end.
Definition new (t : gty) : M loc := alloc (CValue (zero t)).
(** [make([]T, n)] *)
Definition make_slice (t : gty) (n : nat) : M gval :=
  let^ l := alloc (CArray (replicate n (zero t))) in hret (VSlice l 0 n).
(** [s[i]], and [s[i] = w] *)
Definition index (i : nat) (s : gval) : M gval :=
  match s with
  | VSlice l off len =>
      let^ vs := load_array l in
      match slice_of off len vs !! i with Some v => hret v | None => panics end
  | _ => panics
  end.
Definition set_index (i : nat) (w : gval) (s : gval) : M unit :=
  match s with
  | VSlice l off len =>
      let^ vs := load_array l in
      if (i <? len)%nat then write l (CArray (<[ (off + i)%nat := w ]> vs)) else panics
  | _ => panics
  end.
Definition slice_len (s : gval) : nat := match s with VSlice _ _ len => len | _ => 0%nat end.

(** ** What generated deep-copy code is made of *)

(** [copy(dst, src)] *)
Definition copy_elems (dst src : gval) : M unit :=
  match dst, src with
  | VSlice l' off' len', VSlice l off len =>
      let^ vs := load_array l in
      let^ ws := load_array l' in
      let n := Nat.min len' len in
      write l' (CArray (take off' ws ++ take n (slice_of off len vs) ++ drop (off' + n) ws))
  | _, _ => panics
  end.
(** [*out = make([]T, len( *in)); copy( *out, *in)] *)
Definition copy_slice (t : gty) (v : gval) : M gval :=
  let^ s := make_slice t (slice_len v) in
  do^ copy_elems s v;
  hret s.
(** [for i := range *in { ( *in)[i].DeepCopyInto(&( *out)[i]) }], from index [i] on *)
Fixpoint copy_range (into : gval -> M gval) (v s : gval) (i n : nat) : M unit :=
  match n with
  | O => hret tt
  | S n' =>
      let^ w := index i v in
      let^ w' := into w in
      do^ set_index i w' s;
      copy_range into v s (S i) n'
  end.
Definition copy_structs (t : gty) (into : gval -> M gval) (v : gval) : M gval :=
  let^ s := make_slice t (slice_len v) in
  do^ copy_range into v s 0 (slice_len v);
  hret s.
(** [for key, val := range *in { ( *out)[key] = val }] *)
Fixpoint set_keys (l : loc) (entries : list (string * string)) : M unit :=
  match entries with
  | [] => hret tt
  | (k, v) :: rest =>
      let^ m := load_map l in
      do^ write l (CMap (<[ k := v ]> m));
      set_keys l rest
  end.
(** [*out = make(map[string]string, len( *in))] and that loop *)
Definition copy_map (v : gval) : M gval :=
  match v with
  | VRef l =>
      let^ l' := alloc (CMap ∅) in
      let^ m := load_map l in
      do^ set_keys l' (map_to_list m);
      hret (VRef l')
  | _ => panics
  end.
(** [*out = new(T); ( *in).DeepCopyInto( *out)] *)
Definition copy_pointee (t : gty) (into : gval -> M gval) (v : gval) : M gval :=
  match v with
  | VRef l =>
      let^ l' := new t in
      let^ w := load l in
      let^ w' := into w in
      do^ write l' (CValue w');
      hret (VRef l')
  | _ => panics
  end.
(** [*out = *in], and [**out = **in] as the body of the above *)
Definition assign (v : gval) : M gval := hret v.

(** [if in.F != nil { in, out := &in.F, &out.F; ... }] *)
Definition when_set (f : string) (k : gval -> M gval) (inp out : gval) : M gval :=
  let^ v := get_field f inp in
  match v with
  | VNil => hret out
  | _ => let^ w := k v in set_field f w out
  end.
(** [in.F.DeepCopyInto(&out.F)], and [out.F = in.F] with [assign] *)
Definition into_field (f : string) (into : gval -> M gval) (inp out : gval) : M gval :=
  let^ v := get_field f inp in
  let^ w := into v in
  set_field f w out.
