(* ===== verification/GoHeapProps.v ===== *)
(** * Deep copies of Go values

    The contract of a deep copy, and that the pieces generated code is made of keep it. *)

From S2P Require Import Prelude GoHeap.

(** A copier returns a value that denotes the same tree, in cells that did not exist
    before; it changes no cell that did, and it does not panic. *)
Definition copied (h : heap) (t : gty) (x : gtree) (r : option (gval * heap)) : Prop :=
  exists v n, r = Some (v, h ∪ n) /\ h ##ₘ n /\ represents n t v x.
Definition deep (t : gty) (f : gval -> M gval) : Prop :=
  forall h v x, represents h t v x -> copied h t x (f v h).
(** The same for a copier that is only called on values that are not nil. *)
Definition deep_set (t : gty) (f : gval -> M gval) : Prop :=
  forall h v x, v <> VNil -> represents h t v x -> copied h t x (f v h).

(** ** Heaps *)

Lemma lookup_old (h n : heap) l c : h !! l = Some c -> (h ∪ n) !! l = Some c.
Proof. intros. by apply lookup_union_Some_l. Qed.
Lemma lookup_new (h n : heap) l : h !! l = None -> (h ∪ n) !! l = n !! l.
Proof. intros. by apply lookup_union_r. Qed.
Lemma write_new (h n : heap) l c : h !! l = None -> write l c (h ∪ n) = Some (tt, h ∪ <[ l := c ]> n).
Proof. intros Hl. unfold write. by rewrite insert_union_r. Qed.
Lemma alloc_new (h n : heap) c :
  alloc c (h ∪ n) = Some (fresh_loc (h ∪ n), h ∪ <[ fresh_loc (h ∪ n) := c ]> n).
Proof.
  unfold alloc. rewrite insert_union_r; [done|].
  pose proof (fresh_loc_spec (h ∪ n)) as H. by apply lookup_union_None in H as [? _].
Qed.
Lemma fresh_new (h n : heap) : h !! fresh_loc (h ∪ n) = None /\ n !! fresh_loc (h ∪ n) = None.
Proof. apply lookup_union_None, fresh_loc_spec. Qed.

Lemma represents_old (h n : heap) t v x : represents h t v x -> represents (h ∪ n) t v x.
Proof. apply represents_mono, map_union_subseteq_l. Qed.

(** A cell that is not there yet can be added without harm. *)
Lemma represents_add (n : heap) l c t v x : n !! l = None -> represents n t v x -> represents (<[ l := c ]> n) t v x.
Proof. intros Hl. apply represents_mono. by apply insert_subseteq. Qed.

(** ** Types without references *)

Fixpoint flat (t : gty) : bool :=
  match t with
  | TData => true
  | TPtr _ | TSlice _ | TMap => false
  | TStruct fs => forallb (fun '(_, t) => flat t) fs
  end.

Lemma flat_anywhere h n t v x : flat t = true -> represents h t v x -> represents n t v x.
Proof.
  intros Hf H. induction H as [| | | | | | |fs vs xs Hv Hx H IH]; try done; [constructor|].
  constructor; [done..|]. intros f t v x Hin Hfv Hfx. eapply IH; [done..|]. cbn in Hf.
  rewrite forallb_forall in Hf. apply list_elem_of_In in Hin. by apply (Hf (f, t)).
Qed.

Lemma deep_assign t : flat t = true -> deep t assign.
Proof.
  intros Hf h v x H. exists v, ∅. split_and!; [unfold assign, hret; by rewrite map_union_empty|..].
  - apply map_disjoint_empty_r.
  - by eapply flat_anywhere.
Qed.

(** ** Pointers *)

Lemma hbind_some {A B} (m : M A) (f : A -> M B) h a h' : m h = Some (a, h') -> hbind m f h = f a h'.
Proof. unfold hbind. by intros ->. Qed.
Lemma load_at h l v : h !! l = Some (CValue v) -> load l h = Some (v, h).
Proof. intros H. unfold load, hbind, read. by rewrite H. Qed.
Lemma load_array_at h l vs : h !! l = Some (CArray vs) -> load_array l h = Some (vs, h).
Proof. intros H. unfold load_array, hbind, read. by rewrite H. Qed.
Lemma load_map_at h l m : h !! l = Some (CMap m) -> load_map l h = Some (m, h).
Proof. intros H. unfold load_map, hbind, read. by rewrite H. Qed.
Lemma copied_intro h t x r v n :
  r = Some (v, h ∪ n) -> h ##ₘ n -> represents n t v x -> copied h t x r.
Proof. intros. by exists v, n. Qed.

Lemma deep_pointee t into : deep t into -> deep_set (TPtr t) (copy_pointee t into).
Proof.
  intros Hinto h v x Hne H. inversion H as [| |? l w y Hl Hw| | | | |]; subst; [done|].
  unfold copy_pointee, new.
  destruct (fresh_new h ∅) as [Hf _]. pose proof (alloc_new h ∅ (CValue (zero t))) as Ha.
  rewrite map_union_empty in Hf, Ha. set (l' := fresh_loc h) in *.
  erewrite hbind_some by exact Ha. set (h1 := h ∪ _) in *.
  erewrite hbind_some by (apply load_at, lookup_old, Hl).
  destruct (Hinto h1 w y) as (w' & n1 & Hi & Hd & Hr); [by apply represents_old|].
  erewrite hbind_some by exact Hi.
  assert (h1 !! l' = Some (CValue (zero t))) as Hl1
    by (unfold h1; rewrite lookup_new, lookup_insert_eq; done).
  assert (n1 !! l' = None) as Hn1 by (by eapply map_disjoint_Some_l).
  assert (h1 ∪ n1 = h ∪ <[ l' := CValue (zero t) ]> n1) as Hh.
  { unfold h1. rewrite <- map_union_assoc, insert_empty, <- insert_union_singleton_l. done. }
  rewrite Hh. erewrite hbind_some by (by apply write_new). rewrite insert_insert_eq.
  eapply copied_intro; [done| |].
  - apply map_disjoint_insert_r. split; [done|]. eapply map_disjoint_weaken_l; [exact Hd|]. apply map_union_subseteq_l.
  - econstructor; [apply lookup_insert_eq|]. by apply represents_add.
Qed.

(** ** Maps *)

Lemma set_keys_new (h n : heap) l m entries :
  h !! l = None -> n !! l = Some (CMap m) ->
  set_keys l entries (h ∪ n)
    = Some (tt, h ∪ <[ l := CMap (foldl (fun m '(k, v) => <[ k := v ]> m) m entries) ]> n).
Proof.
  intros Hl. revert m n. induction entries as [|[k v] entries IH]; intros m n Hn; cbn [set_keys foldl].
  - unfold hret. by rewrite insert_id.
  - erewrite hbind_some by (apply load_map_at; by rewrite lookup_new).
    erewrite hbind_some by (by apply write_new).
    rewrite (IH (<[ k := v ]> m)) by apply lookup_insert_eq. by rewrite insert_insert_eq.
Qed.

(** Whatever order the entries come in, the copy has them all. *)
Lemma fold_entries (m : gmap string string) entries :
  entries ≡ₚ map_to_list m -> foldl (fun m '(k, v) => <[ k := v ]> m) ∅ entries = m.
Proof.
  intros Hp. assert (NoDup entries.*1) as Hnd by (rewrite Hp; apply NoDup_fst_map_to_list).
  rewrite <- (list_to_map_to_list m), <- (list_to_map_proper _ _ Hnd Hp).
  enough (forall m0 : gmap string string,
    foldl (fun m '(k, v) => <[ k := v ]> m) m0 entries = list_to_map entries ∪ m0) as ->
    by apply map_union_empty.
  clear Hp. induction entries as [|[k v] entries IH]; intros m0; cbn; [by rewrite map_empty_union|].
  apply NoDup_cons in Hnd as [Hk Hnd]. rewrite IH by done.
  rewrite <- insert_union_l, insert_union_r; [done|]. by apply not_elem_of_list_to_map_1.
Qed.

Lemma deep_map : deep_set TMap copy_map.
Proof.
  intros h v x Hne H. inversion H as [| | | | | |l m Hl|]; subst; [done|]. cbn [copy_map].
  pose proof (fresh_loc_spec h) as Hf. set (l' := fresh_loc h) in *.
  assert (alloc (CMap ∅) h = Some (l', h ∪ {[ l' := CMap ∅ ]})) as Ha.
  { unfold alloc. by rewrite insert_union_singleton_r. }
  erewrite hbind_some by exact Ha. erewrite hbind_some by (apply load_map_at, lookup_old, Hl).
  erewrite hbind_some by (apply set_keys_new; [done|apply lookup_singleton_eq]).
  rewrite (fold_entries m) by done. eapply copied_intro; [done|..].
  - apply map_disjoint_insert_r. split; [done|]. by apply map_disjoint_singleton_r.
  - constructor. apply lookup_insert_eq.
Qed.

(** ** Slices *)

Lemma slice_of_length off len vs : (off + len <= length vs)%nat -> length (slice_of off len vs) = len.
Proof. intros. unfold slice_of. rewrite length_take, length_drop. lia. Qed.

(** What [make] leaves behind. *)
Lemma make_slice_new h t n :
  exists l, h !! l = None /\ make_slice t n h = Some (VSlice l 0 n, h ∪ {[ l := CArray (replicate n (zero t)) ]}).
Proof.
  exists (fresh_loc h). split; [apply fresh_loc_spec|]. unfold make_slice, hbind, alloc.
  by rewrite insert_union_singleton_r by apply fresh_loc_spec.
Qed.

Lemma deep_slice t : flat t = true -> deep_set (TSlice t) (copy_slice t).
Proof.
  intros Hf h v x Hne H. inversion H as [| | | |? l off len vs xs Hl Hlen Hxs Hr| | |]; subst; [done|].
  unfold copy_slice. cbn [slice_len]. destruct (make_slice_new h t (length xs)) as (l' & Hl' & Hm).
  erewrite hbind_some by exact Hm. cbn [copy_elems]. unfold hbind at 1.
  erewrite hbind_some by (apply load_array_at, lookup_old, Hl).
  erewrite hbind_some by (apply load_array_at; rewrite lookup_new by done; apply lookup_singleton_eq).
  rewrite write_new by done. eapply copied_intro; [done|..].
  - apply map_disjoint_insert_r. split; [done|]. by apply map_disjoint_singleton_r.
  - rewrite take_0, Nat.min_id, drop_ge by (rewrite length_replicate; lia). cbn [app].
    rewrite app_nil_r, take_ge by (rewrite slice_of_length; lia).
    econstructor; [apply lookup_insert_eq|by rewrite slice_of_length|done|].
    intros i w y Hw Hy. unfold slice_of at 1 in Hw. rewrite drop_0, take_ge in Hw by (rewrite slice_of_length; lia).
    eapply flat_anywhere; [done|]. by eapply Hr.
Qed.

(** The loop over a slice of structs: in [n0] are the cells allocated so far, apart from
    the new array, whose first [i] elements are done. *)
Lemma copy_range_new t into (h n0 : heap) l off len vs xs l' ws i k :
  deep t into -> h !! l = Some (CArray vs) -> length (slice_of off len vs) = length xs ->
  (forall i v x, slice_of off len vs !! i = Some v -> xs !! i = Some x -> represents h t v x) ->
  h !! l' = None -> n0 !! l' = None -> h ##ₘ n0 -> (i + k = length xs)%nat -> length ws = length xs ->
  (forall j w x, (j < i)%nat -> ws !! j = Some w -> xs !! j = Some x -> represents n0 t w x) ->
  exists n1 ws', copy_range into (VSlice l off len) (VSlice l' 0 (length xs)) i k (h ∪ <[ l' := CArray ws ]> n0)
      = Some (tt, h ∪ <[ l' := CArray ws' ]> n1)
    /\ n1 !! l' = None /\ h ##ₘ n1 /\ length ws' = length xs
    /\ (forall j w x, ws' !! j = Some w -> xs !! j = Some x -> represents n1 t w x).
Proof.
  intros Hinto Hl Hlen Hr Hl'. revert n0 ws i. induction k as [|k IH]; intros n0 ws i Hn0 Hd Hi Hws Hdone.
  { exists n0, ws. split_and!; [done..|]. intros j w x Hw. apply Hdone; [|done]. apply lookup_lt_Some in Hw. lia. }
  cbn [copy_range index]. assert (i < length xs)%nat as Hlt by lia.
  destruct (lookup_lt_is_Some_2 (slice_of off len vs) i) as [w Hw]; [lia|].
  destruct (lookup_lt_is_Some_2 xs i) as [x Hx]; [lia|].
  unfold hbind at 1. erewrite hbind_some by (apply load_array_at, lookup_old, Hl). rewrite Hw. cbn [hret].
  set (h1 := h ∪ <[ l' := CArray ws ]> n0).
  destruct (Hinto h1 w x) as (w' & n1 & Hi1 & Hd1 & Hr1); [apply represents_old; eauto|].
  erewrite hbind_some by exact Hi1.
  assert (n1 !! l' = None) as Hn1.
  { eapply map_disjoint_Some_l; [exact Hd1|]. unfold h1. rewrite lookup_new by done. apply lookup_insert_eq. }
  assert (h1 ∪ n1 = h ∪ <[ l' := CArray ws ]> (n0 ∪ n1)) as ->
    by (unfold h1; by rewrite <- map_union_assoc, <- insert_union_l).
  cbn [set_index]. unfold hbind at 1.
  erewrite hbind_some by (apply load_array_at; rewrite lookup_new by done; apply lookup_insert_eq).
  rewrite (proj2 (Nat.ltb_lt i (length xs)) Hlt). cbn [Nat.add]. rewrite write_new, insert_insert_eq by done.
  assert (h ##ₘ n1) as Hd2 by (eapply map_disjoint_weaken_l; [exact Hd1|apply map_union_subseteq_l]).
  apply IH; [by apply lookup_union_None|by apply map_disjoint_union_r|lia|by rewrite length_insert|].
  intros j w2 x2 Hj Hw2 Hx2. destruct (decide (j = i)) as [->|Hne].
  - rewrite list_lookup_insert_eq in Hw2 by lia. simplify_eq.
    eapply represents_mono; [|exact Hr1]. apply map_union_subseteq_r.
    eapply map_disjoint_weaken_l; [exact Hd1|]. unfold h1.
    transitivity (<[ l' := CArray ws ]> n0); [by apply insert_subseteq|].
    apply map_union_subseteq_r, map_disjoint_insert_r. done.
  - rewrite list_lookup_insert_ne in Hw2 by done. apply represents_old. apply (Hdone j); [lia|done..].
Qed.

Lemma deep_structs t into : deep t into -> deep_set (TSlice t) (copy_structs t into).
Proof.
  intros Hinto h v x Hne H. inversion H as [| | | |? l off len vs xs Hl Hlen Hxs Hr| | |]; subst; [done|].
  unfold copy_structs. cbn [slice_len]. destruct (make_slice_new h t (length xs)) as (l' & Hl' & Hm).
  erewrite hbind_some by exact Hm.
  destruct (copy_range_new t into h ∅ l off (length xs) vs xs l' (replicate (length xs) (zero t)) 0 (length xs))
    as (n1 & ws' & Hc & Hn1 & Hd & Hws & Hdone); try done.
  { by apply slice_of_length. }
  { apply map_disjoint_empty_r. }
  { apply length_replicate. }
  { intros; lia. }
  rewrite insert_empty in Hc. erewrite hbind_some by exact Hc.
  eapply copied_intro; [done|by apply map_disjoint_insert_r|].
  econstructor; [apply lookup_insert_eq|lia|done|]. intros i w y Hw Hy. unfold slice_of in Hw.
  rewrite drop_0, take_ge in Hw by lia. apply represents_add; eauto.
Qed.

(** ** Structs, field by field *)

Definition is_done (done : list string) (f : string) : bool := existsb (String.eqb f) done.
Lemma is_done_cons f done g : is_done (f :: done) g = String.eqb g f || is_done done g.
Proof. done. Qed.

Section fields.
Context (fs : list (string * gty)) (Hfs : NoDup (map fst fs)).
(** The struct copied, in the heap at the start, and what it denotes. *)
Context (h : heap) (vs : gmap string gval) (xs : gmap string gtree).
Context (Hvs : represents h (TStruct fs) (VStruct vs) (XStruct xs)).

(** The struct under construction: the fields of [done] are copied, in the new cells [n];
    the others hold what [*out = *in] left in them. *)
Record partial (done : list string) (n : heap) (out : gmap string gval) : Prop := {
  partial_new : h ##ₘ n;
  partial_dom : dom out = names fs;
  partial_done : forall f t w x, (f, t) ∈ fs -> is_done done f = true ->
    out !! f = Some w -> xs !! f = Some x -> represents n t w x;
  partial_rest : forall f, is_done done f = false -> out !! f = vs !! f;
}.
(** From the new cells [n], the rest of a [DeepCopyInto] ends with the fields of [done]
    copied. *)
Definition reaches (done : list string) (n : heap) (m : M gval) : Prop :=
  exists n' out, m (h ∪ n) = Some (VStruct out, h ∪ n') /\ partial done n' out.

Lemma reaches_ret done n out : partial done n out -> reaches done n (hret (VStruct out)).
Proof. intros H. by exists n, out. Qed.
Lemma reaches_bind d d' n m f :
  reaches d n m -> (forall n' out, partial d n' out -> reaches d' n' (f (VStruct out))) ->
  reaches d' n (hbind m f).
Proof.
  intros (n1 & out1 & E1 & P1) H2. destruct (H2 n1 out1 P1) as (n2 & out2 & E2 & P2).
  exists n2, out2. split; [|done]. by erewrite hbind_some.
Qed.

Lemma field_type f t t' : (f, t) ∈ fs -> (f, t') ∈ fs -> t = t'.
Proof using Hfs.
  intros [i Hi]%list_elem_of_lookup [j Hj]%list_elem_of_lookup.
  assert (i = j) as ->.
  { eapply NoDup_lookup; [exact Hfs|..]; rewrite list_lookup_fmap; [by rewrite Hi|by rewrite Hj]. }
  congruence.
Qed.
Lemma field_value f t :
  (f, t) ∈ fs -> exists v x, vs !! f = Some v /\ xs !! f = Some x /\ represents h t v x.
Proof using Hvs.
  intros Hin. inversion Hvs as [| | | | | | |? ? ? Hv Hx Hr]; subst.
  assert (f ∈ names fs) as Hf.
  { apply elem_of_list_to_set, list_elem_of_fmap. by exists (f, t). }
  assert (is_Some (vs !! f)) as [v Ev] by (apply elem_of_dom; by rewrite Hv).
  assert (is_Some (xs !! f)) as [x Ex] by (apply elem_of_dom; by rewrite Hx). exists v, x. eauto.
Qed.

(** Setting one more field. *)
Lemma partial_set done n out f t w x n1 :
  partial done n out -> (f, t) ∈ fs -> xs !! f = Some x -> h ∪ n ##ₘ n1 -> represents n1 t w x ->
  partial (f :: done) (n ∪ n1) (<[ f := w ]> out).
Proof using Hfs Hvs.
  intros [Hn Hd Hdone Hrest] Hin Hx Hdis Hr.
  apply map_disjoint_union_l in Hdis as [Hh1 Hnn1]. split.
  - by apply map_disjoint_union_r.
  - rewrite dom_insert_L, Hd. enough (f ∈ names fs) by set_solver.
    apply elem_of_list_to_set, list_elem_of_fmap. by exists (f, t).
  - intros g t' w' x' Hg. rewrite is_done_cons. destruct (String.eqb_spec g f) as [->|Hne]; cbn.
    + rewrite lookup_insert_eq. intros _ [= <-] ?. simplify_eq. rewrite (field_type _ _ _ Hg Hin).
      eapply represents_mono; [|exact Hr]. by apply map_union_subseteq_r.
    + rewrite lookup_insert_ne by done. intros. apply represents_old. eauto.
  - intros g. rewrite is_done_cons. destruct (String.eqb_spec g f) as [->|Hne]; cbn; [done|].
    rewrite lookup_insert_ne by done. apply Hrest.
Qed.
Lemma get_field_at f v (h' : heap) : vs !! f = Some v -> get_field f (VStruct vs) h' = Some (v, h').
Proof using Type. intros H. cbn. by rewrite H. Qed.

Lemma reaches_into done n out f t into :
  partial done n out -> (f, t) ∈ fs -> deep t into ->
  reaches (f :: done) n (into_field f into (VStruct vs) (VStruct out)).
Proof using Hfs Hvs.
  intros H Hin Hinto. destruct (field_value f t Hin) as (v & x & Ev & Ex & Hr).
  unfold into_field, reaches. erewrite hbind_some by (by apply get_field_at).
  destruct (Hinto (h ∪ n) v x) as (w & n1 & Hi & Hd & Hr1); [by apply represents_old|].
  exists (n ∪ n1), (<[ f := w ]> out). erewrite hbind_some by exact Hi.
  split; [unfold set_field, hret; by rewrite map_union_assoc|]. by eapply partial_set.
Qed.

Lemma nil_anywhere n t x : represents h t VNil x -> represents n t VNil x.
Proof using Type. inversion 1; constructor. Qed.

Lemma reaches_when_set done n out f t k :
  partial done n out -> (f, t) ∈ fs -> is_done done f = false -> deep_set t k ->
  reaches (f :: done) n (when_set f k (VStruct vs) (VStruct out)).
Proof using Hfs Hvs.
  intros H Hin Hnew Hk. destruct (field_value f t Hin) as (v & x & Ev & Ex & Hr).
  unfold when_set, reaches. erewrite hbind_some by (by apply get_field_at).
  assert (v = VNil \/ v <> VNil) as [->|Hne] by (destruct v; auto).
  - exists n, out. split; [done|]. rewrite <- (insert_id out f VNil) at 1.
    + rewrite <- (map_union_empty n). eapply partial_set; [done..|apply map_disjoint_empty_r|by apply nil_anywhere].
    + by rewrite (partial_rest _ _ _ H).
  - destruct (Hk (h ∪ n) v x) as (w & n1 & Hi & Hd & Hr1); [done|by apply represents_old|].
    exists (n ∪ n1), (<[ f := w ]> out). split; [|by eapply partial_set].
    assert (hbind (k v) (fun w => set_field f w (VStruct out)) (h ∪ n) = Some (VStruct (<[ f := w ]> out), h ∪ (n ∪ n1))) as <-.
    { erewrite hbind_some by exact Hi. unfold set_field, hret. by rewrite map_union_assoc. }
    by destruct v.
Qed.
End fields.

(** A struct is deeply copied when each of its fields is, or holds no reference. *)
Lemma deep_struct fs into done :
  NoDup (map fst fs) ->
  (forall h vs xs, NoDup (map fst fs) -> represents h (TStruct fs) (VStruct vs) (XStruct xs) ->
     partial fs h vs xs [] ∅ vs -> reaches fs h vs xs done ∅ (into (VStruct vs))) ->
  forallb (fun '(f, t) => is_done done f || flat t) fs = true ->
  deep (TStruct fs) into.
Proof.
  intros Hnd Hrun Hflat h v x H. inversion H as [| | | | | | |? vs xs Hv Hx Hr]; subst.
  destruct (Hrun h vs xs Hnd H) as (n & out & E & P).
  { split; [apply map_disjoint_empty_r|done..]. }
  rewrite map_union_empty in E. eapply copied_intro; [exact E|apply P|]. destruct P as [_ Hd Hdone Hrest].
  constructor; [done..|]. intros f t w y Hin Hw Hy. destruct (is_done done f) eqn:Ef; [by eapply Hdone|].
  rewrite Hrest in Hw by done. eapply flat_anywhere; [|by eapply Hr].
  rewrite forallb_forall in Hflat. apply list_elem_of_In in Hin. specialize (Hflat _ Hin). cbn in Hflat.
  by rewrite Ef in Hflat.
Qed.

(** ** What a deep copy is good for *)

Lemma represents_new (h n : heap) t v x : h ##ₘ n -> represents n t v x -> represents (h ∪ n) t v x.
Proof. intros Hd. by apply represents_mono, map_union_subseteq_r. Qed.

(** Later changes of the original's cells leave the copy alone, and the other way round. *)
Lemma copied_independent h t v x r :
  represents h t v x -> copied h t x r ->
  exists w h', r = Some (w, h') /\ represents h' t w x /\ h ⊆ h'
    /\ (forall later : heap, (forall l, h !! l = None -> later !! l = h' !! l) -> represents later t w x)
    /\ (forall later : heap, (forall l, is_Some (h !! l) -> later !! l = h' !! l) -> represents later t v x).
Proof.
  intros Hv (w & n & -> & Hd & Hw). exists w, (h ∪ n). split_and!; [done|by apply represents_new|apply map_union_subseteq_l|..].
  - intros later Hl. eapply represents_mono; [|exact Hw]. apply map_subseteq_spec. intros l c Hc.
    assert (h !! l = None) as Hn by (by eapply map_disjoint_Some_r).
    rewrite Hl by done. by rewrite lookup_new.
  - intros later Hl. eapply represents_mono; [|exact Hv]. apply map_subseteq_spec. intros l c Hc.
    rewrite Hl by done. by apply lookup_old.
Qed.

(** ** Reading a value off the heap

    [denotes] follows at most [fuel] levels of a type; the types of a program are finite. *)
Fixpoint denotes (fuel : nat) (h : heap) (t : gty) (v : gval) : option gtree :=
  match fuel with
  | O => None
  | S fuel =>
      match t, v with
      | TData, VData s => Some (XData s)
      | TPtr _, VNil | TSlice _, VNil | TMap, VNil => Some XNil
      | TPtr t, VRef l =>
          match h !! l with Some (CValue w) => x ← denotes fuel h t w; Some (XPtr x) | _ => None end
      | TSlice t, VSlice l off len =>
          match h !! l with
          | Some (CArray vs) =>
              if (off + len <=? length vs)%nat
              then xs ← mapM (denotes fuel h t) (slice_of off len vs); Some (XSlice xs) else None
          | _ => None
          end
      | TMap, VRef l => match h !! l with Some (CMap m) => Some (XMap m) | _ => None end
      | TStruct fs, VStruct vs =>
          if bool_decide (dom vs = names fs) && bool_decide (NoDup (map fst fs)) then
            xs ← mapM (fun '(f, t) => v ← vs !! f; x ← denotes fuel h t v; Some (f, x)) fs;
            Some (XStruct (list_to_map xs))
          else None
      | _, _ => None
      end
  end.

Lemma denotes_sound fuel h t v x : denotes fuel h t v = Some x -> represents h t v x.
Proof.
  revert t v x. induction fuel as [|fuel IH]; intros t v x; [done|]. destruct t as [|t|t| |fs], v; cbn [denotes]; try done.
  - intros [= <-]. constructor.
  - intros [= <-]. constructor.
  - destruct (h !! l) as [[w| |]|] eqn:E; try done. intros (y & Hy & [= <-])%bind_Some. econstructor; eauto.
  - intros [= <-]. constructor.
  - destruct (h !! l) as [[|vs|]|] eqn:E; try done. destruct (Nat.leb_spec (off + len) (length vs)); [|done].
    intros (xs & Hxs%mapM_Some & [= <-])%bind_Some.
    econstructor; [done..|by rewrite <- (Forall2_length _ _ _ Hxs), slice_of_length|].
    intros i w y Hw Hy. eapply IH. by eapply (Forall2_lookup_lr _ _ _ _ _ _ Hxs).
  - intros [= <-]. constructor.
  - destruct (h !! l) as [[| |m]|] eqn:E; try done. intros [= <-]. by constructor.
  - destruct (bool_decide (dom fields = names fs)) eqn:Ed; [|done].
    destruct (bool_decide (NoDup (map fst fs))) eqn:En; [|done]. cbn [andb].
    apply bool_decide_eq_true in Ed, En. intros (xs & Hxs%mapM_Some & [= <-])%bind_Some.
    assert (xs.*1 = map fst fs) as Hn.
    { clear -Hxs. induction Hxs as [|[f t] [g y] fs xs H _ IH]; [done|]. cbn. f_equal; [|done].
      by apply bind_Some in H as (? & _ & (? & _ & [= <- _])%bind_Some). }
    constructor; [done|by rewrite dom_list_to_map_L, Hn|]. intros f t v x Hin Hv Hx.
    apply elem_of_list_to_map in Hx; [|by rewrite Hn].
    apply list_elem_of_lookup in Hx as [i Hi]. apply list_elem_of_lookup in Hin as [j Hj].
    assert (i = j) as ->.
    { eapply NoDup_lookup; [exact En| |by rewrite list_lookup_fmap, Hj].
      change (map fst fs !! i = Some f). rewrite <- Hn, list_lookup_fmap. by rewrite Hi. }
    pose proof (Forall2_lookup_lr _ _ _ _ _ _ Hxs Hj Hi) as H. cbn in H. rewrite Hv in H. cbn in H.
    apply bind_Some in H as (y & Hy & [= ->]). by apply IH.
Qed.
