(* ===== verification/DeepCopy.v ===== *)
(** * The generated deep copies ([zz_generated.deepcopy.go], both API versions)

    One definition per generated method.  A [DeepCopyInto] takes what [*in] holds and
    returns what [*out] holds at the end; it starts from [*out = *in].  The types are those
    of [api/cogito.dev], field by field.  Types of Kubernetes' own packages and their deep
    copies are a parameter ([k8slib]); of the three that the code copies by assignment,
    the fields are written out. *)

From S2P Require Import Prelude GoHeap.

Record k8slib := mkK8slib {
  ObjectMeta_ty : gty; ObjectMeta_DeepCopyInto : gval -> M gval;
  ListMeta_ty : gty; ListMeta_DeepCopyInto : gval -> M gval;
  Condition_ty : gty; Condition_DeepCopyInto : gval -> M gval;
  Time_ty : gty; Time_DeepCopyInto : gval -> M gval; Time_DeepCopy : gval -> M gval;
  DeploymentStrategy_ty : gty; DeploymentStrategy_DeepCopyInto : gval -> M gval;
  PodTemplateSpec_ty : gty; PodTemplateSpec_DeepCopyInto : gval -> M gval;
  ConfigMapKeySelector_ty : gty; ConfigMapKeySelector_DeepCopyInto : gval -> M gval;
  JSON_ty : gty; JSON_DeepCopyInto : gval -> M gval;
}.
Definition TypeMeta_ty : gty := TStruct [("Kind", TData); ("APIVersion", TData)].
Definition LocalObjectReference_ty : gty := TStruct [("Name", TData)].
Definition Duration_ty : gty := TStruct [("Duration", TData)].

(** [if in == nil { return nil }; out := new(T); in.DeepCopyInto(out); return out] *)
Definition deep_copy (t : gty) (into : gval -> M gval) (inp : gval) : M gval :=
  match inp with VNil => hret VNil | _ => copy_pointee t into inp end.

(** An interface value: nil, or a dynamic type with a pointer. *)
Definition runtimeObject : Type := option (string * gval).
(** [if c := in.DeepCopy(); c != nil { return c }; return nil] *)
Definition deep_copy_object (name : string) (copy : gval -> M gval) (inp : gval) : M runtimeObject :=
  let^ c := copy inp in
  match c with VNil => hret None | _ => hret (Some (name, c)) end.

Section generated.
Context (k : k8slib).

(** *** v1alpha1 *)

Definition LLMModelRef_ty : gty :=
  TStruct [("Name", TData); ("Source", TData); ("Revision", TData); ("ArtifactRepository", TData)].
Definition LLMModelRef_DeepCopyInto (inp : gval) : M gval := hret inp.
Definition LLMModelRef_DeepCopy : gval -> M gval := deep_copy LLMModelRef_ty LLMModelRef_DeepCopyInto.

Definition ArtifactSpec_ty : gty :=
  TStruct [("ExpectedSize", TData); ("Files", TSlice TData); ("MaterializationTarget", TData)].
Definition ArtifactSpec_DeepCopyInto (inp : gval) : M gval :=
  let out := inp in
  let^ out := when_set "Files" (copy_slice TData) inp out in
  hret out.
Definition ArtifactSpec_DeepCopy : gval -> M gval := deep_copy ArtifactSpec_ty ArtifactSpec_DeepCopyInto.

Definition ChatTemplateSpec_ty : gty :=
  TStruct [("ConfigMapKeyRef", ConfigMapKeySelector_ty k); ("SHA256", TData)].
Definition ChatTemplateSpec_DeepCopyInto (inp : gval) : M gval :=
  let out := inp in
  let^ out := into_field "ConfigMapKeyRef" (ConfigMapKeySelector_DeepCopyInto k) inp out in
  hret out.
Definition ChatTemplateSpec_DeepCopy : gval -> M gval :=
  deep_copy ChatTemplateSpec_ty ChatTemplateSpec_DeepCopyInto.

Definition ServingSpec_ty : gty :=
  TStruct [("Backend", TData); ("DisplayName", TData); ("MaxModelLen", TData);
    ("ToolCallParser", TData); ("ReasoningParser", TData);
    ("ChatTemplate", TPtr ChatTemplateSpec_ty); ("Args", TSlice TData)].
Definition ServingSpec_DeepCopyInto (inp : gval) : M gval :=
  let out := inp in
  let^ out := when_set "ChatTemplate" (copy_pointee ChatTemplateSpec_ty ChatTemplateSpec_DeepCopyInto) inp out in
  let^ out := when_set "Args" (copy_slice TData) inp out in
  hret out.
Definition ServingSpec_DeepCopy : gval -> M gval := deep_copy ServingSpec_ty ServingSpec_DeepCopyInto.

Definition LLMModelSpec_ty : gty :=
  TStruct [("Model", LLMModelRef_ty); ("Artifact", TPtr ArtifactSpec_ty);
    ("Serving", ServingSpec_ty); ("BackendRef", TPtr LocalObjectReference_ty)].
Definition LLMModelSpec_DeepCopyInto (inp : gval) : M gval :=
  let out := inp in
  let^ out := into_field "Model" assign inp out in
  let^ out := when_set "Artifact" (copy_pointee ArtifactSpec_ty ArtifactSpec_DeepCopyInto) inp out in
  let^ out := into_field "Serving" ServingSpec_DeepCopyInto inp out in
  let^ out := when_set "BackendRef" (copy_pointee LocalObjectReference_ty assign) inp out in
  hret out.
Definition LLMModelSpec_DeepCopy : gval -> M gval := deep_copy LLMModelSpec_ty LLMModelSpec_DeepCopyInto.

Definition ResolvedChatTemplate_ty : gty :=
  TStruct [("ConfigMapName", TData); ("Key", TData); ("SHA256", TData)].
Definition ResolvedChatTemplate_DeepCopyInto (inp : gval) : M gval := hret inp.
Definition ResolvedChatTemplate_DeepCopy : gval -> M gval :=
  deep_copy ResolvedChatTemplate_ty ResolvedChatTemplate_DeepCopyInto.

Definition CacheState_ty : gty :=
  TStruct [("Location", TData); ("LastHydrated", TPtr (Time_ty k))].
Definition CacheState_DeepCopyInto (inp : gval) : M gval :=
  let out := inp in
  let^ out := when_set "LastHydrated" (Time_DeepCopy k) inp out in
  hret out.
Definition CacheState_DeepCopy : gval -> M gval := deep_copy CacheState_ty CacheState_DeepCopyInto.

Definition RuntimeMetadata_ty : gty :=
  TStruct [("ObservedAt", Time_ty k); ("ServedModelIDs", TSlice TData); ("ContextLength", TData);
    ("MaxConcurrentReqs", TData); ("LaunchArguments", TMap); ("KVCache", TMap);
    ("ChatTemplate", TPtr ResolvedChatTemplate_ty)].
Definition RuntimeMetadata_DeepCopyInto (inp : gval) : M gval :=
  let out := inp in
  let^ out := into_field "ObservedAt" (Time_DeepCopyInto k) inp out in
  let^ out := when_set "ServedModelIDs" (copy_slice TData) inp out in
  let^ out := when_set "LaunchArguments" copy_map inp out in
  let^ out := when_set "KVCache" copy_map inp out in
  let^ out := when_set "ChatTemplate" (copy_pointee ResolvedChatTemplate_ty assign) inp out in
  hret out.
Definition RuntimeMetadata_DeepCopy : gval -> M gval :=
  deep_copy RuntimeMetadata_ty RuntimeMetadata_DeepCopyInto.

Definition LLMModelStatus_ty : gty :=
  TStruct [("Phase", TData); ("Active", TData); ("CacheState", TPtr CacheState_ty);
    ("RuntimeMetadata", TPtr RuntimeMetadata_ty); ("Conditions", TSlice (Condition_ty k));
    ("ObservedGeneration", TData)].
Definition LLMModelStatus_DeepCopyInto (inp : gval) : M gval :=
  let out := inp in
  let^ out := when_set "CacheState" (copy_pointee CacheState_ty CacheState_DeepCopyInto) inp out in
  let^ out := when_set "RuntimeMetadata" (copy_pointee RuntimeMetadata_ty RuntimeMetadata_DeepCopyInto) inp out in
  let^ out := when_set "Conditions" (copy_structs (Condition_ty k) (Condition_DeepCopyInto k)) inp out in
  hret out.
Definition LLMModelStatus_DeepCopy : gval -> M gval :=
  deep_copy LLMModelStatus_ty LLMModelStatus_DeepCopyInto.

Definition LLMModel_ty : gty :=
  TStruct [("TypeMeta", TypeMeta_ty); ("ObjectMeta", ObjectMeta_ty k); ("Spec", LLMModelSpec_ty);
    ("Status", LLMModelStatus_ty)].
Definition LLMModel_DeepCopyInto (inp : gval) : M gval :=
  let out := inp in
  let^ out := into_field "TypeMeta" assign inp out in
  let^ out := into_field "ObjectMeta" (ObjectMeta_DeepCopyInto k) inp out in
  let^ out := into_field "Spec" LLMModelSpec_DeepCopyInto inp out in
  let^ out := into_field "Status" LLMModelStatus_DeepCopyInto inp out in
  hret out.
Definition LLMModel_DeepCopy : gval -> M gval := deep_copy LLMModel_ty LLMModel_DeepCopyInto.
Definition LLMModel_DeepCopyObject : gval -> M runtimeObject := deep_copy_object "LLMModel" LLMModel_DeepCopy.

Definition LLMModelList_ty : gty :=
  TStruct [("TypeMeta", TypeMeta_ty); ("ListMeta", ListMeta_ty k); ("Items", TSlice LLMModel_ty)].
Definition LLMModelList_DeepCopyInto (inp : gval) : M gval :=
  let out := inp in
  let^ out := into_field "TypeMeta" assign inp out in
  let^ out := into_field "ListMeta" (ListMeta_DeepCopyInto k) inp out in
  let^ out := when_set "Items" (copy_structs LLMModel_ty LLMModel_DeepCopyInto) inp out in
  hret out.
Definition LLMModelList_DeepCopy : gval -> M gval := deep_copy LLMModelList_ty LLMModelList_DeepCopyInto.
Definition LLMModelList_DeepCopyObject : gval -> M runtimeObject :=
  deep_copy_object "LLMModelList" LLMModelList_DeepCopy.

Definition GPUResourceRequirements_ty : gty :=
  TStruct [("Requests", TMap); ("Limits", TMap)].
Definition GPUResourceRequirements_DeepCopyInto (inp : gval) : M gval :=
  let out := inp in
  let^ out := when_set "Requests" copy_map inp out in
  let^ out := when_set "Limits" copy_map inp out in
  hret out.
Definition GPUResourceRequirements_DeepCopy : gval -> M gval :=
  deep_copy GPUResourceRequirements_ty GPUResourceRequirements_DeepCopyInto.

Definition BackendCapacitySpec_ty : gty :=
  TStruct [("GPUs", TData); ("ResourceName", TData)].
Definition BackendCapacitySpec_DeepCopyInto (inp : gval) : M gval := hret inp.
Definition BackendCapacitySpec_DeepCopy : gval -> M gval :=
  deep_copy BackendCapacitySpec_ty BackendCapacitySpec_DeepCopyInto.

Definition BackendDeploymentSpec_ty : gty :=
  TStruct [("Name", TData); ("Replicas", TPtr TData); ("Strategy", DeploymentStrategy_ty k);
    ("PodTemplate", PodTemplateSpec_ty k)].
Definition BackendDeploymentSpec_DeepCopyInto (inp : gval) : M gval :=
  let out := inp in
  let^ out := when_set "Replicas" (copy_pointee TData assign) inp out in
  let^ out := into_field "Strategy" (DeploymentStrategy_DeepCopyInto k) inp out in
  let^ out := into_field "PodTemplate" (PodTemplateSpec_DeepCopyInto k) inp out in
  hret out.
Definition BackendDeploymentSpec_DeepCopy : gval -> M gval :=
  deep_copy BackendDeploymentSpec_ty BackendDeploymentSpec_DeepCopyInto.

Definition BackendServiceSpec_ty : gty :=
  TStruct [("Name", TData); ("Port", TData); ("PortName", TData); ("Annotations", TMap)].
Definition BackendServiceSpec_DeepCopyInto (inp : gval) : M gval :=
  let out := inp in
  let^ out := when_set "Annotations" copy_map inp out in
  hret out.
Definition BackendServiceSpec_DeepCopy : gval -> M gval :=
  deep_copy BackendServiceSpec_ty BackendServiceSpec_DeepCopyInto.

Definition BackendWorkloadSpec_ty : gty :=
  TStruct [("ContainerName", TData); ("Deployment", BackendDeploymentSpec_ty);
    ("Service", BackendServiceSpec_ty)].
Definition BackendWorkloadSpec_DeepCopyInto (inp : gval) : M gval :=
  let out := inp in
  let^ out := into_field "Deployment" BackendDeploymentSpec_DeepCopyInto inp out in
  let^ out := into_field "Service" BackendServiceSpec_DeepCopyInto inp out in
  hret out.
Definition BackendWorkloadSpec_DeepCopy : gval -> M gval :=
  deep_copy BackendWorkloadSpec_ty BackendWorkloadSpec_DeepCopyInto.

Definition LLMBackendSpec_ty : gty :=
  TStruct [("Type", TData); ("Capacity", TPtr BackendCapacitySpec_ty);
    ("Workload", TPtr BackendWorkloadSpec_ty); ("DeploymentRef", LocalObjectReference_ty);
    ("ContainerName", TData); ("ServiceRef", LocalObjectReference_ty); ("Port", TData);
    ("RuntimeClassName", TData); ("GPUResources", TPtr GPUResourceRequirements_ty)].
Definition LLMBackendSpec_DeepCopyInto (inp : gval) : M gval :=
  let out := inp in
  let^ out := when_set "Capacity" (copy_pointee BackendCapacitySpec_ty assign) inp out in
  let^ out := when_set "Workload" (copy_pointee BackendWorkloadSpec_ty BackendWorkloadSpec_DeepCopyInto) inp out in
  let^ out := into_field "DeploymentRef" assign inp out in
  let^ out := into_field "ServiceRef" assign inp out in
  let^ out := when_set "GPUResources"
                (copy_pointee GPUResourceRequirements_ty GPUResourceRequirements_DeepCopyInto) inp out in
  hret out.
Definition LLMBackendSpec_DeepCopy : gval -> M gval :=
  deep_copy LLMBackendSpec_ty LLMBackendSpec_DeepCopyInto.

Definition LLMBackendStatus_ty : gty :=
  TStruct [("Phase", TData); ("ActiveModel", TData); ("ActiveModelSince", TPtr (Time_ty k));
    ("Replicas", TData); ("AvailableReplicas", TData); ("Conditions", TSlice (Condition_ty k));
    ("ObservedGeneration", TData)].
Definition LLMBackendStatus_DeepCopyInto (inp : gval) : M gval :=
  let out := inp in
  let^ out := when_set "ActiveModelSince" (Time_DeepCopy k) inp out in
  let^ out := when_set "Conditions" (copy_structs (Condition_ty k) (Condition_DeepCopyInto k)) inp out in
  hret out.
Definition LLMBackendStatus_DeepCopy : gval -> M gval :=
  deep_copy LLMBackendStatus_ty LLMBackendStatus_DeepCopyInto.

Definition LLMBackend_ty : gty :=
  TStruct [("TypeMeta", TypeMeta_ty); ("ObjectMeta", ObjectMeta_ty k); ("Spec", LLMBackendSpec_ty);
    ("Status", LLMBackendStatus_ty)].
Definition LLMBackend_DeepCopyInto (inp : gval) : M gval :=
  let out := inp in
  let^ out := into_field "TypeMeta" assign inp out in
  let^ out := into_field "ObjectMeta" (ObjectMeta_DeepCopyInto k) inp out in
  let^ out := into_field "Spec" LLMBackendSpec_DeepCopyInto inp out in
  let^ out := into_field "Status" LLMBackendStatus_DeepCopyInto inp out in
  hret out.
Definition LLMBackend_DeepCopy : gval -> M gval := deep_copy LLMBackend_ty LLMBackend_DeepCopyInto.
Definition LLMBackend_DeepCopyObject : gval -> M runtimeObject :=
  deep_copy_object "LLMBackend" LLMBackend_DeepCopy.

Definition LLMBackendList_ty : gty :=
  TStruct [("TypeMeta", TypeMeta_ty); ("ListMeta", ListMeta_ty k); ("Items", TSlice LLMBackend_ty)].
Definition LLMBackendList_DeepCopyInto (inp : gval) : M gval :=
  let out := inp in
  let^ out := into_field "TypeMeta" assign inp out in
  let^ out := into_field "ListMeta" (ListMeta_DeepCopyInto k) inp out in
  let^ out := when_set "Items" (copy_structs LLMBackend_ty LLMBackend_DeepCopyInto) inp out in
  hret out.
Definition LLMBackendList_DeepCopy : gval -> M gval :=
  deep_copy LLMBackendList_ty LLMBackendList_DeepCopyInto.
Definition LLMBackendList_DeepCopyObject : gval -> M runtimeObject :=
  deep_copy_object "LLMBackendList" LLMBackendList_DeepCopy.

Definition LLMActiveModelSpec_ty : gty :=
  TStruct [("ModelName", TData)].
Definition LLMActiveModelSpec_DeepCopyInto (inp : gval) : M gval := hret inp.
Definition LLMActiveModelSpec_DeepCopy : gval -> M gval :=
  deep_copy LLMActiveModelSpec_ty LLMActiveModelSpec_DeepCopyInto.

Definition LLMActiveModelStatus_ty : gty :=
  TStruct [("ModelName", TData); ("BackendType", TData); ("Phase", TData);
    ("TransitionFrom", TData); ("TransitionStarted", TPtr (Time_ty k));
    ("TransitionDuration", TPtr Duration_ty); ("TransitionGeneration", TData);
    ("Conditions", TSlice (Condition_ty k)); ("ObservedGeneration", TData)].
Definition LLMActiveModelStatus_DeepCopyInto (inp : gval) : M gval :=
  let out := inp in
  let^ out := when_set "TransitionStarted" (Time_DeepCopy k) inp out in
  let^ out := when_set "TransitionDuration" (copy_pointee Duration_ty assign) inp out in
  let^ out := when_set "Conditions" (copy_structs (Condition_ty k) (Condition_DeepCopyInto k)) inp out in
  hret out.
Definition LLMActiveModelStatus_DeepCopy : gval -> M gval :=
  deep_copy LLMActiveModelStatus_ty LLMActiveModelStatus_DeepCopyInto.

Definition LLMActiveModel_ty : gty :=
  TStruct [("TypeMeta", TypeMeta_ty); ("ObjectMeta", ObjectMeta_ty k);
    ("Spec", LLMActiveModelSpec_ty); ("Status", LLMActiveModelStatus_ty)].
Definition LLMActiveModel_DeepCopyInto (inp : gval) : M gval :=
  let out := inp in
  let^ out := into_field "TypeMeta" assign inp out in
  let^ out := into_field "ObjectMeta" (ObjectMeta_DeepCopyInto k) inp out in
  let^ out := into_field "Spec" assign inp out in
  let^ out := into_field "Status" LLMActiveModelStatus_DeepCopyInto inp out in
  hret out.
Definition LLMActiveModel_DeepCopy : gval -> M gval :=
  deep_copy LLMActiveModel_ty LLMActiveModel_DeepCopyInto.
Definition LLMActiveModel_DeepCopyObject : gval -> M runtimeObject :=
  deep_copy_object "LLMActiveModel" LLMActiveModel_DeepCopy.

Definition LLMActiveModelList_ty : gty :=
  TStruct [("TypeMeta", TypeMeta_ty); ("ListMeta", ListMeta_ty k);
    ("Items", TSlice LLMActiveModel_ty)].
Definition LLMActiveModelList_DeepCopyInto (inp : gval) : M gval :=
  let out := inp in
  let^ out := into_field "TypeMeta" assign inp out in
  let^ out := into_field "ListMeta" (ListMeta_DeepCopyInto k) inp out in
  let^ out := when_set "Items" (copy_structs LLMActiveModel_ty LLMActiveModel_DeepCopyInto) inp out in
  hret out.
Definition LLMActiveModelList_DeepCopy : gval -> M gval :=
  deep_copy LLMActiveModelList_ty LLMActiveModelList_DeepCopyInto.
Definition LLMActiveModelList_DeepCopyObject : gval -> M runtimeObject :=
  deep_copy_object "LLMActiveModelList" LLMActiveModelList_DeepCopy.

Definition LLMModelOverlaySpec_ty : gty :=
  TStruct [("DisplayName", TData); ("BaseModel", TData); ("RequestDefaults", JSON_ty k)].
Definition LLMModelOverlaySpec_DeepCopyInto (inp : gval) : M gval :=
  let out := inp in
  let^ out := into_field "RequestDefaults" (JSON_DeepCopyInto k) inp out in
  hret out.
Definition LLMModelOverlaySpec_DeepCopy : gval -> M gval :=
  deep_copy LLMModelOverlaySpec_ty LLMModelOverlaySpec_DeepCopyInto.

Definition LLMModelOverlayStatus_ty : gty :=
  TStruct [("ResolvedBaseModel", TData); ("Conditions", TSlice (Condition_ty k));
    ("ObservedGeneration", TData)].
Definition LLMModelOverlayStatus_DeepCopyInto (inp : gval) : M gval :=
  let out := inp in
  let^ out := when_set "Conditions" (copy_structs (Condition_ty k) (Condition_DeepCopyInto k)) inp out in
  hret out.
Definition LLMModelOverlayStatus_DeepCopy : gval -> M gval :=
  deep_copy LLMModelOverlayStatus_ty LLMModelOverlayStatus_DeepCopyInto.

Definition LLMModelOverlay_ty : gty :=
  TStruct [("TypeMeta", TypeMeta_ty); ("ObjectMeta", ObjectMeta_ty k);
    ("Spec", LLMModelOverlaySpec_ty); ("Status", LLMModelOverlayStatus_ty)].
Definition LLMModelOverlay_DeepCopyInto (inp : gval) : M gval :=
  let out := inp in
  let^ out := into_field "TypeMeta" assign inp out in
  let^ out := into_field "ObjectMeta" (ObjectMeta_DeepCopyInto k) inp out in
  let^ out := into_field "Spec" LLMModelOverlaySpec_DeepCopyInto inp out in
  let^ out := into_field "Status" LLMModelOverlayStatus_DeepCopyInto inp out in
  hret out.
Definition LLMModelOverlay_DeepCopy : gval -> M gval :=
  deep_copy LLMModelOverlay_ty LLMModelOverlay_DeepCopyInto.
Definition LLMModelOverlay_DeepCopyObject : gval -> M runtimeObject :=
  deep_copy_object "LLMModelOverlay" LLMModelOverlay_DeepCopy.

Definition LLMModelOverlayList_ty : gty :=
  TStruct [("TypeMeta", TypeMeta_ty); ("ListMeta", ListMeta_ty k);
    ("Items", TSlice LLMModelOverlay_ty)].
Definition LLMModelOverlayList_DeepCopyInto (inp : gval) : M gval :=
  let out := inp in
  let^ out := into_field "TypeMeta" assign inp out in
  let^ out := into_field "ListMeta" (ListMeta_DeepCopyInto k) inp out in
  let^ out := when_set "Items" (copy_structs LLMModelOverlay_ty LLMModelOverlay_DeepCopyInto) inp out in
  hret out.
Definition LLMModelOverlayList_DeepCopy : gval -> M gval :=
  deep_copy LLMModelOverlayList_ty LLMModelOverlayList_DeepCopyInto.
Definition LLMModelOverlayList_DeepCopyObject : gval -> M runtimeObject :=
  deep_copy_object "LLMModelOverlayList" LLMModelOverlayList_DeepCopy.

(** *** v1beta1: the workload-only backend *)

Definition BetaLLMBackendSpec_ty : gty :=
  TStruct [("Type", TData); ("Capacity", TPtr BackendCapacitySpec_ty);
    ("Workload", TPtr BackendWorkloadSpec_ty)].
Definition BetaLLMBackendSpec_DeepCopyInto (inp : gval) : M gval :=
  let out := inp in
  let^ out := when_set "Capacity" (copy_pointee BackendCapacitySpec_ty assign) inp out in
  let^ out := when_set "Workload" (copy_pointee BackendWorkloadSpec_ty BackendWorkloadSpec_DeepCopyInto) inp out in
  hret out.
Definition BetaLLMBackendSpec_DeepCopy : gval -> M gval :=
  deep_copy BetaLLMBackendSpec_ty BetaLLMBackendSpec_DeepCopyInto.

Definition BetaLLMBackend_ty : gty :=
  TStruct [("TypeMeta", TypeMeta_ty); ("ObjectMeta", ObjectMeta_ty k);
    ("Spec", BetaLLMBackendSpec_ty); ("Status", LLMBackendStatus_ty)].
Definition BetaLLMBackend_DeepCopyInto (inp : gval) : M gval :=
  let out := inp in
  let^ out := into_field "TypeMeta" assign inp out in
  let^ out := into_field "ObjectMeta" (ObjectMeta_DeepCopyInto k) inp out in
  let^ out := into_field "Spec" BetaLLMBackendSpec_DeepCopyInto inp out in
  let^ out := into_field "Status" LLMBackendStatus_DeepCopyInto inp out in
  hret out.
Definition BetaLLMBackend_DeepCopy : gval -> M gval :=
  deep_copy BetaLLMBackend_ty BetaLLMBackend_DeepCopyInto.
Definition BetaLLMBackend_DeepCopyObject : gval -> M runtimeObject :=
  deep_copy_object "v1beta1.LLMBackend" BetaLLMBackend_DeepCopy.

Definition BetaLLMBackendList_ty : gty :=
  TStruct [("TypeMeta", TypeMeta_ty); ("ListMeta", ListMeta_ty k);
    ("Items", TSlice BetaLLMBackend_ty)].
Definition BetaLLMBackendList_DeepCopyInto (inp : gval) : M gval :=
  let out := inp in
  let^ out := into_field "TypeMeta" assign inp out in
  let^ out := into_field "ListMeta" (ListMeta_DeepCopyInto k) inp out in
  let^ out := when_set "Items" (copy_structs BetaLLMBackend_ty BetaLLMBackend_DeepCopyInto) inp out in
  hret out.
Definition BetaLLMBackendList_DeepCopy : gval -> M gval :=
  deep_copy BetaLLMBackendList_ty BetaLLMBackendList_DeepCopyInto.
Definition BetaLLMBackendList_DeepCopyObject : gval -> M runtimeObject :=
  deep_copy_object "v1beta1.LLMBackendList" BetaLLMBackendList_DeepCopy.

(** *** All of them *)

Definition generated : list (string * gty * (gval -> M gval)) := [
  ("LLMModelRef", LLMModelRef_ty, LLMModelRef_DeepCopy);
  ("ArtifactSpec", ArtifactSpec_ty, ArtifactSpec_DeepCopy);
  ("ChatTemplateSpec", ChatTemplateSpec_ty, ChatTemplateSpec_DeepCopy);
  ("ServingSpec", ServingSpec_ty, ServingSpec_DeepCopy);
  ("LLMModelSpec", LLMModelSpec_ty, LLMModelSpec_DeepCopy);
  ("ResolvedChatTemplate", ResolvedChatTemplate_ty, ResolvedChatTemplate_DeepCopy);
  ("CacheState", CacheState_ty, CacheState_DeepCopy);
  ("RuntimeMetadata", RuntimeMetadata_ty, RuntimeMetadata_DeepCopy);
  ("LLMModelStatus", LLMModelStatus_ty, LLMModelStatus_DeepCopy);
  ("LLMModel", LLMModel_ty, LLMModel_DeepCopy);
  ("LLMModelList", LLMModelList_ty, LLMModelList_DeepCopy);
  ("GPUResourceRequirements", GPUResourceRequirements_ty, GPUResourceRequirements_DeepCopy);
  ("BackendCapacitySpec", BackendCapacitySpec_ty, BackendCapacitySpec_DeepCopy);
  ("BackendDeploymentSpec", BackendDeploymentSpec_ty, BackendDeploymentSpec_DeepCopy);
  ("BackendServiceSpec", BackendServiceSpec_ty, BackendServiceSpec_DeepCopy);
  ("BackendWorkloadSpec", BackendWorkloadSpec_ty, BackendWorkloadSpec_DeepCopy);
  ("LLMBackendSpec", LLMBackendSpec_ty, LLMBackendSpec_DeepCopy);
  ("LLMBackendStatus", LLMBackendStatus_ty, LLMBackendStatus_DeepCopy);
  ("LLMBackend", LLMBackend_ty, LLMBackend_DeepCopy);
  ("LLMBackendList", LLMBackendList_ty, LLMBackendList_DeepCopy);
  ("LLMActiveModelSpec", LLMActiveModelSpec_ty, LLMActiveModelSpec_DeepCopy);
  ("LLMActiveModelStatus", LLMActiveModelStatus_ty, LLMActiveModelStatus_DeepCopy);
  ("LLMActiveModel", LLMActiveModel_ty, LLMActiveModel_DeepCopy);
  ("LLMActiveModelList", LLMActiveModelList_ty, LLMActiveModelList_DeepCopy);
  ("LLMModelOverlaySpec", LLMModelOverlaySpec_ty, LLMModelOverlaySpec_DeepCopy);
  ("LLMModelOverlayStatus", LLMModelOverlayStatus_ty, LLMModelOverlayStatus_DeepCopy);
  ("LLMModelOverlay", LLMModelOverlay_ty, LLMModelOverlay_DeepCopy);
  ("LLMModelOverlayList", LLMModelOverlayList_ty, LLMModelOverlayList_DeepCopy);
  ("BetaLLMBackendSpec", BetaLLMBackendSpec_ty, BetaLLMBackendSpec_DeepCopy);
  ("BetaLLMBackend", BetaLLMBackend_ty, BetaLLMBackend_DeepCopy);
  ("BetaLLMBackendList", BetaLLMBackendList_ty, BetaLLMBackendList_DeepCopy)].
Definition generated_objects : list (string * gty * (gval -> M runtimeObject)) := [
  ("LLMModel", LLMModel_ty, LLMModel_DeepCopyObject);
  ("LLMModelList", LLMModelList_ty, LLMModelList_DeepCopyObject);
  ("LLMBackend", LLMBackend_ty, LLMBackend_DeepCopyObject);
  ("LLMBackendList", LLMBackendList_ty, LLMBackendList_DeepCopyObject);
  ("LLMActiveModel", LLMActiveModel_ty, LLMActiveModel_DeepCopyObject);
  ("LLMActiveModelList", LLMActiveModelList_ty, LLMActiveModelList_DeepCopyObject);
  ("LLMModelOverlay", LLMModelOverlay_ty, LLMModelOverlay_DeepCopyObject);
  ("LLMModelOverlayList", LLMModelOverlayList_ty, LLMModelOverlayList_DeepCopyObject);
  ("v1beta1.LLMBackend", BetaLLMBackend_ty, BetaLLMBackend_DeepCopyObject);
  ("v1beta1.LLMBackendList", BetaLLMBackendList_ty, BetaLLMBackendList_DeepCopyObject)].
End generated.
