(* ===== verification/DeepCopyProps.v ===== *)
(** * The generated deep copies are deep *)

From S2P Require Import Prelude GoHeap GoHeapProps DeepCopy.

(** What Kubernetes documents of its own types: [DeepCopyInto] and [DeepCopy] make deep
    copies. *)
Record k8s_ok (k : k8slib) : Prop := {
  ObjectMeta_ok : deep (ObjectMeta_ty k) (ObjectMeta_DeepCopyInto k);
  ListMeta_ok : deep (ListMeta_ty k) (ListMeta_DeepCopyInto k);
  Condition_ok : deep (Condition_ty k) (Condition_DeepCopyInto k);
  Time_ok : deep (Time_ty k) (Time_DeepCopyInto k);
  Time_copy_ok : deep (TPtr (Time_ty k)) (Time_DeepCopy k);
  DeploymentStrategy_ok : deep (DeploymentStrategy_ty k) (DeploymentStrategy_DeepCopyInto k);
  PodTemplateSpec_ok : deep (PodTemplateSpec_ty k) (PodTemplateSpec_DeepCopyInto k);
  ConfigMapKeySelector_ok : deep (ConfigMapKeySelector_ty k) (ConfigMapKeySelector_DeepCopyInto k);
  JSON_ok : deep (JSON_ty k) (JSON_DeepCopyInto k);
}.

Create HintDb deep.
Lemma deep_nonnil t f : deep t f -> deep_set t f.
Proof. intros Hf h v x _. apply Hf. Qed.
#[export] Hint Resolve ObjectMeta_ok ListMeta_ok Condition_ok Time_ok DeploymentStrategy_ok PodTemplateSpec_ok
  ConfigMapKeySelector_ok JSON_ok : deep.
#[export] Hint Resolve deep_pointee deep_map deep_slice deep_structs : deep.
#[export] Hint Extern 2 (deep_set _ (Time_DeepCopy _)) => apply deep_nonnil, Time_copy_ok : deep.
#[export] Hint Extern 2 (deep _ assign) => apply deep_assign; reflexivity : deep.
#[export] Hint Extern 2 (deep_set _ (copy_slice _)) => apply deep_slice; reflexivity : deep.

(** A [DeepCopyInto], field by field. *)
Ltac copy_fields :=
  lazymatch goal with
  | |- reaches _ _ _ _ _ _ (hret _) => apply reaches_ret; eassumption
  | |- reaches _ _ _ _ _ _ (hbind _ _) =>
      eapply reaches_bind;
      [first [eapply reaches_into; [eassumption..|apply list_elem_of_In; cbn; tauto|]
             |eapply reaches_when_set; [eassumption..|apply list_elem_of_In; cbn; tauto|reflexivity|]];
       eauto with deep
      |intros; copy_fields]
  end.
Ltac deep_fields into :=
  eapply deep_struct;
  [refine (bool_decide_eq_true_1 _ _); reflexivity|intros; unfold into; cbv zeta; copy_fields|reflexivity].

Section copies.
Context (k : k8slib) (Hk : k8s_ok k).

Lemma LLMModelRef_deep : deep LLMModelRef_ty LLMModelRef_DeepCopyInto.
Proof using Hk. deep_fields LLMModelRef_DeepCopyInto. Qed.
#[local] Hint Resolve LLMModelRef_deep : deep.
Lemma ArtifactSpec_deep : deep ArtifactSpec_ty ArtifactSpec_DeepCopyInto.
Proof using Hk. deep_fields ArtifactSpec_DeepCopyInto. Qed.
#[local] Hint Resolve ArtifactSpec_deep : deep.
Lemma ChatTemplateSpec_deep : deep (ChatTemplateSpec_ty k) (ChatTemplateSpec_DeepCopyInto k).
Proof using Hk. deep_fields ChatTemplateSpec_DeepCopyInto. Qed.
#[local] Hint Resolve ChatTemplateSpec_deep : deep.
Lemma ServingSpec_deep : deep (ServingSpec_ty k) (ServingSpec_DeepCopyInto k).
Proof using Hk. deep_fields ServingSpec_DeepCopyInto. Qed.
#[local] Hint Resolve ServingSpec_deep : deep.
Lemma LLMModelSpec_deep : deep (LLMModelSpec_ty k) (LLMModelSpec_DeepCopyInto k).
Proof using Hk. deep_fields LLMModelSpec_DeepCopyInto. Qed.
#[local] Hint Resolve LLMModelSpec_deep : deep.
Lemma ResolvedChatTemplate_deep : deep ResolvedChatTemplate_ty ResolvedChatTemplate_DeepCopyInto.
Proof using Hk. deep_fields ResolvedChatTemplate_DeepCopyInto. Qed.
#[local] Hint Resolve ResolvedChatTemplate_deep : deep.
Lemma CacheState_deep : deep (CacheState_ty k) (CacheState_DeepCopyInto k).
Proof using Hk. deep_fields CacheState_DeepCopyInto. Qed.
#[local] Hint Resolve CacheState_deep : deep.
Lemma RuntimeMetadata_deep : deep (RuntimeMetadata_ty k) (RuntimeMetadata_DeepCopyInto k).
Proof using Hk. deep_fields RuntimeMetadata_DeepCopyInto. Qed.
#[local] Hint Resolve RuntimeMetadata_deep : deep.
Lemma LLMModelStatus_deep : deep (LLMModelStatus_ty k) (LLMModelStatus_DeepCopyInto k).
Proof using Hk. deep_fields LLMModelStatus_DeepCopyInto. Qed.
#[local] Hint Resolve LLMModelStatus_deep : deep.
Lemma LLMModel_deep : deep (LLMModel_ty k) (LLMModel_DeepCopyInto k).
Proof using Hk. deep_fields LLMModel_DeepCopyInto. Qed.
#[local] Hint Resolve LLMModel_deep : deep.
Lemma LLMModelList_deep : deep (LLMModelList_ty k) (LLMModelList_DeepCopyInto k).
Proof using Hk. deep_fields LLMModelList_DeepCopyInto. Qed.
#[local] Hint Resolve LLMModelList_deep : deep.
Lemma GPUResourceRequirements_deep : deep GPUResourceRequirements_ty GPUResourceRequirements_DeepCopyInto.
Proof using Hk. deep_fields GPUResourceRequirements_DeepCopyInto. Qed.
#[local] Hint Resolve GPUResourceRequirements_deep : deep.
Lemma BackendCapacitySpec_deep : deep BackendCapacitySpec_ty BackendCapacitySpec_DeepCopyInto.
Proof using Hk. deep_fields BackendCapacitySpec_DeepCopyInto. Qed.
#[local] Hint Resolve BackendCapacitySpec_deep : deep.
Lemma BackendDeploymentSpec_deep : deep (BackendDeploymentSpec_ty k) (BackendDeploymentSpec_DeepCopyInto k).
Proof using Hk. deep_fields BackendDeploymentSpec_DeepCopyInto. Qed.
#[local] Hint Resolve BackendDeploymentSpec_deep : deep.
Lemma BackendServiceSpec_deep : deep BackendServiceSpec_ty BackendServiceSpec_DeepCopyInto.
Proof using Hk. deep_fields BackendServiceSpec_DeepCopyInto. Qed.
#[local] Hint Resolve BackendServiceSpec_deep : deep.
Lemma BackendWorkloadSpec_deep : deep (BackendWorkloadSpec_ty k) (BackendWorkloadSpec_DeepCopyInto k).
Proof using Hk. deep_fields BackendWorkloadSpec_DeepCopyInto. Qed.
#[local] Hint Resolve BackendWorkloadSpec_deep : deep.
Lemma LLMBackendSpec_deep : deep (LLMBackendSpec_ty k) (LLMBackendSpec_DeepCopyInto k).
Proof using Hk. deep_fields LLMBackendSpec_DeepCopyInto. Qed.
#[local] Hint Resolve LLMBackendSpec_deep : deep.
Lemma LLMBackendStatus_deep : deep (LLMBackendStatus_ty k) (LLMBackendStatus_DeepCopyInto k).
Proof using Hk. deep_fields LLMBackendStatus_DeepCopyInto. Qed.
#[local] Hint Resolve LLMBackendStatus_deep : deep.
Lemma LLMBackend_deep : deep (LLMBackend_ty k) (LLMBackend_DeepCopyInto k).
Proof using Hk. deep_fields LLMBackend_DeepCopyInto. Qed.
#[local] Hint Resolve LLMBackend_deep : deep.
Lemma LLMBackendList_deep : deep (LLMBackendList_ty k) (LLMBackendList_DeepCopyInto k).
Proof using Hk. deep_fields LLMBackendList_DeepCopyInto. Qed.
#[local] Hint Resolve LLMBackendList_deep : deep.
Lemma LLMActiveModelSpec_deep : deep LLMActiveModelSpec_ty LLMActiveModelSpec_DeepCopyInto.
Proof using Hk. deep_fields LLMActiveModelSpec_DeepCopyInto. Qed.
#[local] Hint Resolve LLMActiveModelSpec_deep : deep.
Lemma LLMActiveModelStatus_deep : deep (LLMActiveModelStatus_ty k) (LLMActiveModelStatus_DeepCopyInto k).
Proof using Hk. deep_fields LLMActiveModelStatus_DeepCopyInto. Qed.
#[local] Hint Resolve LLMActiveModelStatus_deep : deep.
Lemma LLMActiveModel_deep : deep (LLMActiveModel_ty k) (LLMActiveModel_DeepCopyInto k).
Proof using Hk. deep_fields LLMActiveModel_DeepCopyInto. Qed.
#[local] Hint Resolve LLMActiveModel_deep : deep.
Lemma LLMActiveModelList_deep : deep (LLMActiveModelList_ty k) (LLMActiveModelList_DeepCopyInto k).
Proof using Hk. deep_fields LLMActiveModelList_DeepCopyInto. Qed.
#[local] Hint Resolve LLMActiveModelList_deep : deep.
Lemma LLMModelOverlaySpec_deep : deep (LLMModelOverlaySpec_ty k) (LLMModelOverlaySpec_DeepCopyInto k).
Proof using Hk. deep_fields LLMModelOverlaySpec_DeepCopyInto. Qed.
#[local] Hint Resolve LLMModelOverlaySpec_deep : deep.
Lemma LLMModelOverlayStatus_deep : deep (LLMModelOverlayStatus_ty k) (LLMModelOverlayStatus_DeepCopyInto k).
Proof using Hk. deep_fields LLMModelOverlayStatus_DeepCopyInto. Qed.
#[local] Hint Resolve LLMModelOverlayStatus_deep : deep.
Lemma LLMModelOverlay_deep : deep (LLMModelOverlay_ty k) (LLMModelOverlay_DeepCopyInto k).
Proof using Hk. deep_fields LLMModelOverlay_DeepCopyInto. Qed.
#[local] Hint Resolve LLMModelOverlay_deep : deep.
Lemma LLMModelOverlayList_deep : deep (LLMModelOverlayList_ty k) (LLMModelOverlayList_DeepCopyInto k).
Proof using Hk. deep_fields LLMModelOverlayList_DeepCopyInto. Qed.
#[local] Hint Resolve LLMModelOverlayList_deep : deep.
Lemma BetaLLMBackendSpec_deep : deep (BetaLLMBackendSpec_ty k) (BetaLLMBackendSpec_DeepCopyInto k).
Proof using Hk. deep_fields BetaLLMBackendSpec_DeepCopyInto. Qed.
#[local] Hint Resolve BetaLLMBackendSpec_deep : deep.
Lemma BetaLLMBackend_deep : deep (BetaLLMBackend_ty k) (BetaLLMBackend_DeepCopyInto k).
Proof using Hk. deep_fields BetaLLMBackend_DeepCopyInto. Qed.
#[local] Hint Resolve BetaLLMBackend_deep : deep.
Lemma BetaLLMBackendList_deep : deep (BetaLLMBackendList_ty k) (BetaLLMBackendList_DeepCopyInto k).
Proof using Hk. deep_fields BetaLLMBackendList_DeepCopyInto. Qed.
#[local] Hint Resolve BetaLLMBackendList_deep : deep.

Lemma deep_copy_deep t into : deep t into -> deep (TPtr t) (deep_copy t into).
Proof using Type.
  intros Hi h v x H. assert (v = VNil \/ v <> VNil) as [->|Hne] by (destruct v; auto).
  - exists VNil, ∅. cbn. unfold hret. rewrite map_union_empty. split_and!; [done|apply map_disjoint_empty_r|].
    by eapply nil_anywhere.
  - replace (deep_copy t into v) with (copy_pointee t into v) by (by destruct v). by apply deep_pointee.
Qed.

Lemma generated_deep : Forall (fun '(_, t, f) => deep (TPtr t) f) (generated k).
Proof using Hk. repeat (constructor; [apply deep_copy_deep; eauto with deep|]). constructor. Qed.
Lemma generated_objects_deep :
  Forall (fun '(name, t, f) => exists copy, f = deep_copy_object name copy /\ deep (TPtr t) copy) (generated_objects k).
Proof using Hk.
  repeat (constructor; [eexists; split; [reflexivity|apply deep_copy_deep; eauto with deep]|]). constructor.
Qed.
End copies.

(** C22: every generated [DeepCopy] is a deep copy.  On a pointer to a well-typed value it
    does not panic and changes no existing memory; the pointer it returns denotes an equal
    value (nil for nil), and from then on the two are independent: whatever is done to the
    memory that existed before, the copy keeps its value, and whatever is done to the
    memory the copy allocated, the original keeps its. *)
Theorem deep_copies_are_independent (k : k8slib) (name : string) (t : gty) (f : gval -> M gval)
    (h : heap) (p : gval) (x : gtree) :
  k8s_ok k -> (name, t, f) ∈ generated k -> represents h (TPtr t) p x ->
  exists q h', f p h = Some (q, h') /\ represents h' (TPtr t) q x /\ h ⊆ h'
    /\ (forall later : heap, (forall l, h !! l = None -> later !! l = h' !! l) -> represents later (TPtr t) q x)
    /\ (forall later : heap, (forall l, is_Some (h !! l) -> later !! l = h' !! l) -> represents later (TPtr t) p x).
Proof.
  intros Hk Hin Hp. pose proof (generated_deep k Hk) as Hall. rewrite Forall_forall in Hall.
  by apply copied_independent, (Hall _ Hin).
Qed.

(** C23: a generated [DeepCopyObject] never hides a nil pointer in a non-nil interface: it is
    nil exactly on a nil pointer, and otherwise carries the pointer [DeepCopy] returns,
    under the object's own type. *)
Theorem deep_copy_object_nil_safe (k : k8slib) (name : string) (t : gty) (f : gval -> M runtimeObject)
    (h : heap) (p : gval) (x : gtree) :
  k8s_ok k -> (name, t, f) ∈ generated_objects k -> represents h (TPtr t) p x ->
  exists o h', f p h = Some (o, h')
    /\ (o = None <-> p = VNil)
    /\ (forall ty q, o = Some (ty, q) -> ty = name /\ q <> VNil /\ represents h' (TPtr t) q x).
Proof.
  intros Hk Hin Hp.
  pose proof (generated_objects_deep k Hk) as Hall. rewrite Forall_forall in Hall.
  destruct (Hall _ Hin) as (copy & -> & Hcopy). destruct (Hcopy h p x Hp) as (q & m & Hq & Hd & Hr).
  unfold deep_copy_object. erewrite hbind_some by exact Hq.
  assert (q = VNil <-> p = VNil) as Hnil.
  { clear -Hp Hr. split; intros ->; inversion Hp; subst; inversion Hr; done. }
  destruct q; eexists _, _; (split; [reflexivity|]); (split; [naive_solver|]); try done;
    intros ty q' [= <- <-]; (split_and!; [done..|by apply represents_new]).
Qed.

(** ** A concrete instance *)

(** Kubernetes types cut down to a name and labels; the rest holds no reference. *)
Definition small_meta : gty := TStruct [("Name", TData); ("Labels", TMap)].
Definition small_meta_into (inp : gval) : M gval :=
  let^ out := when_set "Labels" copy_map inp inp in hret out.
Definition small_k8s : k8slib := mkK8slib small_meta small_meta_into TData assign TData assign
  TData assign (deep_copy TData assign) TData assign TData assign TData assign TData assign.
Lemma small_k8s_ok : k8s_ok small_k8s.
Proof.
  assert (deep TData assign) as Hd by (by apply deep_assign).
  split; try exact Hd; [|by apply deep_copy_deep]. unfold small_k8s. cbn [ObjectMeta_ty ObjectMeta_DeepCopyInto].
  deep_fields small_meta_into.
Qed.

Definition serving : gmap string gval := {[
  "Backend" := VData "vllm"; "DisplayName" := VData "Gemma"; "MaxModelLen" := VData "8192";
  "ToolCallParser" := VData ""; "ReasoningParser" := VData ""; "ChatTemplate" := VNil; "Args" := VSlice 2 1 2 ]}.
Definition serving_tree : gtree := XStruct {[
  "Backend" := XData "vllm"; "DisplayName" := XData "Gemma"; "MaxModelLen" := XData "8192";
  "ToolCallParser" := XData ""; "ReasoningParser" := XData ""; "ChatTemplate" := XNil;
  "Args" := XSlice [XData "--tp"; XData "2"] ]}.
Definition active_model : gmap string gval := {[
  "TypeMeta" := VStruct {[ "Kind" := VData "LLMActiveModel"; "APIVersion" := VData "llm.cogito.dev/v1alpha1" ]};
  "ObjectMeta" := VStruct {[ "Name" := VData "default"; "Labels" := VRef 4 ]};
  "Spec" := VStruct {[ "ModelName" := VData "gemma" ]};
  "Status" := zero (LLMActiveModelStatus_ty small_k8s) ]}.
Definition active_tree : gtree := XStruct {[
  "TypeMeta" := XStruct {[ "Kind" := XData "LLMActiveModel"; "APIVersion" := XData "llm.cogito.dev/v1alpha1" ]};
  "ObjectMeta" := XStruct {[ "Name" := XData "default"; "Labels" := XMap {[ "team" := "ml" ]} ]};
  "Spec" := XStruct {[ "ModelName" := XData "gemma" ]};
  "Status" := XStruct {[
    "ModelName" := XData ""; "BackendType" := XData ""; "Phase" := XData ""; "TransitionFrom" := XData "";
    "TransitionStarted" := XNil; "TransitionDuration" := XNil; "TransitionGeneration" := XData "";
    "Conditions" := XNil; "ObservedGeneration" := XData "" ]} ]}.
(** The arguments are a window of a longer array. *)
Definition memory : heap := {[
  1%positive := CValue (VStruct serving);
  2%positive := CArray [VData "--port"; VData "--tp"; VData "2"];
  3%positive := CValue (VStruct active_model);
  4%positive := CMap {[ "team" := "ml" ]} ]}.

Lemma serving_represented : represents memory (TPtr (ServingSpec_ty small_k8s)) (VRef 1) (XPtr serving_tree).
Proof. apply (denotes_sound 5). vm_compute. reflexivity. Qed.
Lemma active_represented : represents memory (TPtr (LLMActiveModel_ty small_k8s)) (VRef 3) (XPtr active_tree).
Proof. apply (denotes_sound 5). vm_compute. reflexivity. Qed.

(** Overwriting the original's arguments leaves the copy's as they were. *)
Lemma deep_copies_are_independent_witness :
  exists q h', ServingSpec_DeepCopy small_k8s (VRef 1) memory = Some (q, h')
    /\ represents (<[ 2%positive := CArray [] ]> h') (TPtr (ServingSpec_ty small_k8s)) q (XPtr serving_tree).
Proof.
  destruct (deep_copies_are_independent small_k8s "ServingSpec" (ServingSpec_ty small_k8s)
    (ServingSpec_DeepCopy small_k8s) memory (VRef 1) (XPtr serving_tree) small_k8s_ok)
    as (q & h' & Hq & _ & _ & Hcopy & _);
    [apply list_elem_of_In; cbn; tauto|exact serving_represented|].
  exists q, h'. split; [exact Hq|]. apply Hcopy. intros l Hl. rewrite lookup_insert_ne; [reflexivity|].
  intros <-. vm_compute in Hl. discriminate Hl.
Defined.

Lemma deep_copy_object_nil_safe_witness :
  (exists h', LLMActiveModel_DeepCopyObject small_k8s VNil memory = Some (None, h'))
  /\ exists q h', LLMActiveModel_DeepCopyObject small_k8s (VRef 3) memory = Some (Some ("LLMActiveModel", q), h') /\ q <> VNil.
Proof.
  assert (("LLMActiveModel", LLMActiveModel_ty small_k8s, LLMActiveModel_DeepCopyObject small_k8s) ∈ generated_objects small_k8s)
    as Hin by (apply list_elem_of_In; cbn; tauto).
  split.
  - destruct (deep_copy_object_nil_safe small_k8s "LLMActiveModel" (LLMActiveModel_ty small_k8s)
      (LLMActiveModel_DeepCopyObject small_k8s) memory VNil XNil small_k8s_ok Hin (represents_nil_ptr _ _))
      as (o & h' & Ho & Hn & _).
    exists h'. rewrite (proj2 Hn eq_refl) in Ho. exact Ho.
  - destruct (deep_copy_object_nil_safe small_k8s "LLMActiveModel" (LLMActiveModel_ty small_k8s)
      (LLMActiveModel_DeepCopyObject small_k8s) memory (VRef 3) (XPtr active_tree) small_k8s_ok Hin active_represented)
      as (o & h' & Ho & Hn & Hs).
    destruct o as [[ty q]|]; [|discriminate (proj1 Hn eq_refl)].
    destruct (Hs ty q eq_refl) as (-> & Hq & _). exists q, h'. split; [exact Ho|exact Hq].
Defined.
