(* ===== verification/Metrics.v ===== *)
(** * Prometheus collectors ([internal/metrics/metrics.go], [cmd/llm-proxy/main.go])

    The vectors the operator and the proxy declare, their registration, and what each
    recorded event does to them.  The Prometheus client is a parameter, [promlib], with
    its documented behaviour as the class [prom_ok]: one child per list of label values,
    a panic when their number is not the declared one, a panic when a name is registered
    twice.  [None] is a panic. *)

From S2P Require Import Prelude GoStrings Types Effects Api ProxyApi.

Record promlib := mkPromlib {
  float64 : Type;
  (** the constants [n] and [n/1000]; [time.Duration.Seconds]; [<=] *)
  constant : Z -> float64; thousandths : Z -> float64; toSeconds : Z -> float64; float_le : float64 -> float64 -> bool;
  CounterVec : Type;
  (** name and label names *)
  NewCounterVec : string -> list string -> CounterVec;
  counter_name : CounterVec -> string;
  counter_labels : CounterVec -> list string;
  (** the value of the child with these label values *)
  counter_value : CounterVec -> list string -> Z;
  (** [WithLabelValues(...).Inc()] *)
  Inc : CounterVec -> list string -> option CounterVec;
  HistogramVec : Type;
  (** name, bucket bounds and label names *)
  NewHistogramVec : string -> list float64 -> list string -> HistogramVec;
  histogram_name : HistogramVec -> string;
  histogram_labels : HistogramVec -> list string;
  (** observations of a child that are at most a bound *)
  bucket : HistogramVec -> list string -> float64 -> Z;
  (** [WithLabelValues(...).Observe(x)] *)
  Observe : HistogramVec -> list string -> float64 -> option HistogramVec;
  Registry : Type;
  NewRegistry : Registry;
  registered : Registry -> gset string;
  (** [MustRegister] of the collector with this name *)
  MustRegister : Registry -> string -> option Registry;
}.

Class prom_ok (lib : promlib) : Prop := {
  counter_new name labels :
    let v := NewCounterVec lib name labels in
    counter_name lib v = name /\ counter_labels lib v = labels /\ forall l, counter_value lib v l = 0;
  counter_inc v l : length l = length (counter_labels lib v) ->
    exists v', Inc lib v l = Some v' /\ counter_labels lib v' = counter_labels lib v
      /\ forall l', counter_value lib v' l' = counter_value lib v l' + (if l' == l then 1 else 0);
  histogram_new name bounds labels :
    let v := NewHistogramVec lib name bounds labels in
    histogram_name lib v = name /\ histogram_labels lib v = labels /\ forall l ub, bucket lib v l ub = 0;
  histogram_observe v l x : length l = length (histogram_labels lib v) ->
    exists v', Observe lib v l x = Some v' /\ histogram_labels lib v' = histogram_labels lib v
      /\ forall l' ub, bucket lib v' l' ub
           = bucket lib v l' ub + (if (l' == l) && float_le lib x ub then 1 else 0);
  registry_new : registered lib (NewRegistry lib) = ∅;
  must_register reg name :
    match MustRegister lib reg name with
    | Some reg' => name ∉ registered lib reg /\ registered lib reg' = {[ name ]} ∪ registered lib reg
    | None => name ∈ registered lib reg
    end;
}.

Section metrics.
Context (lib : promlib).

(** ** The operator *)

Record collectors := mkCollectors {
  transitionDuration : HistogramVec lib;
  transitionFailures : CounterVec lib;
  modelSwitches : CounterVec lib;
}.
Definition new_collectors : collectors := mkCollectors
  (NewHistogramVec lib "llm_operator_transition_duration_seconds"
     (map (constant lib) [60; 300; 600; 1800; 3600]) ["model_name"])
  (NewCounterVec lib "llm_operator_transition_failures_total" ["model_name"; "reason"])
  (NewCounterVec lib "llm_operator_model_switches_total" ["from_model"; "to_model"; "backend_type"]).

Definition Register (c : collectors) (reg : Registry lib) : option (Registry lib) :=
  reg ← MustRegister lib reg (histogram_name lib (transitionDuration c));
  reg ← MustRegister lib reg (counter_name lib (transitionFailures c));
  MustRegister lib reg (counter_name lib (modelSwitches c)).

Definition RecordTransitionDuration (d : Z) (modelName : string) (c : collectors) : option collectors :=
  v ← Observe lib (transitionDuration c) [modelName] (toSeconds lib d);
  Some (mkCollectors v (transitionFailures c) (modelSwitches c)).
Definition RecordTransitionFailure (modelName reason : string) (c : collectors) : option collectors :=
  v ← Inc lib (transitionFailures c) [modelName; reason];
  Some (mkCollectors (transitionDuration c) v (modelSwitches c)).
Definition RecordModelSwitch (fromModel toModel backendType : string) (c : collectors) : option collectors :=
  v ← Inc lib (modelSwitches c) [fromModel; toModel; backendType];
  Some (mkCollectors (transitionDuration c) (transitionFailures c) v).

(** What a request of a controller does to the collectors. *)
Definition record_metric (m : metric) : collectors -> option collectors :=
  match m with
  | TransitionDuration d model => RecordTransitionDuration d model
  | TransitionFailure model reason => RecordTransitionFailure model reason
  | ModelSwitch from to backend => RecordModelSwitch from to backend
  end.
Fixpoint record_metrics (ms : list metric) (c : collectors) : option collectors :=
  match ms with
  | [] => Some c
  | m :: ms => c ← record_metric m c; record_metrics ms c
  end.

(** ** The proxy *)

Record inferenceCollectors := mkInferenceCollectors {
  llmRequestsTotal : CounterVec lib;
  llmRequestDuration : HistogramVec lib;
  llmTimeToFirstToken : HistogramVec lib;
}.
Definition latencyBuckets : list (float64 lib) :=
  map (thousandths lib) [1; 5; 10; 20; 40; 60; 80; 100; 250; 500; 750]
  ++ [constant lib 1; thousandths lib 2500; constant lib 5; thousandths lib 7500]
  ++ map (constant lib) [10; 20; 40; 80; 160; 640; 2560].
Definition new_inference : inferenceCollectors := mkInferenceCollectors
  (NewCounterVec lib "llm_requests_total" ["model"; "backend"; "status"])
  (NewHistogramVec lib "llm_request_duration_seconds" latencyBuckets ["model"; "backend"])
  (NewHistogramVec lib "llm_time_to_first_token_seconds" latencyBuckets ["model"; "backend"]).

(** [init]: [metricsRegistry.MustRegister] of the three in turn. *)
Definition init_inference (c : inferenceCollectors) : option (Registry lib) :=
  reg ← MustRegister lib (NewRegistry lib) (counter_name lib (llmRequestsTotal c));
  reg ← MustRegister lib reg (histogram_name lib (llmRequestDuration c));
  MustRegister lib reg (histogram_name lib (llmTimeToFirstToken c)).

(** The observations of [recordInferenceMetrics]. *)
Definition observe_inference (model backend status : string) (duration : Z) (firstByte : option Z)
    (c : inferenceCollectors) : option inferenceCollectors :=
  total ← Inc lib (llmRequestsTotal c) [model; backend; status];
  took ← Observe lib (llmRequestDuration c) [model; backend] (toSeconds lib duration);
  first ← match firstByte with
          | Some d => Observe lib (llmTimeToFirstToken c) [model; backend] (toSeconds lib d)
          | None => Some (llmTimeToFirstToken c)
          end;
  Some (mkInferenceCollectors total took first).
Fixpoint observe_all (l : list (string * string * string * Z * option Z)) (c : inferenceCollectors)
    : option inferenceCollectors :=
  match l with
  | [] => Some c
  | (model, backend, status, d, fb) :: l => c ← observe_inference model backend status d fb c; observe_all l c
  end.
End metrics.

Arguments transitionDuration {lib}. Arguments transitionFailures {lib}. Arguments modelSwitches {lib}.
Arguments llmRequestsTotal {lib}. Arguments llmRequestDuration {lib}. Arguments llmTimeToFirstToken {lib}.

(** ** A client that counts *)

Record countingCounter := mkCounting { cc_name : string; cc_labels : list string; cc_values : gmap (list string) Z }.
Record countingHistogram := mkCountingH {
  ch_name : string; ch_labels : list string; ch_seen : list (list string * Z) }.
Definition counting : promlib := {|
  float64 := Z; constant n := n * 1000000000; thousandths n := n * 1000000; toSeconds d := d; float_le := Z.leb;
  CounterVec := countingCounter;
  NewCounterVec name labels := mkCounting name labels ∅;
  counter_name := cc_name; counter_labels := cc_labels;
  counter_value v l := default 0 (cc_values v !! l);
  Inc v l := if (length l =? length (cc_labels v))%nat
             then Some (mkCounting (cc_name v) (cc_labels v) (<[ l := default 0 (cc_values v !! l) + 1 ]> (cc_values v)))
             else None;
  HistogramVec := countingHistogram;
  NewHistogramVec name _ labels := mkCountingH name labels [];
  histogram_name := ch_name; histogram_labels := ch_labels;
  bucket v l ub := Z.of_nat (length (List.filter (fun x => (l == x.1) && Z.leb x.2 ub) (ch_seen v)));
  Observe v l x := if (length l =? length (ch_labels v))%nat
                   then Some (mkCountingH (ch_name v) (ch_labels v) ((l, x) :: ch_seen v)) else None;
  Registry := gset string;
  NewRegistry := ∅;
  registered reg := reg;
  MustRegister reg name := if decide (name ∈ reg) then None else Some ({[ name ]} ∪ reg);
|}.
#[export] Instance counting_ok : prom_ok counting.
Proof.
  split; cbn.
  - done.
  - intros v l Hl. rewrite Hl, Nat.eqb_refl. eexists. split_and!; [done..|]. intros l'. cbn.
    case_bool_decide as He; [subst; by rewrite lookup_insert_eq|]. rewrite lookup_insert_ne by done. lia.
  - done.
  - intros v l x Hl. rewrite Hl, Nat.eqb_refl. eexists. split_and!; [done..|]. intros l' ub. cbn.
    destruct (_ && _); cbn; lia.
  - done.
  - intros reg name. case_decide; [done|]. done.
Qed.
