(* ===== verification/MetricsProps.v ===== *)
(** * What the metrics tell

    The operator's counters are exactly what the transitions' status writes account for. *)

From S2P Require Import Prelude GoStrings Types Effects Api Driver Workload CacheClient ActiveModel Protocol ActiveModelProps Samples ProxyApi Metrics.

(** ** Registration *)

Lemma register_distinct lib `{!prom_ok lib} reg name :
  name ∉ registered lib reg ->
  exists reg', MustRegister lib reg name = Some reg' /\ registered lib reg' = {[ name ]} ∪ registered lib reg.
Proof.
  intros Hn. pose proof (must_register reg name) as H. destruct (MustRegister lib reg name); [|done].
  destruct H as [_ H]. eauto.
Qed.

(** The operator's three collectors register once; a second time is a panic. *)
Lemma Register_once lib `{!prom_ok lib} :
  exists reg, Register lib (new_collectors lib) (NewRegistry lib) = Some reg
    /\ Register lib (new_collectors lib) reg = None.
Proof.
  unfold Register. cbn [transitionDuration transitionFailures modelSwitches new_collectors].
  rewrite (proj1 (histogram_new _ _ _)), !(proj1 (counter_new _ _)).
  destruct (register_distinct lib (NewRegistry lib) "llm_operator_transition_duration_seconds") as (r1 & -> & H1).
  { rewrite registry_new. set_solver. }
  cbn [mbind option_bind]. rewrite registry_new in H1.
  destruct (register_distinct lib r1 "llm_operator_transition_failures_total") as (r2 & -> & H2).
  { rewrite H1. set_solver. }
  cbn [mbind option_bind]. rewrite H1 in H2.
  destruct (register_distinct lib r2 "llm_operator_model_switches_total") as (r3 & -> & H3).
  { rewrite H2. set_solver. }
  exists r3. split; [done|]. pose proof (must_register r3 "llm_operator_transition_duration_seconds") as H.
  destruct (MustRegister lib r3 _); [|done]. destruct H as [[] _]. rewrite H3, H2. set_solver.
Qed.

(** ** Collectors and lists of events *)

(** Every vector has the labels it was declared with. *)
Definition labelled (lib : promlib) (c : collectors lib) : Prop :=
  length (histogram_labels lib (transitionDuration c)) = 1%nat
  /\ length (counter_labels lib (transitionFailures c)) = 2%nat
  /\ length (counter_labels lib (modelSwitches c)) = 3%nat.
Lemma new_labelled lib `{!prom_ok lib} : labelled lib (new_collectors lib).
Proof.
  unfold labelled. cbn. by rewrite (proj1 (proj2 (histogram_new _ _ _))), !(proj1 (proj2 (counter_new _ _))).
Qed.

Definition is_switch (labels : list string) (m : metric) : bool :=
  match m with ModelSwitch from to backend => labels == [from; to; backend] | _ => false end.
Definition is_failure (labels : list string) (m : metric) : bool :=
  match m with TransitionFailure model reason => labels == [model; reason] | _ => false end.
Definition is_duration (lib : promlib) (labels : list string) (ub : float64 lib) (m : metric) : bool :=
  match m with TransitionDuration d model => (labels == [model]) && float_le lib (toSeconds lib d) ub | _ => false end.
Definition how_many {A} (f : A -> bool) (l : list A) : Z := Z.of_nat (length (List.filter f l)).
Lemma how_many_nil {A} (f : A -> bool) : how_many f [] = 0.
Proof. done. Qed.
Lemma how_many_cons {A} (f : A -> bool) x l : how_many f (x :: l) = (if f x then 1 else 0) + how_many f l.
Proof. unfold how_many. cbn. destruct (f x); cbn; lia. Qed.

(** [c'] is [c] after these events. *)
Record counted (lib : promlib) (ms : list metric) (c c' : collectors lib) : Prop := {
  counted_switches labels : counter_value lib (modelSwitches c') labels
    = counter_value lib (modelSwitches c) labels + how_many (is_switch labels) ms;
  counted_failures labels : counter_value lib (transitionFailures c') labels
    = counter_value lib (transitionFailures c) labels + how_many (is_failure labels) ms;
  counted_durations labels ub : bucket lib (transitionDuration c') labels ub
    = bucket lib (transitionDuration c) labels ub + how_many (is_duration lib labels ub) ms;
}.
Lemma record_metric_counts lib `{!prom_ok lib} m c :
  labelled lib c -> exists c', record_metric lib m c = Some c' /\ labelled lib c' /\ counted lib [m] c c'.
Proof.
  unfold labelled. intros (Hd & Hf & Hs). destruct m as [d model|model reason|from to backend];
    cbn [record_metric]; unfold RecordTransitionDuration, RecordTransitionFailure, RecordModelSwitch.
  - destruct (histogram_observe (transitionDuration c) [model] (toSeconds lib d)) as (v & -> & Hl & Hv); [done|].
    eexists. split; [done|]. cbn. rewrite Hl. split; [done|].
    split; cbn; intros; rewrite how_many_cons, how_many_nil; cbn; rewrite ?Hv; lia.
  - destruct (counter_inc (transitionFailures c) [model; reason]) as (v & -> & Hl & Hv); [done|].
    eexists. split; [done|]. cbn. rewrite Hl. split; [done|].
    split; cbn; intros; rewrite how_many_cons, how_many_nil; cbn; rewrite ?Hv; lia.
  - destruct (counter_inc (modelSwitches c) [from; to; backend]) as (v & -> & Hl & Hv); [done|].
    eexists. split; [done|]. cbn. rewrite Hl. split; [done|].
    split; cbn; intros; rewrite how_many_cons, how_many_nil; cbn; rewrite ?Hv; lia.
Qed.
Lemma record_metrics_count lib `{!prom_ok lib} ms c :
  labelled lib c -> exists c', record_metrics lib ms c = Some c' /\ labelled lib c' /\ counted lib ms c c'.
Proof.
  revert c. induction ms as [|m ms IH]; intros c Hc.
  { exists c. split; [done|]. split; [done|]. split; intros; rewrite how_many_nil; lia. }
  destruct (record_metric_counts lib m c Hc) as (c1 & He & Hc1 & [S1 F1 D1]). cbn. rewrite He. cbn.
  destruct (IH c1 Hc1) as (c2 & He2 & Hc2 & [S2 F2 D2]). exists c2. split; [done|]. split; [done|].
  split; intros; rewrite how_many_cons; rewrite ?S2, ?F2, ?D2, ?S1, ?F1, ?D1, how_many_cons, how_many_nil; lia.
Qed.

(** ** The proxy's collectors *)

Lemma init_inference_once lib `{!prom_ok lib} : exists reg, init_inference lib (new_inference lib) = Some reg.
Proof.
  unfold init_inference. cbn [llmRequestsTotal llmRequestDuration llmTimeToFirstToken new_inference].
  rewrite !(proj1 (histogram_new _ _ _)), (proj1 (counter_new _ _)).
  destruct (register_distinct lib (NewRegistry lib) "llm_requests_total") as (r1 & -> & H1).
  { rewrite registry_new. set_solver. }
  cbn [mbind option_bind]. rewrite registry_new in H1.
  destruct (register_distinct lib r1 "llm_request_duration_seconds") as (r2 & -> & H2); [rewrite H1; set_solver|].
  cbn [mbind option_bind]. rewrite H1 in H2.
  destruct (register_distinct lib r2 "llm_time_to_first_token_seconds") as (r3 & -> & _); [rewrite H2; set_solver|].
  by exists r3.
Qed.

Definition inference_labelled (lib : promlib) (c : inferenceCollectors lib) : Prop :=
  length (counter_labels lib (llmRequestsTotal c)) = 3%nat
  /\ length (histogram_labels lib (llmRequestDuration c)) = 2%nat
  /\ length (histogram_labels lib (llmTimeToFirstToken c)) = 2%nat.

(** Observing a list of requests never panics and counts each once. *)
Lemma observe_all_counts lib `{!prom_ok lib} l c :
  inference_labelled lib c ->
  exists c', observe_all lib l c = Some c' /\ inference_labelled lib c'
    /\ forall labels, counter_value lib (llmRequestsTotal c') labels
         = counter_value lib (llmRequestsTotal c) labels
           + how_many (fun '(model, backend, status, _, _) => labels == [model; backend; status]) l.
Proof.
  revert c. induction l as [|[[[[model backend] status] d] fb] l IH]; intros c (Ht & Hd & Hf).
  { exists c. split; [done|]. split; [done|]. intros labels. rewrite how_many_nil. lia. }
  cbn [observe_all]. unfold observe_inference.
  destruct (counter_inc (llmRequestsTotal c) [model; backend; status]) as (v & -> & Hv & Hc); [done|].
  cbn [mbind option_bind].
  destruct (histogram_observe (llmRequestDuration c) [model; backend] (toSeconds lib d)) as (v2 & -> & Hv2 & _); [done|].
  cbn [mbind option_bind].
  assert (exists v3, match fb with
      | Some d => Observe lib (llmTimeToFirstToken c) [model; backend] (toSeconds lib d)
      | None => Some (llmTimeToFirstToken c) end = Some v3
    /\ length (histogram_labels lib v3) = 2%nat) as (v3 & -> & Hv3).
  { destruct fb as [fb|]; [|by eauto].
    destruct (histogram_observe (llmTimeToFirstToken c) [model; backend] (toSeconds lib fb)) as (v3 & -> & Hl & _); [done|].
    exists v3. by rewrite Hl. }
  cbn [mbind option_bind].
  destruct (IH (mkInferenceCollectors lib v v2 v3)) as (c' & He & Hc' & Hn); [by unfold inference_labelled; cbn; rewrite Hv, Hv2|].
  exists c'. split; [done|]. split; [done|]. intros labels. rewrite Hn, how_many_cons. cbn. rewrite Hc. lia.
Qed.

(** ** What the status writes account for *)

(** [PatchFailed] as [patch_failed]. *)
Fixpoint snake_from (first : bool) (s : string) : string :=
  match s with
  | EmptyString => ""
  | String c s =>
      let n := Ascii.nat_of_ascii c in
      if (65 <=? n)%nat && (n <=? 90)%nat
      then (if first then "" else "_") +:+ String (Ascii.ascii_of_nat (n + 32)) (snake_from false s)
      else String c (snake_from false s)
  end.
Definition snake (s : string) : string := snake_from true s.

(** The reason the ModelActive condition gives. *)
Definition condition_reason (a : LLMActiveModel) : string :=
  match find_condition ModelActiveCondition (ast_conditions (a_status a)) with
  | Some c => cond_reason c
  | None => ""
  end.
Arguments condition_reason : simpl never.
Lemma condition_reason_set now st reason message a s :
  condition_reason (with_astatus a (setActiveCondition now ModelActiveCondition st reason message s)) = reason.
Proof.
  unfold condition_reason, setActiveCondition. cbn [a_status with_astatus ast_conditions].
  by destruct (upsert_found ModelActiveCondition st reason message now (ast_conditions s)) as (c & -> & _ & _ & -> & _).
Qed.

Definition recorded_by (o : obs kev) : list metric := match obs_req o with Metric m => [m] | _ => [] end.
Definition recorded (tr : list (obs kev)) : list metric := tr ≫= recorded_by.

(** A Failed status, whether or not the server accepts it, is one failure of the target
    with the condition's reason; an accepted Stable status is one switch to the model it
    names, and one duration. *)
Definition accounted {X} (target : string) (e : kev X) : X -> list metric :=
  match e in kev X return X -> list metric with
  | UpdateActiveStatus a => fun x =>
      match ast_phase (a_status a), x with
      | ActiveModelPhaseFailed, _ => [TransitionFailure target (snake (condition_reason a))]
      | ActiveModelPhaseStable, Ok _ =>
          [TransitionDuration (default 0 (ast_transitionDuration (a_status a))) (ast_modelName (a_status a));
           ModelSwitch (ast_transitionFrom (a_status a)) (ast_modelName (a_status a)) (ast_backendType (a_status a))]
      | _, _ => []
      end
  | _ => fun _ => []
  end.
Definition accounts (target : string) (tr : list (obs kev)) : list metric :=
  tr ≫= fun o => accounted target (obs_req o) (obs_reply o).

Section accounting.
Context (lib : golib) (r : ActiveReconciler) (target : string).

(** The ghost state: what has been recorded, and what the writes account for. *)
Definition accounting : contract kev (list metric * list metric) := {|
  rely := fun X e x _ => api_server X e x;
  permit := fun _ _ _ => True;
  record := fun X e x s => (s.1 ++ recorded_by (Obs e x), s.2 ++ accounted target e x);
|}.
Definition balanced (s : list metric * list metric) : Prop := s.1 = s.2.
Abbreviation books p := (within accounting balanced p).

Lemma accounting_ghost tr s :
  ghost accounting s tr = (s.1 ++ recorded tr, s.2 ++ accounts target tr).
Proof.
  revert s. induction tr as [|o tr IH]; intros [s1 s2]; [cbn; by rewrite !app_nil_r|].
  destruct o as [X e x]. change (Obs e x :: tr) with ([Obs e x] ++ tr). rewrite ghost_app, IH. cbn. by rewrite <- !app_assoc.
Qed.

(** Requests that neither record nor account. *)
Lemma books_call {X} (e : kev X) :
  (match e with Metric _ | UpdateActiveStatus _ => False | _ => True end) -> books (call e).
Proof.
  intros He. apply within_call; [done|]. intros s x Hs. unfold balanced in *. cbn.
  destruct e; try done; cbn; by rewrite !app_nil_r.
Qed.
Lemma books_body {R} (p : kprog (R + R)) : books p -> books (body p).
Proof. intros Hp. apply within_bind; [done|]. by intros [x|x] s. Qed.
Lemma books_ebind {R A B} (p : kprog (R + A)) (f : A -> kprog (R + B)) :
  books p -> (forall a, books (f a)) -> books (ebind p f).
Proof. intros Hp Hf. apply within_bind; [done|]. intros [x|x]; [by intros s|apply Hf]. Qed.
Lemma books_leave {R A} (x : R) : books (leave (A := A) x).
Proof. by intros s. Qed.
#[local] Hint Resolve books_leave : within.
#[local] Hint Extern 1 (within _ _ (call _)) => apply books_call; exact I : within.
Ltac booked := repeat (stay_within; try (apply books_ebind; [|intros ?])).

Lemma rg_failing {A} a m reason metricReason cause s (Q : A -> Prop) :
  m_name m = target -> snake reason = metricReason -> balanced s ->
  rg accounting (failed a m reason metricReason cause) s
    (fun s' x => balanced s' /\ match x with inr v => Q v | inl _ => True end).
Proof.
  intros Hm Hr Hs. unfold balanced in *. unfold failed, failTransition, mark.
  do 2 apply rg_bind. apply rg_bind, rg_call; [done|]. intros now _. cbn [rg].
  apply rg_bind, rg_call; [done|]. intros [] _. apply rg_bind, rg_call; [done|]. intros x _.
  set (a' := with_astatus _ _). assert (condition_reason a' = reason) as Ha by apply condition_reason_set.
  assert (ast_phase (a_status a') = ActiveModelPhaseFailed) as Hp by done. clearbody a'.
  cbn. by rewrite Hp, Ha, Hr, Hm, !app_nil_r, Hs.
Qed.
Lemma books_failed {A} a m reason metricReason cause :
  m_name m = target -> snake reason = metricReason -> books (failed (A := A) a m reason metricReason cause).
Proof.
  intros Hm Hr s Hs. eapply rg_mono; [by apply (rg_failing a m reason metricReason cause s (fun _ => True))|]. by intros s' x [? _].
Qed.
#[local] Hint Resolve books_failed : within.
#[local] Hint Extern 1 (snake _ = _) => reflexivity : within.

Lemma books_check a m gen : books (ensureTransitionCurrent a (m_name m) gen).
Proof. unfold ensureTransitionCurrent. booked. Qed.
Lemma books_checkpoint a m gen : books (checkpoint a m gen).
Proof. apply within_bind; [apply books_check|]. booked. Qed.
Lemma books_poll n ctx i check probe : books check -> books probe -> books (poll n ctx i check probe).
Proof. intros Hc Hp. induction n as [|n IH]; cbn [poll]; booked. Qed.
Lemma books_probe name ns ready : books (probe_deployment name ns ready).
Proof. unfold probe_deployment. booked. Qed.
Lemma books_find ns name : books (findModel ns name).
Proof. unfold findModel. booked. Qed.
Lemma books_find_backend ns ty ref : books (findBackend ns ty ref).
Proof. unfold findBackend. booked. Qed.
#[local] Hint Resolve books_check books_checkpoint books_poll books_probe books_find books_find_backend : within.

Lemma books_text client url limit : books (getText client url limit).
Proof. unfold getText. booked. Qed.
#[local] Hint Resolve books_text : within.
Lemma books_health n ctx i d url check : books check -> books (waitForBackendHealth n ctx i d url check).
Proof. intros Hc. induction n as [|n IH]; cbn [waitForBackendHealth]; unfold CheckHealth; booked. Qed.
Lemma books_metadata decode d ok url m : books (CollectRuntimeMetadata decode d ok url m).
Proof. unfold CollectRuntimeMetadata, DiscoverModels. booked. Qed.
#[local] Hint Resolve books_health books_metadata : within.

Lemma books_announce a : books (announce a).
Proof.
  intros s Hs. unfold announce, mark. destruct (needs_token a); [|done].
  apply rg_bind, rg_call; [done|]. intros now _. apply rg_bind, rg_bind, rg_call; [done|]. intros now' _.
  cbn [rg]. apply rg_bind, rg_call; [done|]. intros [x|x] _; unfold balanced in *; cbn; by rewrite !app_nil_r.
Qed.
Lemma books_prepare a m : m_name m = target -> books (prepare lib a m).
Proof. intros Hm. unfold prepare, validateChatTemplate. booked. Qed.
Lemma books_previous a m : m_name m = target -> books (previous_backend a m).
Proof. intros Hm. unfold previous_backend. booked. Qed.
Lemma books_scale_down n a m b gen previous : m_name m = target -> books (scale_down_previous r n a m b gen previous).
Proof. intros Hm. unfold scale_down_previous, scaleDeployment, waitForScaleDown. booked. Qed.
Lemma books_activate a m b : m_name m = target -> books (activate lib a m b).
Proof. intros Hm. unfold activate, activateDeployment. booked. Qed.
Lemma books_await n a m b gen d : m_name m = target -> books (await_ready r n a m b gen d).
Proof. intros Hm. unfold await_ready, waitForRollout. booked. Qed.
Lemma books_publish a m b gen d : books (publish_model lib a m b gen d).
Proof. unfold publish_model. booked. Qed.
Lemma books_deactivate a m : books (deactivate_previous a m).
Proof. unfold deactivate_previous. booked. Qed.

Lemma books_offline b : books (backendOfflineMode b).
Proof. unfold backendOfflineMode. booked. Qed.
Lemma books_ensure newRequest url req : books (Ensure newRequest url req).
Proof. unfold Ensure. booked. Qed.

Ltac failing := by apply (rg_failing _ _ _ _ _ _ (fun m => m_name m = target)).

(** The model the cache step hands on has the name it was given. *)
Lemma books_cached a m b gen d s :
  m_name m = target -> balanced s ->
  rg accounting (ensure_cached lib r a m b gen d) s
    (fun s' x => balanced s' /\ match x with inr m' => m_name m' = target | inl _ => True end).
Proof.
  intros Hm Hs. unfold ensure_cached.
  destruct (CacheRequestFor d m) as [req|e]; [|failing].
  apply rg_bind. eapply rg_mono; [apply (books_offline b s Hs)|]. intros s1 [off|e] Hs1; [|failing].
  assert (rg accounting (if off then failed a m "OfflineSnapshotUnavailable" "offline_snapshot_unavailable"
      (errorf "offline backend requires a hot cache snapshot, but cache materialization is unavailable")
    else Ret (inr m)) s1 (fun s' x => balanced s' /\ match x with inr m' => m_name m' = target | inl _ => True end)) as Hoff.
  { destruct off; [failing|done]. }
  destruct req as [req|]; [|exact Hoff]. destruct (_ != _); [|exact Hoff].
  apply rg_bind. eapply rg_mono; [apply (books_ensure _ _ _ s1 Hs1)|].
  intros s2 [result|e] Hs2; [|failing].
  destruct (off && _); [failing|].
  apply rg_ebind. eapply rg_mono; [apply (books_checkpoint a m gen s2 Hs2)|]. intros s3 [o|[]] Hs3; [done|].
  do 2 (apply rg_bind, rg_call; [done|]; intros ? _).
  apply rg_bind, rg_call; [done|]. unfold balanced in *. intros [m'|e] Hm'; cbn in *; rewrite !app_nil_r.
  - split; [done|]. unfold m_name in *. by rewrite Hm'.
  - done.
Qed.
Lemma books_stable a m : books (mark_stable lib r a m).
Proof.
  intros s Hs. unfold mark_stable. destruct (ast_transitionStarted _) as [started|]; [|done].
  apply rg_bind, rg_call; [done|]. intros now _. unfold mark_complete, mark.
  apply rg_bind, rg_bind, rg_bind, rg_call; [done|]. intros n1 _. cbn [rg]. apply rg_bind, rg_call; [done|]. intros n2 _.
  cbn [rg]. apply rg_bind, rg_call; [done|]. intros [a'|e] Hst.
  - set (w := with_astatus _ _) in *. pose proof (stored_from _ _ Hst) as Hfrom. apply rg_bind, rg_call; [done|]. intros [] _.
    apply rg_bind, rg_call; [done|]. intros [] _.
    assert (forall s', s'.1 = s.1 ++ [TransitionDuration (sub_time now started) (m_name m);
        ModelSwitch (ast_transitionFrom (a_status a)) (m_name m) (m_backend m)] ->
      s'.2 = s.2 ++ [TransitionDuration (sub_time now started) (m_name m);
        ModelSwitch (ast_transitionFrom (a_status a)) (m_name m) (m_backend m)] -> balanced s') as Hb.
    { intros s' H1 H2. unfold balanced in *. by rewrite H1, H2, Hs. }
    apply rg_bind. destruct (Recorder r); [apply rg_call; [done|]; intros [] _|]; apply Hb; cbn;
      rewrite !app_nil_r, <- ?app_assoc, ?Hfrom; done.
  - unfold balanced in *. cbn. by rewrite !app_nil_r.
Qed.
#[local] Hint Resolve books_announce books_prepare books_previous books_scale_down books_activate books_await
  books_publish books_deactivate books_stable : within.

Lemma books_transition a m b : m_name m = target -> books (executeTransition lib r a m b).
Proof.
  intros Hm. apply books_body. apply books_ebind; [booked|]. intros a'.
  do 4 (apply books_ebind; [booked|intros ?]). apply books_ebind; [booked|]. intros _ s Hs.
  apply rg_ebind. eapply rg_mono; [by apply books_cached|]. intros s' [o|m'] [Hs' Hm']; [done|].
  match goal with |- rg _ ?p _ _ => refine ((_ : books p) s' Hs') end. booked.
Qed.
End accounting.

(** ** The counters *)

(** The metrics recorded in a transition are what its status writes account for. *)
Lemma recorded_accounts W (h : handler kev W) w lib r a m b :
  obeys api_server h ->
  let tr := trace h (executeTransition lib r a m b) w in recorded tr = accounts (m_name m) tr.
Proof.
  intros Hh tr.
  destruct (rg_obeys (accounting (m_name m)) api_server h (executeTransition lib r a m b) ([], []) w
    (fun s _ => balanced s)) as [_ H]; [done..|by apply books_transition|].
  by rewrite accounting_ghost in H.
Qed.

(** A Stable status the server accepted; a Failed status that was submitted. *)
Definition stable_write_of {X} (e : kev X) : X -> option LLMActiveModel :=
  match e in kev X return X -> option LLMActiveModel with
  | UpdateActiveStatus a => fun x =>
      if (ast_phase (a_status a) == ActiveModelPhaseStable) && is_ok x then Some a else None
  | _ => fun _ => None
  end.
Definition stable_writes (tr : list (obs kev)) : list LLMActiveModel :=
  omap (fun o => stable_write_of (obs_req o) (obs_reply o)) tr.
Definition failed_write (o : obs kev) : option LLMActiveModel :=
  a ← active_write_of o; if ast_phase (a_status a) == ActiveModelPhaseFailed then Some a else None.
Definition failed_writes (tr : list (obs kev)) : list LLMActiveModel := omap failed_write tr.

Lemma how_many_app {A} (f : A -> bool) l l' : how_many f (l ++ l') = how_many f l + how_many f l'.
Proof. unfold how_many. rewrite List.filter_app, length_app. lia. Qed.
Lemma how_many_accounts (f : metric -> bool) target (g : LLMActiveModel -> bool) (w : obs kev -> option LLMActiveModel) tr :
  (forall o, how_many f (accounted target (obs_req o) (obs_reply o))
    = match w o with Some a => if g a then 1 else 0 | None => 0 end) ->
  how_many f (accounts target tr) = how_many g (omap w tr).
Proof.
  intros H. unfold accounts. induction tr as [|o tr IH]; [done|]. rewrite bind_cons, how_many_app, IH, H.
  cbn. destruct (w o); [rewrite how_many_cons|]; lia.
Qed.
Ltac account :=
  apply how_many_accounts; intros [X e x]; destruct e; try done; cbn;
  match goal with |- context [ast_phase (a_status ?a')] => destruct (ast_phase (a_status a')) end; cbn; try done;
  try match goal with x : result LLMActiveModel |- _ => destruct x end; cbn;
  repeat match goal with |- context [?x == ?y] => change (x == y) with true | |- context [?x == ?y] => change (x == y) with false end;
  rewrite ?how_many_cons, ?how_many_nil; cbn; rewrite ?Z.add_0_l, ?Z.add_0_r; reflexivity.

(** C12: the operator's metrics tell what its transitions did.  Whatever the services
    answer, recording a transition's metrics never panics (the label counts agree);
    [model_switches_total] grows by one for exactly each accepted Stable status, under the
    labels that status names, and so do the buckets of the duration histogram; and
    [transition_failures_total] grows by one for exactly each Failed status submitted,
    under the target's name and the snake-case form of the condition's reason. *)
Theorem counters_tell_transitions (plib : promlib) `{!prom_ok plib} (W : Type) (h : handler kev W) (w : W)
    (lib : golib) (r : ActiveReconciler) (a : LLMActiveModel) (m : LLMModel) (b : LLMBackend) (c : collectors plib) :
  obeys api_server h -> labelled plib c ->
  let tr := trace h (executeTransition lib r a m b) w in
  exists c', record_metrics plib (recorded tr) c = Some c' /\ labelled plib c'
    /\ (forall from to backend, counter_value plib (modelSwitches c') [from; to; backend]
         = counter_value plib (modelSwitches c) [from; to; backend]
           + how_many (fun a => [from; to; backend] == [ast_transitionFrom (a_status a);
               ast_modelName (a_status a); ast_backendType (a_status a)]) (stable_writes tr))
    /\ (forall model ub, bucket plib (transitionDuration c') [model] ub
         = bucket plib (transitionDuration c) [model] ub
           + how_many (fun a => ([model] == [ast_modelName (a_status a)])
               && float_le plib (toSeconds plib (default 0 (ast_transitionDuration (a_status a)))) ub) (stable_writes tr))
    /\ (forall model reason, counter_value plib (transitionFailures c') [model; reason]
         = counter_value plib (transitionFailures c) [model; reason]
           + how_many (fun a => [model; reason] == [m_name m; snake (condition_reason a)]) (failed_writes tr)).
Proof.
  intros Hh Hc tr. destruct (record_metrics_count plib (recorded tr) c Hc) as (c' & He & Hc' & [Hs Hf Hd]).
  exists c'. split; [done|]. split; [done|].
  pose proof (recorded_accounts W h w lib r a m b Hh) as Hr. cbv zeta in Hr. fold tr in Hr. rewrite Hr in Hs, Hf, Hd.
  split_and!; intros; [rewrite Hs|rewrite Hd|rewrite Hf]; f_equal; account.
Qed.

Lemma counters_tell_transitions_witness :
  stable_writes sample_run <> []
  /\ exists c', record_metrics counting (recorded sample_run) (new_collectors counting) = Some c'
       /\ counter_value counting (modelSwitches c') ["google/gemma"; "poolside/laguna"; "llama-cpp"]
          = 0 + how_many (fun a => ["google/gemma"; "poolside/laguna"; "llama-cpp"] == [ast_transitionFrom (a_status a);
               ast_modelName (a_status a); ast_backendType (a_status a)]) (stable_writes sample_run)
       /\ counter_value counting (modelSwitches c') ["google/gemma"; "poolside/laguna"; "llama-cpp"] = 1.
Proof.
  split; [vm_compute; discriminate|].
  destruct (counters_tell_transitions counting unit cluster tt sample_lib sample_reconciler sample_active laguna
    llama_backend (new_collectors counting) cluster_api (new_labelled counting)) as (c' & He & _ & Hs & _).
  exists c'. split; [exact He|]. specialize (Hs "google/gemma" "poolside/laguna" "llama-cpp").
  split; [exact Hs|]. rewrite Hs. vm_compute. reflexivity.
Defined.
