(* ===== verification/OfflineStart.v ===== *)
(** * The operator and the cache manager together

    A transition asks the cache manager for the target's artifact over HTTP; here the
    replies are those of [ensure], the handler of [cmd/llm-proxy/cache_manager.go], run on
    any file system.  The client's JSON encoder is a parameter. *)

From S2P Require Import Prelude GoStrings GoPath Types Effects Api Driver Workload CacheClient ActiveModel Protocol ActiveModelProps Samples CacheFs CacheManager CacheSamples CacheManagerProps CacheSafety CacheArtifacts.

(** What the client sees of a reply. *)
Definition carries (resp : http_response) (rep : reply) : Prop :=
  hr_code resp = rp_code rep /\ hr_cacheResult resp = default "" (rp_result rep).

Section served.
Context (C : codec) (mgr : cacheManager) (encodeRequest : CacheRequest -> string).

(** A request that has been encoded, and perhaps cut short, decodes to itself or not at all. *)
Definition request_codec : Prop :=
  forall r n r', decodeRequest C (limit_read n (encodeRequest r)) = Ok r' -> r' = r.

(** Replies at the ensure endpoint come from the cache manager. *)
Definition cache_served (X : Type) (e : kev X) : X -> Prop :=
  match e in kev X return X -> Prop with
  | HttpPostCache url req => fun x => (exists base, url = base +:+ "/v1/ensure") -> forall resp, x = Ok resp ->
      exists W (hf : handler fev W) w, carries resp (value hf (ensure C mgr (encodeRequest req)) w)
  | _ => fun _ => True
  end.

(** In this run of [ensure] the artifact's completion marker was found or written, and if it
    was written the bytes had been brought in before ([bytes_hot] of [CacheArtifacts]). *)
Definition brought_in (req : CacheRequest) (tr : list (obs fev)) : Prop :=
  (exists o, o ∈ tr /\ notes_marker mgr req (obs_req o) (obs_reply o) = true)
  /\ forall t1 stamp x t2,
       tr = t1 ++ Obs (FWriteFile (path_join [hotMarker (hotRoot mgr) (cacheKey (cr_cache req)); ".complete"]) stamp) x :: t2 ->
       bytes_hot C mgr req t1.

Section ensured.
Context (req : CacheRequest) (payload : string) (Hdec : decode_and_check C payload = Ok req).

Lemma within_state s : rg (marking C mgr req) (cacheResult mgr req) s (fun _ _ => True).
Proof using Type.
  refine ((_ : within (marking C mgr req) (fun _ => True) _) s I).
  unfold cacheResult, complete, hotArtifactExists. stay_within. apply within_resolving.
Qed.
Lemma rg_ensure_marks s : rg (marking C mgr req) (ensure C mgr payload) s (fun _ _ => True).
Proof using Hdec.
  unfold ensure. rewrite Hdec. unfold locked. apply rg_bind, rg_call; [done|]. intros [] _.
  apply rg_bind, rg_bind. eapply rg_mono; [apply within_state|]. intros s1 state _.
  apply rg_bind. eapply rg_mono; [apply rg_ensureArtifact|]. by intros s2 [[]|e] _.
Qed.
Lemma rg_ensure_finds s :
  rg (noting mgr req) (ensure C mgr payload) s (fun s' rep => Z.quot (rp_code rep) 100 = 2 -> s' = true).
Proof using Hdec.
  unfold ensure. rewrite Hdec. unfold locked. apply rg_bind, rg_call; [done|]. intros [] _.
  apply rg_bind, rg_bind. eapply rg_mono; [apply rg_noting|]. intros s1 state _.
  apply rg_bind. eapply rg_mono; [apply rg_ensure_notes|]. intros s2 [[]|e] H2; [|by cbn].
  subst s2. by cbn.
Qed.
End ensured.

(** A 2xx reply is given only when the artifact has been brought in. *)
Lemma ensure_brings_in W (hf : handler fev W) w req :
  request_codec -> Z.quot (rp_code (value hf (ensure C mgr (encodeRequest req)) w)) 100 = 2 ->
  brought_in req (trace hf (ensure C mgr (encodeRequest req)) w).
Proof.
  intros Hcodec H2.
  destruct (decode_and_check C (encodeRequest req)) as [r|e] eqn:Hd.
  2:{ exfalso. revert H2. unfold ensure. by rewrite Hd. }
  assert (r = req) as ->.
  { unfold decode_and_check in Hd. destruct (decodeRequest C _) as [r'|] eqn:Er; [|done].
    apply Hcodec in Er as ->. by destruct (validCacheRequest req); simplify_eq/=. }
  split.
  - destruct (rg_run_any (noting mgr req) hf _ false w _ (fun _ _ _ _ => I) (rg_ensure_finds req _ Hd false)) as [_ Hv].
    apply noted_from_start. auto.
  - intros t1 stamp x t2 Htr.
    destruct (rg_run_any (marking C mgr req) hf _ [] w _ (fun _ _ _ _ => I)
      (rg_ensure_marks req _ Hd [])) as [Hm _].
    specialize (Hm _ _ _ Htr). unfold marking in Hm. rewrite ghost_traced in Hm. by apply Hm.
Qed.
End served.

(** C4: end to end, an offline runtime is started only with its artifact brought in.  When
    the target's container opts into [HF_HUB_OFFLINE] and the cache manager answers the
    operator, the target's Deployment is patched only after a request for exactly the
    artifact the driver derives from the model was answered [hot], and in that request's
    run the cache manager found the artifact's completion marker, or wrote it after
    bringing the artifact to its place below the hot root: this repository, revision and
    file list downloaded to a staging directory and copied from there, or every entry
    of a valid manifest of the complete cold artifact restored (regular files with their
    recorded size and digest; for a link, no digest is recorded or checked). *)
Theorem offline_start_has_bytes (C : codec) (mgr : cacheManager) (encodeRequest : CacheRequest -> string)
    (W : Type) (h : handler kev W) (w : W) (lib : golib) (r : ActiveReconciler) (a : LLMActiveModel)
    (m : LLMModel) (b : LLMBackend) (tr1 tr2 : list (obs kev)) (o : obs kev) :
  request_codec C encodeRequest ->
  obeys (both api_server (both (offline_target b) (cache_served C mgr encodeRequest))) h ->
  trace h (executeTransition lib r a m b) w = tr1 ++ o :: tr2 ->
  is_Some (patch_of o) ->
  exists t1 url req resp t2 d, tr1 = t1 ++ Obs (HttpPostCache url req) (Ok resp) :: t2
    /\ RegistryDriver DefaultRegistry (m_backend m) = Ok d /\ CacheRequestFor d m = Ok (Some req)
    /\ hr_cacheResult resp = CacheHot
    /\ exists W' (hf : handler fev W') wf, carries resp (value hf (ensure C mgr (encodeRequest req)) wf)
         /\ brought_in C mgr req (trace hf (ensure C mgr (encodeRequest req)) wf).
Proof.
  intros Hcodec Hh Htr Ho.
  destruct (protocol_run h w lib r a m b (both (offline_target b) (cache_served C mgr encodeRequest)) true Hh)
    as [Hperm _]; [intros _ d [Hd _]; by apply Hd|].
  assert (exists t1 hit t2, tr1 = t1 ++ hit :: t2 /\ reports_hot hit = true) as (t1 & hit & t2 & -> & Hhot).
  { eapply hot_since. specialize (Hperm _ _ _ Htr). destruct o as [X e x]; destruct e; cbn in *; try by destruct Ho.
    by apply Hperm. }
  rewrite <- app_assoc in Htr. cbn in Htr. specialize (Hperm _ _ _ Htr).
  assert (hit ∈ trace h (executeTransition lib r a m b) w) as Hin by (rewrite Htr; set_solver).
  pose proof (obeys_trace _ _ _ _ _ Hh Hin) as [_ [_ Hs]].
  destruct hit as [X e x]; destruct e; try discriminate Hhot. unfold reports_hot in Hhot. cbn in *.
  destruct x as [resp|]; [|done]. apply andb_true_iff in Hhot as [Hc%Z.eqb_eq Hr%bool_decide_eq_true].
  destruct Hperm as [Hurl (d & Hd & Hreq)]. destruct (Hs Hurl resp eq_refl) as (W' & hf & wf & Hcar).
  exists t1, url, r0, resp, t2, d. split_and!; [done..|]. exists W', hf, wf. split; [done|].
  apply ensure_brings_in; [done|]. by rewrite <- (proj1 Hcar).
Qed.

(** ** A cluster with its own cache manager *)

#[export] Instance CacheRequest_eq_dec : EqDecision CacheRequest.
Proof. solve_decision. Defined.
(** The text of a request stands for the sample request. *)
Definition encode_laguna (r : CacheRequest) : string := if decide (r = laguna_request) then "L" else "".
Definition exact_codec : codec := {|
  specJSON := specJSON sample_codec; decodeSpec := decodeSpec sample_codec;
  manifestJSON := manifestJSON sample_codec; decodeManifest := decodeManifest sample_codec;
  decodeRequest := fun s => if s == "L" then Ok laguna_request else Err (errorf "unexpected EOF");
  decodeInventory := decodeInventory sample_codec; formatRFC3339 := formatRFC3339 sample_codec;
  digest := digest sample_codec;
|}.
Lemma limit_read_nil n : limit_read n "" = "".
Proof. unfold limit_read. by destruct (Z.to_nat n). Qed.
Lemma exact_request_codec : request_codec exact_codec encode_laguna.
Proof.
  intros r n r'. unfold encode_laguna. cbn. case_decide as Hr; [subst; by case_bool_decide; intros [= <-]|].
  by rewrite limit_read_nil.
Qed.

(** The hot root holds the artifact. *)
Definition hot_disk : handler fev disk := fun X e =>
  match e in fev T return disk -> T * disk with
  | FStat _ => fun w => (Ok (mkInfo ModeRegular 1 1), w)
  | e => sample_disk _ e
  end.

Definition answer (rep : reply) : http_response :=
  mkResponse (rp_code rep) "" (default "" (rp_result rep)) (Ok (rp_body rep)).
(** [cluster], with the cache manager on [disk] behind the ensure endpoint. *)
Definition cached_cluster (on : handler fev disk) : handler kev disk := fun X e w =>
  match e in kev X return X * disk with
  | HttpPostCache _ req =>
      (Ok (answer (value on (ensure exact_codec sample_manager (encode_laguna req)) w)),
       final on (ensure exact_codec sample_manager (encode_laguna req)) w)
  | e => ((cluster _ e tt).1, w)
  end.
Lemma cached_cluster_obeys on :
  obeys (both api_server (both (offline_target llama_backend) (cache_served exact_codec sample_manager encode_laguna)))
    (cached_cluster on).
Proof.
  intros X e w. pose proof (cluster_offline X e tt) as [Ha Hb].
  destruct e; try (split; [exact Ha|split; [exact Hb|exact I]]).
  split; [exact I|]. split; [exact I|]. intros _ resp [= <-]. by exists disk, on, w.
Qed.
Abbreviation cached_run on := (trace (cached_cluster on) (executeTransition sample_lib sample_reconciler
  sample_active laguna llama_backend) fresh_disk).

Lemma offline_start_has_bytes_witness :
  exists tr1 o tr2 t1 url req resp t2, is_Some (patch_of o) /\ cached_run hot_disk = tr1 ++ o :: tr2
    /\ tr1 = t1 ++ Obs (HttpPostCache url req) (Ok resp) :: t2 /\ hr_cacheResult resp = CacheHot.
Proof.
  destruct (split_first (fun o => is_some (patch_of o)) (cached_run hot_disk)) as (tr1 & o & tr2 & Htr & Ho);
    [vm_compute; reflexivity|].
  assert (is_Some (patch_of o)) as Ho' by (destruct (patch_of o); [eexists; reflexivity | discriminate Ho]).
  destruct (offline_start_has_bytes exact_codec sample_manager encode_laguna disk (cached_cluster hot_disk) fresh_disk
    sample_lib sample_reconciler sample_active laguna llama_backend tr1 tr2 o exact_request_codec
    (cached_cluster_obeys hot_disk) Htr Ho') as (t1 & url & req & resp & t2 & d & H1 & _ & _ & H2 & _).
  exists tr1, o, tr2, t1, url, req, resp, t2. split; [exact Ho'|]. split; [exact Htr|]. split; [exact H1|exact H2].
Defined.

(** An artifact the cold store holds: the request that promotes it marks it complete, but
    is answered with the place it was found in, and the transition fails although the
    snapshot is hot by then. *)
Example cold_start_fails :
  (exists stamp x, Obs (FWriteFile (path_join [hotMarker (hotRoot sample_manager)
      (cacheKey (cr_cache laguna_request)); ".complete"]) stamp) x
     ∈ trace sample_disk (ensure exact_codec sample_manager "L") fresh_disk)
  /\ last_phase (cached_run sample_disk) = Some ActiveModelPhaseFailed
  /\ Forall (fun o => patch_of o = None) (cached_run sample_disk).
Proof.
  split; [|split; [vm_compute; reflexivity|]].
  - set (is_marker := fun o : obs fev => match obs_req o with
      | FWriteFile p _ => p == path_join [hotMarker (hotRoot sample_manager)
          (cacheKey (cr_cache laguna_request)); ".complete"]
      | _ => false end).
    destruct (split_first is_marker (trace sample_disk (ensure exact_codec sample_manager "L") fresh_disk))
      as (t1 & o & t2 & Htr & Ho); [vm_compute; reflexivity|].
    subst is_marker. cbn beta in Ho. destruct o as [X e x]; destruct e; try discriminate Ho. cbn [obs_req] in *.
    apply bool_decide_eq_true in Ho as ->. exists body, x. rewrite Htr. apply elem_of_app. right. by left.
  - apply Forall_forall. intros o Ho. apply eq_None_not_Some. intros Hp.
    assert (forallb (fun o => negb (is_some (patch_of o))) (cached_run sample_disk) = true) as H
      by (vm_compute; reflexivity).
    rewrite forallb_forall in H. apply list_elem_of_In, H in Ho. by destruct (patch_of o), Hp.
Qed.
