(* ===== verification/EndToEnd.v ===== *)
(** * The proxy and the operator together

    The two binaries meet in the LLMActiveModel: the proxy patches its spec and reads its
    status, the operator's reconciler reads it and writes the status.  Here both run
    against one API server, interleaved with each other and with users who edit the spec,
    any number of proxy goroutines and of reconciles at a time.  The API server keeps every
    version an object ever had, and a read may return any of them, so the clients' caches
    may be as stale as they like. *)

From S2P Require Import Prelude GoStrings Types Effects Api Driver Workload CacheClient ActiveModel Protocol ActiveModelProps Samples Json ProxyApi ProxyCatalog ProxyRuntime ProxySwitch ProxyServe ProxyMetrics ProxyInvariant ProxyContract ProxyPool ProxyPoolProps ProxySamples ProxyTheorems.

(** ** What a reconcile publishes *)

(** The model and the backend came out of these reads. *)
Definition resolved_in (tr : list (obs kev)) (m : LLMModel) (b : LLMBackend) : Prop :=
  (exists ns items, Obs (ListModels ns) (Ok items) ∈ tr /\ m ∈ items)
  /\ match ms_backendRef (m_spec m) with
     | Some name => exists ns, Obs (GetBackend ns name) (Ok b) ∈ tr
     | None => exists ns items, Obs (ListBackends ns) (Ok items) ∈ tr /\ b ∈ items
                 /\ b_type (b_spec b) = m_backend m
     end.

(** In this history a model named [model] was looked up with its backend, the backend's
    Deployment was then observed rolled out, and after that its runtime answered its
    health check; no Deployment has been changed since it rolled out. *)
Definition served_in (tr : list (obs kev)) (model : string) : Prop :=
  exists m b ns t1 o1 t2 o2 t3, tr = t1 ++ o1 :: t2 ++ o2 :: t3
    /\ m_name m = model /\ resolved_in t1 m b
    /\ observes ns (backendDeploymentName b) rolled_out o1 = true
    /\ answers_200 (health_url m b) o2 = true
    /\ Forall (fun o => mutates_deployment o = false) (t2 ++ t3).

(** A status may name the model it was read with, or one that is being served. *)
Definition may_publish (ns name : string) (a : LLMActiveModel) (tr : list (obs kev)) : Prop :=
  (exists a0, Obs (GetActive ns name) (Ok a0) ∈ tr
     /\ ast_modelName (a_status a) = ast_modelName (a_status a0))
  \/ (ast_phase (a_status a) = ActiveModelPhaseStable /\ served_in tr (ast_modelName (a_status a))).
Definition publishes (ns name : string) (X : Type) (e : kev X) (tr : list (obs kev)) : Prop :=
  match e with UpdateActiveStatus a => may_publish ns name a tr | _ => True end.

Section reconcile.
Context (lib : golib) (r : ActiveReconciler) (ns name : string).
Abbreviation c := (traced api_server (publishes ns name)).

(** A request that publishes nothing. *)
Lemma rg_look {X} (e : kev X) tr (Q : list (obs kev) -> X -> Prop) :
  (match e with UpdateActiveStatus _ => False | _ => True end) ->
  (forall x, api_server X e x -> Q (tr ++ [Obs e x]) x) -> rg c (call e) tr Q.
Proof. intros He HQ. apply rg_call; [by destruct e|done]. Qed.

Definition read_first (a : LLMActiveModel) (tr : list (obs kev)) : Prop :=
  exists a0, Obs (GetActive ns name) (Ok a0) ∈ tr /\ ast_modelName (a_status a) = ast_modelName (a_status a0).

Lemma rg_status_kept {A} a (k : result LLMActiveModel -> kprog A) tr :
  read_first a tr -> (forall x tr', rg c (k x) tr' (fun _ _ => True)) ->
  rg c (bind (call (UpdateActiveStatus a)) k) tr (fun _ _ => True).
Proof. intros Ha Hk. apply rg_bind, rg_call; [by left|]. intros x _. apply Hk. Qed.

Lemma rg_refusal strict p reason message res a tr :
  read_first a tr -> rg c (refuse strict p reason message res a) tr (fun _ _ => True).
Proof.
  intros (a0 & Hin & Ha). unfold refuse, mark. apply rg_bind, rg_bind, rg_look; [done|]. intros now _.
  cbn [rg]. apply rg_status_kept; [|done]. exists a0. split; [set_solver|done].
Qed.

Lemma rg_transition a m b tr :
  read_first a tr -> resolved_in tr m b ->
  rg c (executeTransition lib r a m b) tr (fun _ _ => True).
Proof.
  intros (a0 & Hin & Ha) Hres. rewrite <- (app_nil_r tr).
  eapply (rg_traced (protocol a m b anything false) _ _ _ no_history tr []).
  - done.
  - intros X e t Hp. destruct e; try done. cbn in Hp |- *. unfold may_write in Hp.
    destruct (ast_phase (a_status a1)) eqn:Ep; [done| | |].
    + destruct Hp as (_ & Hh & Hn & _). right. split; [done|]. rewrite Hn.
      destruct (healthy_since a m b anything false t Hh) as (t1 & o1 & t2 & o2 & t3 & -> & H1 & H2 & H3).
      exists m, b, (Namespace (a_meta a)), (tr ++ t1), o1, t2, o2, t3.
      split_and!; [by rewrite <- app_assoc|done| |done..]. destruct Hres as [(ns' & items & Hl & Hm) Hb]. split.
      { exists ns', items. split; [set_solver|done]. }
      destruct (ms_backendRef (m_spec m)); [destruct Hb as [ns2 Hb]; exists ns2; set_solver|].
      destruct Hb as (ns2 & bs & Hb1 & Hb2). exists ns2, bs. split; [set_solver|done].
    + destruct Hp as [_ Hn]. left. exists a0. split; [set_solver|congruence].
    + left. exists a0. split; [set_solver|congruence].
  - apply rg_executeTransition; [done|by apply not_offline].
Qed.

Lemma rg_due a m b tr :
  read_first a tr -> resolved_in tr m b -> rg c (transition_due lib r a m b) tr (fun _ _ => True).
Proof.
  intros Ha Hres. unfold transition_due. destruct (negb _); [by apply rg_refusal|].
  destruct (canary_denied r m); [by apply rg_refusal|by apply rg_transition].
Qed.

Lemma read_first_later a tr tr' : read_first a tr -> read_first a (tr ++ tr').
Proof using Type. intros (a0 & Hin & Ha). exists a0. split; [set_solver|done]. Qed.
Lemma resolved_later m b tr tr' : resolved_in tr m b -> resolved_in (tr ++ tr') m b.
Proof using Type.
  intros [(ns' & items & Hl & Hm) Hb]. split; [exists ns', items; set_solver|].
  destruct (ms_backendRef (m_spec m)); [destruct Hb as [ns2 Hb]; exists ns2; set_solver|].
  destruct Hb as (ns2 & bs & Hb1 & Hb2). exists ns2, bs. split; [set_solver|done].
Qed.
#[local] Hint Resolve read_first_later resolved_later : core.

Lemma rg_settle a m b tr :
  read_first a tr -> resolved_in tr m b -> rg c (settle lib r a m b) tr (fun _ _ => True).
Proof.
  intros Ha Hres. unfold settle, deploymentMatchesModel. apply rg_bind, rg_bind, rg_look; [done|]. intros d _.
  destruct d as [d|e]; cbn [rg bind]; [|done].
  destruct (spec_matches _ _ _) as [[]|]; [|apply rg_due; auto|done].
  destruct (_ == _); [done|]. unfold mark_complete, mark.
  apply rg_bind, rg_bind, rg_bind, rg_look; [done|]. intros n1 _. cbn [rg]. apply rg_bind, rg_look; [done|]. intros n2 _.
  cbn [rg]. apply rg_status_kept; [|done]. rewrite <- !app_assoc.
  destruct Ha as (a0 & Hin & Ha). exists a0. split; [set_solver|done].
Qed.

Lemma rg_owner a tr : read_first a tr -> rg c (reconcile_owner lib r a) tr (fun _ _ => True).
Proof.
  intros Ha. unfold reconcile_owner, findModel. apply rg_bind, rg_bind, rg_look; [done|]. intros ms _. cbn [rg].
  destruct ms as [items|e]; cbn [rbind]; [|apply rg_refusal; auto].
  destruct (List.find _ items) as [m|] eqn:Em; [|apply rg_refusal; auto].
  apply find_some in Em as [Em _]. apply list_elem_of_In in Em.
  assert (forall b tr', resolved_in (tr ++ [Obs (ListModels (Namespace (a_meta a))) (Ok items)] ++ tr') m b ->
    rg c (if (ast_modelName (a_status a) == a_specModel a) && (ast_backendType (a_status a) == m_backend m)
          then settle lib r a m b else transition_due lib r a m b)
      (tr ++ [Obs (ListModels (Namespace (a_meta a))) (Ok items)] ++ tr') (fun _ _ => True)) as Hgo.
  { intros b tr' Hb. destruct (_ && _); [apply rg_settle|apply rg_due]; auto. }
  unfold findBackend. apply rg_bind. destruct (ms_backendRef (m_spec m)) as [bn|] eqn:Eb.
  - apply rg_look; [done|]. intros [b|e] _; rewrite <- app_assoc; [|apply rg_refusal; auto]. apply Hgo. split.
    + exists (Namespace (a_meta a)), items. split; [set_solver|done].
    + rewrite Eb. eexists. rewrite app_assoc. apply elem_of_app. right. by left.
  - apply rg_bind, rg_look; [done|]. intros bs _. cbn [rg]. rewrite <- app_assoc.
    destruct bs as [bs|e]; cbn [rbind]; [|apply rg_refusal; auto].
    destruct (List.find _ bs) as [b|] eqn:Ef; [|apply rg_refusal; auto].
    apply find_some in Ef as [Ef Et%bool_decide_eq_true]. apply list_elem_of_In in Ef. apply Hgo. split.
    + exists (Namespace (a_meta a)), items. split; [set_solver|done].
    + rewrite Eb. eexists _, bs. split_and!; [|done..]. rewrite app_assoc. apply elem_of_app. right. by left.
Qed.

(** A reconcile, whatever it is told, only publishes what it read or what is served. *)
Lemma rg_Reconcile : rg c (Reconcile lib r ns name) [] (fun _ _ => True).
Proof.
  unfold Reconcile. apply rg_bind, rg_look; [done|]. intros [a|e] _; [|done]. cbn [app].
  assert (forall tr', read_first (set_observed a) (Obs (GetActive ns name) (Ok a) :: tr')) as Ha
    by (intros tr'; exists a; split; [by left|done]).
  unfold singletonOwner. apply rg_bind, rg_bind, rg_look; [done|]. intros items _. cbn [rg].
  destruct items as [items|e]; cbn [rbind]; [|done]. destruct (_ != _); [apply rg_refusal, Ha|apply rg_owner, Ha].
Qed.
End reconcile.

(** ** The system *)

Inductive event :=
| ByProxy (i : nat) (o : obs pev)
| ByOperator (j : nat) (o : obs kev).
Definition proxy_part (tr : list event) : list (nat * obs pev) :=
  omap (fun ev => match ev with ByProxy i o => Some (i, o) | _ => None end) tr.
(** The events of one reconcile. *)
Definition run_of (j : nat) (tr : list event) : list (obs kev) :=
  omap (fun ev => match ev with ByOperator j' o => if decide (j' = j) then Some o else None | _ => None end) tr.

(** [type LLMActiveModelPhase string] *)
Definition phase_text (p : LLMActiveModelPhase) : string :=
  match p with
  | ActiveModelPhaseNone => ""
  | ActiveModelPhaseStable => "Stable"
  | ActiveModelPhaseTransitioning => "Transitioning"
  | ActiveModelPhaseFailed => "Failed"
  end.
Definition keyed (ns name : string) (a : LLMActiveModel) : Prop :=
  Namespace (a_meta a) = ns /\ Name (a_meta a) = name.
Definition fresh_status (a : LLMActiveModel) : Prop := ast_modelName (a_status a) = "".

Section system.
Context (acc : nested) (plib : proxylib) (fl : floatlib) (unrouted : httpRequest -> answer).
Context (p : proxyConfig) (s0 : proxyState).
Context (lib : golib) (r : ActiveReconciler) (v0 : list LLMActiveModel).

(** The object the dynamic client decodes for a stored resource. *)
Definition presents (a : LLMActiveModel) (obj : object) : Prop :=
  let st := read_transition acc obj in
  ts_specModel st = a_specModel a /\ ts_statusModel st = ast_modelName (a_status a)
  /\ ts_phase st = phase_text (ast_phase (a_status a)).

(** The API server's part in the requests of either side: which replies they may get, and
    how the versions of the LLMActiveModels grow.  A request that fails may still have
    been carried out. *)
Definition respecified (ns name model : string) (vs vs' : list LLMActiveModel) : Prop :=
  exists a a', a ∈ vs /\ keyed ns name a /\ keyed ns name a' /\ a_status a' = a_status a
    /\ a_specModel a' = model /\ vs' = vs ++ [a'].
Definition proxy_api {X} (e : pev X) : X -> list LLMActiveModel -> list LLMActiveModel -> Prop :=
  match e in pev X return X -> _ with
  | PGetActive ns name => fun x vs vs' => vs' = vs /\
      match x with Ok obj => exists a, a ∈ vs /\ keyed ns name a /\ presents a obj | Err _ => True end
  | PPatchActive ns name model => fun x vs vs' =>
      respecified ns name model vs vs' \/ (vs' = vs /\ is_ok x = false)
  | _ => fun _ vs vs' => vs' = vs
  end.
Definition operator_api {X} (e : kev X) : X -> list LLMActiveModel -> list LLMActiveModel -> Prop :=
  match e in kev X return X -> _ with
  | GetActive ns name => fun x vs vs' => vs' = vs /\ forall a, x = Ok a -> a ∈ vs /\ keyed ns name a
  | ListActive ns => fun x vs vs' => vs' = vs /\ forall items, x = Ok items -> items ⊆ vs
  | UpdateActiveStatus a => fun x vs vs' =>
      match x with
      | Ok a' => stored a a' /\ vs' = vs ++ [a']
      | Err _ => vs' = vs \/ exists a', stored a a' /\ vs' = vs ++ [a']
      end
  | e => fun x vs vs' => api_server _ e x /\ vs' = vs
  end.

Record system := mkSystem {
  y_versions : list LLMActiveModel;
  y_shared : shared; y_pool : list (pprog unit);
  (** the reconciles, each with the program it still has to run *)
  y_runs : list (kprog outcome);
}.

Inductive sys : list event -> system -> Prop :=
| sys_start : sys [] (mkSystem v0 (mkShared s0 (mkSwitches ∅ ∅)) [] [])
| sys_arrive tr vs sh pool runs t :
    sys tr (mkSystem vs sh pool runs) ->
    sys tr (mkSystem vs sh (pool ++ [task_prog acc plib fl unrouted p t]) runs)
| sys_proxy tr vs sh pool runs i X (e : pev X) k x sh' vs' :
    sys tr (mkSystem vs sh pool runs) -> pool !! i = Some (Vis e k) ->
    serves e x sh sh' -> proxy_api e x vs vs' ->
    sys (tr ++ [ByProxy i (Obs e x)]) (mkSystem vs' sh' (<[ i := k x ]> pool ++ spawned plib p e) runs)
| sys_enqueue tr vs sh pool runs ns name :
    sys tr (mkSystem vs sh pool runs) ->
    sys tr (mkSystem vs sh pool (runs ++ [Reconcile lib r ns name]))
| sys_operator tr vs sh pool runs j X (e : kev X) k x vs' :
    sys tr (mkSystem vs sh pool runs) -> runs !! j = Some (Vis e k) -> operator_api e x vs vs' ->
    sys (tr ++ [ByOperator j (Obs e x)]) (mkSystem vs' sh pool (<[ j := k x ]> runs))
(** a user creates a resource, or edits its spec: the status is a subresource *)
| sys_user tr vs sh pool runs a :
    sys tr (mkSystem vs sh pool runs) -> (fresh_status a \/ exists a0, a0 ∈ vs /\ a_status a = a_status a0) ->
    sys tr (mkSystem (vs ++ [a]) sh pool runs).

(** *** Projections *)

Lemma proxy_part_app tr tr' : proxy_part (tr ++ tr') = proxy_part tr ++ proxy_part tr'.
Proof. apply omap_app. Qed.
Lemma run_of_app j tr tr' : run_of j (tr ++ tr') = run_of j tr ++ run_of j tr'.
Proof. apply omap_app. Qed.
Lemma run_of_self j tr o : run_of j (tr ++ [ByOperator j o]) = run_of j tr ++ [o].
Proof. rewrite run_of_app. cbn. by rewrite decide_True. Qed.
Lemma run_of_other j tr ev : (forall o, ev <> ByOperator j o) -> run_of j (tr ++ [ev]) = run_of j tr.
Proof.
  intros H. rewrite run_of_app. destruct ev as [i o|j' o]; cbn; [by rewrite app_nil_r|].
  rewrite decide_False; [by rewrite app_nil_r|]. intros ->. by destruct (H o).
Qed.

(** What the proxy does here, it does in its own system. *)
Lemma sys_reach tr y : sys tr y -> reach acc plib fl unrouted p s0 (proxy_part tr) (y_shared y) (y_pool y).
Proof.
  induction 1; try done; cbn in *.
  - constructor.
  - by constructor.
  - rewrite proxy_part_app. by econstructor.
  - by rewrite proxy_part_app, app_nil_r.
Qed.

(** *** The invariant *)

(** Some reconcile wrote [model] as stable, after it had seen it served. *)
Definition published (tr : list event) (model : string) : Prop :=
  exists j t1 a x t2, run_of j tr = t1 ++ Obs (UpdateActiveStatus a) x :: t2
    /\ ast_modelName (a_status a) = model /\ ast_phase (a_status a) = ActiveModelPhaseStable
    /\ served_in t1 model.
Record sys_ok (tr : list event) (y : system) : Prop := {
  ok_runs : forall j q, y_runs y !! j = Some q -> exists ns name,
    rg (traced api_server (publishes ns name)) q (run_of j tr) (fun _ _ => True);
  ok_idle : forall j, (length (y_runs y) <= j)%nat -> run_of j tr = [];
  ok_reads : forall j ns name a, Obs (GetActive ns name) (Ok a) ∈ run_of j tr -> a ∈ y_versions y;
  ok_seen : forall i ns name obj, ByProxy i (Obs (PGetActive ns name) (Ok obj)) ∈ tr ->
    exists a, a ∈ y_versions y /\ presents a obj;
  ok_versions : forall a, a ∈ y_versions y -> ~ fresh_status a -> published tr (ast_modelName (a_status a));
}.

Lemma published_later tr ev model : published tr model -> published (tr ++ [ev]) model.
Proof.
  intros (j & t1 & a & x & t2 & Hr & H). exists j, t1, a, x, (t2 ++ run_of j [ev]).
  split; [|done]. by rewrite run_of_app, Hr, <- app_assoc.
Qed.
Lemma operator_api_server {X} (e : kev X) x vs vs' : operator_api e x vs vs' -> api_server X e x.
Proof. destruct e; cbn; try tauto. destruct x; [by intros [? _]|done]. Qed.
Lemma operator_api_versions {X} (e : kev X) x vs vs' :
  operator_api e x vs vs' ->
  vs' = vs \/ exists a a', active_write_of (Obs e x) = Some a /\ stored a a' /\ vs' = vs ++ [a'].
Proof. destruct e; cbn; try tauto. destruct x as [a'|]; [intros [? ->]; eauto 6|intros [->|(a' & ? & ->)]; eauto 6]. Qed.
Lemma proxy_api_versions {X} (e : pev X) x vs vs' a :
  proxy_api e x vs vs' -> a ∈ vs' -> a ∈ vs \/ exists a0, a0 ∈ vs /\ a_status a = a_status a0.
Proof.
  destruct e; cbn; try (by intros ->; auto); [by intros [-> _]; auto|]. unfold respecified.
  intros [(a0 & a1 & Hin & _ & _ & Hs & _ & ->)|[-> _]]; [|auto].
  intros [?| ->%list_elem_of_singleton]%elem_of_app; eauto.
Qed.
Lemma proxy_api_grows {X} (e : pev X) x vs vs' : proxy_api e x vs vs' -> vs ⊆ vs'.
Proof.
  destruct e; cbn; try (by intros ->); [by intros [-> _]|]. unfold respecified.
  intros [(a0 & a1 & _ & _ & _ & _ & _ & ->)|[-> _]]; set_solver.
Qed.

Lemma published_status tr (vs : list LLMActiveModel) a a0 :
  (forall a, a ∈ vs -> ~ fresh_status a -> published tr (ast_modelName (a_status a))) ->
  a0 ∈ vs -> a_status a = a_status a0 -> ~ fresh_status a -> published tr (ast_modelName (a_status a)).
Proof. unfold fresh_status. intros Hv Hin ->. by apply Hv. Qed.

(** The object a proxy event read. *)
Definition proxy_read {X} (e : pev X) : X -> option object :=
  match e in pev X return X -> option object with
  | PGetActive _ _ => fun x => match x with Ok obj => Some obj | Err _ => None end
  | _ => fun _ => None
  end.
Lemma proxy_read_inv i i' ns name obj X (e : pev X) x :
  ByProxy i' (Obs (PGetActive ns name) (Ok obj)) = ByProxy i (Obs e x) -> proxy_read e x = Some obj.
Proof.
  intros H. by apply (f_equal (fun ev => match ev with ByProxy _ o => proxy_read (obs_req o) (obs_reply o) | _ => None end)) in H.
Qed.
Definition operator_read {X} (e : kev X) : X -> option LLMActiveModel :=
  match e in kev X return X -> option LLMActiveModel with
  | GetActive _ _ => fun x => match x with Ok a => Some a | Err _ => None end
  | _ => fun _ => None
  end.

Section steps.
Context (tr : list event) (vs : list LLMActiveModel) (sh : shared) (pool : list (pprog unit)) (runs : list (kprog outcome)).
Context (Hok : sys_ok tr (mkSystem vs sh pool runs)).

Lemma ok_proxy_step i X (e : pev X) x sh' pool' vs' :
  proxy_api e x vs vs' -> sys_ok (tr ++ [ByProxy i (Obs e x)]) (mkSystem vs' sh' pool' runs).
Proof using Hok.
  destruct Hok as [Hr Hi Hrd Hsn Hv]; cbn in *. intros Hapi. pose proof (proxy_api_grows _ _ _ _ Hapi) as Hsub.
  assert (forall j, run_of j (tr ++ [ByProxy i (Obs e x)]) = run_of j tr) as He by (intros j; by apply run_of_other).
  split; cbn.
  - intros j q Hq. rewrite He. eauto.
  - intros j Hj. rewrite He. eauto.
  - intros j ns name a. rewrite He. intros H. eapply Hsub, Hrd, H.
  - intros i' ns name obj [Hin|Hin]%elem_of_app.
    { destruct (Hsn _ _ _ _ Hin) as (a & ? & ?). eauto. }
    apply list_elem_of_singleton in Hin. apply proxy_read_inv in Hin. destruct e; try done. destruct Hapi as [-> Ha].
    cbn in Hin. destruct x as [obj'|]; [|done]. injection Hin as <-. destruct Ha as (a & ? & _ & ?). eauto.
  - intros a Ha Hf. apply published_later. destruct (proxy_api_versions _ _ _ _ _ Hapi Ha) as [?|(a0 & ? & ?)]; [by apply Hv|].
    by eapply published_status.
Qed.

Lemma ok_operator_step j X (e : kev X) k x vs' :
  runs !! j = Some (Vis e k) -> operator_api e x vs vs' ->
  sys_ok (tr ++ [ByOperator j (Obs e x)]) (mkSystem vs' sh pool (<[ j := k x ]> runs)).
Proof using Hok.
  destruct Hok as [Hr Hi Hrd Hsn Hv]; cbn in *. intros Hj Hapi.
  destruct (Hr j _ Hj) as (ns & name & Hp & Hk).
  assert (vs ⊆ vs') as Hsub.
  { destruct (operator_api_versions _ _ _ _ Hapi) as [->|(? & ? & _ & _ & ->)]; set_solver. }
  split; cbn.
  - intros j' q. destruct (decide (j' = j)) as [->|Hne].
    + rewrite list_lookup_insert_eq by (by eapply lookup_lt_Some). intros [= <-]. exists ns, name.
      rewrite run_of_self. apply Hk. by eapply operator_api_server.
    + rewrite list_lookup_insert_ne by done. rewrite run_of_other by (intros ? [=]; done). apply Hr.
  - intros j'. rewrite length_insert. intros Hl. rewrite run_of_other; [by apply Hi|].
    intros o [= -> _]. apply lookup_lt_Some in Hj. lia.
  - intros j' ns' name' a. destruct (decide (j' = j)) as [->|Hne].
    + rewrite run_of_self. intros [Hin|Hin]%elem_of_app; [by eapply Hsub, Hrd|].
      apply list_elem_of_singleton in Hin. destruct e; try discriminate Hin.
      apply (f_equal (fun o => operator_read (obs_req o) (obs_reply o))) in Hin.
      cbn in Hin. destruct x as [a1|]; [|done]. injection Hin as <-. destruct Hapi as [-> Ha]. by apply Ha.
    + rewrite run_of_other by (intros ? [=]; done). intros Hin. by eapply Hsub, Hrd.
  - intros i ns' name' obj [Hin|Hin]%elem_of_app; [|by apply list_elem_of_singleton in Hin].
    destruct (Hsn _ _ _ _ Hin) as (a & ? & ?). eauto.
  - intros a Ha Hf. destruct (operator_api_versions _ _ _ _ Hapi) as [->|(aw & a' & Hw & Hs & ->)].
    { apply published_later. by apply Hv. }
    apply elem_of_app in Ha as [Ha| ->%list_elem_of_singleton]; [apply published_later; by apply Hv|].
    destruct e; try discriminate Hw. injection Hw as ->. unfold fresh_status in Hf.
    rewrite (stored_model _ _ Hs) in Hf |- *. destruct Hp as [(a0 & Hin & Hn)|[Hst Hsv]].
    + rewrite Hn in Hf |- *. apply published_later, Hv; [by eapply Hrd|done].
    + exists j, (run_of j tr), aw, x, []. split_and!; [by rewrite run_of_self|done..].
Qed.
End steps.

Lemma sys_inv tr y : Forall fresh_status v0 -> sys tr y -> sys_ok tr y.
Proof.
  intros H0. induction 1 as [|tr vs sh pool runs t H IH|tr vs sh pool runs i X e k x sh' vs' H IH Hi Hs Ha
    |tr vs sh pool runs ns name H IH|tr vs sh pool runs j X e k x vs' H IH Hj Ha|tr vs sh pool runs a H IH Ha].
  - split; cbn; try done; [by intros j ns name a ?%elem_of_nil|by intros i ns name obj ?%elem_of_nil|]. rewrite Forall_forall in H0. by intros a Hin%H0.
  - destruct IH as [Hr Hi Hrd Hsn Hv]. by split.
  - by eapply ok_proxy_step.
  - destruct IH as [Hr Hi Hrd Hsn Hv]. split; cbn in *; try done.
    + intros j q. rewrite lookup_app_Some. intros [Hq|[Hl Hq]]; [eauto|].
      apply list_lookup_singleton_Some in Hq as [_ <-]. exists ns, name. rewrite Hi by done. apply rg_Reconcile.
    + intros j. rewrite length_app. intros Hl. apply Hi. lia.
  - by eapply ok_operator_step.
  - destruct IH as [Hr Hi Hrd Hsn Hv]. split; cbn in *; try done.
    + intros * Hin. apply elem_of_app. left. by eapply Hrd.
    + intros * Hin. destruct (Hsn _ _ _ _ Hin) as (a1 & ? & ?). exists a1. split; [set_solver|done].
    + intros a' [Hin| ->%list_elem_of_singleton]%elem_of_app Hf; [by apply Hv|].
      destruct Ha as [?|(a0 & ? & ?)]; [done|]. by eapply published_status.
Qed.

Lemma sys_prefix tr tr' y : sys (tr ++ tr') y -> exists y', sys tr y'.
Proof.
  remember (tr ++ tr') as full eqn:Hf. intros H. revert tr' Hf.
  induction H; intros tr' Hf; try by eauto.
  - destruct tr; [|done]. eexists. constructor.
  - destruct tr' as [|ev tr' _] using rev_ind.
    + rewrite app_nil_r in Hf. subst. eexists. by eapply sys_proxy.
    + rewrite app_assoc in Hf. apply app_inj_tail in Hf as [-> _]. eauto.
  - destruct tr' as [|ev tr' _] using rev_ind.
    + rewrite app_nil_r in Hf. subst. eexists. by eapply sys_operator.
    + rewrite app_assoc in Hf. apply app_inj_tail in Hf as [-> _]. eauto.
Qed.
Lemma proxy_part_elem tr i o : (i, o) ∈ proxy_part tr -> ByProxy i o ∈ tr.
Proof. intros ([i' o'|j o'] & Hin & Hev)%list_elem_of_omap; [|done]. by simplify_eq. Qed.
End system.
