(* ===== verification/EndToEndProps.v ===== *)
(** * End to end: what a forwarded request rests on

    The theorem about the proxy and the operator together, and a run of the whole system
    in which a user creates the LLMActiveModel, the operator brings the model up and the
    proxy forwards a request for it. *)

From S2P Require Import Prelude GoStrings Types Effects Api Driver Workload CacheClient ActiveModel Protocol ActiveModelProps Samples Json ProxyApi ProxyCatalog ProxyRuntime ProxySwitch ProxyServe ProxyMetrics ProxyInvariant ProxyContract ProxyPool ProxyPoolProps ProxySamples ProxyTheorems EndToEnd.

(** C3: end to end, a client's request only reaches a runtime that was seen to serve its
    model.  Whenever the proxy forwards a body that names a model (also one an overlay
    rewrote), however its goroutines, the operator's reconciles and users' edits
    interleave and however stale the reads are, some reconcile had before that looked up
    this model and its backend, observed the backend's Deployment rolled out, got a 200
    from the runtime's health endpoint, changed no Deployment in between or since, and
    then written the model as stable. *)
Theorem forwarded_model_was_served acc plib fl unrouted p s0 lib r v0
    (getenv : string -> string) (parseDuration : string -> result Z) (file : result string)
    tr y n i backend method path body reply m :
  start plib getenv parseDuration file = Ok (p, s0) -> model_codec plib -> Forall fresh_status v0 ->
  sys acc plib fl unrouted p s0 lib r v0 tr y ->
  tr !! n = Some (ByProxy i (Obs (PForward backend method path (Some body)) reply)) ->
  decodeModelField plib body = Ok m -> m <> "" ->
  published (take n tr) m.
Proof.
  intros Hst Hcodec H0 Hs Hn Hd Hm. pose proof (sys_reach _ _ _ _ _ _ _ _ _ _ _ Hs) as Hr.
  rewrite <- (take_drop_middle _ _ _ Hn) in Hs, Hr. apply sys_prefix in Hs as [y' Hs].
  rewrite proxy_part_app in Hr.
  destruct (forward_told acc plib fl unrouted getenv parseDuration file p s0 Hst Hcodec _ _ _
    (length (proxy_part (take n tr))) i backend method path body reply m Hr) as (k & _ & ns & name & obj & Hk & Hstable);
    [by rewrite lookup_app_r, Nat.sub_diag|done|done|].
  rewrite take_app_length in Hk. apply proxy_part_elem in Hk.
  pose proof (sys_inv _ _ _ _ _ _ _ _ _ _ _ H0 Hs) as [_ _ _ Hseen Hv].
  destruct (Hseen _ _ _ _ Hk) as (a & Ha & _ & Hmodel & _).
  unfold is_stable in Hstable. apply andb_true_iff in Hstable as [Hstable%bool_decide_eq_true _].
  rewrite Hstable in Hmodel. subst m. rewrite Hmodel in Hm |- *. by apply Hv.
Qed.

(** ** A run of the system *)

(** The latest version of a resource. *)
Definition latest (ns name : string) (vs : list LLMActiveModel) : option LLMActiveModel :=
  List.find (fun a => (Namespace (a_meta a) == ns) && (Name (a_meta a) == name)) (rev vs).
Lemma latest_spec ns name vs a : latest ns name vs = Some a -> a ∈ vs /\ keyed ns name a.
Proof.
  intros [Hin Hk]%find_some. rewrite <- in_rev in Hin. apply list_elem_of_In in Hin.
  apply andb_true_iff in Hk as [H1%bool_decide_eq_true H2%bool_decide_eq_true]. done.
Qed.

(** The JSON of a resource, as far as the proxy reads it. *)
Definition encoded (a : LLMActiveModel) : object := {[
  "spec" := JObject {[ "modelName" := JString (a_specModel a) ]};
  "status" := JObject {[ "modelName" := JString (ast_modelName (a_status a));
                         "phase" := JString (phase_text (ast_phase (a_status a))) ]} ]}.
Lemma encoded_presents a : presents plain_nested a (encoded a).
Proof. unfold presents, read_transition. by vm_compute. Qed.

(** An API server that always answers with the latest version and carries out what it
    is asked to. *)
Definition operator_reply {X} (e : kev X) (vs : list LLMActiveModel) : X * list LLMActiveModel :=
  match e in kev X return X * _ with
  | GetActive ns name => (match latest ns name vs with Some a => Ok a | None => Err not_found end, vs)
  | ListActive ns => (Ok (option_list (latest ns "default" vs)), vs)
  | UpdateActiveStatus a => (Ok a, vs ++ [a])
  | e => ((cluster _ e tt).1, vs)
  end.
Definition laguna_object : unstructured := mkUnstructured "laguna" 0 {[
  "spec" := JObject {[
    "model" := JObject {[ "name" := JString "poolside/laguna"; "source" := JString "/models/laguna/laguna.gguf" ]};
    "serving" := JObject {[ "backend" := JString "llama-cpp"; "displayName" := JString "Laguna";
                            "maxModelLen" := JNumber "32768"; "args" := jstrings ["--parallel"; "2"] ]} ]} ]}.
Definition proxy_reply (n : nat) {X} (e : pev X) (vs : list LLMActiveModel) : X * list LLMActiveModel :=
  match e in pev X return X * _ with
  | PGetActive ns name => (match latest ns name vs with Some a => Ok (encoded a) | None => Err not_found end, vs)
  | PPatchActive ns name model =>
      match latest ns name vs with
      | Some a => (Ok tt, vs ++ [mkActive (a_meta a) model (a_status a)])
      | None => (Err not_found, vs)
      end
  | PListModels _ => (Ok [laguna_object], vs)
  | PListOverlays _ => (Ok [], vs)
  | PGetDeployment _ name =>
      (Ok (annotated name "poolside/laguna" (if name == "llm-laguna" then 1 else 0)), vs)
  | e => (plain_services plain_state 0 n _ e, vs)
  end.

Lemma operator_reply_api {X} (e : kev X) vs : operator_api e (operator_reply e vs).1 vs (operator_reply e vs).2.
Proof.
  destruct e; cbn; try done.
  - split; [done|]. intros a. destruct (latest _ _ _) eqn:El; [|done]. intros [= <-]. by apply latest_spec.
  - split; [done|]. intros items [= <-]. destruct (latest _ _ _) eqn:El; cbn; [|by apply list_subseteq_nil].
    apply latest_spec in El as [? _]. set_solver.
  - case_bool_decide; split; done.
Qed.
Lemma proxy_reply_api n {X} (e : pev X) vs x sh sh' :
  respond e sh (proxy_reply n e vs).1 = Some (x, sh') ->
  proxy_api plain_nested e x vs (proxy_reply n e vs).2.
Proof.
  destruct e; cbn; try done.
  - intros [= <- <-]. split; [done|]. destruct (latest _ _ _) as [a|] eqn:El; [|done].
    apply latest_spec in El as [? ?]. exists a. split_and!; [done..|apply encoded_presents].
  - intros [= <- <-]. destruct (latest _ _ _) as [a|] eqn:El; [left|by right].
    apply latest_spec in El as [? [? ?]]. by exists a, (mkActive (a_meta a) model (a_status a)).
Qed.

Inductive move :=
| Arrives (t : task)
| Runs (i : nat)
| Enqueues (ns name : string)
| Reconciles (j : nat)
| Creates (a : LLMActiveModel).

Abbreviation sample_sys := (sys plain_nested plain_lib plain_floats plain_unrouted plain_proxy plain_state
  sample_lib sample_reconciler []).
Definition play_one (cfg : list event * system) (mv : move) : list event * system :=
  let '(tr, y) := cfg in
  let '(mkSystem vs sh pool runs) := y in
  match mv with
  | Arrives t => (tr, mkSystem vs sh
      (pool ++ [task_prog plain_nested plain_lib plain_floats plain_unrouted plain_proxy t]) runs)
  | Runs i =>
      match pool !! i with
      | Some (Vis e k) =>
          let '(d, vs') := proxy_reply (length tr) e vs in
          match respond e sh d with
          | Some (x, sh') => (tr ++ [ByProxy i (Obs e x)],
              mkSystem vs' sh' (<[ i := k x ]> pool ++ spawned plain_lib plain_proxy e) runs)
          | None => cfg
          end
      | _ => cfg
      end
  | Enqueues ns name => (tr, mkSystem vs sh pool (runs ++ [Reconcile sample_lib sample_reconciler ns name]))
  | Reconciles j =>
      match runs !! j with
      | Some (Vis e k) =>
          let '(x, vs') := operator_reply e vs in
          (tr ++ [ByOperator j (Obs e x)], mkSystem vs' sh pool (<[ j := k x ]> runs))
      | _ => cfg
      end
  | Creates a => if ast_modelName (a_status a) == "" then (tr, mkSystem (vs ++ [a]) sh pool runs) else cfg
  end.
Definition play (script : list move) : list event * system :=
  fold_left play_one script ([], mkSystem [] (mkShared plain_state (mkSwitches ∅ ∅)) [] []).

Lemma play_sys script : sample_sys (play script).1 (play script).2.
Proof.
  unfold play. induction script as [|mv script IH] using rev_ind; [constructor|].
  rewrite fold_left_app. cbn [fold_left]. destruct (fold_left _ _ _) as [tr [vs sh pool runs]]. cbn [fst snd] in IH.
  unfold play_one. destruct mv as [t|i|ns name|j|a]; cbn [fst snd].
  - by constructor.
  - destruct (pool !! i) as [[|X e k]|] eqn:Ei; [done| |done].
    pose proof (proxy_reply_api (length tr) e vs) as Hapi.
    destruct (proxy_reply (length tr) e vs) as [d vs']. cbn [fst snd] in Hapi.
    destruct (respond e sh d) as [[x sh']|] eqn:Er; [|done].
    eapply sys_proxy; [done..| |by eapply Hapi]. by eapply respond_serves.
  - by constructor.
  - destruct (runs !! j) as [[|X e k]|] eqn:Ej; [done| |done].
    pose proof (operator_reply_api e vs) as Hapi. destruct (operator_reply e vs) as [x vs'].
    by eapply sys_operator.
  - case_bool_decide; [|done]. cbn [fst snd]. apply sys_user; [done|by left].
Qed.

(** A user asks for laguna; a reconcile brings it up; the proxy loads its catalogue and
    serves a request for laguna. *)
Definition asked : LLMActiveModel := mkActive (sample_meta "default" 2) "poolside/laguna"
  (mkActiveStatus "" BackendVLLM ActiveModelPhaseNone "" None None 0 [] 0).
Definition day : list event * system := play (
  [Creates asked; Enqueues "llm" "default"] ++ replicate 60 (Reconciles 0)
  ++ Arrives InitialRefresh :: replicate 30 (Runs 0)
  ++ Arrives (Request (chat "poolside/laguna")) :: replicate 30 (Runs 1)).

Lemma forwarded_model_was_served_witness :
  day.1 !! 81%nat = Some (ByProxy 1 (Obs (PForward (Some "http://llm-laguna:8000") "POST" "/v1/chat/completions"
    (Some "poolside/laguna")) ([WHeader 200; WBytes 5 81], None)))
  /\ published (take 81 day.1) "poolside/laguna".
Proof.
  assert (day.1 !! 81%nat = Some (ByProxy 1 (Obs (PForward (Some "http://llm-laguna:8000") "POST"
    "/v1/chat/completions" (Some "poolside/laguna")) ([WHeader 200; WBytes 5 81], None)))) as H by (by vm_compute).
  split; [exact H|].
  apply (forwarded_model_was_served plain_nested plain_lib plain_floats plain_unrouted plain_proxy plain_state
    sample_lib sample_reconciler [] no_env no_duration (Ok "llm") day.1 day.2 81 1 _ _ _ "poolside/laguna" _
    "poolside/laguna" plain_started plain_codec (Forall_nil_2 _) (play_sys _) H); [reflexivity|discriminate].
Defined.
